(** * Wallet snapshot store, reconciliation, provisioning, recovery and the
      trading cycle of the Solana volume bot

    Shallow embedding of
      - class BackupManager  (src/services/BackupManager.ts): snapshot
        store and reconciler,
      - class WalletManager  (it follows BackupManager in the same source
        file): provisioner and recovery engine,
      - class LicenseManager (src/services/LicenseManager.ts): credential
        gate,
      - class TradingBot     (src/services/TradingBot.ts): cycle
        orchestrator.

    Conventions.
      - JavaScript numbers that hold epoch milliseconds, counts and slot
        indices are [Z]; SOL amounts are exact rationals [Q] (rounding of
        IEEE doubles is not modelled).  A date value accepted by [new Date]
        is represented by its epoch milliseconds, so
        [new Date(x).getTime()] is [x].
      - [undefined] is [None]; a number is truthy when it is not [0].
      - An exception is the [Throw] constructor of [Result]; [try]/[catch]
        is a [match] on it.
      - The file system, the clock, the key generator and the network are
        oracles: the environment [Env] answers the n-th question of each
        kind, the [World] counts the questions asked so far and records the
        observable effects in order.
      - The [files] of the [World] are those of the backup directory, known
        by their names; paths are written relative to [process.cwd()]. *)

From Stdlib Require Import List ZArith QArith Qround String Ascii Bool Lia.
From Stdlib Require Import Permutation Sorted DecimalString.
From Stdlib Require Import Lqa.
Import ListNotations.

Set Implicit Arguments.

(* ================================================================== *)
(** * JavaScript array and string primitives used by the services *)
(* ================================================================== *)

Module JS.

Section Arrays.
Context {A : Type}.

(** [Array.prototype.findIndex]: index of the first element that
    satisfies [p], [-1] when there is none. *)
Fixpoint findIndex_from (p : A -> bool) (l : list A) (i : Z) : Z :=
  match l with
  | [] => (-1)%Z
  | x :: r => if p x then i else findIndex_from p r (i + 1)%Z
  end.

Definition findIndex (p : A -> bool) (l : list A) : Z :=
  findIndex_from p l 0%Z.

(** [Array.prototype.filter] with the full callback signature
    [(element, index, array)]. *)
Fixpoint filter_from (f : A -> Z -> bool) (l : list A) (i : Z) : list A :=
  match l with
  | [] => []
  | x :: r =>
      if f x i then x :: filter_from f r (i + 1)%Z
      else filter_from f r (i + 1)%Z
  end.

Definition filter (f : A -> Z -> list A -> bool) (l : list A) : list A :=
  filter_from (fun x i => f x i l) l 0%Z.

(** [array.slice(0, c)]: a negative [c] counts from the end. *)
Definition slice0 (c : Z) (l : list A) : list A :=
  if (0 <=? c)%Z then firstn (Z.to_nat c) l
  else firstn (Z.to_nat (Z.of_nat (List.length l) + c)) l.

(** [Array.prototype.sort(cmp)]: the sort is stable, [a] stays before
    [b] unless [cmp a b > 0].  Written as a stable insertion sort. *)
Fixpoint sort_insert (cmp : A -> A -> Z) (x : A) (l : list A) : list A :=
  match l with
  | [] => [x]
  | y :: r =>
      if (0 <? cmp x y)%Z then y :: sort_insert cmp x r
      else x :: y :: r
  end.

Definition sort (cmp : A -> A -> Z) (l : list A) : list A :=
  fold_right (sort_insert cmp) [] l.

(** [array[i]] read as a boolean condition: out of range is
    [undefined], hence falsy. *)
Definition truthy_at (l : list bool) (i : nat) : bool := nth i l false.
End Arrays.

(** [s.startsWith(p)] and [s.endsWith(p)]. *)
Definition startsWith (s p : string) : bool := String.prefix p s.

Definition endsWith (s p : string) : bool :=
  (String.length p <=? String.length s)%nat
  && String.eqb
       (String.substring (String.length s - String.length p)
                         (String.length p) s) p.

(** Decimal rendering of an integer inside a template string. *)
Definition string_of_Z (z : Z) : string :=
  NilZero.string_of_int (Z.to_int z).

(** Truthiness of an optional number and of an optional or plain string. *)
Definition truthyZ (o : option Z) : bool :=
  match o with Some z => negb (z =? 0)%Z | None => false end.

Definition truthyS (s : string) : bool := negb (String.eqb s "").

Definition truthyOS (o : option string) : bool :=
  match o with Some s => truthyS s | None => false end.

End JS.

(** Outcome of a call that may throw. *)
Inductive Result (A : Type) : Type :=
| Ok (a : A)
| Throw (message : string).
Arguments Ok {A} a.
Arguments Throw {A} message.

(* ================================================================== *)
(** * The environment and the world *)
(* ================================================================== *)

(** A stored sub-wallet entry (element of [WalletBackup.subWallets]).
    [createdAt] and [index] can be missing in legacy files. *)
Record SubWallet := {
  sw_publicKey  : string;
  sw_privateKey : string;
  sw_createdAt  : option Z;
  sw_index      : option Z
}.

(** The [mainWallet] object of a snapshot. *)
Record MainWallet := {
  mw_publicKey  : string;
  mw_privateKey : string;
  mw_createdAt  : option Z
}.

(** The value found under the key [mainWallet]: missing (or any falsy
    value), an object, or a truthy value that is not an object. *)
Inductive MainValue :=
| MainUndefined
| MainObject (m : MainWallet)
| MainOther.

Record Metadata := {
  md_version      : string;
  md_createdBy    : string;
  md_totalWallets : Z
}.

(** What [JSON.parse] yields for a stored file, as far as the code looks
    at it.  A missing [subWallets] array is the empty list (the legacy
    branch reads it through [|| []]). *)
Record RawBackup := {
  raw_metadata   : option Metadata;
  raw_version    : option string;
  raw_timestamp  : option Z;
  raw_createdAt  : option Z;
  raw_mainWallet : MainValue;
  raw_subWallets : list SubWallet
}.

(** interface WalletBackup *)
Record WalletBackup := {
  timestamp  : Z;
  mainWallet : MainValue;
  subWallets : list SubWallet;
  metadata   : option Metadata
}.

(** interface BackupFile *)
Record BackupFile := {
  filename     : string;
  path         : string;
  bf_timestamp : Z;
  data         : WalletBackup
}.

(** Effects observable from outside, in the order they happen. *)
Inductive NetCall :=
| NetSellTokens (publicKey : string)
| NetGetBalance (publicKey : string)
| NetGetBlockhash
| NetSendTransfer (fromKey : string) (amount : Q)
| NetConfirm (signature : string)
| NetDistribute (addresses : list string) (amountPerWallet : Q)
| NetBuy (publicKey : string) (amount : Q)
| NetSell (publicKey : string).

Inductive Effect :=
| Emit (event : string)
| Log (level message : string)
| Net (call : NetCall)
| FileWritten (name : string)
| Scheduled (task : string).

(** The oracles: the n-th reading of the clock, the n-th generated
    keypair (public key, secret key), whether the n-th [fs.writeFile]
    succeeds, and the pure library functions the services call. *)
Record Env := {
  clock         : nat -> Z;
  keygen        : nat -> string * string;
  write_ok      : nat -> bool;
  (** [Keypair.fromSecretKey(bs58.decode(k))]: the public key, [None]
      when the string is not a well-formed secret key (the call throws). *)
  fromSecretKey : string -> option string;
  (** [crypto.createHmac('sha256', key).update(data).digest('base64')] *)
  hmac_sha256   : string -> string -> string;
  (** [JSON.parse(Buffer.from(p, 'base64').toString())]: [None] when it
      throws, otherwise the [exp] field of the payload if it has one. *)
  parse_payload : string -> option (option Z);
  (** [new PublicKey(s)] succeeds. *)
  isPublicKey   : string -> bool
}.

(** The directory [wallet-backups] in [readdir] order ([None]: the file
    cannot be read or parsed), and the counters of the oracles. *)
Record World := {
  files  : list (string * option RawBackup);
  ticks  : nat;
  minted : nat;
  writes : nat;
  trace  : list Effect
}.

(** Computations over a state [S] that may throw; the state reached when
    the exception is raised is kept, as a [catch] block sees it. *)
Definition M (S A : Type) : Type := S -> Result A * S.

Definition ret {S A} (a : A) : M S A := fun s => (Ok a, s).

Definition throw {S A} (msg : string) : M S A := fun s => (Throw msg, s).

Definition bind {S A B} (m : M S A) (k : A -> M S B) : M S B :=
  fun s =>
    match m s with
    | (Ok a, s') => k a s'
    | (Throw msg, s') => (Throw msg, s')
    end.

(** [try m catch (error) { h error.message }] *)
Definition try_catch {S A} (m : M S A) (h : string -> M S A) : M S A :=
  fun s =>
    match m s with
    | (Ok a, s') => (Ok a, s')
    | (Throw msg, s') => h msg s'
    end.

(** A [try] whose [catch] block returns normally: the call cannot throw. *)
Definition try_total {S A} (m : M S A) (h : string -> S -> A * S) : S -> A * S :=
  fun s =>
    match m s with
    | (Ok a, s') => (a, s')
    | (Throw msg, s') => h msg s'
    end.

(** A call that cannot throw, used inside a block that can. *)
Definition total {S A} (f : S -> A * S) : M S A :=
  fun s => let (a, s') := f s in (Ok a, s').

Definition get {S} : M S S := fun s => (Ok s, s).

Definition modify {S} (f : S -> S) : M S unit := fun s => (Ok tt, f s).

Declare Scope js_scope.
Delimit Scope js_scope with js.
Notation "x <- m ;; k" := (bind m (fun x => k))
  (at level 61, m at next level, right associativity) : js_scope.
Notation "m ;;; k" := (bind m (fun _ => k))
  (at level 61, right associativity) : js_scope.
Open Scope js_scope.

(** [Date.now()] *)
Definition date_now (e : Env) : M World Z :=
  fun w =>
    (Ok (clock e (ticks w)),
     {| files := files w; ticks := S (ticks w); minted := minted w;
        writes := writes w; trace := trace w |}).

(** [Keypair.generate()] *)
Definition keypair_generate (e : Env) : M World (string * string) :=
  fun w =>
    (Ok (keygen e (minted w)),
     {| files := files w; ticks := ticks w; minted := S (minted w);
        writes := writes w; trace := trace w |}).

Definition effect (x : Effect) : M World unit :=
  fun w =>
    (Ok tt,
     {| files := files w; ticks := ticks w; minted := minted w;
        writes := writes w; trace := trace w ++ [x] |}).

(** [fs.writeFile(path, content)]: replaces the file of that name or
    adds it to the directory; a failed write leaves the directory as it
    was and throws. *)
Fixpoint put_file (name : string) (c : option RawBackup)
         (fs : list (string * option RawBackup))
  : list (string * option RawBackup) :=
  match fs with
  | [] => [(name, c)]
  | (n, c') :: r =>
      if String.eqb n name then (n, c) :: r else (n, c') :: put_file name c r
  end.

Definition fs_writeFile (e : Env) (name : string) (c : RawBackup)
  : M World unit :=
  fun w =>
    if write_ok e (writes w) then
      (Ok tt,
       {| files := put_file name (Some c) (files w); ticks := ticks w;
          minted := minted w; writes := S (writes w);
          trace := trace w ++ [FileWritten name] |})
    else
      (Throw "EIO",
       {| files := files w; ticks := ticks w; minted := minted w;
          writes := S (writes w); trace := trace w |}).

(* ================================================================== *)
(** * BackupManager *)
(* ================================================================== *)

Module BackupManager.

Definition placeholderPublicKey : string :=
  "9q36V4YA4wNbywXzttshrKfAursbwVUv5F4zHZ1DbTFs".

Definition placeholderPrivateKey : string :=
  "REPLACE_WITH_YOUR_MAIN_WALLET_PRIVATE_KEY_HERE".

Definition truthyMain (m : MainValue) : bool :=
  match m with MainUndefined => false | _ => true end.

Definition isSome {A} (o : option A) : bool :=
  match o with Some _ => true | None => false end.

(** [this.backupDir] and [path.join(this.backupDir, filename)]; paths
    are written relative to [process.cwd()]. *)
Definition backupDir : string := "wallet-backups".

Definition path_join (dir filename : string) : string :=
  (dir ++ "/" ++ filename)%string.

(** [createBackup(walletData)]: the result is the path of the file
    written. *)
Definition createBackup (e : Env) (main : MainValue) (subs : list SubWallet)
  : M World string :=
  timestamp <- date_now e ;;
  let backup :=
    {| raw_metadata :=
         Some {| md_version := "1.0.0";
                 md_createdBy := "solana-volume-bot";
                 md_totalWallets :=
                   ((if truthyMain main then 1 else 0)
                    + Z.of_nat (List.length subs))%Z |};
       raw_version := None;
       raw_timestamp := Some timestamp;
       raw_createdAt := None;
       raw_mainWallet := main;
       raw_subWallets := subs |} in
  let filename := ("wallets-" ++ JS.string_of_Z timestamp ++ ".json")%string in
  let filepath := path_join backupDir filename in
  try_catch
    (fs_writeFile e filename backup ;;;
     effect (Emit "backup-created") ;;;
     ret filepath)
    (fun errorMessage =>
       throw ("Failed to create wallet backup: " ++ errorMessage)%string).

(** [normalizeBackupFormat(rawBackup, filename)] *)
Definition normalizeBackupFormat (e : Env) (rawBackup : RawBackup)
  : M World WalletBackup :=
  if isSome (raw_metadata rawBackup)
     && JS.truthyZ (raw_timestamp rawBackup)
     && truthyMain (raw_mainWallet rawBackup)
  then
    ret {| timestamp := match raw_timestamp rawBackup with
                        | Some t => t | None => 0%Z end;
           mainWallet := raw_mainWallet rawBackup;
           subWallets := raw_subWallets rawBackup;
           metadata := raw_metadata rawBackup |}
  else
    timestamp <-
      (if JS.truthyZ (raw_timestamp rawBackup)
          || JS.truthyZ (raw_createdAt rawBackup)
       then
         ret (if JS.truthyZ (raw_createdAt rawBackup)
              then match raw_createdAt rawBackup with
                   | Some t => t | None => 0%Z end
              else match raw_timestamp rawBackup with
                   | Some t => t | None => 0%Z end)
       else date_now e) ;;
    let mainWallet :=
      match raw_mainWallet rawBackup with
      | MainObject m =>
          MainObject
            {| mw_publicKey := mw_publicKey m;
               mw_privateKey := mw_privateKey m;
               mw_createdAt :=
                 Some (if JS.truthyZ (mw_createdAt m)
                       then match mw_createdAt m with
                            | Some t => t | None => 0%Z end
                       else timestamp) |}
      | MainUndefined =>
          MainObject
            {| mw_publicKey := placeholderPublicKey;
               mw_privateKey := placeholderPrivateKey;
               mw_createdAt := Some timestamp |}
      | MainOther => MainUndefined
      end in
    let subWallets :=
      map (fun '(index, wallet) =>
             {| sw_publicKey := sw_publicKey wallet;
                sw_privateKey := sw_privateKey wallet;
                sw_createdAt :=
                  Some (if JS.truthyZ (sw_createdAt wallet)
                        then match sw_createdAt wallet with
                             | Some t => t | None => 0%Z end
                        else timestamp);
                sw_index :=
                  Some (match sw_index wallet with
                        | Some i => i
                        | None => Z.of_nat index
                        end) |})
          (combine (seq 0 (List.length (raw_subWallets rawBackup)))
                   (raw_subWallets rawBackup)) in
    ret {| timestamp := timestamp;
           mainWallet := mainWallet;
           subWallets := subWallets;
           metadata :=
             Some {| md_version :=
                       match raw_version rawBackup with
                       | Some v => if JS.truthyS v then v else "1.0.0"
                       | None => "1.0.0"
                       end;
                     md_createdBy := "solana-volume-bot";
                     md_totalWallets :=
                       ((if truthyMain mainWallet then 1 else 0)
                        + Z.of_nat (List.length subWallets))%Z |} |}.

(** The loop of [getBackupFiles] over the directory listing: files with
    another name are ignored, a file that cannot be read or parsed is
    logged and skipped. *)
Fixpoint readBackupFiles (e : Env) (dir : list (string * option RawBackup))
  : M World (list BackupFile) :=
  match dir with
  | [] => ret []
  | (filename, content) :: rest =>
      if JS.startsWith filename "wallets-" && JS.endsWith filename ".json"
      then
        match content with
        | Some rawBackup =>
            backup <- normalizeBackupFormat e rawBackup ;;
            backupFiles <- readBackupFiles e rest ;;
            ret ({| filename := filename;
                    path := path_join backupDir filename;
                    bf_timestamp := timestamp backup;
                    data := backup |} :: backupFiles)
        | None => readBackupFiles e rest
        end
      else readBackupFiles e rest
  end.

(** [getBackupFiles()]: newest first. *)
Definition getBackupFiles (e : Env) : M World (list BackupFile) :=
  fun w =>
    (backupFiles <- readBackupFiles e (files w) ;;
     ret (JS.sort (fun a b => (bf_timestamp b - bf_timestamp a)%Z)
                  backupFiles)) w.

(** An element of the reconciled view: the wallet's own fields and its
    provenance.  A main wallet that is not an object has no fields of its
    own to spread. *)
Record TaggedSub := {
  ts_wallet     : SubWallet;
  ts_backupFile : string;
  ts_timestamp  : Z
}.

Record TaggedMain := {
  tm_wallet     : option MainWallet;
  tm_backupFile : string;
  tm_timestamp  : Z
}.

Definition ts_publicKey (t : TaggedSub) : string := sw_publicKey (ts_wallet t).

Definition tm_publicKey (t : TaggedMain) : option string :=
  option_map mw_publicKey (tm_wallet t).

Definition eqb_ostring (a b : option string) : bool :=
  match a, b with
  | Some x, Some y => String.eqb x y
  | None, None => true
  | _, _ => false
  end.

Record Reconciled := {
  mainWallets : list TaggedMain;
  subWalletsR : list TaggedSub
}.

(** The two pushes of the loop body of [getAllWalletsFromBackups]. *)
Definition mainsOf (backupFile : BackupFile) : list TaggedMain :=
  match mainWallet (data backupFile) with
  | MainUndefined => []
  | MainObject m =>
      [{| tm_wallet := Some m; tm_backupFile := filename backupFile;
          tm_timestamp := bf_timestamp backupFile |}]
  | MainOther =>
      [{| tm_wallet := None; tm_backupFile := filename backupFile;
          tm_timestamp := bf_timestamp backupFile |}]
  end.

Definition subsOf (backupFile : BackupFile) : list TaggedSub :=
  map (fun subWallet =>
         {| ts_wallet := subWallet; ts_backupFile := filename backupFile;
            ts_timestamp := bf_timestamp backupFile |})
      (subWallets (data backupFile)).

(** The deduplicating filters: keep an element when it is the first one
    with its public key. *)
Definition uniqueSub (subWallets : list TaggedSub) : list TaggedSub :=
  JS.filter
    (fun wallet index array =>
       (JS.findIndex
          (fun w => String.eqb (ts_publicKey w) (ts_publicKey wallet)) array
        =? index)%Z)
    subWallets.

Definition uniqueMain (mainWallets : list TaggedMain) : list TaggedMain :=
  JS.filter
    (fun wallet index array =>
       (JS.findIndex
          (fun w => eqb_ostring (tm_publicKey w) (tm_publicKey wallet)) array
        =? index)%Z)
    mainWallets.

Definition reconcile (backupFiles : list BackupFile) : Reconciled :=
  {| mainWallets := uniqueMain (flat_map mainsOf backupFiles);
     subWalletsR := uniqueSub (flat_map subsOf backupFiles) |}.

(** [getAllWalletsFromBackups()] *)
Definition getAllWalletsFromBackups (e : Env) : M World Reconciled :=
  backupFiles <- getBackupFiles e ;;
  ret (reconcile backupFiles).

(** [updateBackupWithNewWallets(existingWallets, newWallets)] *)
Definition updateBackupWithNewWallets (e : Env)
           (existingWallets newWallets : list SubWallet) : M World string :=
  let allWallets := existingWallets ++ newWallets in
  createBackup e MainUndefined allWallets.

(** [getLatestBackup()] *)
Definition getLatestBackup (e : Env) : M World (option BackupFile) :=
  backupFiles <- getBackupFiles e ;;
  ret (match backupFiles with
       | latest :: _ => Some latest
       | [] => None
       end).

End BackupManager.

(* ================================================================== *)
(** * WalletManager *)
(* ================================================================== *)

Module WalletManager.

(** interface WalletInfo *)
Record WalletInfo := {
  publicKey  : string;
  privateKey : string;
  balance    : Q;
  createdAt  : option Z;
  backupFile : option string;
  index      : option Z
}.

(** A main wallet as [getAllWallets] reports it; the fields of a main
    wallet that was not an object are [undefined]. *)
Record MainInfo := {
  mi_publicKey  : option string;
  mi_privateKey : option string;
  mi_createdAt  : option Z;
  mi_backupFile : string
}.

Record CreateResult := {
  success : bool;
  wallets : option (list WalletInfo);
  error   : option string
}.

(** The minting loop of [createSubWallets]:
    [for (let i = 0; i < walletsToCreate; i++)], [n] iterations left. *)
Fixpoint mintWallets (e : Env) (currentSubWalletCount : Z) (n : nat) (i : Z)
  : M World (list SubWallet) :=
  match n with
  | O => ret []
  | S n' =>
      keypair <- keypair_generate e ;;
      now <- date_now e ;;
      let wallet :=
        {| sw_publicKey := fst keypair;
           sw_privateKey := snd keypair;
           sw_createdAt := Some now;
           sw_index := Some (currentSubWalletCount + i)%Z |} in
      newWallets <- mintWallets e currentSubWalletCount n' (i + 1)%Z ;;
      ret (wallet :: newWallets)
  end.

(** [createSubWallets(count)].  The existing entries handed to
    [updateBackupWithNewWallets] carry their provenance as two extra
    properties; no reader of a stored file looks at them. *)
Definition createSubWallets (e : Env) (count : Z)
  : World -> CreateResult * World :=
  try_total
    (existingWallets <- BackupManager.getAllWalletsFromBackups e ;;
     let existing := BackupManager.subWalletsR existingWallets in
     let currentSubWalletCount := Z.of_nat (List.length existing) in
     if (count <=? currentSubWalletCount)%Z then
       let selectedWallets :=
         map (fun wallet =>
                {| publicKey := BackupManager.ts_publicKey wallet;
                   privateKey := sw_privateKey (BackupManager.ts_wallet wallet);
                   balance := 0;
                   createdAt := sw_createdAt (BackupManager.ts_wallet wallet);
                   backupFile := Some (BackupManager.ts_backupFile wallet);
                   index := sw_index (BackupManager.ts_wallet wallet) |})
             (JS.slice0 count existing) in
       ret {| success := true; wallets := Some selectedWallets;
              error := None |}
     else
       let walletsToCreate := (count - currentSubWalletCount)%Z in
       newWallets <-
         mintWallets e currentSubWalletCount (Z.to_nat walletsToCreate) 0%Z ;;
       BackupManager.updateBackupWithNewWallets e
         (map BackupManager.ts_wallet existing) newWallets ;;;
       let allSubWallets :=
         map (fun wallet =>
                {| publicKey := sw_publicKey wallet;
                   privateKey := sw_privateKey wallet;
                   balance := 0;
                   createdAt := sw_createdAt wallet;
                   backupFile := None;
                   index := sw_index wallet |})
             (JS.slice0 count
                (map BackupManager.ts_wallet existing ++ newWallets)) in
       effect (Emit "wallet-update") ;;;
       ret {| success := true; wallets := Some allSubWallets;
              error := None |})
    (fun errorMessage w =>
       ({| success := false; wallets := None; error := Some errorMessage |},
        w)).

Record AllWallets := {
  aw_mainWallets : list MainInfo;
  aw_subWallets  : list WalletInfo;
  totalWallets   : Z
}.

(** [getAllWallets()] *)
Definition getAllWallets (e : Env) : World -> AllWallets * World :=
  try_total
    (walletsFromBackups <- BackupManager.getAllWalletsFromBackups e ;;
     let mainWallets :=
       map (fun wallet =>
              {| mi_publicKey := BackupManager.tm_publicKey wallet;
                 mi_privateKey :=
                   option_map mw_privateKey (BackupManager.tm_wallet wallet);
                 mi_createdAt :=
                   match BackupManager.tm_wallet wallet with
                   | Some m => mw_createdAt m
                   | None => None
                   end;
                 mi_backupFile := BackupManager.tm_backupFile wallet |})
           (BackupManager.mainWallets walletsFromBackups) in
     let subWallets :=
       map (fun wallet =>
              {| publicKey := BackupManager.ts_publicKey wallet;
                 privateKey := sw_privateKey (BackupManager.ts_wallet wallet);
                 balance := 0;
                 createdAt := sw_createdAt (BackupManager.ts_wallet wallet);
                 backupFile := Some (BackupManager.ts_backupFile wallet);
                 index := sw_index (BackupManager.ts_wallet wallet) |})
           (BackupManager.subWalletsR walletsFromBackups) in
     ret {| aw_mainWallets := mainWallets;
            aw_subWallets := subWallets;
            totalWallets :=
              (Z.of_nat (List.length mainWallets)
               + Z.of_nat (List.length subWallets))%Z |})
    (fun _ w =>
       ({| aw_mainWallets := []; aw_subWallets := []; totalWallets := 0 |},
        w)).

(** ** Recovery *)

(** What the network answers while one worker is processed:
    the result of [sellTokensFromWallet] ([None]: it throws), the value
    returned by [getBalance] in SOL, and whether [getLatestBlockhash],
    [sendRawTransaction] (answering with the signature) and
    [confirmTransaction] go through or throw. *)
Record WorkerScript := {
  ws_sell         : option (bool * option (list string));
  ws_balance      : Q;
  ws_blockhash_ok : bool;
  ws_send         : option string;
  ws_confirm_ok   : bool
}.

(** The local variables of [recoverAllFunds] that the loop updates,
    next to the world. *)
Record Recovery := {
  world          : World;
  transactions   : list string;
  totalRecovered : Q
}.

Definition lift {A} (m : M World A) : M Recovery A :=
  fun r =>
    let (a, w) := m (world r) in
    (a, {| world := w; transactions := transactions r;
           totalRecovered := totalRecovered r |}).

Definition push_transactions (txs : list string) : M Recovery unit :=
  modify (fun r => {| world := world r;
                      transactions := transactions r ++ txs;
                      totalRecovered := totalRecovered r |}).

Definition add_recovered (amount : Q) : M Recovery unit :=
  modify (fun r => {| world := world r;
                      transactions := transactions r;
                      totalRecovered := totalRecovered r + amount |}).

Definition keypairFromSecretKey {S} (e : Env) (k : string) : M S string :=
  match fromSecretKey e k with
  | Some pk => ret pk
  | None => throw "bad secret key"
  end.

(** A network call: recorded, then answered by the script. *)
Definition net_call {A} (c : NetCall) (answer : option A) : M Recovery A :=
  lift (effect (Net c)) ;;;
  match answer with
  | Some a => ret a
  | None => throw "network error"
  end.

Definition feeInSol : Q := 1 # 1000000.
Definition LAMPORTS_PER_SOL : Q := 1000000000 # 1.

(** [a > b] on amounts. *)
Definition Qgtb (a b : Q) : bool := negb (Qle_bool a b).

(** The body of the per-wallet [try] block of [recoverAllFunds]. *)
Definition processWallet (e : Env) (script : WorkerScript)
           (wallet : WalletInfo) (tokenAddress : option string)
  : M Recovery unit :=
  sourcePublicKey <- keypairFromSecretKey e (privateKey wallet) ;;
  (if JS.truthyOS tokenAddress then
     try_catch
       (sellResult <-
          net_call (NetSellTokens sourcePublicKey) (ws_sell script) ;;
        if fst sellResult then
          push_transactions
            (match snd sellResult with Some txs => txs | None => [] end)
        else ret tt)
       (fun _ => ret tt)
   else ret tt) ;;;
  balance <- net_call (NetGetBalance (publicKey wallet))
                      (Some (ws_balance script)) ;;
  if Qgtb balance (1 # 1000000) then
    let transferableAmount := balance - feeInSol in
    let transferLamports := Qfloor (transferableAmount * LAMPORTS_PER_SOL) in
    if (0 <? transferLamports)%Z then
      net_call NetGetBlockhash
               (if ws_blockhash_ok script then Some tt else None) ;;;
      signature <-
        net_call (NetSendTransfer sourcePublicKey (inject_Z transferLamports))
                 (ws_send script) ;;
      net_call (NetConfirm signature)
               (if ws_confirm_ok script then Some tt else None) ;;;
      push_transactions [signature] ;;;
      add_recovered transferableAmount
    else ret tt
  else ret tt.

(** The loop over [wallets.subWallets]; worker [i] is answered by
    [script i].  The [catch] of the per-wallet [try] only logs. *)
Fixpoint recoverLoop (e : Env) (script : nat -> WorkerScript)
         (tokenAddress : option string) (ws : list WalletInfo) (i : nat)
  : Recovery -> unit * Recovery :=
  match ws with
  | [] => fun r => (tt, r)
  | wallet :: rest =>
      fun r =>
        let (_, r') :=
          try_total (processWallet e (script i) wallet tokenAddress)
                    (fun _ r => (tt, r)) r in
        recoverLoop e script tokenAddress rest (S i) r'
  end.

Record RecoverResult := {
  r_success       : bool;
  recoveredAmount : option Q;
  r_transactions  : option (list string);
  r_error         : option string
}.

(** [recoverAllFunds(mainWalletPrivateKey, tokenAddress)] *)
Definition recoverAllFunds (e : Env) (script : nat -> WorkerScript)
           (mainWalletPrivateKey : string) (tokenAddress : option string)
  : World -> RecoverResult * World :=
  try_total
    (if negb (JS.truthyS mainWalletPrivateKey)
        || (String.length mainWalletPrivateKey <? 50)%nat
     then
       ret {| r_success := false; recoveredAmount := None;
              r_transactions := None;
              r_error := Some "Invalid main wallet private key"%string |}
     else
       mainPublicKey <- keypairFromSecretKey e mainWalletPrivateKey ;;
       wallets <- total (getAllWallets e) ;;
       r <- (fun w =>
               let (_, r) :=
                 recoverLoop e script tokenAddress (aw_subWallets wallets) 0
                   {| world := w; transactions := [];
                      totalRecovered := 0 |} in
               (Ok r, world r)) ;;
       ret {| r_success := true;
              recoveredAmount := Some (totalRecovered r);
              r_transactions := Some (transactions r);
              r_error := None |})
    (fun errorMessage w =>
       ({| r_success := false; recoveredAmount := None;
           r_transactions := None; r_error := Some errorMessage |}, w)).

(** ** Selling the tokens of one wallet *)

(** What the chain and the swap venue answer during
    [sellTokensFromWallet]: whether the HTTP client is loaded and the
    token mint and the token account address can be formed, the [uiAmount] of the token account ([None]:
    the query throws, [Some None]: the amount is [null]), the [outAmount]
    of the quote in lamports ([None]: the request throws, [Some None]:
    the response has no data), whether the swap transaction is obtained
    and deserialised, the signature of the submission and whether the
    confirmation goes through. *)
Record SellScript := {
  ss_mint_ok      : bool;
  ss_tokenBalance : option (option Q);
  ss_quote        : option (option Z);
  ss_swap_ok      : bool;
  ss_send         : option string;
  ss_confirm_ok   : bool
}.

Inductive VenueCall :=
| VcTokenBalance
| VcQuote
| VcSwap
| VcSend
| VcConfirm (signature : string).

Record SellResult := {
  sr_success      : bool;
  sr_solReceived  : option Q;
  sr_transactions : option (list string)
}.

Definition sellFailed : SellResult :=
  {| sr_success := false; sr_solReceived := None; sr_transactions := None |}.

(** A request to the chain or the venue: recorded, then answered. *)
Definition venue_call {A} (c : VenueCall) (answer : option A)
  : M (list VenueCall) A :=
  modify (fun calls => calls ++ [c]) ;;;
  match answer with
  | Some a => ret a
  | None => throw "request failed"
  end.

(** [sellTokensFromWallet(walletKeypair, tokenAddress)]; the second
    component is the sequence of requests it made. *)
Definition sellTokensFromWallet (s : SellScript)
  : SellResult * list VenueCall :=
  try_total
    ((if ss_mint_ok s then ret tt else throw "Invalid public key input") ;;;
     try_catch
       (tokenBalance <- venue_call VcTokenBalance (ss_tokenBalance s) ;;
        if match tokenBalance with
           | None => true
           | Some amount => Qle_bool amount 0
           end
        then ret sellFailed
        else
          quote <- venue_call VcQuote (ss_quote s) ;;
          match quote with
          | None => ret sellFailed
          | Some outAmount =>
              venue_call VcSwap (if ss_swap_ok s then Some tt else None) ;;;
              signature <- venue_call VcSend (ss_send s) ;;
              venue_call (VcConfirm signature)
                         (if ss_confirm_ok s then Some tt else None) ;;;
              ret {| sr_success := true;
                     sr_solReceived :=
                       Some (inject_Z outAmount / LAMPORTS_PER_SOL);
                     sr_transactions := Some [signature] |}
          end)
       (fun _ => ret sellFailed))
    (fun _ calls => (sellFailed, calls))
    [].

(** ** Distribution *)

(** What the chain answers while one address is funded: the balance of
    the owner in SOL ([None]: the query throws), and whether
    [getLatestBlockhash], [sendRawTransaction] (answering with the
    signature) and [confirmTransaction] go through. *)
Record TransferScript := {
  tr_balance      : option Q;
  tr_blockhash_ok : bool;
  tr_send         : option string;
  tr_confirm_ok   : bool
}.

(** The first balance query and the answers for the address of index
    [i]. *)
Record DistributeScript := {
  ds_balance : option Q;
  ds_step    : nat -> TransferScript
}.

Inductive FundCall :=
| FcGetBalance (owner : string)
| FcBlockhash
| FcSend (toAddress : string) (lamports : Z)
| FcConfirm (signature : string).

(** The requests made and the two arrays [distributeToSubWallets]
    fills. *)
Record Funding := {
  fu_calls        : list FundCall;
  fu_transactions : list string;
  fu_funded       : list string
}.

Definition fund_call {A} (c : FundCall) (answer : option A) : M Funding A :=
  modify (fun f => {| fu_calls := fu_calls f ++ [c];
                      fu_transactions := fu_transactions f;
                      fu_funded := fu_funded f |}) ;;;
  match answer with
  | Some a => ret a
  | None => throw "network error"
  end.

(** [SystemProgram.transfer({fromPubkey, toPubkey, lamports})]: the
    instruction holds the lamports as an unsigned number, a negative
    number of lamports cannot be encoded and throws. *)
Definition systemTransfer (toPubkey : string) (lamports : Z)
  : M Funding (string * Z) :=
  if (lamports <? 0)%Z then throw "lamports out of range"
  else ret (toPubkey, lamports).

(** The body of the per-address [try] block. *)
Definition fundOne (e : Env) (tr : TransferScript) (mainPublicKey : string)
           (address : string) (amountPerWallet : Q) : M Funding unit :=
  currentBalanceSOL <- fund_call (FcGetBalance mainPublicKey) (tr_balance tr) ;;
  if Qgtb (amountPerWallet + (5 # 10000)) currentBalanceSOL then ret tt
  else
    toPubkey <- (if isPublicKey e address then ret address
                 else throw "Invalid public key input") ;;
    transfer <-
      systemTransfer toPubkey (Qfloor (amountPerWallet * LAMPORTS_PER_SOL)) ;;
    fund_call FcBlockhash (if tr_blockhash_ok tr then Some tt else None) ;;;
    signature <-
      fund_call (FcSend (fst transfer) (snd transfer)) (tr_send tr) ;;
    fund_call (FcConfirm signature)
              (if tr_confirm_ok tr then Some tt else None) ;;;
    modify (fun f => {| fu_calls := fu_calls f;
                        fu_transactions := fu_transactions f ++ [signature];
                        fu_funded := fu_funded f ++ [address] |}).

(** The loop over [subWalletAddresses]; the [catch] only logs. *)
Fixpoint fundLoop (e : Env) (ds : DistributeScript) (mainPublicKey : string)
         (amountPerWallet : Q) (addresses : list string) (i : nat)
  : Funding -> unit * Funding :=
  match addresses with
  | [] => fun f => (tt, f)
  | address :: rest =>
      fun f =>
        let (_, f') :=
          try_total (fundOne e (ds_step ds i) mainPublicKey address
                             amountPerWallet)
                    (fun _ f => (tt, f)) f in
        fundLoop e ds mainPublicKey amountPerWallet rest (S i) f'
  end.

(** The [error] of the outcome: the message of the budget check names
    the balance found and the amount needed; any other is the message of
    the exception caught. *)
Inductive FundError :=
| InsufficientBalance (have need : Q)
| Raised (message : string).

Record DistributeOutcome := {
  do_success       : bool;
  do_transactions  : option (list string);
  do_fundedWallets : option (list string);
  do_error         : option FundError
}.

(** [distributeToSubWallets(mainWalletPrivateKey, subWalletAddresses,
    amountPerWallet)]; the second component is the sequence of requests
    it made. *)
Definition distributeToSubWallets (e : Env) (ds : DistributeScript)
           (mainWalletPrivateKey : string) (subWalletAddresses : list string)
           (amountPerWallet : Q) : DistributeOutcome * list FundCall :=
  let (outcome, f) :=
    try_total
      (mainPublicKey <- keypairFromSecretKey e mainWalletPrivateKey ;;
       mainBalanceSOL <-
         fund_call (FcGetBalance mainPublicKey) (ds_balance ds) ;;
       let totalNeeded :=
         amountPerWallet * inject_Z (Z.of_nat (List.length subWalletAddresses))
         + (1 # 100000) in
       if Qgtb totalNeeded mainBalanceSOL then
         ret {| do_success := false; do_transactions := None;
                do_fundedWallets := None;
                do_error :=
                  Some (InsufficientBalance mainBalanceSOL totalNeeded) |}
       else
         total (fundLoop e ds mainPublicKey amountPerWallet
                         subWalletAddresses 0) ;;;
         f <- get ;;
         let successfullyFunded := List.length (fu_funded f) in
         ret {| do_success := (0 <? successfullyFunded)%nat;
                do_transactions := Some (fu_transactions f);
                do_fundedWallets := Some (fu_funded f);
                do_error := None |})
      (fun errorMessage f =>
         ({| do_success := false; do_transactions := None;
             do_fundedWallets := None;
             do_error := Some (Raised errorMessage) |}, f))
      {| fu_calls := []; fu_transactions := []; fu_funded := [] |} in
  (outcome, fu_calls f).

End WalletManager.

(* ================================================================== *)
(** * LicenseManager *)
(* ================================================================== *)

Module LicenseManager.

Definition SECRET_KEY : string := "VolumeBot-Secret-2025-Solana-Trading".

Record LicenseValidationResult := {
  valid         : bool;
  error         : option string;
  expiresAt     : option Z;
  (** hours and minutes of [remainingTime] *)
  remainingTime : option (Z * Z)
}.

(** [s.split('.')] *)
Fixpoint split_dot (s : string) : list string :=
  match s with
  | EmptyString => [EmptyString]
  | String c r =>
      if Ascii.eqb c "." then EmptyString :: split_dot r
      else match split_dot r with
           | h :: t => String c h :: t
           | [] => [String c EmptyString]
           end
  end.

(** [s.substring(3)] *)
Definition drop3 (s : string) : string :=
  String.substring 3 (String.length s - 3) s.

Definition invalid (msg : string) : LicenseValidationResult :=
  {| valid := false; error := Some msg; expiresAt := None;
     remainingTime := None |}.

(** [validateLicenseKey(licenseKey)] *)
Definition validateLicenseKey (e : Env) (licenseKey : string)
  : World -> LicenseValidationResult * World :=
  try_total
    (if negb (JS.truthyS licenseKey) || negb (JS.startsWith licenseKey "VB-")
     then ret (invalid "Invalid license key format")
     else
       let keyPart := drop3 licenseKey in
       let parts := split_dot keyPart in
       let payloadB64 := nth_error parts 0 in
       let signature := nth_error parts 1 in
       if negb (JS.truthyOS payloadB64) || negb (JS.truthyOS signature)
       then ret (invalid "Malformed license key")
       else
         let payloadB64 := match payloadB64 with Some p => p | None => EmptyString end in
         let signature := match signature with Some p => p | None => EmptyString end in
         let expectedSignature := hmac_sha256 e SECRET_KEY payloadB64 in
         if negb (String.eqb signature expectedSignature)
         then ret (invalid "Invalid license key signature")
         else
           payload_exp <-
             match parse_payload e payloadB64 with
             | Some p => ret p
             | None => throw "Unexpected token"
             end ;;
           now <- date_now e ;;
           match payload_exp with
           | Some exp =>
               if (exp <? now)%Z
               then ret (invalid "License key expired")
               else
                 let remainingMs := (exp - now)%Z in
                 let remainingHours := (remainingMs / (1000 * 60 * 60))%Z in
                 let remainingMinutes :=
                   ((remainingMs mod (1000 * 60 * 60)) / (1000 * 60))%Z in
                 ret {| valid := true; error := None; expiresAt := Some exp;
                        remainingTime :=
                          Some (remainingHours, remainingMinutes) |}
           | None =>
               (* [now > undefined] is false *)
               ret {| valid := true; error := None; expiresAt := None;
                      remainingTime := None |}
           end)
    (fun _ w => (invalid "Failed to validate license key", w)).

(** [isValidLicense(licenseKey)] *)
Definition isValidLicense (e : Env) (licenseKey : string)
  : World -> bool * World :=
  fun w =>
    let (result, w') := validateLicenseKey e licenseKey w in
    (valid result, w').

End LicenseManager.

(* ================================================================== *)
(** * TradingBot *)
(* ================================================================== *)

Module TradingBot.

Import WalletManager.

Record TradingConfig := {
  tokenAddress         : string;
  mainWalletPrivateKey : string;
  numberOfSubWallets   : Z;
  buyAmount            : Q;
  sessionDuration      : Z;
  licenseKey           : string
}.

Record TradingStats := {
  cyclesCompleted : Z;
  totalVolume     : Q;
  successRate     : Q;
  totalFees       : Q;
  uptime          : Z;
  startTime       : Z;
  lastCycleTime   : Z;
  activeWallets   : Z
}.

(** The fields of a [TradingBot] instance and the world it acts on. *)
Record Bot := {
  isRunning        : bool;
  config           : option TradingConfig;
  stats            : TradingStats;
  intervalId       : option nat;
  sessionTimeoutId : option nat;
  subWallets       : list WalletInfo;
  bworld           : World
}.

Definition zeroStats : TradingStats :=
  {| cyclesCompleted := 0; totalVolume := 0; successRate := 0;
     totalFees := 0; uptime := 0; startTime := 0; lastCycleTime := 0;
     activeWallets := 0 |}.

Definition set_isRunning (v : bool) (b : Bot) : Bot :=
  {| isRunning := v; config := config b; stats := stats b;
     intervalId := intervalId b; sessionTimeoutId := sessionTimeoutId b;
     subWallets := subWallets b; bworld := bworld b |}.

Definition set_config (c : option TradingConfig) (b : Bot) : Bot :=
  {| isRunning := isRunning b; config := c; stats := stats b;
     intervalId := intervalId b; sessionTimeoutId := sessionTimeoutId b;
     subWallets := subWallets b; bworld := bworld b |}.

Definition set_stats (st : TradingStats) (b : Bot) : Bot :=
  {| isRunning := isRunning b; config := config b; stats := st;
     intervalId := intervalId b; sessionTimeoutId := sessionTimeoutId b;
     subWallets := subWallets b; bworld := bworld b |}.

Definition set_intervalId (v : option nat) (b : Bot) : Bot :=
  {| isRunning := isRunning b; config := config b; stats := stats b;
     intervalId := v; sessionTimeoutId := sessionTimeoutId b;
     subWallets := subWallets b; bworld := bworld b |}.

Definition set_sessionTimeoutId (v : option nat) (b : Bot) : Bot :=
  {| isRunning := isRunning b; config := config b; stats := stats b;
     intervalId := intervalId b; sessionTimeoutId := v;
     subWallets := subWallets b; bworld := bworld b |}.

Definition set_subWallets (ws : list WalletInfo) (b : Bot) : Bot :=
  {| isRunning := isRunning b; config := config b; stats := stats b;
     intervalId := intervalId b; sessionTimeoutId := sessionTimeoutId b;
     subWallets := ws; bworld := bworld b |}.

Definition set_bworld (w : World) (b : Bot) : Bot :=
  {| isRunning := isRunning b; config := config b; stats := stats b;
     intervalId := intervalId b; sessionTimeoutId := sessionTimeoutId b;
     subWallets := subWallets b; bworld := w |}.

(** A call of a service that acts on the world only. *)
Definition inWorld {A} (m : M World A) : M Bot A :=
  fun b => let (a, w) := m (bworld b) in (a, set_bworld w b).

Definition inWorldT {A} (f : World -> A * World) : M Bot A :=
  inWorld (total f).

(** [this.log(level, message)]: stamps the entry with [Date.now()] and
    emits it as a ['log'] event.  The interpolated parts of the message
    are left out. *)
Definition log (e : Env) (level message : string) : M Bot unit :=
  inWorld (date_now e ;;; effect (Log level message)).

Definition emit (event : string) : M Bot unit := inWorld (effect (Emit event)).

Definition net (c : NetCall) : M Bot unit := inWorld (effect (Net c)).

Definition schedule (task : string) : M Bot unit :=
  inWorld (effect (Scheduled task)).

(** [resetStats()] *)
Definition resetStats : M Bot unit := modify (set_stats zeroStats).

Record StartResult := {
  s_success : bool;
  s_error   : option string
}.

Definition ok : StartResult := {| s_success := true; s_error := None |}.
Definition failed (msg : string) : StartResult :=
  {| s_success := false; s_error := Some msg |}.

(** [stop()].  The clean-up is started and not awaited: it is recorded
    as a scheduled task, [cleanupFundsInBackground] below is what the
    task does. *)
Definition stop (e : Env) : Bot -> StartResult * Bot :=
  try_total
    (log e "info" "Stopping trading bot..." ;;;
     modify (set_isRunning false) ;;;
     b <- get ;;
     (if BackupManager.isSome (intervalId b)
      then modify (set_intervalId None) else ret tt) ;;;
     b <- get ;;
     (if BackupManager.isSome (sessionTimeoutId b)
      then modify (set_sessionTimeoutId None) else ret tt) ;;;
     log e "success" "Trading bot stopped successfully" ;;;
     emit "stats-update" ;;;
     b <- get ;;
     (if BackupManager.isSome (config b)
      then schedule "cleanupFundsInBackground" else ret tt) ;;;
     ret ok)
    (fun _ b =>
       let (_, b') :=
         try_total (modify (set_isRunning false) ;;;
                    log e "info" "Trading bot stopped (with warnings)")
                   (fun _ b => (tt, b)) b in
       (ok, b')).

(** What the venue answers to one [executeBuy] or [executeSell]: whether
    the swap went through, the fee read back from the chain, the SOL
    received by a sell, and whether a [stop()] command is handled while
    the call (or the two-second pause that ends it) is awaited. *)
Record TradeOutcome := {
  t_success : bool;
  t_fee     : Q;
  t_volume  : Q;
  t_stop    : bool
}.

Definition add_trade (fee volume : Q) (b : Bot) : Bot :=
  set_stats
    {| cyclesCompleted := cyclesCompleted (stats b);
       totalVolume := totalVolume (stats b) + volume;
       successRate := successRate (stats b);
       totalFees := totalFees (stats b) + fee;
       uptime := uptime (stats b);
       startTime := startTime (stats b);
       lastCycleTime := lastCycleTime (stats b);
       activeWallets := activeWallets (stats b) |} b.

(** A point where the event loop can run another handler. *)
Definition await_point (e : Env) (stop_arrives : bool) : M Bot unit :=
  if stop_arrives then total (fun b => let (_, b') := stop e b in (tt, b'))
  else ret tt.

(** [executeBuy(wallet, tokenAddress, amount)]; the answer is the
    [success] field of the result.  Everything between the decoding of
    the secret key and the confirmation of the swap (balance check, quote,
    swap transaction, submission) is one exchange with the venue, answered
    by [o]; every failure in it ends in a result with [success = false]. *)
Definition executeBuy (e : Env) (o : TradeOutcome) (wallet : WalletInfo)
           (tokenAddress : string) (amount : Q) : M Bot bool :=
  try_catch
    (log e "info" "Executing REAL token buy" ;;;
     walletKey <- keypairFromSecretKey e (privateKey wallet) ;;
     net (NetBuy walletKey amount) ;;;
     await_point e (t_stop o) ;;;
     if t_success o then
       modify (add_trade (t_fee o) amount) ;;;
       log e "success" "REAL TOKEN BUY completed" ;;;
       ret true
     else
       log e "error" "Jupiter swap failed" ;;;
       ret false)
    (fun _ =>
       log e "error" "Buy order failed" ;;;
       ret false).

(** [executeSell(wallet, tokenAddress)].  The exchange with the venue
    starts with the query of the token accounts, whose argument
    [new PublicKey(tokenAddress)] is evaluated first: with a token
    address that is no public key this throws inside the inner [try],
    nothing is requested or awaited, and the sale fails. *)
Definition executeSell (e : Env) (o : TradeOutcome) (wallet : WalletInfo)
           (tokenAddress : string) : M Bot bool :=
  try_catch
    (log e "info" "Executing REAL token sell" ;;;
     walletKey <- keypairFromSecretKey e (privateKey wallet) ;;
     try_catch
       (mint <- (if isPublicKey e tokenAddress then ret tokenAddress
                 else throw "Invalid public key input") ;;
        net (NetSell walletKey) ;;;
        await_point e (t_stop o) ;;;
        if t_success o then
          modify (add_trade (t_fee o) (t_volume o)) ;;;
          log e "success" "REAL TOKEN SELL completed" ;;;
          ret true
        else throw "Jupiter error")
       (fun _ =>
          log e "error" "Jupiter sell swap failed" ;;;
          ret false))
    (fun _ =>
       log e "error" "Sell order failed" ;;;
       ret false).

(** [getWalletBalance(publicKey)]: [0] when the query fails. *)
Definition getWalletBalance (answer : Q) (publicKey : string) : M Bot Q :=
  net (NetGetBalance publicKey) ;;; ret answer.

(** ** Funding *)

(** What [walletManager.distributeToSubWallets] reports, and what the
    balance queries of the readiness poll answer (by attempt and
    address). *)
Record DistributeResult := {
  d_success       : bool;
  d_fundedWallets : option (list string);
  d_error         : option string
}.

Record StartNet := {
  sn_distribute : DistributeResult;
  sn_balance    : nat -> string -> Q
}.

Definition Qltb (a b : Q) : bool := negb (Qle_bool b a).

(** The inner [for] of the readiness poll: stops at the first wallet
    whose balance is below the buy amount. *)
Fixpoint allWalletsFunded (e : Env) (answers : string -> Q) (buyAmount : Q)
         (ws : list WalletInfo) : M Bot bool :=
  match ws with
  | [] => ret true
  | wallet :: rest =>
      balance <- getWalletBalance (answers (publicKey wallet))
                                  (publicKey wallet) ;;
      if Qltb balance buyAmount then
        log e "info" "Wallet still waiting for funds" ;;;
        ret false
      else allWalletsFunded e answers buyAmount rest
  end.

(** [while (!allWalletsReady && attempts < maxAttempts)]: [fuel] is
    [maxAttempts - attempts]; the result is [allWalletsReady]. *)
Fixpoint pollFunds (e : Env) (sn : StartNet) (buyAmount : Q)
         (fuel attempts : nat) : M Bot bool :=
  match fuel with
  | O => ret false
  | S fuel' =>
      b <- get ;;
      allWalletsReady <-
        allWalletsFunded e (sn_balance sn attempts) buyAmount (subWallets b) ;;
      b <- get ;;
      if negb allWalletsReady && isRunning b then
        pollFunds e sn buyAmount fuel' (S attempts)
      else ret allWalletsReady
  end.

Definition maxAttempts : nat := 10.

(** [distributeFunds()] *)
Definition distributeFunds (e : Env) (sn : StartNet) : M Bot unit :=
  b <- get ;;
  match config b with
  | None => ret tt
  | Some cfg =>
      log e "info" "Distributing funds to sub-wallets..." ;;;
      let subWalletAddresses := map publicKey (subWallets b) in
      net (NetDistribute subWalletAddresses (buyAmount cfg + (1 # 100000))) ;;;
      let result := sn_distribute sn in
      match d_success result, d_fundedWallets result with
      | true, Some (fundedWallet :: others) =>
          let fundedCount := List.length (fundedWallet :: others) in
          log e "success" "Distributed SOL to sub-wallets" ;;;
          (if (fundedCount <? List.length (subWallets b))%nat
           then log e "info" "Note: wallets funding failed"
           else ret tt) ;;;
          b <- get ;;
          (if isRunning b
           then log e "info" "Waiting for funds to arrive in sub-wallets..."
           else ret tt) ;;;
          allWalletsReady <- pollFunds e sn (buyAmount cfg) maxAttempts 0 ;;
          if allWalletsReady
          then log e "success" "All sub-wallets have received funds"
          else log e "warning" "Some wallets may not have received all funds"
      | _, _ => throw "Fund distribution failed"
      end
  end.

(** [validateToken(tokenAddress)] *)
Definition validateToken (e : Env) (tokenAddress : string) : M Bot unit :=
  if isPublicKey e tokenAddress
  then log e "info" "Token validated"
  else throw "Invalid token address".

Definition push_subWallets (ws : list WalletInfo) : M Bot unit :=
  modify (fun b => set_subWallets (subWallets b ++ ws) b).

Definition set_startTime (t : Z) (b : Bot) : Bot :=
  set_stats
    {| cyclesCompleted := cyclesCompleted (stats b);
       totalVolume := totalVolume (stats b);
       successRate := successRate (stats b);
       totalFees := totalFees (stats b);
       uptime := uptime (stats b);
       startTime := t;
       lastCycleTime := lastCycleTime (stats b);
       activeWallets := activeWallets (stats b) |} b.

Definition set_activeWallets (n : Z) (b : Bot) : Bot :=
  set_stats
    {| cyclesCompleted := cyclesCompleted (stats b);
       totalVolume := totalVolume (stats b);
       successRate := successRate (stats b);
       totalFees := totalFees (stats b);
       uptime := uptime (stats b);
       startTime := startTime (stats b);
       lastCycleTime := lastCycleTime (stats b);
       activeWallets := n |} b.

(** The part of [start] that resolves the worker identities. *)
Definition resolveSubWallets (e : Env) (cfg : TradingConfig) : M Bot unit :=
  allWallets <- inWorldT (getAllWallets e) ;;
  (if (List.length (aw_subWallets allWallets) =? 0)%nat then
     log e "info" "No existing sub-wallets found, creating new ones..." ;;;
     subWalletsResult <-
       inWorldT (createSubWallets e (numberOfSubWallets cfg)) ;;
     match success subWalletsResult, wallets subWalletsResult with
     | true, Some ws => modify (set_subWallets ws)
     | _, _ =>
         throw (match error subWalletsResult with
                | Some msg => if JS.truthyS msg then msg
                              else "Failed to create sub-wallets"
                | None => "Failed to create sub-wallets"
                end)
     end
   else
     modify (set_subWallets
               (map (fun wallet =>
                       {| publicKey := publicKey wallet;
                          privateKey := privateKey wallet;
                          balance := balance wallet;
                          createdAt := None; backupFile := None;
                          index := None |})
                    (aw_subWallets allWallets))) ;;;
     log e "info" "Found existing sub-wallets from backup files" ;;;
     b <- get ;;
     if (Z.of_nat (List.length (subWallets b)) <? numberOfSubWallets cfg)%Z
     then
       let additionalNeeded :=
         (numberOfSubWallets cfg - Z.of_nat (List.length (subWallets b)))%Z in
       log e "info" "Creating additional sub-wallets..." ;;;
       additionalResult <- inWorldT (createSubWallets e additionalNeeded) ;;
       match success additionalResult, wallets additionalResult with
       | true, Some ws => push_subWallets ws
       | _, _ => log e "error" "Failed to create additional wallets"
       end
     else ret tt) ;;;
  b <- get ;;
  if negb (Z.of_nat (List.length (subWallets b)) =? numberOfSubWallets cfg)%Z
  then
    log e "warning" "Expected another number of wallets" ;;;
    if (Z.of_nat (List.length (subWallets b)) <? numberOfSubWallets cfg)%Z
    then
      let stillNeeded :=
        (numberOfSubWallets cfg - Z.of_nat (List.length (subWallets b)))%Z in
      log e "info" "Attempting to create more wallets..." ;;;
      retryResult <- inWorldT (createSubWallets e stillNeeded) ;;
      match success retryResult, wallets retryResult with
      | true, Some ws => push_subWallets ws
      | _, _ => log e "error" "Retry failed"
      end
    else ret tt
  else ret tt.

(** [start(config)] *)
Definition start (e : Env) (sn : StartNet) (cfg : TradingConfig)
  : Bot -> StartResult * Bot :=
  try_total
    (b <- get ;;
     if isRunning b then ret (failed "Bot is already running")
     else
       licenseValidation <-
         inWorldT (LicenseManager.validateLicenseKey e (licenseKey cfg)) ;;
       if negb (LicenseManager.valid licenseValidation) then
         log e "error" "License validation failed" ;;;
         ret (failed
                ("Invalid license: "
                 ++ match LicenseManager.error licenseValidation with
                    | Some msg => msg
                    | None => "undefined"
                    end)%string)
       else
         log e "success" "License valid" ;;;
         modify (set_config (Some cfg)) ;;;
         resetStats ;;;
         now <- inWorld (date_now e) ;;
         modify (set_startTime now) ;;;
         log e "info" "Starting trading bot..." ;;;
         mainPublicKey <- keypairFromSecretKey e (mainWalletPrivateKey cfg) ;;
         log e "info" "Main wallet" ;;;
         log e "info" "Collecting all sub-wallets from backup files..." ;;;
         resolveSubWallets e cfg ;;;
         b <- get ;;
         modify (set_activeWallets (Z.of_nat (List.length (subWallets b)))) ;;;
         log e "info" "Using sub-wallets for trading" ;;;
         distributeFunds e sn ;;;
         validateToken e (tokenAddress cfg) ;;;
         modify (set_isRunning true) ;;;
         log e "info" "Starting continuous trading..." ;;;
         schedule "executeTradingCycle" ;;;
         log e "success" "Trading bot started successfully" ;;;
         emit "stats-update" ;;;
         ret ok)
    (fun errorMessage b =>
       let (_, b') :=
         try_total (modify (set_isRunning false) ;;;
                    log e "error" "Failed to start trading bot")
                   (fun _ b => (tt, b)) b in
       (failed errorMessage, b')).

(** ** Background clean-up *)

(** The loop of step 1 of [cleanupFundsInBackground]; the result is
    [(tokensToSell, tokensSold)]. *)
Fixpoint sellAll (e : Env) (sells : nat -> TradeOutcome) (token : string)
         (ws : list WalletInfo) (i : nat) (counts : Z * Z) : M Bot (Z * Z) :=
  match ws with
  | [] => ret counts
  | wallet :: rest =>
      counts' <-
        try_catch
          (sold <- executeSell e (sells i) wallet token ;;
           (if sold
            then log e "success" "Background: Sold tokens from wallet"
            else log e "info" "Background: No tokens to sell from wallet") ;;;
           ret ((fst counts + 1)%Z,
                (if sold then snd counts + 1 else snd counts)%Z))
          (fun _ =>
             log e "info" "Background: Skipped wallet" ;;;
             ret ((fst counts + 1)%Z, snd counts)) ;;
      sellAll e sells token rest (S i) counts'
  end.

(** [cleanupFundsInBackground()], with the body of its timer callback
    (step 2) run after step 1. *)
Definition cleanupFundsInBackground (e : Env) (sells : nat -> TradeOutcome)
           (script : nat -> WorkerScript) : Bot -> unit * Bot :=
  try_total
    (b <- get ;;
     match config b with
     | None => ret tt
     | Some cfg =>
         log e "info"
           "Background cleanup: Selling tokens and recovering funds..." ;;;
         log e "info" "Step 1: Selling tokens from all sub-wallets..." ;;;
         sellAll e sells (tokenAddress cfg) (subWallets b) 0 (0%Z, 0%Z) ;;;
         log e "info" "Token selling completed" ;;;
         schedule "recoverAllFunds" ;;;
         try_catch
           (log e "info" "Step 2: Recovering SOL from all sub-wallets..." ;;;
            recoveryResult <-
              inWorldT (recoverAllFunds e script (mainWalletPrivateKey cfg)
                                        (Some (tokenAddress cfg))) ;;
            if r_success recoveryResult
            then log e "success" "Background recovery: SOL recovered"
            else log e "info" "Background recovery")
           (fun _ => log e "info" "Background recovery completed with warnings")
     end)
    (fun _ b =>
       try_total (log e "info" "Background cleanup completed with warnings")
                 (fun _ b => (tt, b)) b).

(** ** The trading cycle *)

(** The answers of the venue during one iteration of the cycle, by
    worker index, and whether a [stop()] command is handled during a
    pause: the wait after the worker of an index in either phase, the
    pause between the phases, or the pause that ends the iteration. *)
Record CycleNet := {
  cn_balance        : nat -> Q;
  cn_buy            : nat -> TradeOutcome;
  cn_stop_buy_wait  : nat -> bool;
  cn_stop_cooldown  : bool;
  cn_sell           : nat -> TradeOutcome;
  cn_stop_sell_wait : nat -> bool;
  cn_stop_pause     : bool
}.

(** The wait between two workers of a phase:
    [if (i < this.subWallets.length - 1 && this.isRunning)], where
    [more] says that a worker is left. *)
Definition waitForNextWallet (e : Env) (more stop_arrives : bool)
  : M Bot unit :=
  b <- get ;;
  if more && isRunning b then
    log e "info" "Waiting 3 seconds before next wallet..." ;;;
    await_point e stop_arrives
  else ret tt.

(** Phase 1.  [ws] is what is left of [this.subWallets] from index [i]
    on; the result is [buyResults]. *)
Fixpoint buyPhase (e : Env) (cn : CycleNet) (token : string)
         (ws : list WalletInfo) (i : nat) (buyResults : list bool)
  : M Bot (list bool) :=
  match ws with
  | [] => ret buyResults
  | wallet :: rest =>
      b <- get ;;
      if negb (isRunning b) then ret buyResults
      else
        log e "info" "Processing BUY for wallet" ;;;
        currentBalance <-
          getWalletBalance (cn_balance cn i) (publicKey wallet) ;;
        let tradingAmount := currentBalance * (75 # 100) in
        log e "info" "Using 75% of the balance for trading" ;;;
        buyResult <- executeBuy e (cn_buy cn i) wallet token tradingAmount ;;
        (if buyResult
         then log e "success" "BUY successful for wallet"
         else log e "warning" "BUY failed for wallet") ;;;
        waitForNextWallet e (0 <? List.length rest)%nat
                          (cn_stop_buy_wait cn i) ;;;
        buyPhase e cn token rest (S i) (buyResults ++ [buyResult])
  end.

(** Phase 2; the result is [sellResults]. *)
Fixpoint sellPhase (e : Env) (cn : CycleNet) (token : string)
         (ws : list WalletInfo) (i : nat) (sellResults : list bool)
  : M Bot (list bool) :=
  match ws with
  | [] => ret sellResults
  | wallet :: rest =>
      b <- get ;;
      if negb (isRunning b) then ret sellResults
      else
        log e "info" "Processing SELL for wallet" ;;;
        sellResult <- executeSell e (cn_sell cn i) wallet token ;;
        (if sellResult
         then log e "success" "SELL successful for wallet"
         else log e "warning" "SELL failed for wallet") ;;;
        waitForNextWallet e (0 <? List.length rest)%nat
                          (cn_stop_sell_wait cn i) ;;;
        sellPhase e cn token rest (S i) (sellResults ++ [sellResult])
  end.

(** The counting loop: [n] indices left, starting at [i]. *)
Fixpoint countComplete (e : Env) (buyResults sellResults : list bool)
         (n i : nat) (successfulTrades : Z) : M Bot Z :=
  match n with
  | O => ret successfulTrades
  | S n' =>
      let buySuccess := JS.truthy_at buyResults i in
      let sellSuccess := JS.truthy_at sellResults i in
      if buySuccess && sellSuccess then
        log e "success" "Complete buy-sell cycle for wallet" ;;;
        countComplete e buyResults sellResults n' (S i) (successfulTrades + 1)%Z
      else
        log e "warning" "Incomplete cycle for wallet" ;;;
        countComplete e buyResults sellResults n' (S i) successfulTrades
  end.

Definition record_cycle (successfulTrades : Z) (walletCount : nat)
           (t1 t2 : Z) (b : Bot) : Bot :=
  set_stats
    {| cyclesCompleted := (cyclesCompleted (stats b) + 1)%Z;
       totalVolume := totalVolume (stats b);
       successRate :=
         if (0 <? walletCount)%nat
         then (inject_Z successfulTrades / inject_Z (Z.of_nat walletCount))
              * (100 # 1)
         else 0;
       totalFees := totalFees (stats b);
       uptime := (t2 - startTime (stats b))%Z;
       startTime := startTime (stats b);
       lastCycleTime := t1;
       activeWallets := activeWallets (stats b) |} b.

(** One pass through the body of [while (this.isRunning)]. *)
Definition tradingIteration (e : Env) (cn : CycleNet) (token : string)
  : Bot -> unit * Bot :=
  try_total
    (log e "info" "PHASE 1: Executing TOKEN BUYS sequentially" ;;;
     b <- get ;;
     buyResults <- buyPhase e cn token (subWallets b) 0 [] ;;
     b <- get ;;
     (if isRunning b then
        log e "info" "Waiting 5 seconds before selling..." ;;;
        await_point e (cn_stop_cooldown cn)
      else ret tt) ;;;
     log e "info" "PHASE 2: Executing TOKEN SELLS sequentially" ;;;
     b <- get ;;
     sellResults <- sellPhase e cn token (subWallets b) 0 [] ;;
     b <- get ;;
     successfulTrades <-
       countComplete e buyResults sellResults
                     (List.length (subWallets b)) 0 0%Z ;;
     t1 <- inWorld (date_now e) ;;
     t2 <- inWorld (date_now e) ;;
     b <- get ;;
     modify (record_cycle successfulTrades (List.length (subWallets b)) t1 t2) ;;;
     log e "info" "Continuous cycle completed" ;;;
     emit "stats-update" ;;;
     b <- get ;;
     if isRunning b then
       log e "info" "Waiting 3 seconds before next continuous cycle..." ;;;
       await_point e (cn_stop_pause cn)
     else ret tt)
    (fun _ b =>
       try_total (log e "error" "Trading cycle failed")
                 (fun _ b => (tt, b)) b).

(** [while (this.isRunning) { ... }], at most [rounds] iterations;
    iteration [k] is answered by [cn k]. *)
Fixpoint tradingLoop (e : Env) (cn : nat -> CycleNet) (token : string)
         (rounds k : nat) (b : Bot) : Bot :=
  match rounds with
  | O => b
  | S rounds' =>
      if isRunning b
      then tradingLoop e cn token rounds' (S k)
                       (snd (tradingIteration e (cn k) token b))
      else b
  end.

(** [executeTradingCycle()] *)
Definition executeTradingCycle (e : Env) (cn : nat -> CycleNet)
           (rounds : nat) (b : Bot) : Bot :=
  match isRunning b, config b with
  | true, Some cfg =>
      let (_, b') :=
        try_total (log e "info" "Starting continuous trading")
                  (fun _ b => (tt, b)) b in
      tradingLoop e cn (tokenAddress cfg) rounds 0 b'
  | _, _ => b
  end.

End TradingBot.

(* ================================================================== *)
(** * Specification-level notions *)
(* ================================================================== *)

Module Spec.

(** Keeping the first element of every key, written recursively: the
    elements of [l] whose key is not in [seen] and did not occur earlier
    in [l]. *)
Fixpoint firsts {A K} (key : A -> K) (eqb : K -> K -> bool)
         (seen : list K) (l : list A) : list A :=
  match l with
  | [] => []
  | x :: r =>
      if existsb (eqb (key x)) seen then firsts key eqb seen r
      else x :: firsts key eqb (key x :: seen) r
  end.

(** The deduplicating filter of [getAllWalletsFromBackups], for any key. *)
Definition unique {A K} (key : A -> K) (eqb : K -> K -> bool) (l : list A)
  : list A :=
  JS.filter
    (fun wallet index array =>
       (JS.findIndex (fun w => eqb (key w) (key wallet)) array =? index)%Z)
    l.

Definition ostring_dec (a b : option string) : {a = b} + {a <> b}.
Proof. decide equality. apply string_dec. Defined.

(** The public keys listed by a snapshot. *)
Definition subKeys (bf : BackupFile) : list string :=
  map sw_publicKey (subWallets (data bf)).

Definition mainKeys (bf : BackupFile) : list (option string) :=
  map BackupManager.tm_publicKey (BackupManager.mainsOf bf).

(** Between [w] and [w'] nothing happened but readings of the clock. *)
Definition clock_only (w w' : World) : Prop :=
  files w' = files w /\ minted w' = minted w /\ writes w' = writes w /\
  trace w' = trace w /\ (ticks w <= ticks w')%nat.

(** The world after [dt] readings of the clock and [dm] generated
    keypairs. *)
Definition advance (w : World) (dt dm : nat) : World :=
  {| files := files w; ticks := (ticks w + dt)%nat;
     minted := (minted w + dm)%nat; writes := writes w; trace := trace w |}.

(** The identities minted by a call that starts in world [w] when
    [current] sub-wallets exist: the [j]-th one takes the next keypair of
    the generator and slot [current + j]. *)
Definition mintedWallets (e : Env) (w : World) (current : Z) (n : nat)
  : list SubWallet :=
  map (fun j =>
         {| sw_publicKey := fst (keygen e (minted w + j)%nat);
            sw_privateKey := snd (keygen e (minted w + j)%nat);
            sw_createdAt := Some (clock e (ticks w + j)%nat);
            sw_index := Some (current + Z.of_nat j)%Z |})
      (seq 0 n).

(** The record [createSubWallets] returns for a stored entry it has just
    written (no provenance). *)
Definition infoOf (wallet : SubWallet) : WalletManager.WalletInfo :=
  {| WalletManager.publicKey := sw_publicKey wallet;
     WalletManager.privateKey := sw_privateKey wallet;
     WalletManager.balance := 0;
     WalletManager.createdAt := sw_createdAt wallet;
     WalletManager.backupFile := None;
     WalletManager.index := sw_index wallet |}.

(** The reconciled sub-wallets a call that starts in world [w] finds. *)
Definition existing (e : Env) (w : World) : list BackupManager.TaggedSub :=
  match BackupManager.getAllWalletsFromBackups e w with
  | (Ok view, _) => BackupManager.subWalletsR view
  | (Throw _, _) => []
  end.

(** The record [createSubWallets] returns for an entry of the reconciled
    view. *)
Definition infoOfTagged (wallet : BackupManager.TaggedSub)
  : WalletManager.WalletInfo :=
  {| WalletManager.publicKey := BackupManager.ts_publicKey wallet;
     WalletManager.privateKey := sw_privateKey (BackupManager.ts_wallet wallet);
     WalletManager.balance := 0;
     WalletManager.createdAt := sw_createdAt (BackupManager.ts_wallet wallet);
     WalletManager.backupFile := Some (BackupManager.ts_backupFile wallet);
     WalletManager.index := sw_index (BackupManager.ts_wallet wallet) |}.

(** Name and content of the snapshot file [createBackup] writes at time
    [t] for sub-wallets [subs] and no main wallet. *)
Definition snapshotName (t : Z) : string :=
  ("wallets-" ++ JS.string_of_Z t ++ ".json")%string.

Definition snapshotOf (t : Z) (subs : list SubWallet) : RawBackup :=
  {| raw_metadata :=
       Some {| md_version := "1.0.0";
               md_createdBy := "solana-volume-bot";
               md_totalWallets := (0 + Z.of_nat (List.length subs))%Z |};
     raw_version := None;
     raw_timestamp := Some t;
     raw_createdAt := None;
     raw_mainWallet := MainUndefined;
     raw_subWallets := subs |}.

(** Every snapshot file of the directory that is read carries a
    [timestamp] or a [createdAt]. *)
Definition timestamped (dir : list (string * option RawBackup)) : Prop :=
  forall name raw,
    In (name, Some raw) dir ->
    JS.startsWith name "wallets-" && JS.endsWith name ".json" = true ->
    JS.truthyZ (raw_timestamp raw) || JS.truthyZ (raw_createdAt raw) = true.

(** The placeholder identity injected for a snapshot read at
    [timestamp]. *)
Definition placeholder (timestamp : Z) : MainWallet :=
  {| mw_publicKey := BackupManager.placeholderPublicKey;
     mw_privateKey := BackupManager.placeholderPrivateKey;
     mw_createdAt := Some timestamp |}.

(** ** Recovery *)

(** The owner credential is structurally invalid: too short (an empty
    string included) or not a well-formed secret key. *)
Definition structurallyInvalid (e : Env) (key : string) : Prop :=
  (String.length key < 50)%nat \/ fromSecretKey e key = None.

(** What one worker contributes to the batch, whatever happens to the
    other workers: the transaction ids it adds and the amount recovered
    from it, if any. *)
Definition workerYield (e : Env) (s : WalletManager.WorkerScript)
           (wallet : WalletManager.WalletInfo) (token : option string)
  : list string * option Q :=
  match fromSecretKey e (WalletManager.privateKey wallet) with
  | None => ([], None)
  | Some _ =>
      let sold :=
        if JS.truthyOS token then
          match WalletManager.ws_sell s with
          | Some (true, Some txs) => txs
          | _ => []
          end
        else [] in
      let amount := WalletManager.ws_balance s - WalletManager.feeInSol in
      if WalletManager.Qgtb (WalletManager.ws_balance s) (1 # 1000000)
         && (0 <? Qfloor (amount * WalletManager.LAMPORTS_PER_SOL))%Z
         && WalletManager.ws_blockhash_ok s
         && WalletManager.ws_confirm_ok s
      then match WalletManager.ws_send s with
           | Some signature => (sold ++ [signature], Some amount)
           | None => (sold, None)
           end
      else (sold, None)
  end.

(** The yields of the workers [ws], the first of which has index [i]. *)
Fixpoint yields (e : Env) (script : nat -> WalletManager.WorkerScript)
         (token : option string) (ws : list WalletManager.WalletInfo)
         (i : nat) : list (list string * option Q) :=
  match ws with
  | [] => []
  | wallet :: rest =>
      workerYield e (script i) wallet token
      :: yields e script token rest (S i)
  end.

Definition addYield (total : Q) (y : list string * option Q) : Q :=
  match snd y with Some amount => total + amount | None => total end.

(** The workers a recovery that starts in world [w] processes. *)
Definition workers (e : Env) (w : World) : list WalletManager.WalletInfo :=
  WalletManager.aw_subWallets (fst (WalletManager.getAllWallets e w)).

(** ** The orchestrator *)

(** The network calls of a trace. *)
Definition netCalls (t : list Effect) : list NetCall :=
  flat_map (fun x => match x with Net c => [c] | _ => [] end) t.

(** What [stop()] adds to the trace of a bot whose configuration is
    [cfg]: two log entries, a stats update and, when a configuration is
    retained, the start of the background clean-up. *)
Definition stopEffects (cfg : option TradingBot.TradingConfig) : list Effect :=
  [Log "info" "Stopping trading bot...";
   Log "success" "Trading bot stopped successfully";
   Emit "stats-update"]
  ++ (if BackupManager.isSome cfg
      then [Scheduled "cleanupFundsInBackground"] else []).

(** The world after a log entry, and after any other recorded effect. *)
Definition logged (e : Env) (level message : string) (w : World) : World :=
  {| files := files w; ticks := S (ticks w); minted := minted w;
     writes := writes w; trace := trace w ++ [Log level message] |}.

Definition recorded (x : Effect) (w : World) : World :=
  {| files := files w; ticks := ticks w; minted := minted w;
     writes := writes w; trace := trace w ++ [x] |}.

(** What a swap of a worker amounts to for the cycle: whether it
    succeeded, and whether a stop command was handled while it was
    awaited.  A worker whose secret key cannot be decoded fails before
    anything is awaited. *)
Definition tradeOutcome (e : Env) (o : TradingBot.TradeOutcome)
           (wallet : WalletManager.WalletInfo) : bool * bool :=
  match fromSecretKey e (WalletManager.privateKey wallet) with
  | None => (false, false)
  | Some _ => (TradingBot.t_success o, TradingBot.t_stop o)
  end.

(** A sale also fails before anything is awaited when the token
    address is no public key. *)
Definition sellOutcome (e : Env) (token : string)
           (o : TradingBot.TradeOutcome) (wallet : WalletManager.WalletInfo)
  : bool * bool :=
  if isPublicKey e token then tradeOutcome e o wallet else (false, false).

(** The outcomes of the workers [ws], the first of which has index [i]:
    the result of the call of each, and whether a stop command was
    handled during the call or during the wait that follows it when
    another worker is left. *)
Fixpoint outcomes (outcome : nat -> WalletManager.WalletInfo -> bool * bool)
         (waits : nat -> bool) (ws : list WalletManager.WalletInfo) (i : nat)
  : list (bool * bool) :=
  match ws with
  | [] => []
  | wallet :: rest =>
      (fst (outcome i wallet),
       snd (outcome i wallet) || ((0 <? List.length rest)%nat && waits i))
      :: outcomes outcome waits rest (S i)
  end.

Definition buyOutcomes (e : Env) (cn : TradingBot.CycleNet)
           (ws : list WalletManager.WalletInfo) : list (bool * bool) :=
  outcomes (fun i => tradeOutcome e (TradingBot.cn_buy cn i))
           (TradingBot.cn_stop_buy_wait cn) ws 0.

Definition sellOutcomes (e : Env) (cn : TradingBot.CycleNet) (token : string)
           (ws : list WalletManager.WalletInfo) : list (bool * bool) :=
  outcomes (fun i => sellOutcome e token (TradingBot.cn_sell cn i))
           (TradingBot.cn_stop_sell_wait cn) ws 0.

(** A phase calls the workers in order for as long as the bot is
    running: the results of the calls that were made, and whether the
    bot is still running after the phase. *)
Fixpoint phase (running : bool) (outs : list (bool * bool)) : list bool * bool :=
  match outs with
  | [] => ([], running)
  | (succeeded, stops) :: rest =>
      if running
      then (succeeded :: fst (phase (negb stops) rest),
            snd (phase (negb stops) rest))
      else ([], false)
  end.

(** The number of workers, among the first [n], whose Phase-A call and
    Phase-B call were both made and both succeeded. *)
Definition completeTrades (buys sells : list bool) (n : nat) : nat :=
  List.length
    (List.filter (fun i => nth i buys false && nth i sells false) (seq 0 n)).

(** The success rate of one iteration over the workers [ws], in percent. *)
Definition iterationRate (e : Env) (cn : TradingBot.CycleNet)
           (token : string) (ws : list WalletManager.WalletInfo) : Q :=
  let buys := phase true (buyOutcomes e cn ws) in
  let sells := phase (snd buys && negb (TradingBot.cn_stop_cooldown cn))
                     (sellOutcomes e cn token ws) in
  (inject_Z (Z.of_nat (completeTrades (fst buys) (fst sells) (List.length ws)))
   / inject_Z (Z.of_nat (List.length ws)))
  * (100 # 1).

(** Worker [i] of [ws] had its Phase-A call and its Phase-B call
    succeed. *)
Definition bothSucceed (e : Env) (cn : TradingBot.CycleNet)
           (token : string) (ws : list WalletManager.WalletInfo) (i : nat)
  : bool :=
  match nth_error ws i with
  | Some wallet =>
      fst (tradeOutcome e (TradingBot.cn_buy cn i) wallet)
      && fst (sellOutcome e token (TradingBot.cn_sell cn i) wallet)
  | None => false
  end.

(** No stop command is handled during the two phases of the iteration:
    none during a call, none during the pause between the phases, none
    during a wait between two workers. *)
Definition uninterrupted (cn : TradingBot.CycleNet) : Prop :=
  (forall i, TradingBot.t_stop (TradingBot.cn_buy cn i) = false) /\
  (forall i, TradingBot.t_stop (TradingBot.cn_sell cn i) = false) /\
  TradingBot.cn_stop_cooldown cn = false /\
  (forall i, TradingBot.cn_stop_buy_wait cn i = false) /\
  (forall i, TradingBot.cn_stop_sell_wait cn i = false).

(** [stop()] left the trace of the bot as it was. *)
Definition silent (before after : TradingBot.Bot) : Prop :=
  trace (TradingBot.bworld after) = trace (TradingBot.bworld before).

(** ** What a recovery asks of the network *)

Definition isSale (c : NetCall) : bool :=
  match c with NetSellTokens _ => true | _ => false end.

(** The public keys whose balance is queried, in order. *)
Definition balanceQueries (calls : list NetCall) : list string :=
  flat_map (fun c => match c with NetGetBalance k => [k] | _ => [] end) calls.

(** The transfers submitted: paying key and amount in lamports. *)
Definition transfers (calls : list NetCall) : list (string * Q) :=
  flat_map (fun c => match c with
                     | NetSendTransfer f a => [(f, a)]
                     | _ => []
                     end) calls.

(** The secret key of the worker can be decoded. *)
Definition decodable (e : Env) (wallet : WalletManager.WalletInfo) : bool :=
  BackupManager.isSome (fromSecretKey e (WalletManager.privateKey wallet)).

(** The combined balance the network reports for workers [0 .. n-1]. *)
Definition reportedBalance (script : nat -> WalletManager.WorkerScript)
           (n : nat) : Q :=
  fold_right Qplus 0
             (map (fun i => WalletManager.ws_balance (script i)) (seq 0 n)).

(** ** What a distribution sends *)

(** The signature of the transfer that funds the address of index [i],
    if it is funded: the owner is reported to hold the amount and the
    fee buffer, the address is a public key, the lamports to move are
    not negative, and the block hash, the submission and the
    confirmation go through. *)
Definition funds (e : Env) (ds : WalletManager.DistributeScript)
           (amountPerWallet : Q) (i : nat) (address : string)
  : option string :=
  let tr := WalletManager.ds_step ds i in
  match WalletManager.tr_balance tr with
  | Some held =>
      if WalletManager.Qgtb (amountPerWallet + (5 # 10000)) held then None
      else if isPublicKey e address
              && (0 <=? Qfloor (amountPerWallet
                                * WalletManager.LAMPORTS_PER_SOL))%Z
              && WalletManager.tr_blockhash_ok tr
              && WalletManager.tr_confirm_ok tr
           then WalletManager.tr_send tr
           else None
  | None => None
  end.

(** The addresses funded, each with its signature; the first address
    has index [i]. *)
Fixpoint fundings (e : Env) (ds : WalletManager.DistributeScript)
         (amountPerWallet : Q) (addresses : list string) (i : nat)
  : list (string * string) :=
  match addresses with
  | [] => []
  | address :: rest =>
      match funds e ds amountPerWallet i address with
      | Some signature => [(address, signature)]
      | None => []
      end ++ fundings e ds amountPerWallet rest (S i)
  end.

(** The transfers submitted by a distribution: receiving address and
    lamports. *)
Definition sends (calls : list WalletManager.FundCall)
  : list (string * Z) :=
  flat_map (fun c => match c with
                     | WalletManager.FcSend a l => [(a, l)]
                     | _ => []
                     end) calls.

Definition sentLamports (calls : list WalletManager.FundCall) : Z :=
  fold_right Z.add 0%Z (map snd (sends calls)).

(** [l] is [l'] with some of its elements left out: the elements of [l]
    occur in [l'] in the same order, each at a place of its own. *)
Inductive subseq {A : Type} : list A -> list A -> Prop :=
| subseq_nil : subseq [] []
| subseq_skip (x : A) (l l' : list A) : subseq l l' -> subseq l (x :: l')
| subseq_keep (x : A) (l l' : list A) :
    subseq l l' -> subseq (x :: l) (x :: l').

(** ** The directory as the services see it *)

(** The files of a directory that [getBackupFiles] reads: named
    [wallets-*.json] and parseable; in [readdir] order. *)
Definition readable (dir : list (string * option RawBackup))
  : list (string * RawBackup) :=
  flat_map (fun entry =>
              if JS.startsWith (fst entry) "wallets-"
                 && JS.endsWith (fst entry) ".json"
              then match snd entry with
                   | Some raw => [(fst entry, raw)]
                   | None => []
                   end
              else [])
           dir.

(** Backup [bf] is what [getBackupFiles] makes of the stored file
    [entry]. *)
Definition readFrom (e : Env) (bf : BackupFile) (entry : string * RawBackup)
  : Prop :=
  filename bf = fst entry /\
  bf_timestamp bf = timestamp (data bf) /\
  exists w0 w1,
    BackupManager.normalizeBackupFormat e (snd entry) w0 = (Ok (data bf), w1).

(** The stored file is in the current format. *)
Definition currentFormat (raw : RawBackup) : bool :=
  BackupManager.isSome (raw_metadata raw)
  && JS.truthyZ (raw_timestamp raw)
  && BackupManager.truthyMain (raw_mainWallet raw).

(** A stored sub-wallet entry that carries a creation time and a slot. *)
Definition stamped (s : SubWallet) : Prop :=
  JS.truthyZ (sw_createdAt s) = true /\ sw_index s <> None.

(** ** The snapshot files as stored *)

(** The public keys a stored file lists for its sub-wallets and for its
    main wallet.  A file without a main wallet is read with the
    placeholder identity; a main wallet that is no object has no public
    key, and is dropped from a file that is not in the current
    format. *)
Definition storedSubKeys (raw : RawBackup) : list string :=
  map sw_publicKey (raw_subWallets raw).

Definition storedMainKeys (raw : RawBackup) : list (option string) :=
  match raw_mainWallet raw with
  | MainObject m => [Some (mw_publicKey m)]
  | MainUndefined => [Some BackupManager.placeholderPublicKey]
  | MainOther => if currentFormat raw then [None] else []
  end.

(** The time a stored file carries: its [timestamp] when it is in the
    current format, else its [createdAt], else its [timestamp]. *)
Definition storedTime (raw : RawBackup) : option Z :=
  if currentFormat raw then raw_timestamp raw
  else if JS.truthyZ (raw_createdAt raw) then raw_createdAt raw
  else if JS.truthyZ (raw_timestamp raw) then raw_timestamp raw
  else None.

(** The snapshots of a directory: every readable file with the time it
    counts for, which is the time it carries or, for a file that
    carries none, the reading of the clock made when it is read
    ([tick] readings were made before). *)
Fixpoint snapshotsFrom (e : Env) (tick : nat)
         (entries : list (string * RawBackup))
  : list (string * RawBackup * Z) :=
  match entries with
  | [] => []
  | (name, raw) :: rest =>
      match storedTime raw with
      | Some t => (name, raw, t) :: snapshotsFrom e tick rest
      | None => (name, raw, clock e tick) :: snapshotsFrom e (S tick) rest
      end
  end.

Definition snapshots (e : Env) (w : World) : list (string * RawBackup * Z) :=
  snapshotsFrom e (ticks w) (readable (files w)).

(** The record [t] of the reconciled view comes from a snapshot that no
    snapshot listing the same public key exceeds in time: it names the
    file and the time of that snapshot and carries the keys of an entry
    stored there -- the entry itself when the file is in the current
    format or the entry carries its creation time and slot. *)
Definition newestStoredSub (snaps : list (string * RawBackup * Z))
           (t : BackupManager.TaggedSub) : Prop :=
  exists raw s,
    In (BackupManager.ts_backupFile t, raw, BackupManager.ts_timestamp t)
       snaps /\
    In s (raw_subWallets raw) /\
    sw_publicKey s = BackupManager.ts_publicKey t /\
    sw_privateKey s = sw_privateKey (BackupManager.ts_wallet t) /\
    (currentFormat raw = true \/ stamped s ->
     BackupManager.ts_wallet t = s) /\
    forall name' raw' time',
      In (name', raw', time') snaps ->
      In (BackupManager.ts_publicKey t) (storedSubKeys raw') ->
      (time' <= BackupManager.ts_timestamp t)%Z.

(** The main wallet read from a stored file at [time]. *)
Definition mainFrom (raw : RawBackup) (time : Z) (m : option MainWallet)
  : Prop :=
  match raw_mainWallet raw with
  | MainObject m0 =>
      exists m', m = Some m' /\ mw_publicKey m' = mw_publicKey m0 /\
                 mw_privateKey m' = mw_privateKey m0
  | MainUndefined => m = Some (placeholder time)
  | MainOther => currentFormat raw = true /\ m = None
  end.

Definition newestStoredMain (snaps : list (string * RawBackup * Z))
           (t : BackupManager.TaggedMain) : Prop :=
  exists raw,
    In (BackupManager.tm_backupFile t, raw, BackupManager.tm_timestamp t)
       snaps /\
    mainFrom raw (BackupManager.tm_timestamp t) (BackupManager.tm_wallet t) /\
    forall name' raw' time',
      In (name', raw', time') snaps ->
      In (BackupManager.tm_publicKey t) (storedMainKeys raw') ->
      (time' <= BackupManager.tm_timestamp t)%Z.

(** Backup [bf] is what the listing makes of the snapshot [snap]. *)
Definition storedAs (bf : BackupFile) (snap : string * RawBackup * Z) : Prop :=
  let '(name, raw, time) := snap in
  filename bf = name /\ bf_timestamp bf = time /\
  Forall2 (fun s' s =>
             sw_publicKey s' = sw_publicKey s /\
             sw_privateKey s' = sw_privateKey s /\
             (currentFormat raw = true \/ stamped s -> s' = s))
          (subWallets (data bf)) (raw_subWallets raw) /\
  match mainWallet (data bf) with
  | MainUndefined => storedMainKeys raw = []
  | MainObject m => mainFrom raw time (Some m)
  | MainOther => mainFrom raw time None
  end.

(** ** What a computation keeps *)

(** The relation [R] holds between the state in which [m] starts and the
    state in which it ends, whether it returns or throws. *)
Definition keeps {S A} (R : S -> S -> Prop) (m : M S A) : Prop :=
  forall s, R s (snd (m s)).

Definition scheduling (x : Effect) : bool :=
  match x with Scheduled _ => true | _ => false end.

(** The trace has only grown, and by effects that schedule nothing. *)
Definition extends (w w' : World) : Prop :=
  exists added,
    trace w' = trace w ++ added /\ existsb scheduling added = false.

(** The flags, the configuration, the stats and the timers are as
    before. *)
Definition sameControl (b b' : TradingBot.Bot) : Prop :=
  TradingBot.isRunning b' = TradingBot.isRunning b /\
  TradingBot.config b' = TradingBot.config b /\
  TradingBot.stats b' = TradingBot.stats b /\
  TradingBot.intervalId b' = TradingBot.intervalId b /\
  TradingBot.sessionTimeoutId b' = TradingBot.sessionTimeoutId b.

Definition evolves (b b' : TradingBot.Bot) : Prop :=
  sameControl b b' /\ extends (TradingBot.bworld b) (TradingBot.bworld b').

Definition settled (b b' : TradingBot.Bot) : Prop :=
  evolves b b' /\ TradingBot.subWallets b' = TradingBot.subWallets b.

(** Trading and clean-up may clear the running flag and the timers and
    add to volume and fees; the configuration, the workers, the cycle
    counters and the store are as before. *)
Definition calm (b b' : TradingBot.Bot) : Prop :=
  (TradingBot.isRunning b' = true -> TradingBot.isRunning b = true) /\
  TradingBot.config b' = TradingBot.config b /\
  TradingBot.subWallets b' = TradingBot.subWallets b /\
  TradingBot.cyclesCompleted (TradingBot.stats b')
  = TradingBot.cyclesCompleted (TradingBot.stats b) /\
  TradingBot.successRate (TradingBot.stats b')
  = TradingBot.successRate (TradingBot.stats b) /\
  TradingBot.startTime (TradingBot.stats b')
  = TradingBot.startTime (TradingBot.stats b) /\
  TradingBot.activeWallets (TradingBot.stats b')
  = TradingBot.activeWallets (TradingBot.stats b) /\
  files (TradingBot.bworld b') = files (TradingBot.bworld b) /\
  minted (TradingBot.bworld b') = minted (TradingBot.bworld b) /\
  writes (TradingBot.bworld b') = writes (TradingBot.bworld b).



(** [k] workers are polled in a pass of the readiness check over [ws]:
    every worker polled before the last one is reported to hold the buy
    amount, and the pass ends before the end of the list only at a
    worker that is reported to hold less. *)
Definition polledUpTo (answers : string -> Q) (buyAmount : Q)
           (ws : list WalletManager.WalletInfo) (k : nat) : Prop :=
  (k <= List.length ws)%nat /\
  (forall j wallet,
      (S j < k)%nat -> nth_error ws j = Some wallet ->
      buyAmount <= answers (WalletManager.publicKey wallet)) /\
  ((k < List.length ws)%nat ->
   (0 < k)%nat /\
   exists wallet,
     nth_error ws (Nat.pred k) = Some wallet /\
     answers (WalletManager.publicKey wallet) < buyAmount).

(** No request was made to the network. *)
Definition offline (b b' : TradingBot.Bot) : Prop :=
  Spec.netCalls (trace (TradingBot.bworld b'))
  = Spec.netCalls (trace (TradingBot.bworld b)).


End Spec.

(* ================================================================== *)
(** * Concrete environments and worlds *)
(* ================================================================== *)

Module Examples.

(** Keys of 64 characters that [Keypair.fromSecretKey] accepts, and one
    it rejects. *)
Definition ownerKey : string :=
  "OWNERxxxxxxxxxxxxxxxxxxxxxxxxxxxxxxxxxxxxxxxxxxxxxxxxxxxxxxxxxxxx".

Definition brokenKey : string := "not-a-key".

(** An environment whose clock starts at [1000] and advances by one at
    every reading, whose generator numbers its keypairs, and whose file
    system accepts a write or not according to [disk]. *)
Definition env (disk : bool) : Env :=
  {| clock := fun n => (1000 + Z.of_nat n)%Z;
     keygen := fun n =>
       (("PK" ++ JS.string_of_Z (Z.of_nat n))%string,
        ("SK" ++ JS.string_of_Z (Z.of_nat n))%string);
     write_ok := fun _ => disk;
     fromSecretKey := fun k =>
       if String.eqb k brokenKey then None else Some ("pub:" ++ k)%string;
     hmac_sha256 := fun _ data => ("sig:" ++ data)%string;
     parse_payload := fun p =>
       if String.eqb p "expired" then Some (Some 5%Z)
       else if String.eqb p "garbage" then None
       else Some (Some 5000%Z);
     isPublicKey := fun _ => true |}.

Definition emptyWorld : World :=
  {| files := []; ticks := 0; minted := 0; writes := 0; trace := [] |}.

Definition wallet (pk sk : string) : SubWallet :=
  {| sw_publicKey := pk; sw_privateKey := sk;
     sw_createdAt := None; sw_index := None |}.

(** A legacy file: no metadata, no timestamp, no main wallet. *)
Definition legacy (subs : list SubWallet) : RawBackup :=
  {| raw_metadata := None; raw_version := None; raw_timestamp := None;
     raw_createdAt := None; raw_mainWallet := MainUndefined;
     raw_subWallets := subs |}.

(** A legacy file that carries its creation time. *)
Definition dated (t : Z) (subs : list SubWallet) : RawBackup :=
  {| raw_metadata := None; raw_version := None; raw_timestamp := Some t;
     raw_createdAt := None; raw_mainWallet := MainUndefined;
     raw_subWallets := subs |}.

Definition worldOf (dir : list (string * option RawBackup)) : World :=
  {| files := dir; ticks := 0; minted := 0; writes := 0; trace := [] |}.

(** Two legacy files without a timestamp, one worker each. *)
Definition undatedWorld : World :=
  worldOf [("wallets-a.json"%string, Some (legacy [wallet "A" "a"]));
           ("wallets-b.json"%string, Some (legacy [wallet "B" "b"]))].

(** A clock that stands still for the first two readings and moves on
    afterwards. *)
Definition stutteringEnv : Env :=
  {| clock := fun n => match n with
                       | 0%nat | 1%nat => 100%Z
                       | _ => (200 + Z.of_nat n)%Z
                       end;
     keygen := keygen (env true);
     write_ok := fun _ => true;
     fromSecretKey := fromSecretKey (env true);
     hmac_sha256 := hmac_sha256 (env true);
     parse_payload := parse_payload (env true);
     isPublicKey := fun _ => true |}.

Definition datedWorld : World :=
  worldOf [("wallets-1.json"%string,
            Some (dated 1 [wallet "A" "a"; wallet "B" "b"]));
           ("wallets-2.json"%string,
            Some (dated 2 [wallet "B" "b2"; wallet "C" "c"]))].

(** A legacy file whose [mainWallet] is a string instead of an object,
    as in [{"mainWallet": "9q36...", "subWallets": []}]. *)
Definition scalarMainFile : RawBackup :=
  {| raw_metadata := None; raw_version := None; raw_timestamp := Some 7%Z;
     raw_createdAt := None; raw_mainWallet := MainOther;
     raw_subWallets := [] |}.

Definition scalarMainWorld : World :=
  worldOf [("wallets-7.json"%string, Some scalarMainFile)].

(** Three workers; the secret key of [B] cannot be decoded. *)
Definition threeWorkers : World :=
  worldOf [("wallets-1.json"%string,
            Some (dated 1 [wallet "A" "a"; wallet "B" brokenKey;
                           wallet "C" "c"]))].

(** Every worker holds [balance] SOL; no token is sold; transfers go
    through and are signed [sig0], [sig1], ... *)
Definition payingScript (balance : Q) (i : nat) : WalletManager.WorkerScript :=
  {| WalletManager.ws_sell := Some (false, None);
     WalletManager.ws_balance := balance;
     WalletManager.ws_blockhash_ok := true;
     WalletManager.ws_send := Some ("sig" ++ JS.string_of_Z (Z.of_nat i))%string;
     WalletManager.ws_confirm_ok := true |}.

(** ** Bots *)

Definition freshBot (w : World) : TradingBot.Bot :=
  {| TradingBot.isRunning := false; TradingBot.config := None;
     TradingBot.stats := TradingBot.zeroStats;
     TradingBot.intervalId := None; TradingBot.sessionTimeoutId := None;
     TradingBot.subWallets := []; TradingBot.bworld := w |}.

(** A licence key is [VB-<payload>.<signature>]; in [env] the signature
    of [p] is [sig:p], the payload [expired] expired at time [5] and any
    other payload expires at time [5000]. *)
Definition configWith (license : string) : TradingBot.TradingConfig :=
  {| TradingBot.tokenAddress := "TOKEN";
     TradingBot.mainWalletPrivateKey := ownerKey;
     TradingBot.numberOfSubWallets := 3;
     TradingBot.buyAmount := 1 # 100;
     TradingBot.sessionDuration := 60;
     TradingBot.licenseKey := license |}.

Definition goodConfig : TradingBot.TradingConfig :=
  configWith "VB-pay.sig:pay".

Definition expiredConfig : TradingBot.TradingConfig :=
  configWith "VB-expired.sig:expired".

(** The distribution funds all three workers and every balance query
    answers one SOL. *)
Definition startNet : TradingBot.StartNet :=
  {| TradingBot.sn_distribute :=
       {| TradingBot.d_success := true;
          TradingBot.d_fundedWallets := Some ["A"; "B"; "C"]%string;
          TradingBot.d_error := None |};
     TradingBot.sn_balance := fun _ _ => 1 |}.

(** A bot that was started on the three workers, and the same bot after
    [stop()]: not running, its configuration retained. *)
Definition runningBot : TradingBot.Bot :=
  snd (TradingBot.start (env true) startNet goodConfig (freshBot threeWorkers)).

Definition stoppedBot : TradingBot.Bot :=
  snd (TradingBot.stop (env true) runningBot).

(** Every swap goes through with a fee of 5000 lamports, a sell yields
    a hundredth of a SOL, and no stop command arrives. *)
Definition swapOk : TradingBot.TradeOutcome :=
  {| TradingBot.t_success := true; TradingBot.t_fee := 5000 # 1000000000;
     TradingBot.t_volume := 1 # 100; TradingBot.t_stop := false |}.

Definition swapFails : TradingBot.TradeOutcome :=
  {| TradingBot.t_success := false; TradingBot.t_fee := 0;
     TradingBot.t_volume := 0; TradingBot.t_stop := false |}.

(** An iteration in which every buy succeeds and the sell of the third
    worker fails. *)
Definition thirdSellFails : TradingBot.CycleNet :=
  {| TradingBot.cn_balance := fun _ => 1;
     TradingBot.cn_buy := fun _ => swapOk;
     TradingBot.cn_stop_buy_wait := fun _ => false;
     TradingBot.cn_stop_cooldown := false;
     TradingBot.cn_sell := fun i => if (i =? 2)%nat then swapFails else swapOk;
     TradingBot.cn_stop_sell_wait := fun _ => false;
     TradingBot.cn_stop_pause := false |}.

(** Three workers whose secret keys can all be decoded. *)
Definition threeGoodWorkers : World :=
  worldOf [("wallets-1.json"%string,
            Some (dated 1 [wallet "A" "a"; wallet "B" "b"; wallet "C" "c"]))].

Definition tradingBot : TradingBot.Bot :=
  snd (TradingBot.start (env true) startNet goodConfig
                        (freshBot threeGoodWorkers)).

(** A directory with a file of another name, an unreadable snapshot and
    two readable ones. *)
Definition mixedWorld : World :=
  worldOf [("notes.txt"%string, Some (dated 9 [wallet "X" "x"]));
           ("wallets-1.json"%string, Some (dated 1 [wallet "A" "a"]));
           ("wallets-broken.json"%string, None);
           ("wallets-2.json"%string, Some (dated 2 [wallet "B" "b"]))].

(** A legacy file with two entries: the first carries its own creation
    time and slot, the second neither. *)
Definition halfStamped : RawBackup :=
  dated 50 [{| sw_publicKey := "A"; sw_privateKey := "a";
               sw_createdAt := Some 40%Z; sw_index := Some 7%Z |};
            wallet "B" "b"].

(** A distribution: the owner is reported to hold ten SOL, and the
    confirmation of the second transfer fails. *)
Definition fundingScript : WalletManager.DistributeScript :=
  {| WalletManager.ds_balance := Some 10;
     WalletManager.ds_step := fun i =>
       {| WalletManager.tr_balance := Some 10;
          WalletManager.tr_blockhash_ok := true;
          WalletManager.tr_send :=
            Some ("tx" ++ JS.string_of_Z (Z.of_nat i))%string;
          WalletManager.tr_confirm_ok := negb (Nat.eqb i 1) |} |}.

(** A configuration with a valid licence and an owner key that cannot
    be decoded. *)
Definition brokenOwnerConfig : TradingBot.TradingConfig :=
  {| TradingBot.tokenAddress := "TOKEN";
     TradingBot.mainWalletPrivateKey := Examples.brokenKey;
     TradingBot.numberOfSubWallets := 3;
     TradingBot.buyAmount := 1 # 100;
     TradingBot.sessionDuration := 60;
     TradingBot.licenseKey := "VB-pay.sig:pay" |}.

(** The good configuration with five workers requested. *)
Definition fiveWorkersConfig : TradingBot.TradingConfig :=
  {| TradingBot.tokenAddress := "TOKEN";
     TradingBot.mainWalletPrivateKey := Examples.ownerKey;
     TradingBot.numberOfSubWallets := 5;
     TradingBot.buyAmount := 1 # 100;
     TradingBot.sessionDuration := 60;
     TradingBot.licenseKey := "VB-pay.sig:pay" |}.

(** The distribution funds all three workers, but the balance query
    for [B] answers nothing, at every attempt. *)
Definition shortNet : TradingBot.StartNet :=
  {| TradingBot.sn_distribute :=
       {| TradingBot.d_success := true;
          TradingBot.d_fundedWallets := Some ["A"; "B"; "C"]%string;
          TradingBot.d_error := None |};
     TradingBot.sn_balance :=
       fun _ pk => if String.eqb pk "B" then 0 else 1 |}.

(** An environment in which [NOT-A-MINT] is no public key, a
    configuration that names it as the token, and the bot a start with
    that configuration leaves behind: the start fails at the token
    check, after the workers were resolved and funded, and the
    configuration is retained. *)
Definition pickyEnv : Env :=
  {| clock := clock (env true);
     keygen := keygen (env true);
     write_ok := fun _ => true;
     fromSecretKey := fromSecretKey (env true);
     hmac_sha256 := hmac_sha256 (env true);
     parse_payload := parse_payload (env true);
     isPublicKey := fun k => negb (String.eqb k "NOT-A-MINT") |}.

Definition badTokenConfig : TradingBot.TradingConfig :=
  {| TradingBot.tokenAddress := "NOT-A-MINT";
     TradingBot.mainWalletPrivateKey := Examples.ownerKey;
     TradingBot.numberOfSubWallets := 3;
     TradingBot.buyAmount := 1 # 100;
     TradingBot.sessionDuration := 60;
     TradingBot.licenseKey := "VB-pay.sig:pay" |}.

Definition badTokenBot : TradingBot.Bot :=
  snd (TradingBot.start pickyEnv startNet badTokenConfig
                        (freshBot threeGoodWorkers)).

End Examples.

(* ================================================================== *)
(** * Facts about the array primitives *)
(* ================================================================== *)

Unset Implicit Arguments.

Section DedupFacts.
Context {A K : Type} (key : A -> K) (eqb : K -> K -> bool).
Hypothesis eqb_eq : forall a b, eqb a b = true <-> a = b.

Lemma existsb_eqb_In (k : K) (seen : list K) :
  existsb (eqb k) seen = true <-> In k seen.
Proof.
  rewrite existsb_exists. split.
  - intros (y & Hy & E). apply eqb_eq in E. now subst.
  - intros H. exists k. split; [assumption | now apply eqb_eq].
Qed.

(** [findIndex] answers the position of an element exactly when no
    earlier element has its key. *)
Lemma findIndex_from_prefix (p : A -> bool) (pre suf : list A) (x : A) (i : Z) :
  p x = true ->
  (JS.findIndex_from p (pre ++ x :: suf) i =? i + Z.of_nat (List.length pre))%Z
  = forallb (fun y => negb (p y)) pre.
Proof.
  intros Hx. revert i. induction pre as [|y pre IH]; intros i; simpl.
  - rewrite Hx. apply Z.eqb_eq. lia.
  - destruct (p y) eqn:Hy; simpl.
    + apply Z.eqb_neq. lia.
    + rewrite <- (IH (i + 1)%Z). f_equal. lia.
Qed.

Lemma filter_from_firsts (whole pre suf : list A) :
  whole = pre ++ suf ->
  JS.filter_from
    (fun x i =>
       (JS.findIndex (fun w => eqb (key w) (key x)) whole =? i)%Z)
    suf (Z.of_nat (List.length pre))
  = Spec.firsts key eqb (map key pre) suf.
Proof.
  revert pre. induction suf as [|x suf IH]; intros pre Hw; simpl.
  - reflexivity.
  - assert (Hidx :
      (JS.findIndex (fun w => eqb (key w) (key x)) whole
       =? Z.of_nat (List.length pre))%Z
      = negb (existsb (eqb (key x)) (map key pre))).
    { subst whole. unfold JS.findIndex.
      assert (Hp := @findIndex_from_prefix
                      (fun w => eqb (key w) (key x)) pre suf x 0%Z
                      (proj2 (eqb_eq (key x) (key x)) eq_refl)).
      rewrite Z.add_0_l in Hp. rewrite Hp.
      clear Hp IH. induction pre as [|y pre IHp]; simpl; [reflexivity|].
      rewrite IHp. rewrite negb_orb. f_equal. f_equal.
      destruct (eqb (key y) (key x)) eqn:E1, (eqb (key x) (key y)) eqn:E2;
        try reflexivity.
      - apply eqb_eq in E1. rewrite E1 in E2.
        assert (eqb (key x) (key x) = true) by now apply eqb_eq. congruence.
      - apply eqb_eq in E2. rewrite E2 in E1.
        assert (eqb (key y) (key y) = true) by now apply eqb_eq. congruence. }
    rewrite Hidx.
    assert (Hnext : JS.filter_from
              (fun x0 i =>
                 (JS.findIndex (fun w => eqb (key w) (key x0)) whole =? i)%Z)
              suf (Z.of_nat (List.length pre) + 1)
            = Spec.firsts key eqb (map key (pre ++ [x])) suf).
    { replace (Z.of_nat (List.length pre) + 1)%Z
        with (Z.of_nat (List.length (pre ++ [x])))
        by (rewrite length_app; simpl; lia).
      apply IH. subst whole. now rewrite <- app_assoc. }
    rewrite Hnext.
    assert (Hseen : forall seen seen' l,
               (forall k, In k seen <-> In k seen') ->
               Spec.firsts key eqb seen l = Spec.firsts key eqb seen' l).
    { clear - eqb_eq. intros seen seen' l. revert seen seen'.
      induction l as [|a l IHl]; intros seen seen' Heq; simpl; [reflexivity|].
      assert (E : existsb (eqb (key a)) seen = existsb (eqb (key a)) seen').
      { destruct (existsb (eqb (key a)) seen) eqn:E1;
        destruct (existsb (eqb (key a)) seen') eqn:E2; try reflexivity.
        - apply existsb_eqb_In in E1. apply Heq in E1.
          apply existsb_eqb_In in E1. congruence.
        - apply existsb_eqb_In in E2. apply Heq in E2.
          apply existsb_eqb_In in E2. congruence. }
      rewrite E. destruct (existsb (eqb (key a)) seen').
      - now apply IHl.
      - f_equal. apply IHl. intros k. simpl. rewrite Heq. tauto. }
    destruct (existsb (eqb (key x)) (map key pre)) eqn:Ex; simpl.
    + apply Hseen. intros k. rewrite map_app, in_app_iff. simpl.
      apply existsb_eqb_In in Ex. split; [|tauto].
      intros [H|[H|[]]]; [assumption | now subst].
    + f_equal. apply Hseen. intros k. rewrite map_app, in_app_iff. simpl.
      tauto.
Qed.

Lemma unique_firsts (l : list A) :
  Spec.unique key eqb l = Spec.firsts key eqb [] l.
Proof.
  unfold Spec.unique, JS.filter.
  exact (@filter_from_firsts l [] l eq_refl).
Qed.

Lemma firsts_keys (seen : list K) (l : list A) (k : K) :
  In k (map key (Spec.firsts key eqb seen l))
  <-> In k (map key l) /\ ~ In k seen.
Proof.
  revert seen. induction l as [|x l IH]; intros seen; simpl.
  - tauto.
  - destruct (existsb (eqb (key x)) seen) eqn:E.
    + apply existsb_eqb_In in E. rewrite IH. split.
      * tauto.
      * intros [[H|H] Hn]; [subst; contradiction | tauto].
    + assert (Hx : ~ In (key x) seen).
      { intros H. apply existsb_eqb_In in H. congruence. }
      simpl. rewrite IH. simpl. split.
      * intros [H|[H Hn]]; [subst; tauto | tauto].
      * intros [[H|H] Hn]; [tauto|].
        destruct (existsb (eqb k) [key x]) eqn:Ek.
        -- apply existsb_eqb_In in Ek. destruct Ek as [Ek|[]]. now left.
        -- right. split; [assumption|]. intros [Hk|Hk]; [|contradiction].
           subst k. simpl in Ek.
           assert (eqb (key x) (key x) = true) by now apply eqb_eq.
           rewrite H0 in Ek. discriminate.
Qed.

Lemma firsts_NoDup (seen : list K) (l : list A) :
  NoDup (map key (Spec.firsts key eqb seen l)).
Proof.
  revert seen. induction l as [|x l IH]; intros seen; simpl.
  - constructor.
  - destruct (existsb (eqb (key x)) seen); [apply IH|].
    simpl. constructor; [|apply IH].
    rewrite firsts_keys. simpl. tauto.
Qed.

(** A kept element occurs in the array with no element of its key
    before it. *)
Lemma firsts_first (seen : list K) (l : list A) (x : A) :
  In x (Spec.firsts key eqb seen l) ->
  exists l1 l2, l = l1 ++ x :: l2 /\ ~ In (key x) (map key l1).
Proof.
  revert seen. induction l as [|y l IH]; intros seen; simpl; [tauto|].
  destruct (existsb (eqb (key y)) seen) eqn:E.
  - intros H. destruct (IH _ H) as (l1 & l2 & -> & Hn).
    assert (Hk := proj1 (firsts_keys seen (l1 ++ x :: l2) (key x))
                        (in_map key _ _ H)).
    exists (y :: l1), l2. split; [reflexivity|]. simpl.
    intros [Hy|Hy]; [|contradiction].
    apply existsb_eqb_In in E. rewrite Hy in E. tauto.
  - intros [->|H].
    + exists [], l. split; [reflexivity | simpl; tauto].
    + destruct (IH _ H) as (l1 & l2 & -> & Hn).
      assert (Hk := proj1 (firsts_keys (key y :: seen) (l1 ++ x :: l2) (key x))
                          (in_map key _ _ H)).
      exists (y :: l1), l2. split; [reflexivity|]. simpl.
      intros [Hy|Hy]; [|contradiction].
      apply (proj2 Hk). now left.
Qed.

Context (K_dec : forall a b : K, {a = b} + {a <> b}).

(** The size of the deduplicated array is the number of distinct keys. *)
Lemma unique_length (l : list A) :
  List.length (Spec.unique key eqb l)
  = List.length (nodup K_dec (map key l)).
Proof.
  rewrite unique_firsts, <- (length_map key).
  apply Permutation_length, NoDup_Permutation.
  - apply firsts_NoDup.
  - apply NoDup_nodup.
  - intros k. rewrite firsts_keys, nodup_In. simpl. tauto.
Qed.
End DedupFacts.

Section SortFacts.
Context {A : Type} (rank : A -> Z).

Let newest_first (a b : A) : Z := (rank b - rank a)%Z.
Let before (a b : A) : Prop := (rank b <= rank a)%Z.

Lemma sort_insert_perm (cmp : A -> A -> Z) (x : A) (l : list A) :
  Permutation (JS.sort_insert cmp x l) (x :: l).
Proof.
  induction l as [|y l IH]; simpl.
  - reflexivity.
  - destruct (0 <? cmp x y)%Z.
    + rewrite IH. apply perm_swap.
    + reflexivity.
Qed.

Lemma sort_perm (cmp : A -> A -> Z) (l : list A) :
  Permutation (JS.sort cmp l) l.
Proof.
  induction l as [|x l IH]; simpl.
  - reflexivity.
  - rewrite sort_insert_perm. now constructor.
Qed.

Lemma sort_insert_sorted (x : A) (l : list A) :
  StronglySorted before l ->
  StronglySorted before (JS.sort_insert newest_first x l).
Proof.
  induction 1 as [|y l Hs IH Hall]; simpl.
  - repeat constructor.
  - unfold newest_first at 1. destruct (0 <? rank y - rank x)%Z eqn:E.
    + apply Z.ltb_lt in E. constructor; [assumption|].
      eapply Permutation_Forall.
      * symmetry. apply sort_insert_perm.
      * constructor; [unfold before; lia | assumption].
    + apply Z.ltb_ge in E. constructor.
      * now constructor.
      * constructor; [unfold before; lia|].
        eapply Forall_impl; [|exact Hall].
        unfold before. intros z Hz. lia.
Qed.

Lemma sort_sorted (l : list A) :
  StronglySorted before (JS.sort newest_first l).
Proof.
  induction l as [|x l IH]; simpl.
  - constructor.
  - now apply sort_insert_sorted.
Qed.

Lemma sorted_after (l1 l2 : list A) (x y : A) :
  StronglySorted before (l1 ++ x :: l2) -> In y l2 -> (rank y <= rank x)%Z.
Proof.
  induction l1 as [|z l1 IH]; simpl; intros Hs Hy.
  - apply StronglySorted_inv in Hs. destruct Hs as [_ Hall].
    rewrite Forall_forall in Hall. now apply Hall.
  - apply StronglySorted_inv in Hs. now apply IH.
Qed.
End SortFacts.

Lemma flat_map_split {A B : Type} (f : A -> list B) (l : list A)
      (l1 l2 : list B) (x : B) :
  flat_map f l = l1 ++ x :: l2 ->
  exists a1 b a2 p q,
    l = a1 ++ b :: a2 /\ f b = p ++ x :: q /\ l1 = flat_map f a1 ++ p.
Proof.
  revert l1. induction l as [|b l IH]; intros l1 H; simpl in H.
  - destruct l1; discriminate.
  - assert (Hcases :
      (exists q, f b = l1 ++ x :: q)
      \/ (exists r, l1 = f b ++ r /\ flat_map f l = r ++ x :: l2)).
    { clear IH. revert l1 H. generalize (f b) as u.
      induction u as [|c u IHu]; intros l1 H; simpl in *.
      - right. exists l1. now split.
      - destruct l1 as [|d l1]; simpl in H.
        + injection H as -> _. left. exists u. reflexivity.
        + injection H as -> H. destruct (IHu _ H) as [[q Hq]|[r [Hr1 Hr2]]].
          * left. exists q. simpl. now rewrite Hq.
          * right. exists r. split; [now rewrite Hr1 | assumption]. }
    destruct Hcases as [[q Hq]|[r [Hr1 Hr2]]].
    + exists [], b, l, l1, q. repeat split; assumption.
    + destruct (IH _ Hr2) as (a1 & b' & a2 & p & q & -> & Hb & ->).
      exists (b :: a1), b', a2, p, q. repeat split; [assumption|].
      simpl. now rewrite Hr1, app_assoc.
Qed.

Lemma nodup_length_perm {K : Type} (K_dec : forall a b : K, {a = b} + {a <> b})
      (l l' : list K) :
  Permutation l l' ->
  List.length (nodup K_dec l) = List.length (nodup K_dec l').
Proof.
  intros H. apply Permutation_length, NoDup_Permutation.
  - apply NoDup_nodup.
  - apply NoDup_nodup.
  - intros k. rewrite !nodup_In. split; apply Permutation_in;
      [assumption | now symmetry].
Qed.

(** Deduplicating the occurrences listed by the snapshots, newest
    snapshot first. *)
Section ReconcileFacts.
Context {T K : Type} (occ : BackupFile -> list T) (key : T -> K)
        (eqb : K -> K -> bool).
Hypothesis eqb_eq : forall a b, eqb a b = true <-> a = b.
Context (K_dec : forall a b : K, {a = b} + {a <> b}).

Let newest_first (a b : BackupFile) : Z := (bf_timestamp b - bf_timestamp a)%Z.
Let view (snaps : list BackupFile) : list T :=
  Spec.unique key eqb (flat_map occ (JS.sort newest_first snaps)).

Lemma view_NoDup (snaps : list BackupFile) : NoDup (map key (view snaps)).
Proof.
  unfold view. rewrite (unique_firsts key eqb eqb_eq).
  apply (firsts_NoDup key eqb eqb_eq).
Qed.

Lemma view_length (snaps : list BackupFile) :
  List.length (view snaps)
  = List.length (nodup K_dec (flat_map (fun bf => map key (occ bf)) snaps)).
Proof.
  unfold view. rewrite (unique_length key eqb eqb_eq K_dec).
  apply nodup_length_perm.
  transitivity (map key (flat_map occ snaps)).
  - apply Permutation_map, Permutation_flat_map, sort_perm.
  - rewrite flat_map_concat_map, concat_map, map_map,
      <- flat_map_concat_map. reflexivity.
Qed.

Lemma view_newest (snaps : list BackupFile) (t : T) :
  In t (view snaps) ->
  exists bf,
    In bf snaps /\ In t (occ bf) /\
    forall bf', In bf' snaps -> In (key t) (map key (occ bf')) ->
                (bf_timestamp bf' <= bf_timestamp bf)%Z.
Proof.
  unfold view. rewrite (unique_firsts key eqb eqb_eq). intros Ht.
  destruct (firsts_first key eqb eqb_eq _ _ _ Ht) as (l1 & l2 & Hl & Hfirst).
  destruct (flat_map_split _ _ _ _ _ Hl)
    as (a1 & bf & a2 & p & q & Hsorted & Hbf & ->).
  assert (Hperm := sort_perm newest_first snaps).
  assert (Hs := sort_sorted bf_timestamp snaps).
  fold newest_first in Hs. rewrite Hsorted in Hs, Hperm.
  exists bf. split; [|split].
  - eapply Permutation_in; [exact Hperm|]. apply in_or_app. right. now left.
  - rewrite Hbf. apply in_or_app. right. now left.
  - intros bf' Hin Hkey.
    apply (Permutation_in _ (Permutation_sym Hperm)) in Hin.
    apply in_app_or in Hin. destruct Hin as [Hin|[<-|Hin]].
    + exfalso. apply Hfirst. rewrite map_app. apply in_or_app. left.
      apply in_map_iff in Hkey. destruct Hkey as (t' & Hk & Ht').
      apply in_map_iff. exists t'. split; [assumption|].
      apply in_flat_map. now exists bf'.
    + lia.
    + eapply sorted_after; eassumption.
Qed.
End ReconcileFacts.

(* ================================================================== *)
(** * The snapshot store and the reconciler *)
(* ================================================================== *)

Lemma eqb_ostring_eq (a b : option string) :
  BackupManager.eqb_ostring a b = true <-> a = b.
Proof.
  destruct a as [x|], b as [y|]; simpl; try (split; congruence).
  rewrite String.eqb_eq. split; congruence.
Qed.

Lemma clock_only_refl (w : World) : Spec.clock_only w w.
Proof. unfold Spec.clock_only. repeat split; lia. Qed.

Lemma clock_only_trans (w1 w2 w3 : World) :
  Spec.clock_only w1 w2 -> Spec.clock_only w2 w3 -> Spec.clock_only w1 w3.
Proof.
  unfold Spec.clock_only. intros (a & b & c & d & f) (a' & b' & c' & d' & f').
  repeat split; try congruence. lia.
Qed.

Lemma date_now_ok (e : Env) (w : World) :
  exists w', date_now e w = (Ok (clock e (ticks w)), w') /\ Spec.clock_only w w'.
Proof.
  eexists. split; [reflexivity|]. unfold Spec.clock_only. simpl.
  repeat split; lia.
Qed.

(** Normalising a stored file cannot throw and only reads the clock. *)
Lemma normalizeBackupFormat_ok (e : Env) (raw : RawBackup) (w : World) :
  exists b w',
    BackupManager.normalizeBackupFormat e raw w = (Ok b, w') /\
    Spec.clock_only w w'.
Proof.
  unfold BackupManager.normalizeBackupFormat.
  destruct (BackupManager.isSome (raw_metadata raw)
            && JS.truthyZ (raw_timestamp raw)
            && BackupManager.truthyMain (raw_mainWallet raw)).
  - eexists _, w. split; [reflexivity | apply clock_only_refl].
  - destruct (JS.truthyZ (raw_timestamp raw) || JS.truthyZ (raw_createdAt raw)).
    + eexists _, w. split; [reflexivity | apply clock_only_refl].
    + destruct (date_now_ok e w) as (w' & Hn & Hc).
      eexists _, w'. split; [|exact Hc].
      unfold bind. rewrite Hn. reflexivity.
Qed.

Lemma readBackupFiles_ok (e : Env) (dir : list (string * option RawBackup))
      (w : World) :
  exists snaps w',
    BackupManager.readBackupFiles e dir w = (Ok snaps, w') /\
    Spec.clock_only w w'.
Proof.
  revert w. induction dir as [|[name content] dir IH]; intros w; simpl.
  - exists [], w. split; [reflexivity | apply clock_only_refl].
  - destruct (JS.startsWith name "wallets-" && JS.endsWith name ".json");
      [|apply IH].
    destruct content as [raw|]; [|apply IH].
    destruct (normalizeBackupFormat_ok e raw w) as (b & w1 & Hn & Hc1).
    destruct (IH w1) as (snaps & w2 & Hr & Hc2).
    eexists _, w2. split; [|eapply clock_only_trans; eassumption].
    unfold bind at 1. rewrite Hn. unfold bind at 1. rewrite Hr. reflexivity.
Qed.

Lemma subKeys_subsOf (bf : BackupFile) :
  map BackupManager.ts_publicKey (BackupManager.subsOf bf) = Spec.subKeys bf.
Proof.
  unfold BackupManager.subsOf, Spec.subKeys. rewrite map_map. reflexivity.
Qed.

Lemma Forall2_In_l {A B : Type} (R : A -> B -> Prop) (l : list A) (l' : list B)
      (a : A) :
  Forall2 R l l' -> In a l -> exists b, In b l' /\ R a b.
Proof.
  induction 1 as [|x y l l' Hxy _ IH]; intros Hin; [contradiction|].
  destruct Hin as [<-|Hin].
  - exists y. split; [now left | assumption].
  - destruct (IH Hin) as (b & Hb & Hr). exists b. split; [now right | assumption].
Qed.

Lemma Forall2_In_r {A B : Type} (R : A -> B -> Prop) (l : list A) (l' : list B)
      (b : B) :
  Forall2 R l l' -> In b l' -> exists a, In a l /\ R a b.
Proof.
  induction 1 as [|x y l l' Hxy _ IH]; intros Hin; [contradiction|].
  destruct Hin as [<-|Hin].
  - exists x. split; [now left | assumption].
  - destruct (IH Hin) as (a & Ha & Hr). exists a. split; [now right | assumption].
Qed.

Lemma Forall2_map_combine_seq {A B : Type} (R : B -> A -> Prop)
      (g : nat * A -> B) (l : list A) (k : nat) :
  (forall i x, R (g (i, x)) x) ->
  Forall2 R (map g (combine (seq k (List.length l)) l)) l.
Proof.
  intros H. revert k. induction l as [|x l IH]; intros k; simpl;
    constructor; auto.
Qed.

(** What normalisation makes of a stored file read in world [w]. *)
Lemma normalize_stored (e : Env) (raw : RawBackup) (w : World) :
  exists b w',
    BackupManager.normalizeBackupFormat e raw w = (Ok b, w') /\
    (match Spec.storedTime raw with
     | Some t => timestamp b = t /\ ticks w' = ticks w
     | None => timestamp b = clock e (ticks w) /\ ticks w' = S (ticks w)
     end) /\
    forall name,
      Spec.storedAs {| filename := name;
                        path := BackupManager.path_join
                                  BackupManager.backupDir name;
                        bf_timestamp := timestamp b; data := b |}
                     (name, raw, timestamp b).
Proof.
  unfold BackupManager.normalizeBackupFormat, Spec.storedTime,
    Spec.storedAs, Spec.mainFrom, Spec.storedMainKeys, Spec.currentFormat.
  destruct (BackupManager.isSome (raw_metadata raw)
            && JS.truthyZ (raw_timestamp raw)
            && BackupManager.truthyMain (raw_mainWallet raw)) eqn:Hcur.
  - eexists _, w. split; [reflexivity|].
    apply andb_true_iff in Hcur. destruct Hcur as [Hcur Hmain].
    apply andb_true_iff in Hcur. destruct Hcur as [_ Hts].
    destruct (raw_timestamp raw) as [t|]; [|discriminate].
    split; [split; reflexivity|].
    intros name. cbn. split; [reflexivity|]. split; [reflexivity|]. split.
    + clear. induction (raw_subWallets raw); constructor; auto.
    + destruct (raw_mainWallet raw) as [|m|]; [discriminate| |].
      * exists m. auto.
      * auto.
  - assert (Hsubs : forall t,
               Forall2 (fun s' s =>
                          sw_publicKey s' = sw_publicKey s /\
                          sw_privateKey s' = sw_privateKey s /\
                          (false = true \/ Spec.stamped s -> s' = s))
                 (map (fun '(index, wallet) =>
                         {| sw_publicKey := sw_publicKey wallet;
                            sw_privateKey := sw_privateKey wallet;
                            sw_createdAt :=
                              Some (if JS.truthyZ (sw_createdAt wallet)
                                    then match sw_createdAt wallet with
                                         | Some t0 => t0 | None => 0%Z end
                                    else t);
                            sw_index :=
                              Some (match sw_index wallet with
                                    | Some i => i
                                    | None => Z.of_nat index
                                    end) |})
                      (combine (seq 0 (List.length (raw_subWallets raw)))
                               (raw_subWallets raw)))
                 (raw_subWallets raw)).
    { intros t.
      apply Forall2_map_combine_seq. intros i x. cbn.
      split; [reflexivity|]. split; [reflexivity|].
      intros [Hf|(Hc & Hi)]; [discriminate|].
      destruct x as [pk sk c ix]. cbn in *. rewrite Hc.
      destruct c as [c|]; [|discriminate]. destruct ix as [ix|]; [|congruence].
      reflexivity. }
    destruct (JS.truthyZ (raw_createdAt raw)) eqn:Hc;
      [|destruct (JS.truthyZ (raw_timestamp raw)) eqn:Ht].
    + rewrite orb_true_r.
      destruct (raw_createdAt raw) as [c|]; [|discriminate].
      eexists _, w. split; [reflexivity|]. split; [split; reflexivity|].
      intros name. cbn. split; [reflexivity|]. split; [reflexivity|].
      split; [apply Hsubs|].
      destruct (raw_mainWallet raw) as [|m|]; cbn; eauto.
    + cbn [orb].
      destruct (raw_timestamp raw) as [t|]; [|discriminate].
      eexists _, w. split; [reflexivity|]. split; [split; reflexivity|].
      intros name. cbn. split; [reflexivity|]. split; [reflexivity|].
      split; [apply Hsubs|].
      destruct (raw_mainWallet raw) as [|m|]; cbn; eauto.
    + cbn [orb]. eexists _, _. split; [reflexivity|].
      split; [split; reflexivity|].
      intros name. cbn. split; [reflexivity|]. split; [reflexivity|].
      split; [apply Hsubs|].
      destruct (raw_mainWallet raw) as [|m|]; cbn; eauto.
Qed.

(** The listing read from a directory, file by file. *)
Lemma readBackupFiles_stored (e : Env) (dir : list (string * option RawBackup))
      (w : World) :
  exists snaps w',
    BackupManager.readBackupFiles e dir w = (Ok snaps, w') /\
    Forall2 Spec.storedAs snaps
            (Spec.snapshotsFrom e (ticks w) (Spec.readable dir)).
Proof.
  revert w. induction dir as [|[name content] dir IH]; intros w;
    cbn [BackupManager.readBackupFiles Spec.readable flat_map fst snd].
  - exists [], w. split; [reflexivity | constructor].
  - destruct (JS.startsWith name "wallets-" && JS.endsWith name ".json");
      [|apply IH].
    destruct content as [raw|]; [|apply IH].
    destruct (normalize_stored e raw w) as (b & w1 & Hn & Htime & Hstored).
    destruct (IH w1) as (snaps & w2 & Hr & Hall).
    eexists _, w2. split.
    + unfold bind at 1. rewrite Hn. unfold bind at 1. rewrite Hr. reflexivity.
    + cbn [app Spec.snapshotsFrom].
      destruct (Spec.storedTime raw) as [t|]; destruct Htime as (Ht & Hticks);
        rewrite Hticks in Hall; rewrite <- Ht;
        (constructor; [apply Hstored | exact Hall]).
Qed.

Lemma storedAs_keys (bf : BackupFile) (snap : string * RawBackup * Z) :
  Spec.storedAs bf snap ->
  Spec.subKeys bf = Spec.storedSubKeys (snd (fst snap)) /\
  Spec.mainKeys bf = Spec.storedMainKeys (snd (fst snap)).
Proof.
  destruct snap as [[name raw] time]. cbn [fst snd].
  intros (_ & _ & Hsubs & Hmain). split.
  - unfold Spec.subKeys, Spec.storedSubKeys.
    induction Hsubs as [|s' s l' l (Hpk & _) _ IH]; cbn [map];
      [reflexivity | now rewrite Hpk, IH].
  - unfold Spec.mainKeys, BackupManager.mainsOf, Spec.storedMainKeys,
      Spec.mainFrom in *.
    destruct (mainWallet (data bf)) as [|m|]; cbn [map].
    + now rewrite Hmain.
    + destruct (raw_mainWallet raw) as [|m0|].
      * injection Hmain as ->. reflexivity.
      * destruct Hmain as (m' & [= <-] & Hpk & _).
        unfold BackupManager.tm_publicKey. cbn. now rewrite Hpk.
      * destruct Hmain as (_ & Hm). discriminate.
    + destruct (raw_mainWallet raw) as [|m0|].
      * discriminate.
      * destruct Hmain as (m' & Hm & _). discriminate.
      * destruct Hmain as (-> & _). reflexivity.
Qed.

Lemma flat_map_Forall2 {A B C : Type} (R : A -> B -> Prop)
      (f : A -> list C) (g : B -> list C) (l : list A) (l' : list B) :
  (forall a b, R a b -> f a = g b) ->
  Forall2 R l l' -> flat_map f l = flat_map g l'.
Proof.
  intros H. induction 1 as [|a b l l' Hab _ IH]; cbn [flat_map];
    [reflexivity|]. now rewrite (H a b Hab), IH.
Qed.

Lemma flat_map_over_map {A B C : Type} (f : A -> B) (g : B -> list C)
      (l : list A) :
  flat_map g (map f l) = flat_map (fun x => g (f x)) l.
Proof. induction l; cbn; [reflexivity | now f_equal]. Qed.

Lemma snapshotsFrom_entries (e : Env) (tick : nat)
      (entries : list (string * RawBackup)) :
  map fst (Spec.snapshotsFrom e tick entries) = entries.
Proof.
  revert tick. induction entries as [|[name raw] entries IH]; intros tick;
    cbn [Spec.snapshotsFrom]; [reflexivity|].
  destruct (Spec.storedTime raw); cbn [map fst]; now rewrite IH.
Qed.

(** C1 -- Whatever the directory holds, [getAllWalletsFromBackups] returns
    a view in which no public key occurs twice and whose size is the
    number of distinct public keys listed by the readable snapshot
    files of the directory; every retained record names a snapshot file
    that lists its public key, carries the keys of the entry stored
    there (the entry itself when the file is in the current format or
    the entry carries its creation time and slot) and the time of that
    snapshot, and no snapshot that lists the same key exceeds that
    snapshot in time.  This holds for the sub-wallets and, with the
    main wallet a file is read with, for the main wallets. *)
Theorem C1_reconciled_view_newest_wins (e : Env) (w : World) :
  exists view w',
    BackupManager.getAllWalletsFromBackups e w = (Ok view, w') /\
    NoDup (map BackupManager.ts_publicKey (BackupManager.subWalletsR view)) /\
    List.length (BackupManager.subWalletsR view)
    = List.length
        (nodup string_dec
               (flat_map (fun entry => Spec.storedSubKeys (snd entry))
                         (Spec.readable (files w)))) /\
    (forall t, In t (BackupManager.subWalletsR view) ->
               Spec.newestStoredSub (Spec.snapshots e w) t) /\
    NoDup (map BackupManager.tm_publicKey (BackupManager.mainWallets view)) /\
    List.length (BackupManager.mainWallets view)
    = List.length
        (nodup Spec.ostring_dec
               (flat_map (fun entry => Spec.storedMainKeys (snd entry))
                         (Spec.readable (files w)))) /\
    (forall t, In t (BackupManager.mainWallets view) ->
               Spec.newestStoredMain (Spec.snapshots e w) t).
Proof.
  destruct (readBackupFiles_stored e (files w) w) as (snaps & w' & Hr & Hall).
  fold (Spec.snapshots e w) in Hall.
  exists (BackupManager.reconcile
            (JS.sort (fun a b => (bf_timestamp b - bf_timestamp a)%Z) snaps)),
    w'.
  split.
  { unfold BackupManager.getAllWalletsFromBackups, BackupManager.getBackupFiles.
    unfold bind. rewrite Hr. reflexivity. }
  assert (Hkeys : forall bf snap,
             Spec.storedAs bf snap ->
             Spec.subKeys bf = Spec.storedSubKeys (snd (fst snap)) /\
             Spec.mainKeys bf = Spec.storedMainKeys (snd (fst snap)))
    by exact storedAs_keys.
  assert (Hentries : map fst (Spec.snapshots e w) = Spec.readable (files w))
    by apply snapshotsFrom_entries.
  assert (Hothers : forall (keys : BackupFile -> list string)
                           (stored : RawBackup -> list string),
             True) by auto.
  clear Hothers.
  simpl. repeat split.
  - apply (view_NoDup BackupManager.subsOf BackupManager.ts_publicKey
                      String.eqb String.eqb_eq).
  - rewrite (view_length BackupManager.subsOf BackupManager.ts_publicKey
                         String.eqb String.eqb_eq string_dec).
    rewrite (flat_map_ext _ _ subKeys_subsOf).
    rewrite (flat_map_Forall2 Spec.storedAs Spec.subKeys
               (fun snap => Spec.storedSubKeys (snd (fst snap)))
               snaps (Spec.snapshots e w)
               (fun bf snap H => proj1 (Hkeys bf snap H)) Hall).
    rewrite <- Hentries, flat_map_over_map. reflexivity.
  - intros t Ht.
    destruct (view_newest BackupManager.subsOf BackupManager.ts_publicKey
                          String.eqb String.eqb_eq snaps t Ht)
      as (bf & H1 & H2 & H3).
    destruct (Forall2_In_l _ _ _ _ Hall H1) as ([[name raw] time] & Hin & Hst).
    assert (Hst' := Hst). destruct Hst' as (Hname & Htime & Hsubs & _).
    unfold BackupManager.subsOf in H2. apply in_map_iff in H2.
    destruct H2 as (s' & <- & Hs').
    destruct (Forall2_In_l _ _ _ _ Hsubs Hs') as (s & Hs & Hpk & Hsk & Hsame).
    exists raw, s. cbn [BackupManager.ts_backupFile BackupManager.ts_timestamp
                        BackupManager.ts_wallet].
    rewrite Hname, Htime. split; [exact Hin|]. split; [exact Hs|].
    split; [symmetry; exact Hpk|]. split; [symmetry; exact Hsk|].
    split; [exact Hsame|].
    intros name' raw' time' Hin' Hkey.
    destruct (Forall2_In_r _ _ _ _ Hall Hin') as (bf' & Hbf' & Hst').
    rewrite <- Htime.
    assert (Hts' : bf_timestamp bf' = time') by exact (proj1 (proj2 Hst')).
    rewrite <- Hts'. apply H3; [exact Hbf'|].
    rewrite subKeys_subsOf, (proj1 (Hkeys bf' _ Hst')). exact Hkey.
  - apply (view_NoDup BackupManager.mainsOf BackupManager.tm_publicKey
                      BackupManager.eqb_ostring eqb_ostring_eq).
  - rewrite (view_length BackupManager.mainsOf BackupManager.tm_publicKey
                         BackupManager.eqb_ostring eqb_ostring_eq
                         Spec.ostring_dec).
    change (fun bf => map BackupManager.tm_publicKey (BackupManager.mainsOf bf))
      with Spec.mainKeys.
    rewrite (flat_map_Forall2 Spec.storedAs Spec.mainKeys
               (fun snap => Spec.storedMainKeys (snd (fst snap)))
               snaps (Spec.snapshots e w)
               (fun bf snap H => proj2 (Hkeys bf snap H)) Hall).
    rewrite <- Hentries, flat_map_over_map. reflexivity.
  - intros t Ht.
    destruct (view_newest BackupManager.mainsOf BackupManager.tm_publicKey
                          BackupManager.eqb_ostring eqb_ostring_eq snaps t Ht)
      as (bf & H1 & H2 & H3).
    destruct (Forall2_In_l _ _ _ _ Hall H1) as ([[name raw] time] & Hin & Hst).
    assert (Hst' := Hst). destruct Hst' as (Hname & Htime & _ & Hmain).
    exists raw.
    assert (Ht' : BackupManager.tm_backupFile t = name /\
                  BackupManager.tm_timestamp t = time /\
                  Spec.mainFrom raw time (BackupManager.tm_wallet t)).
    { unfold BackupManager.mainsOf in H2.
      destruct (mainWallet (data bf)) as [|m|]; [contradiction| |];
        destruct H2 as [<-|[]]; cbn; auto. }
    destruct Ht' as (-> & -> & Hfrom).
    split; [exact Hin|]. split; [exact Hfrom|].
    intros name' raw' time' Hin' Hkey.
    destruct (Forall2_In_r _ _ _ _ Hall Hin') as (bf' & Hbf' & Hst').
    rewrite <- Htime.
    assert (Hts' : bf_timestamp bf' = time') by exact (proj1 (proj2 Hst')).
    rewrite <- Hts'. apply H3; [exact Hbf'|].
    change (map BackupManager.tm_publicKey (BackupManager.mainsOf bf'))
      with (Spec.mainKeys bf').
    rewrite (proj2 (Hkeys bf' _ Hst')). exact Hkey.
Qed.

(* ================================================================== *)
(** * Stepping through the monad *)
(* ================================================================== *)

Section MonadFacts.
Context {S A B : Type}.

Lemma bind_Ok (m : M S A) (k : A -> M S B) (s s' : S) (a : A) :
  m s = (Ok a, s') -> bind m k s = k a s'.
Proof. unfold bind. now intros ->. Qed.

Lemma bind_Throw (m : M S A) (k : A -> M S B) (s s' : S) (msg : string) :
  m s = (Throw msg, s') -> bind m k s = (Throw msg, s').
Proof. unfold bind. now intros ->. Qed.

Lemma try_total_Ok (m : M S A) (h : string -> S -> A * S) (s s' : S) (a : A) :
  m s = (Ok a, s') -> try_total m h s = (a, s').
Proof. unfold try_total. now intros ->. Qed.

Lemma try_total_Throw (m : M S A) (h : string -> S -> A * S) (s s' : S)
      (msg : string) :
  m s = (Throw msg, s') -> try_total m h s = h msg s'.
Proof. unfold try_total. now intros ->. Qed.


Lemma try_catch_Throw (m : M S A) (h : string -> M S A) (s s' : S)
      (msg : string) :
  m s = (Throw msg, s') -> try_catch m h s = h msg s'.
Proof. unfold try_catch. now intros ->. Qed.
End MonadFacts.

(* ================================================================== *)
(** * The provisioner *)
(* ================================================================== *)

Lemma getAllWalletsFromBackups_ok (e : Env) (w : World) :
  exists view w',
    BackupManager.getAllWalletsFromBackups e w = (Ok view, w') /\
    Spec.clock_only w w'.
Proof.
  destruct (readBackupFiles_ok e (files w) w) as (snaps & w' & Hr & Hc).
  eexists _, w'. split; [|exact Hc].
  unfold BackupManager.getAllWalletsFromBackups, BackupManager.getBackupFiles.
  unfold bind. rewrite Hr. reflexivity.
Qed.

Lemma advance_advance (w : World) (a b c d : nat) :
  Spec.advance (Spec.advance w a b) c d = Spec.advance w (a + c) (b + d).
Proof. unfold Spec.advance. simpl. f_equal; lia. Qed.

Lemma mintWallets_shift (e : Env) (w : World) (current : Z) (n : nat) :
  Spec.mintedWallets e (Spec.advance w 1 1) (current + 1) n
  = map (fun j =>
           {| sw_publicKey := fst (keygen e (minted w + j)%nat);
              sw_privateKey := snd (keygen e (minted w + j)%nat);
              sw_createdAt := Some (clock e (ticks w + j)%nat);
              sw_index := Some (current + Z.of_nat j)%Z |})
        (seq 1 n).
Proof.
  unfold Spec.mintedWallets. rewrite <- seq_shift, map_map.
  apply map_ext. intros j. simpl.
  replace (minted w + 1 + j)%nat with (minted w + S j)%nat by lia.
  replace (ticks w + 1 + j)%nat with (ticks w + S j)%nat by lia.
  replace (current + 1 + Z.of_nat j)%Z with (current + Z.of_nat (S j))%Z by lia.
  reflexivity.
Qed.

(** The minting loop cannot throw; it consumes one keypair and one
    reading of the clock per identity and touches nothing else. *)
Lemma mintWallets_ok (e : Env) (current : Z) (n : nat) (i : Z) (w : World) :
  WalletManager.mintWallets e current n i w
  = (Ok (Spec.mintedWallets e w (current + i) n), Spec.advance w n n).
Proof.
  revert i w. induction n as [|n IH]; intros i w; simpl.
  - unfold ret, Spec.advance. destruct w; simpl.
    rewrite !Nat.add_0_r. reflexivity.
  - unfold bind at 1. unfold keypair_generate at 1.
    unfold bind at 1. unfold date_now at 1. cbn [ticks minted files writes trace].
    unfold bind at 1.
    match goal with
    | |- context [WalletManager.mintWallets e current n (i + 1)%Z ?w1] =>
        replace w1 with (Spec.advance w 1 1)
          by (unfold Spec.advance; f_equal; lia)
    end.
    rewrite IH. unfold ret. rewrite advance_advance.
    replace (current + (i + 1))%Z with (current + i + 1)%Z by lia.
    rewrite mintWallets_shift. unfold Spec.mintedWallets. simpl.
    rewrite !Nat.add_0_r, Z.add_0_r. reflexivity.
Qed.

Lemma createBackup_failure (e : Env) (subs : list SubWallet) (w : World) :
  write_ok e (writes w) = false ->
  exists msg w',
    BackupManager.createBackup e MainUndefined subs w = (Throw msg, w') /\
    files w' = files w /\ trace w' = trace w /\ minted w' = minted w.
Proof.
  intros Hw. unfold BackupManager.createBackup.
  unfold bind at 1. unfold date_now at 1.
  unfold try_catch, bind at 1, fs_writeFile. cbn [writes].
  rewrite Hw. unfold throw. eexists _, _. split; [reflexivity|].
  cbn [files trace minted]. auto.
Qed.

Lemma createBackup_success (e : Env) (subs : list SubWallet) (w : World) :
  write_ok e (writes w) = true ->
  BackupManager.createBackup e MainUndefined subs w
  = (Ok (BackupManager.path_join BackupManager.backupDir
           (Spec.snapshotName (clock e (ticks w)))),
     {| files := put_file (Spec.snapshotName (clock e (ticks w)))
                          (Some (Spec.snapshotOf (clock e (ticks w)) subs))
                          (files w);
        ticks := S (ticks w); minted := minted w; writes := S (writes w);
        trace := (trace w ++ [FileWritten (Spec.snapshotName (clock e (ticks w)))])
                 ++ [Emit "backup-created"] |}).
Proof.
  intros Hw. unfold BackupManager.createBackup.
  unfold bind at 1. unfold date_now at 1.
  unfold try_catch, bind at 1, fs_writeFile. cbn [writes].
  rewrite Hw. reflexivity.
Qed.

Lemma existing_eq (e : Env) (w w1 : World) (view : BackupManager.Reconciled) :
  BackupManager.getAllWalletsFromBackups e w = (Ok view, w1) ->
  Spec.existing e w = BackupManager.subWalletsR view.
Proof. unfold Spec.existing. now intros ->. Qed.

(** The two paths of [createSubWallets], step by step. *)
Lemma createSubWallets_reuse (e : Env) (count : Z) (w w1 : World)
      (view : BackupManager.Reconciled) :
  BackupManager.getAllWalletsFromBackups e w = (Ok view, w1) ->
  (count <= Z.of_nat (List.length (BackupManager.subWalletsR view)))%Z ->
  WalletManager.createSubWallets e count w
  = ({| WalletManager.success := true;
        WalletManager.wallets :=
          Some (map Spec.infoOfTagged
                    (JS.slice0 count (BackupManager.subWalletsR view)));
        WalletManager.error := None |}, w1).
Proof.
  intros Hget Hle. unfold WalletManager.createSubWallets.
  apply try_total_Ok. rewrite (bind_Ok _ _ _ _ _ Hget). cbv beta zeta.
  apply Z.leb_le in Hle. rewrite Hle. reflexivity.
Qed.

Lemma createSubWallets_grow (e : Env) (count : Z) (w w1 : World)
      (view : BackupManager.Reconciled) :
  BackupManager.getAllWalletsFromBackups e w = (Ok view, w1) ->
  (Z.of_nat (List.length (BackupManager.subWalletsR view)) < count)%Z ->
  let existing := BackupManager.subWalletsR view in
  let current := Z.of_nat (List.length existing) in
  let n := Z.to_nat (count - current) in
  let all := map BackupManager.ts_wallet existing
             ++ Spec.mintedWallets e w1 current n in
  WalletManager.createSubWallets e count w
  = match BackupManager.createBackup e MainUndefined all
                                     (Spec.advance w1 n n) with
    | (Ok _, w3) =>
        ({| WalletManager.success := true;
            WalletManager.wallets :=
              Some (map Spec.infoOf (JS.slice0 count all));
            WalletManager.error := None |},
         {| files := files w3; ticks := ticks w3; minted := minted w3;
            writes := writes w3;
            trace := trace w3 ++ [Emit "wallet-update"] |})
    | (Throw msg, w3) =>
        ({| WalletManager.success := false; WalletManager.wallets := None;
            WalletManager.error := Some msg |}, w3)
    end.
Proof.
  intros Hget Hlt. cbv zeta.
  unfold WalletManager.createSubWallets, try_total.
  rewrite (bind_Ok _ _ _ _ _ Hget). cbv beta zeta.
  apply Z.leb_gt in Hlt. rewrite Hlt.
  rewrite (bind_Ok _ _ _ _ _ (mintWallets_ok e _ _ 0 w1)).
  rewrite Z.add_0_r.
  unfold BackupManager.updateBackupWithNewWallets.
  unfold bind at 1.
  match goal with
  | |- context [BackupManager.createBackup ?a ?b ?c ?d] =>
      destruct (BackupManager.createBackup a b c d) as [[name|msg] w3]
  end.
  - reflexivity.
  - reflexivity.
Qed.

(** C2 -- When more sub-wallets are requested than exist and the write of
    the new snapshot fails, [createSubWallets] reports [success = false]
    and returns no wallets; the directory holds exactly the files it held
    before the call, and neither a file write nor a [wallet-update]
    happened, although the identities were minted. *)
Theorem C2_failed_append_returns_no_wallets
        (e : Env) (count : Z) (w : World) :
  (Z.of_nat (List.length (Spec.existing e w)) < count)%Z ->
  write_ok e (writes w) = false ->
  exists msg w',
    WalletManager.createSubWallets e count w
    = ({| WalletManager.success := false; WalletManager.wallets := None;
          WalletManager.error := Some msg |}, w') /\
    files w' = files w /\ trace w' = trace w /\
    minted w'
    = (minted w
       + Z.to_nat (count - Z.of_nat (List.length (Spec.existing e w))))%nat.
Proof.
  intros Hlt Hdisk.
  destruct (getAllWalletsFromBackups_ok e w) as (view & w1 & Hget & Hc).
  rewrite (existing_eq e w w1 view Hget) in *.
  destruct Hc as (Hf & Hm & Hwr & Ht & _).
  rewrite (createSubWallets_grow e count w w1 view Hget Hlt).
  set (n := Z.to_nat (count - Z.of_nat (List.length (BackupManager.subWalletsR view)))).
  set (all := map BackupManager.ts_wallet (BackupManager.subWalletsR view) ++ _).
  destruct (createBackup_failure e all (Spec.advance w1 n n))
    as (msg & w3 & Hb & Hf3 & Ht3 & Hm3).
  { simpl. now rewrite Hwr. }
  rewrite Hb. exists msg, w3. split; [reflexivity|].
  rewrite Hf3, Ht3, Hm3. simpl. repeat split; congruence.
Qed.

(** A concrete run of C2: two identities requested from an empty
    directory on a disk that refuses the write. *)
Lemma C2_failed_append_witness :
  exists msg w',
    WalletManager.createSubWallets (Examples.env false) 2 Examples.emptyWorld
    = ({| WalletManager.success := false; WalletManager.wallets := None;
          WalletManager.error := Some msg |}, w') /\
    files w' = [] /\ trace w' = [] /\ minted w' = 2%nat.
Proof.
  apply (C2_failed_append_returns_no_wallets
           (Examples.env false) 2 Examples.emptyWorld).
  - vm_compute. reflexivity.
  - reflexivity.
Defined.

(** Whatever makes [createSubWallets] fail, it then returns no wallets
    and has neither written a file nor announced a wallet update. *)
Lemma createSubWallets_failure_is_clean (e : Env) (count : Z) (w : World) :
  WalletManager.success (fst (WalletManager.createSubWallets e count w)) = false ->
  WalletManager.wallets (fst (WalletManager.createSubWallets e count w)) = None /\
  files (snd (WalletManager.createSubWallets e count w)) = files w /\
  trace (snd (WalletManager.createSubWallets e count w)) = trace w.
Proof.
  destruct (getAllWalletsFromBackups_ok e w) as (view & w1 & Hget & Hc).
  destruct Hc as (Hf & Hm & Hwr & Ht & _).
  destruct (Z.le_gt_cases count
              (Z.of_nat (List.length (BackupManager.subWalletsR view))))
    as [Hle|Hgt].
  - rewrite (createSubWallets_reuse e count w w1 view Hget Hle). discriminate.
  - rewrite (createSubWallets_grow e count w w1 view Hget Hgt).
    match goal with
    | |- context [BackupManager.createBackup e MainUndefined ?all ?w2] =>
        destruct (write_ok e (writes w2)) eqn:Hdisk;
        [rewrite (createBackup_success e all w2 Hdisk); discriminate
        |destruct (createBackup_failure e all w2 Hdisk)
           as (msg & w3 & Hb & Hf3 & Ht3 & _); rewrite Hb]
    end.
    intros _. cbn [fst snd WalletManager.wallets]. rewrite Hf3, Ht3. cbn.
    repeat split; assumption.
Qed.

Lemma slice0_all {A : Type} (l : list A) (c : Z) :
  c = Z.of_nat (List.length l) -> JS.slice0 c l = l.
Proof.
  intros ->. unfold JS.slice0.
  destruct (0 <=? Z.of_nat (List.length l))%Z eqn:E.
  - rewrite Nat2Z.id. apply firstn_all.
  - apply Z.leb_gt in E. lia.
Qed.

Lemma mintedWallets_length (e : Env) (w : World) (current : Z) (n : nat) :
  List.length (Spec.mintedWallets e w current n) = n.
Proof. unfold Spec.mintedWallets. now rewrite length_map, length_seq. Qed.

Lemma mintedWallets_nth (e : Env) (w : World) (current : Z) (n i : nat) :
  (i < n)%nat ->
  nth_error (Spec.mintedWallets e w current n) i
  = Some {| sw_publicKey := fst (keygen e (minted w + i)%nat);
            sw_privateKey := snd (keygen e (minted w + i)%nat);
            sw_createdAt := Some (clock e (ticks w + i)%nat);
            sw_index := Some (current + Z.of_nat i)%Z |}.
Proof.
  intros Hi. unfold Spec.mintedWallets.
  rewrite nth_error_map, nth_error_nth' with (d := O)
    by (now rewrite length_seq).
  rewrite seq_nth by assumption. reflexivity.
Qed.

Lemma substring_whole (s : string) : String.substring 0 (String.length s) s = s.
Proof. induction s as [|c s IH]; simpl; [reflexivity | now rewrite IH]. Qed.

Lemma put_file_In (name : string) (c : option RawBackup)
      (fs : list (string * option RawBackup)) :
  In (name, c) (put_file name c fs).
Proof.
  induction fs as [|[n c'] fs IH]; simpl.
  - now left.
  - destruct (String.eqb n name) eqn:E.
    + apply String.eqb_eq in E. subst n. now left.
    + now right.
Qed.

Lemma endsWith_append (a b : string) : JS.endsWith (a ++ b) b = true.
Proof.
  unfold JS.endsWith.
  assert (Hlen : String.length (a ++ b) = (String.length a + String.length b)%nat).
  { induction a as [|c a IH]; simpl; [reflexivity | now rewrite IH]. }
  rewrite Hlen. apply andb_true_intro. split.
  - apply Nat.leb_le. lia.
  - replace (String.length a + String.length b - String.length b)%nat
      with (String.length a) by lia.
    apply String.eqb_eq. clear Hlen.
    induction a as [|c a IH]; simpl.
    + apply substring_whole.
    + exact IH.
Qed.

(** A snapshot file written by [createBackup] is one that
    [getBackupFiles] reads. *)
Lemma snapshotName_listed (t : Z) :
  JS.startsWith (Spec.snapshotName t) "wallets-"
  && JS.endsWith (Spec.snapshotName t) ".json" = true.
Proof.
  unfold Spec.snapshotName. apply andb_true_intro. split.
  - unfold JS.startsWith. cbn.
    now destruct (JS.string_of_Z t ++ ".json")%string.
  - change ("wallets-" ++ JS.string_of_Z t ++ ".json")%string
      with (("wallets-" ++ JS.string_of_Z t) ++ ".json")%string.
    apply endsWith_append.
Qed.

(** C6 -- When more sub-wallets are requested than exist and the write
    succeeds, [createSubWallets] mints exactly the shortfall, gives the
    [i]-th new identity the slot [existing.length + i], writes one
    snapshot file that lists all existing entries followed by the new
    ones, and returns exactly [count] records, the existing ones first. *)
Theorem C6_grow_mints_the_shortfall (e : Env) (count : Z) (w : World) :
  (Z.of_nat (List.length (Spec.existing e w)) < count)%Z ->
  write_ok e (writes w) = true ->
  exists w1 w',
    let existing := map BackupManager.ts_wallet (Spec.existing e w) in
    let current := Z.of_nat (List.length existing) in
    let shortfall := Z.to_nat (count - current) in
    let newWallets := Spec.mintedWallets e w1 current shortfall in
    let t := clock e (ticks w1 + shortfall)%nat in
    Spec.clock_only w w1 /\
    WalletManager.createSubWallets e count w
    = ({| WalletManager.success := true;
          WalletManager.wallets :=
            Some (map Spec.infoOf existing ++ map Spec.infoOf newWallets);
          WalletManager.error := None |}, w') /\
    List.length newWallets = shortfall /\
    (forall i, (i < shortfall)%nat ->
       option_map sw_index (nth_error newWallets i)
       = Some (Some (current + Z.of_nat i)%Z)) /\
    Z.of_nat (List.length (map Spec.infoOf existing
                           ++ map Spec.infoOf newWallets)) = count /\
    minted w' = (minted w + shortfall)%nat /\
    files w' = put_file (Spec.snapshotName t)
                        (Some (Spec.snapshotOf t (existing ++ newWallets)))
                        (files w) /\
    In (Spec.snapshotName t,
        Some (Spec.snapshotOf t (existing ++ newWallets))) (files w').
Proof.
  intros Hlt Hdisk.
  destruct (getAllWalletsFromBackups_ok e w) as (view & w1 & Hget & Hc).
  rewrite (existing_eq e w w1 view Hget) in *.
  pose proof Hc as (Hf & Hm & Hwr & Ht & _).
  exists w1. cbv zeta.
  rewrite (createSubWallets_grow e count w w1 view Hget Hlt).
  rewrite length_map.
  set (current := Z.of_nat (List.length (BackupManager.subWalletsR view))) in *.
  set (n := Z.to_nat (count - current)).
  set (new := Spec.mintedWallets e w1 current n).
  set (old := map BackupManager.ts_wallet (BackupManager.subWalletsR view)).
  rewrite (createBackup_success e (old ++ new) (Spec.advance w1 n n))
    by (simpl; now rewrite Hwr).
  assert (Hlen : count = Z.of_nat (List.length (old ++ new))).
  { rewrite length_app. unfold old, new.
    rewrite length_map, mintedWallets_length. unfold n. fold current. lia. }
  rewrite (slice0_all (old ++ new) count Hlen), map_app.
  eexists. split; [exact Hc|]. split; [reflexivity|].
  cbn [files minted ticks Spec.advance]. repeat split.
  - apply mintedWallets_length.
  - intros i Hi. unfold new. now rewrite mintedWallets_nth.
  - rewrite <- map_app, length_map. now symmetry.
  - now rewrite Hm.
  - now rewrite Hf.
  - apply put_file_In.
Qed.

(** A concrete run of C6: four sub-wallets requested when the two
    snapshots of the directory list three distinct ones. *)
Lemma C6_grow_witness :
  exists w1 w',
    let existing := map BackupManager.ts_wallet
                        (Spec.existing (Examples.env true) Examples.datedWorld) in
    let current := Z.of_nat (List.length existing) in
    let shortfall := Z.to_nat (4 - current) in
    let newWallets := Spec.mintedWallets (Examples.env true) w1 current shortfall in
    let t := clock (Examples.env true) (ticks w1 + shortfall)%nat in
    Spec.clock_only Examples.datedWorld w1 /\
    WalletManager.createSubWallets (Examples.env true) 4 Examples.datedWorld
    = ({| WalletManager.success := true;
          WalletManager.wallets :=
            Some (map Spec.infoOf existing ++ map Spec.infoOf newWallets);
          WalletManager.error := None |}, w') /\
    List.length newWallets = shortfall /\
    (forall i, (i < shortfall)%nat ->
       option_map sw_index (nth_error newWallets i)
       = Some (Some (current + Z.of_nat i)%Z)) /\
    Z.of_nat (List.length (map Spec.infoOf existing
                           ++ map Spec.infoOf newWallets)) = 4%Z /\
    minted w' = (minted Examples.datedWorld + shortfall)%nat /\
    files w' = put_file (Spec.snapshotName t)
                        (Some (Spec.snapshotOf t (existing ++ newWallets)))
                        (files Examples.datedWorld) /\
    In (Spec.snapshotName t,
        Some (Spec.snapshotOf t (existing ++ newWallets))) (files w').
Proof.
  apply (C6_grow_mints_the_shortfall (Examples.env true) 4 Examples.datedWorld).
  - vm_compute. reflexivity.
  - reflexivity.
Defined.

(** When every snapshot file that is read carries its time, reading the
    directory does not consult the clock. *)
Lemma readBackupFiles_dated (e : Env) (dir : list (string * option RawBackup)) :
  Spec.timestamped dir ->
  exists snaps, forall w, BackupManager.readBackupFiles e dir w = (Ok snaps, w).
Proof.
  induction dir as [|[name content] dir IH]; intros Hd; simpl.
  - exists []. reflexivity.
  - assert (Hd' : Spec.timestamped dir).
    { intros n r Hin. apply Hd. now right. }
    destruct (IH Hd') as (snaps & Hs).
    destruct (JS.startsWith name "wallets-" && JS.endsWith name ".json") eqn:El;
      [|now exists snaps].
    destruct content as [raw|]; [|now exists snaps].
    assert (Ht := Hd name raw (or_introl eq_refl) El).
    unfold BackupManager.normalizeBackupFormat.
    destruct (BackupManager.isSome (raw_metadata raw)
              && JS.truthyZ (raw_timestamp raw)
              && BackupManager.truthyMain (raw_mainWallet raw)).
    + eexists. intros w. unfold bind at 1. unfold ret at 1.
      unfold bind at 1. rewrite Hs. reflexivity.
    + rewrite Ht. eexists. intros w. unfold bind at 1. unfold bind at 1.
      unfold ret at 1. unfold ret at 1. unfold bind at 1. rewrite Hs.
      reflexivity.
Qed.

Lemma getAllWalletsFromBackups_dated (e : Env) (w : World) :
  Spec.timestamped (files w) ->
  exists view, BackupManager.getAllWalletsFromBackups e w = (Ok view, w).
Proof.
  intros Hd. destruct (readBackupFiles_dated e (files w) Hd) as (snaps & Hs).
  eexists. unfold BackupManager.getAllWalletsFromBackups,
             BackupManager.getBackupFiles, bind.
  rewrite Hs. reflexivity.
Qed.

(** Reusing existing sub-wallets writes nothing, whatever the files. *)
Lemma createSubWallets_reuse_no_append (e : Env) (count : Z) (w : World) :
  (count <= Z.of_nat (List.length (Spec.existing e w)))%Z ->
  exists r w',
    WalletManager.createSubWallets e count w = (r, w') /\
    WalletManager.success r = true /\ Spec.clock_only w w'.
Proof.
  intros Hle.
  destruct (getAllWalletsFromBackups_ok e w) as (view & w1 & Hget & Hc).
  rewrite (existing_eq e w w1 view Hget) in Hle.
  rewrite (createSubWallets_reuse e count w w1 view Hget Hle).
  eexists _, w1. split; [reflexivity|]. split; [reflexivity | exact Hc].
Qed.

(** C7 (amended) -- When at least [count] sub-wallets exist and every
    snapshot file that is read carries a timestamp or a creation time,
    two consecutive calls of [createSubWallets(count)] succeed with the
    same sequence, and neither call changes the world: no snapshot is
    appended. *)
Theorem C7_reuse_is_idempotent_on_dated_snapshots
        (e : Env) (count : Z) (w : World) :
  Spec.timestamped (files w) ->
  (count <= Z.of_nat (List.length (Spec.existing e w)))%Z ->
  exists r,
    WalletManager.createSubWallets e count w = (r, w) /\
    WalletManager.createSubWallets e count (snd (WalletManager.createSubWallets e count w))
    = (r, w) /\
    WalletManager.success r = true /\
    WalletManager.wallets r
    = Some (map Spec.infoOfTagged (JS.slice0 count (Spec.existing e w))).
Proof.
  intros Hd Hle.
  destruct (getAllWalletsFromBackups_dated e w Hd) as (view & Hget).
  rewrite (existing_eq e w w view Hget) in *.
  assert (H1 := createSubWallets_reuse e count w w view Hget Hle).
  eexists. split; [exact H1|]. rewrite H1. simpl. split; [exact H1|].
  split; reflexivity.
Qed.

Lemma datedWorld_timestamped : Spec.timestamped (files Examples.datedWorld).
Proof.
  intros name raw Hin _. simpl in Hin.
  destruct Hin as [H|[H|[]]]; inversion H; reflexivity.
Qed.

(** A concrete run of C7 (amended): two of the three reconciled
    sub-wallets of the dated directory, requested twice. *)
Lemma C7_reuse_witness :
  exists r,
    WalletManager.createSubWallets (Examples.env true) 2 Examples.datedWorld
    = (r, Examples.datedWorld) /\
    WalletManager.createSubWallets (Examples.env true) 2
      (snd (WalletManager.createSubWallets (Examples.env true) 2
                                           Examples.datedWorld))
    = (r, Examples.datedWorld) /\
    WalletManager.success r = true /\
    WalletManager.wallets r
    = Some (map Spec.infoOfTagged
                (JS.slice0 2 (Spec.existing (Examples.env true)
                                            Examples.datedWorld))).
Proof.
  apply (C7_reuse_is_idempotent_on_dated_snapshots
           (Examples.env true) 2 Examples.datedWorld).
  - exact datedWorld_timestamped.
  - vm_compute. discriminate.
Defined.

(** C7 as stated fails: with two snapshot files that carry no time, the
    first call (both files read within the same millisecond) returns
    worker [A], the second call (the clock moved between the two reads)
    returns worker [B], although the directory did not change. *)
Lemma C7_counterexample :
  ~ (forall (e : Env) (count : Z) (w : World),
        (count <= Z.of_nat (List.length (Spec.existing e w)))%Z ->
        fst (WalletManager.createSubWallets e count w)
        = fst (WalletManager.createSubWallets e count
                 (snd (WalletManager.createSubWallets e count w)))).
Proof.
  intros H.
  specialize (H Examples.stutteringEnv 1%Z Examples.undatedWorld).
  assert (Hle : (1 <= Z.of_nat (List.length
                   (Spec.existing Examples.stutteringEnv
                                  Examples.undatedWorld)))%Z)
    by (vm_compute; discriminate).
  specialize (H Hle). vm_compute in H. discriminate H.
Qed.

(* ================================================================== *)
(** * The recovery engine *)
(* ================================================================== *)

(** Processing one worker inside its [try] adds exactly the worker's
    yield to the running totals, also when the processing throws. *)
Lemma processWallet_yield (e : Env) (s : WalletManager.WorkerScript)
      (wallet : WalletManager.WalletInfo) (token : option string)
      (r : WalletManager.Recovery) :
  exists r',
    try_total (WalletManager.processWallet e s wallet token)
              (fun _ r => (tt, r)) r = (tt, r') /\
    WalletManager.transactions r'
    = WalletManager.transactions r ++ fst (Spec.workerYield e s wallet token) /\
    WalletManager.totalRecovered r'
    = Spec.addYield (WalletManager.totalRecovered r)
                    (Spec.workerYield e s wallet token).
Proof.
  unfold Spec.workerYield, Spec.addYield, WalletManager.processWallet,
    WalletManager.keypairFromSecretKey.
  destruct (fromSecretKey e (WalletManager.privateKey wallet)) as [pk|].
  2:{ exists r. cbn. rewrite app_nil_r. auto. }
  destruct s as [sell bal bh send conf].
  cbv beta iota zeta delta
      [try_total bind ret throw try_catch modify effect
       WalletManager.net_call WalletManager.lift
       WalletManager.push_transactions WalletManager.add_recovered
       WalletManager.ws_sell WalletManager.ws_balance
       WalletManager.ws_blockhash_ok WalletManager.ws_send
       WalletManager.ws_confirm_ok WalletManager.world
       WalletManager.transactions WalletManager.totalRecovered fst snd].
  destruct (JS.truthyOS token);
    [destruct sell as [[[|] [txs|]]|]|];
    destruct (WalletManager.Qgtb bal (1 # 1000000));
    destruct (0 <? Qfloor ((bal - WalletManager.feeInSol)
                           * WalletManager.LAMPORTS_PER_SOL))%Z;
    destruct bh; destruct send as [sig|]; destruct conf;
    eexists; (split; [reflexivity|]);
    cbn [WalletManager.transactions WalletManager.totalRecovered fst snd
         andb];
    rewrite ?app_nil_r, <- ?app_assoc; auto.
Qed.

Lemma recoverLoop_yields (e : Env) (script : nat -> WalletManager.WorkerScript)
      (token : option string) (ws : list WalletManager.WalletInfo) (i : nat)
      (r : WalletManager.Recovery) :
  exists r',
    WalletManager.recoverLoop e script token ws i r = (tt, r') /\
    WalletManager.transactions r'
    = WalletManager.transactions r
      ++ List.concat (map fst (Spec.yields e script token ws i)) /\
    WalletManager.totalRecovered r'
    = fold_left Spec.addYield (Spec.yields e script token ws i)
                (WalletManager.totalRecovered r).
Proof.
  revert i r. induction ws as [|wallet ws IH]; intros i r; simpl.
  - exists r. rewrite app_nil_r. auto.
  - destruct (processWallet_yield e (script i) wallet token r)
      as (r1 & H1 & Ht1 & Ha1).
    rewrite H1.
    destruct (IH (S i) r1) as (r2 & H2 & Ht2 & Ha2).
    exists r2. split; [exact H2|]. split.
    + rewrite Ht2, Ht1, <- app_assoc. reflexivity.
    + rewrite Ha2, Ha1. reflexivity.
Qed.

Lemma long_key_passes (key : string) :
  (50 <= String.length key)%nat ->
  negb (JS.truthyS key) || (String.length key <? 50)%nat = false.
Proof.
  intros H. apply orb_false_intro.
  - destruct key; simpl in *; [lia | reflexivity].
  - apply Nat.ltb_ge. exact H.
Qed.

Lemma short_key_fails (key : string) :
  (String.length key < 50)%nat ->
  negb (JS.truthyS key) || (String.length key <? 50)%nat = true.
Proof.
  intros H. apply orb_true_intro. right. now apply Nat.ltb_lt.
Qed.

(** The three ways a call of [recoverAllFunds] can go. *)
Lemma recoverAllFunds_short (e : Env) (script : nat -> WalletManager.WorkerScript)
      (key : string) (token : option string) (w : World) :
  (String.length key < 50)%nat ->
  WalletManager.recoverAllFunds e script key token w
  = ({| WalletManager.r_success := false;
        WalletManager.recoveredAmount := None;
        WalletManager.r_transactions := None;
        WalletManager.r_error := Some "Invalid main wallet private key"%string |},
     w).
Proof.
  intros H. unfold WalletManager.recoverAllFunds, try_total.
  rewrite (short_key_fails key H). reflexivity.
Qed.

Lemma recoverAllFunds_undecodable (e : Env)
      (script : nat -> WalletManager.WorkerScript)
      (key : string) (token : option string) (w : World) :
  (50 <= String.length key)%nat ->
  fromSecretKey e key = None ->
  WalletManager.recoverAllFunds e script key token w
  = ({| WalletManager.r_success := false;
        WalletManager.recoveredAmount := None;
        WalletManager.r_transactions := None;
        WalletManager.r_error := Some "bad secret key"%string |}, w).
Proof.
  intros H Hk. unfold WalletManager.recoverAllFunds, try_total.
  rewrite (long_key_passes key H).
  unfold WalletManager.keypairFromSecretKey. rewrite Hk. reflexivity.
Qed.

Lemma recoverAllFunds_batch (e : Env)
      (script : nat -> WalletManager.WorkerScript)
      (key : string) (token : option string) (w : World) :
  (50 <= String.length key)%nat ->
  fromSecretKey e key <> None ->
  exists w',
    WalletManager.recoverAllFunds e script key token w
    = ({| WalletManager.r_success := true;
          WalletManager.recoveredAmount :=
            Some (fold_left Spec.addYield
                            (Spec.yields e script token (Spec.workers e w) 0)
                            0);
          WalletManager.r_transactions :=
            Some (List.concat (map fst (Spec.yields e script token
                                               (Spec.workers e w) 0)));
          WalletManager.r_error := None |}, w').
Proof.
  intros H Hk. unfold WalletManager.recoverAllFunds, try_total.
  rewrite (long_key_passes key H).
  unfold WalletManager.keypairFromSecretKey.
  destruct (fromSecretKey e key) as [pk|]; [clear Hk | congruence].
  unfold Spec.workers.
  cbv beta iota delta [bind ret total].
  destruct (WalletManager.getAllWallets e w) as [wallets w1].
  cbn [fst].
  destruct (recoverLoop_yields e script token
              (WalletManager.aw_subWallets wallets) 0
              {| WalletManager.world := w1; WalletManager.transactions := [];
                 WalletManager.totalRecovered := 0 |})
    as (r' & Hr & Ht & Ha).
  rewrite Hr. cbn [WalletManager.transactions WalletManager.totalRecovered] in *.
  rewrite Ht, Ha. eexists. reflexivity.
Qed.

Lemma yields_nth (e : Env) (script : nat -> WalletManager.WorkerScript)
      (token : option string) (ws : list WalletManager.WalletInfo) (i j : nat) :
  nth_error (Spec.yields e script token ws i) j
  = option_map (fun wallet => Spec.workerYield e (script (i + j)%nat) wallet token)
               (nth_error ws j).
Proof.
  revert i j. induction ws as [|wallet ws IH]; intros i j; simpl.
  - now destruct j.
  - destruct j as [|j]; simpl.
    + now rewrite Nat.add_0_r.
    + rewrite IH. now rewrite Nat.add_succ_r.
Qed.

(** C3 -- With a well-formed owner credential, [recoverAllFunds] reports
    [success = true] for every set of stored workers and every pattern of
    failures: the transaction ids and the recovered amount are those of
    each worker taken on its own, in order, so a worker whose processing
    throws takes nothing away from the others -- every transaction id a
    worker yields is in the result. *)
Theorem C3_recovery_never_aborts_the_batch
        (e : Env) (script : nat -> WalletManager.WorkerScript)
        (key : string) (token : option string) (w : World) :
  (50 <= String.length key)%nat ->
  fromSecretKey e key <> None ->
  exists w' total txs,
    WalletManager.recoverAllFunds e script key token w
    = ({| WalletManager.r_success := true;
          WalletManager.recoveredAmount := Some total;
          WalletManager.r_transactions := Some txs;
          WalletManager.r_error := None |}, w') /\
    total = fold_left Spec.addYield
                      (Spec.yields e script token (Spec.workers e w) 0) 0 /\
    txs = List.concat (map fst (Spec.yields e script token
                                            (Spec.workers e w) 0)) /\
    (forall i wallet tx,
        nth_error (Spec.workers e w) i = Some wallet ->
        In tx (fst (Spec.workerYield e (script i) wallet token)) ->
        In tx txs).
Proof.
  intros Hlen Hkey.
  destruct (recoverAllFunds_batch e script key token w Hlen Hkey) as (w' & Hr).
  eexists w', _, _. split; [exact Hr|]. split; [reflexivity|].
  split; [reflexivity|].
  intros i wallet tx Hw Htx. apply in_concat.
  exists (fst (Spec.workerYield e (script i) wallet token)).
  split; [|exact Htx].
  apply in_map_iff. exists (Spec.workerYield e (script i) wallet token).
  split; [reflexivity|].
  apply (nth_error_In _ i).
  rewrite yields_nth, Hw. reflexivity.
Qed.

(** A concrete run of C3: workers [A], [B], [C] hold half a SOL each and
    the secret key of [B] cannot be decoded; the transfers of [A] and [C]
    are reported. *)
Lemma C3_recovery_witness :
  exists w' total txs,
    WalletManager.recoverAllFunds (Examples.env true)
      (Examples.payingScript (1 # 2)) Examples.ownerKey None
      Examples.threeWorkers
    = ({| WalletManager.r_success := true;
          WalletManager.recoveredAmount := Some total;
          WalletManager.r_transactions := Some txs;
          WalletManager.r_error := None |}, w') /\
    total = 0 + ((1 # 2) - WalletManager.feeInSol)
            + ((1 # 2) - WalletManager.feeInSol) /\
    txs = ["sig0"; "sig2"]%string /\
    (forall i wallet tx,
        nth_error (Spec.workers (Examples.env true) Examples.threeWorkers) i
        = Some wallet ->
        In tx (fst (Spec.workerYield (Examples.env true)
                      (Examples.payingScript (1 # 2) i) wallet None)) ->
        In tx txs).
Proof.
  apply (C3_recovery_never_aborts_the_batch
           (Examples.env true) (Examples.payingScript (1 # 2))
           Examples.ownerKey None Examples.threeWorkers).
  - vm_compute. lia.
  - vm_compute. discriminate.
Defined.

Lemma dust_not_transferred (balance : Q) :
  balance <= 1 # 1000000 -> WalletManager.Qgtb balance (1 # 1000000) = false.
Proof.
  intros H. unfold WalletManager.Qgtb. apply negb_false_iff.
  now apply Qle_bool_iff.
Qed.

Lemma yields_of_dust (e : Env) (script : nat -> WalletManager.WorkerScript)
      (token : option string) (ws : list WalletManager.WalletInfo) (i : nat)
      (total : Q) :
  (forall j, WalletManager.ws_balance (script j) <= 1 # 1000000) ->
  fold_left Spec.addYield (Spec.yields e script token ws i) total = total.
Proof.
  intros Hd. revert i. induction ws as [|wallet ws IH]; intros i; simpl.
  - reflexivity.
  - rewrite <- (IH (S i)) at 2. f_equal.
    unfold Spec.addYield, Spec.workerYield.
    destruct (fromSecretKey e (WalletManager.privateKey wallet));
      [|reflexivity].
    rewrite (dust_not_transferred _ (Hd i)). reflexivity.
Qed.

(** C4 -- [recoverAllFunds] reports failure exactly when the owner
    credential is structurally invalid, and then the world is as it was:
    nothing was read from the network or the disk.  With a well-formed
    credential and no worker balance above the dust threshold it reports
    success with a recovered amount of zero. *)
Theorem C4_recovery_fails_only_on_bad_credential
        (e : Env) (script : nat -> WalletManager.WorkerScript)
        (key : string) (token : option string) (w : World) :
  let result := fst (WalletManager.recoverAllFunds e script key token w) in
  let after := snd (WalletManager.recoverAllFunds e script key token w) in
  (WalletManager.r_success result = false <-> Spec.structurallyInvalid e key) /\
  (WalletManager.r_success result = false -> after = w) /\
  (~ Spec.structurallyInvalid e key ->
   (forall i, WalletManager.ws_balance (script i) <= 1 # 1000000) ->
   WalletManager.r_success result = true /\
   WalletManager.recoveredAmount result = Some 0).
Proof.
  cbv zeta. unfold Spec.structurallyInvalid.
  destruct (Nat.lt_ge_cases (String.length key) 50) as [Hshort|Hlong].
  { rewrite (recoverAllFunds_short e script key token w Hshort). simpl.
    repeat split; auto; tauto. }
  destruct (fromSecretKey e key) as [pk|] eqn:Hk.
  - destruct (recoverAllFunds_batch e script key token w Hlong) as (w' & Hr).
    { congruence. }
    rewrite Hr. simpl. repeat split; try discriminate.
    + intros [H|H]; [lia | discriminate].
    + rewrite yields_of_dust by assumption. reflexivity.
  - rewrite (recoverAllFunds_undecodable e script key token w Hlong Hk).
    simpl. repeat split; auto; tauto.
Qed.

(** A concrete run of C4: three workers without funds and a well-formed
    owner credential. *)
Lemma C4_recovery_witness :
  WalletManager.r_success
    (fst (WalletManager.recoverAllFunds (Examples.env true)
            (Examples.payingScript 0) Examples.ownerKey None
            Examples.threeWorkers)) = true /\
  WalletManager.recoveredAmount
    (fst (WalletManager.recoverAllFunds (Examples.env true)
            (Examples.payingScript 0) Examples.ownerKey None
            Examples.threeWorkers)) = Some 0.
Proof.
  apply (C4_recovery_fails_only_on_bad_credential
           (Examples.env true) (Examples.payingScript 0) Examples.ownerKey
           None Examples.threeWorkers).
  - intros [H|H]; vm_compute in H; [lia | discriminate].
  - intros i. vm_compute. discriminate.
Defined.

(* ================================================================== *)
(** * The placeholder main wallet *)
(* ================================================================== *)

(** A stored file without [mainWallet] is given the placeholder. *)
Lemma normalize_injects_placeholder (e : Env) (raw : RawBackup) (w : World) :
  raw_mainWallet raw = MainUndefined ->
  exists b w',
    BackupManager.normalizeBackupFormat e raw w = (Ok b, w') /\
    mainWallet b = MainObject (Spec.placeholder (timestamp b)).
Proof.
  intros Hm. unfold BackupManager.normalizeBackupFormat. rewrite Hm.
  rewrite andb_false_r.
  destruct (JS.truthyZ (raw_timestamp raw) || JS.truthyZ (raw_createdAt raw)).
  - eexists _, _. split; reflexivity.
  - eexists _, _. split; reflexivity.
Qed.

(** The main wallet is defined after normalisation unless the file holds
    a truthy value that is not an object there. *)
Lemma normalize_main_defined (e : Env) (raw : RawBackup) (w : World) :
  raw_mainWallet raw <> MainOther ->
  exists b w',
    BackupManager.normalizeBackupFormat e raw w = (Ok b, w') /\
    mainWallet b <> MainUndefined.
Proof.
  intros Hm. unfold BackupManager.normalizeBackupFormat.
  destruct (raw_mainWallet raw) as [|m|] eqn:E; [| |congruence].
  - rewrite andb_false_r.
    destruct (JS.truthyZ (raw_timestamp raw) || JS.truthyZ (raw_createdAt raw));
      eexists _, _; (split; [reflexivity | discriminate]).
  - destruct (BackupManager.isSome (raw_metadata raw)
              && JS.truthyZ (raw_timestamp raw)
              && BackupManager.truthyMain (MainObject m)).
    + eexists _, _. split; [reflexivity|]. simpl. discriminate.
    + destruct (JS.truthyZ (raw_timestamp raw)
                || JS.truthyZ (raw_createdAt raw));
        eexists _, _; (split; [reflexivity | discriminate]).
Qed.

(** A snapshot written by [updateBackupWithNewWallets] has no main
    wallet, so reading it back yields the placeholder. *)
Lemma written_snapshot_reads_placeholder (e : Env) (t : Z)
      (subs : list SubWallet) (w : World) :
  t <> 0%Z ->
  exists b,
    BackupManager.normalizeBackupFormat e (Spec.snapshotOf t subs) w
    = (Ok b, w) /\
    timestamp b = t /\
    mainWallet b = MainObject (Spec.placeholder t).
Proof.
  intros Ht. unfold BackupManager.normalizeBackupFormat. simpl.
  apply Z.eqb_neq in Ht. rewrite Ht. simpl.
  eexists. split; [reflexivity|]. split; reflexivity.
Qed.

(** The placeholder reaches the reconciled view: after one identity was
    provisioned into an empty directory, the main wallets of the view are
    the placeholder alone. *)
Lemma placeholder_in_reconciled_view :
  let w := snd (WalletManager.createSubWallets (Examples.env true) 1
                                               Examples.emptyWorld) in
  option_map BackupManager.tm_wallet
    (hd_error (BackupManager.mainWallets
                 (match BackupManager.getAllWalletsFromBackups
                          (Examples.env true) w with
                  | (Ok view, _) => view
                  | (Throw _, _) => BackupManager.reconcile []
                  end)))
  = Some (Some (Spec.placeholder 1001)).
Proof. vm_compute. reflexivity. Qed.

(** C10 -- On a legacy file whose [mainWallet] is a string,
    [normalizeBackupFormat] takes neither the object branch nor the
    placeholder branch: the backup returned by [getBackupFiles] has no
    main wallet and the reconciled view lists none. *)
Theorem C10_scalar_main_wallet_left_undefined :
  exists bf w',
    BackupManager.getBackupFiles (Examples.env true) Examples.scalarMainWorld
    = (Ok [bf], w') /\
    filename bf = "wallets-7.json"%string /\
    mainWallet (data bf) = MainUndefined /\
    BackupManager.mainWallets (BackupManager.reconcile [bf]) = [].
Proof.
  vm_compute. eexists _, _. split; [reflexivity|].
  repeat split; reflexivity.
Qed.

(* ================================================================== *)
(** * The credential gate and the orchestrator *)
(* ================================================================== *)

(** Validating a licence key only reads the clock. *)
Lemma validateLicenseKey_frame (e : Env) (key : string) (w : World) :
  Spec.clock_only w (snd (LicenseManager.validateLicenseKey e key w)).
Proof.
  unfold LicenseManager.validateLicenseKey, try_total.
  destruct (negb (JS.truthyS key) || negb (JS.startsWith key "VB-"));
    [apply clock_only_refl|].
  destruct (negb (JS.truthyOS (nth_error (LicenseManager.split_dot
                                            (LicenseManager.drop3 key)) 0))
            || negb (JS.truthyOS (nth_error (LicenseManager.split_dot
                                               (LicenseManager.drop3 key)) 1)));
    [apply clock_only_refl|].
  match goal with
  | |- context [negb (String.eqb ?a ?b)] => destruct (negb (String.eqb a b))
  end; [apply clock_only_refl|].
  match goal with
  | |- context [parse_payload e ?p] => destruct (parse_payload e p) as [[exp|]|]
  end; cbv beta iota delta [bind ret throw date_now].
  - destruct (exp <? clock e (ticks w))%Z; simpl;
      unfold Spec.clock_only; simpl; repeat split; lia.
  - simpl. unfold Spec.clock_only; simpl; repeat split; lia.
  - apply clock_only_refl.
Qed.

Lemma drop3_prefix (s : string) : LicenseManager.drop3 ("VB-" ++ s) = s.
Proof.
  unfold LicenseManager.drop3.
  change ("VB-" ++ s)%string with (String "V" (String "B" (String "-" s))).
  cbn [String.length Nat.sub String.substring].
  rewrite Nat.sub_0_r. apply substring_whole.
Qed.

Lemma split_dot_pair (payload signature : string) :
  LicenseManager.split_dot payload = [payload] ->
  LicenseManager.split_dot signature = [signature] ->
  LicenseManager.split_dot (payload ++ "." ++ signature) = [payload; signature].
Proof.
  intros Hp Hs. revert Hp.
  induction payload as [|c p IH]; simpl in *; intros Hp.
  - now rewrite Hs.
  - destruct (Ascii.eqb c "."); [discriminate|].
    destruct (LicenseManager.split_dot p) as [|h [|h' t]] eqn:E.
    + injection Hp as Hh. subst p. discriminate E.
    + injection Hp as Hh. subst h. rewrite IH by reflexivity. reflexivity.
    + discriminate Hp.
Qed.

(** The three kinds of rejected keys named by the specification. *)
Lemma license_bad_format (e : Env) (key : string) (w : World) :
  JS.startsWith key "VB-" = false ->
  LicenseManager.valid (fst (LicenseManager.validateLicenseKey e key w)) = false.
Proof.
  intros H. unfold LicenseManager.validateLicenseKey, try_total.
  rewrite H. rewrite orb_true_r. reflexivity.
Qed.

Lemma license_bad_signature (e : Env) (payload signature : string) (w : World) :
  signature <> hmac_sha256 e LicenseManager.SECRET_KEY payload ->
  LicenseManager.split_dot payload = [payload] ->
  LicenseManager.split_dot signature = [signature] ->
  LicenseManager.valid
    (fst (LicenseManager.validateLicenseKey
            e ("VB-" ++ payload ++ "." ++ signature)%string w)) = false.
Proof.
  intros Hsig Hp Hs. unfold LicenseManager.validateLicenseKey, try_total.
  assert (Hdrop := drop3_prefix (payload ++ "." ++ signature)).
  assert (Hsplit := split_dot_pair payload signature Hp Hs).
  match goal with
  | |- context [if ?c then _ else _] => destruct c; [reflexivity|]
  end.
  rewrite Hdrop, Hsplit. cbn [nth_error].
  match goal with
  | |- context [if ?c then _ else _] => destruct c; [reflexivity|]
  end.
  apply String.eqb_neq in Hsig. rewrite Hsig. reflexivity.
Qed.

Lemma license_expired (e : Env) (payload : string) (exp : Z) (w : World) :
  parse_payload e payload = Some (Some exp) ->
  (exp < clock e (ticks w))%Z ->
  LicenseManager.split_dot payload = [payload] ->
  LicenseManager.split_dot (hmac_sha256 e LicenseManager.SECRET_KEY payload)
  = [hmac_sha256 e LicenseManager.SECRET_KEY payload] ->
  LicenseManager.valid
    (fst (LicenseManager.validateLicenseKey
            e ("VB-" ++ payload ++ "."
               ++ hmac_sha256 e LicenseManager.SECRET_KEY payload)%string w))
  = false.
Proof.
  intros Hparse Hexp Hp Hs. unfold LicenseManager.validateLicenseKey, try_total.
  set (signature := hmac_sha256 e LicenseManager.SECRET_KEY payload) in *.
  assert (Hdrop := drop3_prefix (payload ++ "." ++ signature)).
  assert (Hsplit := split_dot_pair payload signature Hp Hs).
  match goal with
  | |- context [if ?c then _ else _] => destruct c; [reflexivity|]
  end.
  rewrite Hdrop, Hsplit. cbn [nth_error].
  match goal with
  | |- context [if ?c then _ else _] => destruct c; [reflexivity|]
  end.
  fold signature. rewrite String.eqb_refl. cbn [negb].
  rewrite Hparse. cbv beta iota delta [bind ret date_now].
  apply Z.ltb_lt in Hexp. rewrite Hexp. reflexivity.
Qed.

Lemma netCalls_app (t1 t2 : list Effect) :
  Spec.netCalls (t1 ++ t2) = Spec.netCalls t1 ++ Spec.netCalls t2.
Proof. unfold Spec.netCalls. apply flat_map_app. Qed.

(** C5 -- When the licence key of the configuration fails validation,
    [start] reports [success = false]; the trace of the call contains no
    network call, so no transfer is made and [distributeFunds] is not
    reached, and the workers, the running flag, the configuration, the
    stats and the snapshot directory are as before. *)
Theorem C5_rejected_license_never_funds
        (e : Env) (sn : TradingBot.StartNet) (cfg : TradingBot.TradingConfig)
        (b : TradingBot.Bot) :
  LicenseManager.valid
    (fst (LicenseManager.validateLicenseKey e (TradingBot.licenseKey cfg)
                                            (TradingBot.bworld b))) = false ->
  let result := fst (TradingBot.start e sn cfg b) in
  let after := snd (TradingBot.start e sn cfg b) in
  TradingBot.s_success result = false /\
  Spec.netCalls (trace (TradingBot.bworld after))
  = Spec.netCalls (trace (TradingBot.bworld b)) /\
  TradingBot.subWallets after = TradingBot.subWallets b /\
  TradingBot.isRunning after = TradingBot.isRunning b /\
  TradingBot.config after = TradingBot.config b /\
  TradingBot.stats after = TradingBot.stats b /\
  files (TradingBot.bworld after) = files (TradingBot.bworld b).
Proof.
  intros Hinvalid. cbv zeta.
  unfold TradingBot.start, try_total. cbv beta iota delta [bind get].
  destruct (TradingBot.isRunning b) eqn:Hrun.
  - cbn. rewrite Hrun. repeat split; reflexivity.
  - assert (Hframe := validateLicenseKey_frame e (TradingBot.licenseKey cfg)
                                               (TradingBot.bworld b)).
    unfold TradingBot.inWorldT, TradingBot.inWorld, total.
    destruct (LicenseManager.validateLicenseKey
                e (TradingBot.licenseKey cfg) (TradingBot.bworld b))
      as [lv w1].
    cbn [fst snd] in Hinvalid, Hframe. rewrite Hinvalid.
    destruct Hframe as (Hf & _ & _ & Ht & _).
    cbn. rewrite netCalls_app, Ht, Hf, Hrun. cbn. rewrite app_nil_r.
    repeat split; reflexivity.
Qed.

(** A concrete run of C5: a start with an expired licence key on the
    directory of three workers. *)
Lemma C5_rejected_license_witness :
  let result := fst (TradingBot.start (Examples.env true) Examples.startNet
                       Examples.expiredConfig
                       (Examples.freshBot Examples.threeWorkers)) in
  let after := snd (TradingBot.start (Examples.env true) Examples.startNet
                      Examples.expiredConfig
                      (Examples.freshBot Examples.threeWorkers)) in
  TradingBot.s_success result = false /\
  Spec.netCalls (trace (TradingBot.bworld after))
  = Spec.netCalls (trace (TradingBot.bworld
                            (Examples.freshBot Examples.threeWorkers))) /\
  TradingBot.subWallets after
  = TradingBot.subWallets (Examples.freshBot Examples.threeWorkers) /\
  TradingBot.isRunning after
  = TradingBot.isRunning (Examples.freshBot Examples.threeWorkers) /\
  TradingBot.config after
  = TradingBot.config (Examples.freshBot Examples.threeWorkers) /\
  TradingBot.stats after
  = TradingBot.stats (Examples.freshBot Examples.threeWorkers) /\
  files (TradingBot.bworld after)
  = files (TradingBot.bworld (Examples.freshBot Examples.threeWorkers)).
Proof.
  apply (C5_rejected_license_never_funds
           (Examples.env true) Examples.startNet Examples.expiredConfig
           (Examples.freshBot Examples.threeWorkers)).
  vm_compute. reflexivity.
Defined.

(** [stop()] reports success in every state. *)
Lemma stop_always_succeeds (e : Env) (b : TradingBot.Bot) :
  fst (TradingBot.stop e b) = TradingBot.ok.
Proof.
  destruct b as [run cfg st iv sv ws w].
  destruct iv, sv, cfg; reflexivity.
Qed.

(** C9 (amended) -- [stop()] on a bot that is not running reports success
    and leaves the running flag, the stats, the workers, the
    configuration and the snapshot directory as they were, with no timer
    pending; it emits two log entries and a stats update and, when a
    configuration is retained from an earlier [start], starts the
    background clean-up.  [stop()] itself makes no network call. *)
Theorem C9_stop_when_not_running (e : Env) (b : TradingBot.Bot) :
  TradingBot.isRunning b = false ->
  let result := fst (TradingBot.stop e b) in
  let after := snd (TradingBot.stop e b) in
  result = TradingBot.ok /\
  TradingBot.isRunning after = TradingBot.isRunning b /\
  TradingBot.stats after = TradingBot.stats b /\
  TradingBot.subWallets after = TradingBot.subWallets b /\
  TradingBot.config after = TradingBot.config b /\
  TradingBot.intervalId after = None /\
  TradingBot.sessionTimeoutId after = None /\
  files (TradingBot.bworld after) = files (TradingBot.bworld b) /\
  trace (TradingBot.bworld after)
  = trace (TradingBot.bworld b) ++ Spec.stopEffects (TradingBot.config b) /\
  Spec.netCalls (trace (TradingBot.bworld after))
  = Spec.netCalls (trace (TradingBot.bworld b)).
Proof.
  intros Hrun. cbv zeta. split; [apply stop_always_succeeds|].
  destruct b as [run cfg st iv sv ws w]. cbn in Hrun. subst run.
  unfold Spec.stopEffects.
  destruct iv, sv, cfg; cbn;
    rewrite <- ?app_assoc, ?netCalls_app; cbn; rewrite ?app_nil_r;
    repeat split; reflexivity.
Qed.

(** A concrete run of C9 (amended): [stop()] on a bot that was never
    started. *)
Lemma C9_stop_witness :
  let b := Examples.freshBot Examples.threeWorkers in
  let result := fst (TradingBot.stop (Examples.env true) b) in
  let after := snd (TradingBot.stop (Examples.env true) b) in
  result = TradingBot.ok /\
  TradingBot.isRunning after = TradingBot.isRunning b /\
  TradingBot.stats after = TradingBot.stats b /\
  TradingBot.subWallets after = TradingBot.subWallets b /\
  TradingBot.config after = TradingBot.config b /\
  TradingBot.intervalId after = None /\
  TradingBot.sessionTimeoutId after = None /\
  files (TradingBot.bworld after) = files (TradingBot.bworld b) /\
  trace (TradingBot.bworld after)
  = trace (TradingBot.bworld b) ++ Spec.stopEffects (TradingBot.config b) /\
  Spec.netCalls (trace (TradingBot.bworld after))
  = Spec.netCalls (trace (TradingBot.bworld b)).
Proof.
  apply (C9_stop_when_not_running (Examples.env true)
           (Examples.freshBot Examples.threeWorkers)).
  reflexivity.
Defined.

(** C9 as stated fails: a bot that was started and stopped is not
    running and keeps its configuration; a second [stop()] again emits
    log entries and a stats update and starts the background clean-up,
    which sells from the workers and sweeps them over the network. *)
Lemma C9_counterexample :
  ~ (forall (e : Env) (b : TradingBot.Bot),
        TradingBot.isRunning b = false ->
        Spec.silent b (snd (TradingBot.stop e b))) /\
  TradingBot.isRunning Examples.stoppedBot = false /\
  (let after := snd (TradingBot.stop (Examples.env true) Examples.stoppedBot) in
   trace (TradingBot.bworld after)
   = trace (TradingBot.bworld Examples.stoppedBot)
     ++ [Log "info" "Stopping trading bot...";
         Log "success" "Trading bot stopped successfully";
         Emit "stats-update";
         Scheduled "cleanupFundsInBackground"] /\
   Spec.netCalls
     (trace (TradingBot.bworld
               (snd (TradingBot.cleanupFundsInBackground
                       (Examples.env true) (fun _ => Examples.swapOk)
                       (Examples.payingScript (1 # 2)) after))))
   = Spec.netCalls (trace (TradingBot.bworld after))
     ++ [NetSell "pub:a"; NetSell "pub:c";
         NetSellTokens "pub:a"; NetGetBalance "A"; NetGetBlockhash;
         NetSendTransfer "pub:a" (inject_Z 499999000); NetConfirm "sig0";
         NetSellTokens "pub:c"; NetGetBalance "C"; NetGetBlockhash;
         NetSendTransfer "pub:c" (inject_Z 499999000); NetConfirm "sig2"]).
Proof.
  split; [|split; [|split]].
  - intros H.
    specialize (H (Examples.env true) Examples.stoppedBot eq_refl).
    unfold Spec.silent in H. vm_compute in H. discriminate H.
  - reflexivity.
  - vm_compute. reflexivity.
  - vm_compute. reflexivity.
Qed.

(* ================================================================== *)
(** * The trading cycle *)
(* ================================================================== *)

Lemma log_run (e : Env) (level message : string) (b : TradingBot.Bot) :
  TradingBot.log e level message b
  = (Ok tt, TradingBot.set_bworld
              (Spec.logged e level message (TradingBot.bworld b)) b).
Proof. reflexivity. Qed.

Lemma emit_run (event : string) (b : TradingBot.Bot) :
  TradingBot.emit event b
  = (Ok tt, TradingBot.set_bworld
              (Spec.recorded (Emit event) (TradingBot.bworld b)) b).
Proof. reflexivity. Qed.

Lemma getWalletBalance_run (answer : Q) (pk : string) (b : TradingBot.Bot) :
  TradingBot.getWalletBalance answer pk b
  = (Ok answer,
     TradingBot.set_bworld
       (Spec.recorded (Net (NetGetBalance pk)) (TradingBot.bworld b)) b).
Proof. reflexivity. Qed.

(** [stop()] clears the running flag and keeps stats and workers. *)
Lemma stop_frame (e : Env) (b : TradingBot.Bot) :
  exists b',
    TradingBot.stop e b = (TradingBot.ok, b') /\
    TradingBot.isRunning b' = false /\
    TradingBot.stats b' = TradingBot.stats b /\
    TradingBot.subWallets b' = TradingBot.subWallets b.
Proof.
  destruct b as [run cfg st iv sv ws w].
  destruct iv, sv, cfg;
    (eexists; split; [vm_compute; reflexivity|]; repeat split; reflexivity).
Qed.

Lemma await_point_run (e : Env) (stops : bool) (b : TradingBot.Bot) :
  exists b',
    TradingBot.await_point e stops b = (Ok tt, b') /\
    TradingBot.isRunning b' = TradingBot.isRunning b && negb stops /\
    TradingBot.stats b' = TradingBot.stats b /\
    TradingBot.subWallets b' = TradingBot.subWallets b.
Proof.
  unfold TradingBot.await_point. destruct stops.
  - destruct (stop_frame e b) as (b' & Hs & Hr & Hst & Hw).
    exists b'. unfold total. rewrite Hs. rewrite Hr, andb_false_r. auto.
  - exists b. rewrite andb_true_r. auto.
Qed.

(** A swap never throws; it answers the outcome of the worker, clears
    the running flag if a stop command was handled, and keeps the
    workers. *)
Lemma executeBuy_run (e : Env) (o : TradingBot.TradeOutcome)
      (wallet : WalletManager.WalletInfo) (token : string) (amount : Q)
      (b : TradingBot.Bot) :
  exists b',
    TradingBot.executeBuy e o wallet token amount b
    = (Ok (fst (Spec.tradeOutcome e o wallet)), b') /\
    TradingBot.isRunning b'
    = TradingBot.isRunning b && negb (snd (Spec.tradeOutcome e o wallet)) /\
    TradingBot.subWallets b' = TradingBot.subWallets b.
Proof.
  unfold Spec.tradeOutcome, TradingBot.executeBuy,
    WalletManager.keypairFromSecretKey.
  destruct b as [run cfg st iv sv ws w]. destruct o as [succeeded fee vol stops].
  destruct (fromSecretKey e (WalletManager.privateKey wallet)) as [pk|];
    [|eexists; (split; [vm_compute; reflexivity|]); cbn;
      rewrite andb_true_r; auto].
  destruct succeeded, stops, run, iv, sv, cfg;
    (eexists; split; [vm_compute; reflexivity|]; split; reflexivity).
Qed.

Lemma executeSell_run (e : Env) (o : TradingBot.TradeOutcome)
      (wallet : WalletManager.WalletInfo) (token : string)
      (b : TradingBot.Bot) :
  exists b',
    TradingBot.executeSell e o wallet token b
    = (Ok (fst (Spec.sellOutcome e token o wallet)), b') /\
    TradingBot.isRunning b'
    = TradingBot.isRunning b
      && negb (snd (Spec.sellOutcome e token o wallet)) /\
    TradingBot.subWallets b' = TradingBot.subWallets b.
Proof.
  unfold Spec.sellOutcome, Spec.tradeOutcome, TradingBot.executeSell,
    WalletManager.keypairFromSecretKey.
  destruct b as [run cfg st iv sv ws w]. destruct o as [succeeded fee vol stops].
  destruct (isPublicKey e token);
    (destruct (fromSecretKey e (WalletManager.privateKey wallet)) as [pk|];
     [|eexists; (split; [vm_compute; reflexivity|]); cbn;
       rewrite andb_true_r; auto]).
  - destruct succeeded, stops, run, iv, sv, cfg;
      (eexists; split; [vm_compute; reflexivity|]; split; reflexivity).
  - eexists; (split; [vm_compute; reflexivity|]); cbn;
      rewrite andb_true_r; auto.
Qed.

(** The wait between two workers: a stop command is handled only when a
    worker is left and the bot is running. *)
Lemma waitForNextWallet_run (e : Env) (more stops : bool)
      (b : TradingBot.Bot) :
  exists b',
    TradingBot.waitForNextWallet e more stops b = (Ok tt, b') /\
    TradingBot.isRunning b'
    = TradingBot.isRunning b && negb (more && stops) /\
    TradingBot.stats b' = TradingBot.stats b /\
    TradingBot.subWallets b' = TradingBot.subWallets b.
Proof.
  unfold TradingBot.waitForNextWallet.
  rewrite (bind_Ok get _ b b b eq_refl). cbv beta.
  destruct more; cbn [andb].
  - destruct (TradingBot.isRunning b) eqn:Hrun.
    + rewrite (bind_Ok _ _ _ _ _
                 (log_run e "info" "Waiting 3 seconds before next wallet..." b)).
      cbv beta.
      destruct (await_point_run e stops
                  (TradingBot.set_bworld
                     (Spec.logged e "info"
                        "Waiting 3 seconds before next wallet..."
                        (TradingBot.bworld b)) b))
        as (b' & H & Hr & Hs & Hw).
      exists b'. cbn [TradingBot.isRunning TradingBot.set_bworld
                      TradingBot.stats TradingBot.subWallets] in *.
      rewrite Hrun in Hr. auto.
    + exists b. rewrite Hrun. auto.
  - exists b. rewrite andb_true_r. auto.
Qed.

Lemma now_run (e : Env) (b : TradingBot.Bot) :
  TradingBot.inWorld (date_now e) b
  = (Ok (clock e (ticks (TradingBot.bworld b))),
     TradingBot.set_bworld (Spec.advance (TradingBot.bworld b) 1 0) b).
Proof.
  unfold TradingBot.inWorld, date_now, Spec.advance. cbn.
  rewrite Nat.add_1_r, Nat.add_0_r. reflexivity.
Qed.

Ltac step H := rewrite (bind_Ok _ _ _ _ _ H); cbv beta.

(** Phase 1 makes the calls of [Spec.phase], in order. *)
Lemma buyPhase_run (e : Env) (cn : TradingBot.CycleNet) (token : string)
      (ws : list WalletManager.WalletInfo) (i : nat) (acc : list bool)
      (b : TradingBot.Bot) :
  exists b',
    TradingBot.buyPhase e cn token ws i acc b
    = (Ok (acc ++ fst (Spec.phase (TradingBot.isRunning b)
                         (Spec.outcomes
                            (fun i => Spec.tradeOutcome
                                        e (TradingBot.cn_buy cn i))
                            (TradingBot.cn_stop_buy_wait cn) ws i))), b') /\
    TradingBot.isRunning b'
    = snd (Spec.phase (TradingBot.isRunning b)
                      (Spec.outcomes
                         (fun i => Spec.tradeOutcome
                                     e (TradingBot.cn_buy cn i))
                         (TradingBot.cn_stop_buy_wait cn) ws i)) /\
    TradingBot.subWallets b' = TradingBot.subWallets b.
Proof.
  revert i acc b. induction ws as [|wallet ws IH]; intros i acc b;
    cbn [TradingBot.buyPhase Spec.outcomes Spec.phase].
  - exists b. unfold ret. rewrite app_nil_r. auto.
  - destruct (Spec.tradeOutcome e (TradingBot.cn_buy cn i) wallet)
      as [succeeded stops] eqn:Hout.
    unfold bind at 1. unfold get at 1.
    destruct (TradingBot.isRunning b) eqn:Hrun; cbn [negb].
    + step (log_run e "info" "Processing BUY for wallet" b).
      match goal with
      | |- context [bind (TradingBot.getWalletBalance ?a ?pk) _ ?b1] =>
          step (getWalletBalance_run a pk b1)
      end.
      match goal with
      | |- context [bind (TradingBot.log e ?l ?m) _ ?b1] =>
          step (log_run e l m b1)
      end.
      match goal with
      | |- context [bind (TradingBot.executeBuy e ?o ?wl ?tk ?am) _ ?b1] =>
          destruct (executeBuy_run e o wl tk am b1) as (b4 & H4 & Hr4 & Hw4)
      end.
      step H4. rewrite Hout in *. cbn [fst snd] in *.
      assert (Hlog : exists l m,
                 (if succeeded
                  then TradingBot.log e "success" "BUY successful for wallet"
                  else TradingBot.log e "warning" "BUY failed for wallet") b4
                 = (Ok tt, TradingBot.set_bworld
                             (Spec.logged e l m (TradingBot.bworld b4)) b4)).
      { destruct succeeded; eexists _, _; apply log_run. }
      destruct Hlog as (l & m & Hlog). step Hlog.
      destruct (waitForNextWallet_run
                  e (0 <? List.length ws)%nat (TradingBot.cn_stop_buy_wait cn i)
                  (TradingBot.set_bworld
                     (Spec.logged e l m (TradingBot.bworld b4)) b4))
        as (b5 & H5 & Hr5 & _ & Hw5).
      step H5.
      destruct (IH (S i) (acc ++ [succeeded]) b5) as (b' & H' & Hr' & Hw').
      exists b'. cbn [TradingBot.isRunning TradingBot.set_bworld
                      TradingBot.subWallets] in *.
      rewrite Hrun in Hr4. cbn [andb] in Hr4.
      rewrite Hr4, <- negb_orb in Hr5. rewrite Hr5 in *.
      split; [|split].
      * rewrite H', <- app_assoc. reflexivity.
      * exact Hr'.
      * rewrite Hw', Hw5, Hw4. reflexivity.
    + exists b. unfold ret. rewrite app_nil_r. auto.
Qed.

(** Phase 2 likewise. *)
Lemma sellPhase_run (e : Env) (cn : TradingBot.CycleNet) (token : string)
      (ws : list WalletManager.WalletInfo) (i : nat) (acc : list bool)
      (b : TradingBot.Bot) :
  exists b',
    TradingBot.sellPhase e cn token ws i acc b
    = (Ok (acc ++ fst (Spec.phase (TradingBot.isRunning b)
                         (Spec.outcomes
                            (fun i => Spec.sellOutcome
                                        e token (TradingBot.cn_sell cn i))
                            (TradingBot.cn_stop_sell_wait cn) ws i))), b') /\
    TradingBot.isRunning b'
    = snd (Spec.phase (TradingBot.isRunning b)
                      (Spec.outcomes
                         (fun i => Spec.sellOutcome
                                     e token (TradingBot.cn_sell cn i))
                         (TradingBot.cn_stop_sell_wait cn) ws i)) /\
    TradingBot.subWallets b' = TradingBot.subWallets b.
Proof.
  revert i acc b. induction ws as [|wallet ws IH]; intros i acc b;
    cbn [TradingBot.sellPhase Spec.outcomes Spec.phase].
  - exists b. unfold ret. rewrite app_nil_r. auto.
  - destruct (Spec.sellOutcome e token (TradingBot.cn_sell cn i) wallet)
      as [succeeded stops] eqn:Hout.
    unfold bind at 1. unfold get at 1.
    destruct (TradingBot.isRunning b) eqn:Hrun; cbn [negb].
    + step (log_run e "info" "Processing SELL for wallet" b).
      match goal with
      | |- context [bind (TradingBot.executeSell e ?o ?wl ?tk) _ ?b1] =>
          destruct (executeSell_run e o wl tk b1) as (b4 & H4 & Hr4 & Hw4)
      end.
      step H4. rewrite Hout in *. cbn [fst snd] in *.
      assert (Hlog : exists l m,
                 (if succeeded
                  then TradingBot.log e "success" "SELL successful for wallet"
                  else TradingBot.log e "warning" "SELL failed for wallet") b4
                 = (Ok tt, TradingBot.set_bworld
                             (Spec.logged e l m (TradingBot.bworld b4)) b4)).
      { destruct succeeded; eexists _, _; apply log_run. }
      destruct Hlog as (l & m & Hlog). step Hlog.
      destruct (waitForNextWallet_run
                  e (0 <? List.length ws)%nat (TradingBot.cn_stop_sell_wait cn i)
                  (TradingBot.set_bworld
                     (Spec.logged e l m (TradingBot.bworld b4)) b4))
        as (b5 & H5 & Hr5 & _ & Hw5).
      step H5.
      destruct (IH (S i) (acc ++ [succeeded]) b5) as (b' & H' & Hr' & Hw').
      exists b'. cbn [TradingBot.isRunning TradingBot.set_bworld
                      TradingBot.subWallets] in *.
      rewrite Hrun in Hr4. cbn [andb] in Hr4.
      rewrite Hr4, <- negb_orb in Hr5. rewrite Hr5 in *.
      split; [|split].
      * rewrite H', <- app_assoc. reflexivity.
      * exact Hr'.
      * rewrite Hw', Hw5, Hw4. reflexivity.
    + exists b. unfold ret. rewrite app_nil_r. auto.
Qed.

(** The counting loop counts the indices at which both result arrays
    hold [true]. *)
Lemma countComplete_run (e : Env) (buys sells : list bool) (n i : nat)
      (acc : Z) (b : TradingBot.Bot) :
  exists b',
    TradingBot.countComplete e buys sells n i acc b
    = (Ok (acc + Z.of_nat
                   (List.length
                      (List.filter
                         (fun j => nth j buys false && nth j sells false)
                         (seq i n))))%Z, b') /\
    TradingBot.stats b' = TradingBot.stats b /\
    TradingBot.isRunning b' = TradingBot.isRunning b /\
    TradingBot.subWallets b' = TradingBot.subWallets b.
Proof.
  revert i acc b. induction n as [|n IH]; intros i acc b;
    cbn [TradingBot.countComplete seq List.filter].
  - exists b. unfold ret. cbn. rewrite Z.add_0_r. auto.
  - unfold JS.truthy_at.
    destruct (nth i buys false && nth i sells false).
    + step (log_run e "success" "Complete buy-sell cycle for wallet" b).
      destruct (IH (S i) (acc + 1)%Z
                   (TradingBot.set_bworld
                      (Spec.logged e "success"
                         "Complete buy-sell cycle for wallet"
                         (TradingBot.bworld b)) b))
        as (b' & H' & Hs & Hr & Hw).
      exists b'. rewrite H'. cbn [List.length]. repeat split; try assumption.
      do 2 f_equal. lia.
    + step (log_run e "warning" "Incomplete cycle for wallet" b).
      destruct (IH (S i) acc
                   (TradingBot.set_bworld
                      (Spec.logged e "warning" "Incomplete cycle for wallet"
                         (TradingBot.bworld b)) b))
        as (b' & H' & Hs & Hr & Hw).
      exists b'. rewrite H'. repeat split; assumption.
Qed.

Lemma pause_run (e : Env) (level message : string) (stops : bool)
      (b : TradingBot.Bot) :
  exists b',
    (if TradingBot.isRunning b
     then TradingBot.log e level message ;;; TradingBot.await_point e stops
     else ret tt) b = (Ok tt, b') /\
    TradingBot.isRunning b' = TradingBot.isRunning b && negb stops /\
    TradingBot.stats b' = TradingBot.stats b /\
    TradingBot.subWallets b' = TradingBot.subWallets b.
Proof.
  destruct (TradingBot.isRunning b) eqn:Hrun.
  - step (log_run e level message b).
    destruct (await_point_run e stops
                (TradingBot.set_bworld
                   (Spec.logged e level message (TradingBot.bworld b)) b))
      as (b' & H & Hr & Hs & Hw).
    exists b'. cbn [TradingBot.isRunning TradingBot.set_bworld
                    TradingBot.stats TradingBot.subWallets] in *.
    rewrite Hrun in Hr. auto.
  - exists b. rewrite Hrun. auto.
Qed.

Ltac step_get :=
  match goal with
  | |- context [bind get _ ?s] =>
      rewrite (bind_Ok get _ s s s eq_refl); cbv beta
  end.

Ltac step_log :=
  match goal with
  | |- context [bind (TradingBot.log ?e ?l ?m) _ ?s] =>
      rewrite (bind_Ok _ _ _ _ _ (log_run e l m s)); cbv beta
  end.

(** The body of the iteration never throws, and the success rate it
    leaves in the stats is the rate of this iteration. *)
Lemma tradingIteration_rate (e : Env) (cn : TradingBot.CycleNet)
      (token : string) (b : TradingBot.Bot) :
  TradingBot.isRunning b = true ->
  TradingBot.subWallets b <> [] ->
  TradingBot.successRate
    (TradingBot.stats (snd (TradingBot.tradingIteration e cn token b)))
  = Spec.iterationRate e cn token (TradingBot.subWallets b).
Proof.
  intros Hrun Hws.
  unfold TradingBot.tradingIteration, Spec.iterationRate, Spec.buyOutcomes,
    Spec.sellOutcomes.
  cbv zeta.
  set (ws := TradingBot.subWallets b) in *.
  set (buys := Spec.phase true
                 (Spec.outcomes
                    (fun i => Spec.tradeOutcome e (TradingBot.cn_buy cn i))
                    (TradingBot.cn_stop_buy_wait cn) ws 0)).
  set (sells := Spec.phase (snd buys && negb (TradingBot.cn_stop_cooldown cn))
                           (Spec.outcomes
                              (fun i => Spec.sellOutcome
                                          e token (TradingBot.cn_sell cn i))
                              (TradingBot.cn_stop_sell_wait cn) ws 0)).
  match goal with
  | |- context [try_total ?body ?h b] =>
      assert (Hbody : exists b',
                 body b = (Ok tt, b') /\
                 TradingBot.successRate (TradingBot.stats b')
                 = (inject_Z (Z.of_nat (Spec.completeTrades
                                          (fst buys) (fst sells)
                                          (List.length ws)))
                    / inject_Z (Z.of_nat (List.length ws))) * (100 # 1));
      [|destruct Hbody as (b' & Hb & Hrate);
        rewrite (try_total_Ok _ _ _ _ _ Hb); exact Hrate]
  end.
  step_log. step_get.
  cbn [TradingBot.subWallets TradingBot.set_bworld]. fold ws.
  match goal with
  | |- context [bind (TradingBot.buyPhase e cn token ws 0 [])  _ ?s] =>
      destruct (buyPhase_run e cn token ws 0 [] s) as (b1 & H1 & Hr1 & Hw1)
  end.
  cbn [TradingBot.isRunning TradingBot.set_bworld TradingBot.subWallets] in *.
  rewrite Hrun in *. fold ws in H1, Hr1, Hw1. fold buys in H1, Hr1.
  cbn [app] in H1. step H1. step_get.
  destruct (pause_run e "info" "Waiting 5 seconds before selling..."
                      (TradingBot.cn_stop_cooldown cn) b1)
    as (b2 & H2 & Hr2 & _ & Hw2).
  step H2. step_log. step_get.
  cbn [TradingBot.subWallets TradingBot.set_bworld].
  rewrite Hw2, Hw1.
  match goal with
  | |- context [bind (TradingBot.sellPhase e cn token ws 0 [])  _ ?s] =>
      destruct (sellPhase_run e cn token ws 0 [] s) as (b3 & H3 & Hr3 & Hw3)
  end.
  cbn [TradingBot.isRunning TradingBot.set_bworld TradingBot.subWallets] in *.
  rewrite Hr2, Hr1 in H3, Hr3. fold sells in H3, Hr3.
  cbn [app] in H3. step H3. step_get.
  rewrite Hw3, Hw2, Hw1.
  destruct (countComplete_run e (fst buys) (fst sells) (List.length ws) 0 0%Z b3)
    as (b4 & H4 & Hs4 & Hr4 & Hw4).
  step H4. step (now_run e b4).
  match goal with
  | |- context [bind (TradingBot.inWorld (date_now e)) _ ?s] =>
      step (now_run e s)
  end.
  step_get.
  match goal with
  | |- context [bind (modify ?f) _ ?s] =>
      rewrite (bind_Ok (modify f) _ s (f s) tt eq_refl); cbv beta
  end.
  step_log.
  match goal with
  | |- context [bind (TradingBot.emit ?ev) _ ?s] =>
      step (emit_run ev s)
  end.
  step_get.
  match goal with
  | |- context [(if TradingBot.isRunning ?s then _ else _) ?s'] =>
      destruct (pause_run e "info"
                  "Waiting 3 seconds before next continuous cycle..."
                  (TradingBot.cn_stop_pause cn) s)
        as (b5 & H5 & _ & Hs5 & _)
  end.
  exists b5. split; [exact H5|].
  rewrite Hs5.
  cbn [TradingBot.stats TradingBot.set_bworld TradingBot.set_stats
       TradingBot.record_cycle TradingBot.subWallets TradingBot.successRate].
  rewrite Hw4, Hw3, Hw2, Hw1.
  assert (Hpos : (0 <? List.length ws)%nat = true).
  { apply Nat.ltb_lt. destruct ws; [congruence | simpl; lia]. }
  rewrite Hpos. rewrite Z.add_0_l. reflexivity.
Qed.

Lemma outcomes_nth
      (outcome : nat -> WalletManager.WalletInfo -> bool * bool)
      (waits : nat -> bool) (ws : list WalletManager.WalletInfo) (i j : nat) :
  nth_error (map fst (Spec.outcomes outcome waits ws i)) j
  = option_map (fun wallet => fst (outcome (i + j)%nat wallet))
               (nth_error ws j).
Proof.
  revert i j. induction ws as [|wallet ws IH]; intros i j; simpl.
  - now destruct j.
  - destruct j as [|j]; simpl.
    + now rewrite Nat.add_0_r.
    + rewrite IH. now rewrite Nat.add_succ_r.
Qed.

Lemma outcomes_no_stop
      (outcome : nat -> WalletManager.WalletInfo -> bool * bool)
      (waits : nat -> bool) (ws : list WalletManager.WalletInfo) (i : nat) :
  (forall j wallet, snd (outcome j wallet) = false) ->
  (forall j, waits j = false) ->
  Forall (fun o => snd o = false) (Spec.outcomes outcome waits ws i).
Proof.
  intros Hs Hw. revert i. induction ws as [|wallet ws IH]; intros i; simpl;
    constructor; [|apply IH].
  cbn [snd]. now rewrite Hs, Hw, andb_false_r.
Qed.

Lemma tradeOutcome_no_stop (e : Env) (o : TradingBot.TradeOutcome)
      (wallet : WalletManager.WalletInfo) :
  TradingBot.t_stop o = false -> snd (Spec.tradeOutcome e o wallet) = false.
Proof.
  intros Hs. unfold Spec.tradeOutcome.
  now destruct (fromSecretKey e (WalletManager.privateKey wallet)).
Qed.

Lemma sellOutcome_no_stop (e : Env) (token : string)
      (o : TradingBot.TradeOutcome) (wallet : WalletManager.WalletInfo) :
  TradingBot.t_stop o = false ->
  snd (Spec.sellOutcome e token o wallet) = false.
Proof.
  intros Hs. unfold Spec.sellOutcome.
  destruct (isPublicKey e token); [now apply tradeOutcome_no_stop|].
  reflexivity.
Qed.

Lemma phase_uninterrupted (outs : list (bool * bool)) :
  Forall (fun o => snd o = false) outs ->
  Spec.phase true outs = (map fst outs, true).
Proof.
  induction 1 as [|[succeeded stops] outs Hs _ IH]; simpl.
  - reflexivity.
  - simpl in Hs. subst stops. simpl. now rewrite IH.
Qed.

(** C8 -- After an iteration of the cycle of a running bot with [n > 0]
    workers, the success rate in the stats is 100 times the number of
    workers whose Phase-A and Phase-B calls were both made and both
    succeeded in this iteration, divided by [n]; the earlier value of the
    rate plays no part.  When no stop command interrupts the phases this
    is 100 times the number of workers whose buy and sell both succeeded,
    divided by [n].  This holds for any token address: with one that is
    no public key every sell fails and the rate is [0]. *)
Theorem C8_success_rate_of_one_iteration
        (e : Env) (cn : TradingBot.CycleNet) (token : string)
        (b : TradingBot.Bot) :
  TradingBot.isRunning b = true ->
  TradingBot.subWallets b <> [] ->
  let ws := TradingBot.subWallets b in
  let after := snd (TradingBot.tradingIteration e cn token b) in
  TradingBot.successRate (TradingBot.stats after)
  = Spec.iterationRate e cn token ws /\
  (Spec.uninterrupted cn ->
   TradingBot.successRate (TradingBot.stats after)
   = (inject_Z (Z.of_nat (List.length
                            (List.filter (Spec.bothSucceed e cn token ws)
                                         (seq 0 (List.length ws)))))
      / inject_Z (Z.of_nat (List.length ws))) * (100 # 1)).
Proof.
  intros Hrun Hws. cbv zeta.
  rewrite (tradingIteration_rate e cn token b Hrun Hws).
  split; [reflexivity|].
  intros (Hb & Hs & Hc & Hbw & Hsw).
  unfold Spec.iterationRate, Spec.buyOutcomes, Spec.sellOutcomes. cbv zeta.
  rewrite (phase_uninterrupted
             _ (outcomes_no_stop
                  _ _ _ 0
                  (fun j wallet => tradeOutcome_no_stop e _ wallet (Hb j))
                  Hbw)).
  cbn [fst snd]. rewrite Hc. cbn [negb andb].
  rewrite (phase_uninterrupted
             _ (outcomes_no_stop
                  _ _ _ 0
                  (fun j wallet => sellOutcome_no_stop e token _ wallet (Hs j))
                  Hsw)).
  cbn [fst]. unfold Spec.completeTrades.
  do 5 f_equal. apply filter_ext_in. intros i Hi.
  apply in_seq in Hi. unfold Spec.bothSucceed.
  assert (Hnth : forall outcome waits,
             nth i (map fst (Spec.outcomes outcome waits
                                           (TradingBot.subWallets b) 0))
                 false
             = match nth_error (TradingBot.subWallets b) i with
               | Some wallet => fst (outcome i wallet)
               | None => false
               end).
  { intros outcome waits.
    destruct (nth_error (TradingBot.subWallets b) i) as [wallet|] eqn:E.
    - apply nth_error_nth.
      rewrite outcomes_nth, E. reflexivity.
    - apply nth_error_None in E. lia. }
  rewrite !Hnth.
  destruct (nth_error (TradingBot.subWallets b) i); reflexivity.
Qed.

Lemma thirdSellFails_uninterrupted : Spec.uninterrupted Examples.thirdSellFails.
Proof.
  repeat split; intros i; simpl; try reflexivity.
  destruct (i =? 2)%nat; reflexivity.
Qed.

(** A concrete run of C8: three workers, every buy succeeds and the sell
    of the third worker fails: two complete trades out of three, a rate
    of 200/3 per cent. *)
Lemma C8_success_rate_witness :
  TradingBot.successRate
    (TradingBot.stats
       (snd (TradingBot.tradingIteration (Examples.env true)
               Examples.thirdSellFails "TOKEN" Examples.tradingBot)))
  = 200 # 3 /\
  TradingBot.successRate
    (TradingBot.stats
       (snd (TradingBot.tradingIteration (Examples.env true)
               Examples.thirdSellFails "TOKEN" Examples.tradingBot)))
  = (inject_Z 2 / inject_Z 3) * (100 # 1).
Proof.
  assert (Hrun : TradingBot.isRunning Examples.tradingBot = true)
    by (vm_compute; reflexivity).
  assert (Hws : TradingBot.subWallets Examples.tradingBot <> [])
    by (vm_compute; discriminate).
  split.
  - exact (proj1 (C8_success_rate_of_one_iteration
                    (Examples.env true) Examples.thirdSellFails "TOKEN"
                    Examples.tradingBot Hrun Hws)).
  - exact (proj2 (C8_success_rate_of_one_iteration
                    (Examples.env true) Examples.thirdSellFails "TOKEN"
                    Examples.tradingBot Hrun Hws)
                 thirdSellFails_uninterrupted).
Defined.

(* ================================================================== *)
(** * The reconciler on a concrete directory *)
(* ================================================================== *)

(** A concrete run of C1: the directory with the snapshots of time 1
    (workers [A], [B]) and time 2 (workers [B], [C]). *)
Lemma C1_reconciled_view_witness :
  exists view w',
    BackupManager.getAllWalletsFromBackups (Examples.env true)
      Examples.datedWorld = (Ok view, w') /\
    NoDup (map BackupManager.ts_publicKey (BackupManager.subWalletsR view)) /\
    List.length (BackupManager.subWalletsR view)
    = List.length
        (nodup string_dec
               (flat_map (fun entry => Spec.storedSubKeys (snd entry))
                         (Spec.readable (files Examples.datedWorld)))) /\
    (forall t, In t (BackupManager.subWalletsR view) ->
               Spec.newestStoredSub
                 (Spec.snapshots (Examples.env true) Examples.datedWorld) t) /\
    NoDup (map BackupManager.tm_publicKey (BackupManager.mainWallets view)) /\
    List.length (BackupManager.mainWallets view)
    = List.length
        (nodup Spec.ostring_dec
               (flat_map (fun entry => Spec.storedMainKeys (snd entry))
                         (Spec.readable (files Examples.datedWorld)))) /\
    (forall t, In t (BackupManager.mainWallets view) ->
               Spec.newestStoredMain
                 (Spec.snapshots (Examples.env true) Examples.datedWorld) t).
Proof.
  exact (C1_reconciled_view_newest_wins (Examples.env true) Examples.datedWorld).
Defined.

(** On that directory worker [B] is kept with the secret of the newer
    snapshot, and three workers remain. *)
Example reconciled_dated_directory :
  map (fun t => (BackupManager.ts_publicKey t,
                 sw_privateKey (BackupManager.ts_wallet t),
                 BackupManager.ts_timestamp t))
      (Spec.existing (Examples.env true) Examples.datedWorld)
  = [("B", "b2", 2%Z); ("C", "c", 2%Z); ("A", "a", 1%Z)]%string.
Proof. vm_compute. reflexivity. Qed.

(* ================================================================== *)
(** * Further properties of the snapshot store *)
(* ================================================================== *)

Lemma map_combine_seq {A B : Type} (g : A -> B) (h : nat -> A -> B)
      (l : list A) (k : nat) :
  (forall i x, h i x = g x) ->
  map (fun p => h (fst p) (snd p)) (combine (seq k (List.length l)) l)
  = map g l.
Proof.
  intros Hh. revert k. induction l as [|x l IH]; intros k; simpl.
  - reflexivity.
  - rewrite Hh, IH. reflexivity.
Qed.

(** Normalisation keeps the credentials of a stored file: the public and
    secret keys of the sub-wallets, in order, and those of a main wallet
    object. *)
Lemma normalize_keeps_credentials (e : Env) (raw : RawBackup) (w : World) :
  exists b w',
    BackupManager.normalizeBackupFormat e raw w = (Ok b, w') /\
    map (fun s => (sw_publicKey s, sw_privateKey s)) (subWallets b)
    = map (fun s => (sw_publicKey s, sw_privateKey s)) (raw_subWallets raw) /\
    (forall m, raw_mainWallet raw = MainObject m ->
               exists m', mainWallet b = MainObject m' /\
                          mw_publicKey m' = mw_publicKey m /\
                          mw_privateKey m' = mw_privateKey m).
Proof.
  unfold BackupManager.normalizeBackupFormat.
  destruct (BackupManager.isSome (raw_metadata raw)
            && JS.truthyZ (raw_timestamp raw)
            && BackupManager.truthyMain (raw_mainWallet raw)).
  - eexists _, _. split; [reflexivity|]. split; [reflexivity|].
    intros m Hm. exists m. simpl. auto.
  - assert (Hsub : forall t,
      map (fun s => (sw_publicKey s, sw_privateKey s))
          (map (fun '(index, wallet) =>
                  {| sw_publicKey := sw_publicKey wallet;
                     sw_privateKey := sw_privateKey wallet;
                     sw_createdAt :=
                       Some (if JS.truthyZ (sw_createdAt wallet)
                             then match sw_createdAt wallet with
                                  | Some t0 => t0 | None => 0%Z end
                             else t);
                     sw_index :=
                       Some (match sw_index wallet with
                             | Some i => i
                             | None => Z.of_nat index
                             end) |})
               (combine (seq 0 (List.length (raw_subWallets raw)))
                        (raw_subWallets raw)))
      = map (fun s => (sw_publicKey s, sw_privateKey s)) (raw_subWallets raw)).
    { intros t. rewrite map_map.
      rewrite <- (map_combine_seq
                    (fun s => (sw_publicKey s, sw_privateKey s))
                    (fun (_ : nat) s => (sw_publicKey s, sw_privateKey s))
                    (raw_subWallets raw) 0) by reflexivity.
      apply map_ext. intros [i x]. reflexivity. }
    destruct (JS.truthyZ (raw_timestamp raw) || JS.truthyZ (raw_createdAt raw)).
    + eexists _, _. split; [reflexivity|]. split; [apply Hsub|].
      intros m Hm. simpl. rewrite Hm. eexists. split; [reflexivity|].
      simpl. auto.
    + eexists _, _. split; [reflexivity|]. split; [apply Hsub|].
      intros m Hm. simpl. rewrite Hm. eexists. split; [reflexivity|].
      simpl. auto.
Qed.

(** Reading the directory yields one backup per readable file, in
    directory order. *)
Lemma readBackupFiles_shape (e : Env) (dir : list (string * option RawBackup))
      (w : World) :
  exists snaps w',
    BackupManager.readBackupFiles e dir w = (Ok snaps, w') /\
    Forall2 (Spec.readFrom e) snaps (Spec.readable dir).
Proof.
  revert w. induction dir as [|[name content] dir IH]; intros w;
    cbn [BackupManager.readBackupFiles Spec.readable flat_map fst snd].
  - exists [], w. split; [reflexivity | constructor].
  - destruct (JS.startsWith name "wallets-" && JS.endsWith name ".json");
      [|apply IH].
    destruct content as [raw|]; [|apply IH].
    destruct (normalizeBackupFormat_ok e raw w) as (b & w1 & Hn & _).
    destruct (IH w1) as (snaps & w2 & Hr & Hall).
    eexists _, w2. split.
    + unfold bind at 1. rewrite Hn. unfold bind at 1. rewrite Hr. reflexivity.
    + cbn [app]. constructor; [|exact Hall].
      unfold Spec.readFrom. cbn. repeat split. now exists w, w1.
Qed.

Lemma getBackupFiles_shape (e : Env) (w : World) :
  exists snaps bfs w',
    BackupManager.readBackupFiles e (files w) w = (Ok snaps, w') /\
    BackupManager.getBackupFiles e w = (Ok bfs, w') /\
    Forall2 (Spec.readFrom e) snaps (Spec.readable (files w)) /\
    Permutation bfs snaps /\
    StronglySorted (fun a b => (bf_timestamp b <= bf_timestamp a)%Z) bfs.
Proof.
  destruct (readBackupFiles_shape e (files w) w) as (snaps & w' & Hr & Hall).
  exists snaps, (JS.sort (fun a b => (bf_timestamp b - bf_timestamp a)%Z) snaps), w'.
  split; [exact Hr|]. split.
  { unfold BackupManager.getBackupFiles, bind. rewrite Hr. reflexivity. }
  split; [exact Hall|]. split.
  - apply sort_perm.
  - apply (sort_sorted bf_timestamp).
Qed.

Lemma Forall2_map_eq {A B C : Type} (R : A -> B -> Prop) (f : A -> C)
      (g : B -> C) (l : list A) (l' : list B) :
  (forall a b, R a b -> f a = g b) ->
  Forall2 R l l' -> map f l = map g l'.
Proof.
  intros H. induction 1; simpl; [reflexivity|].
  f_equal; [now apply H | assumption].
Qed.

(** X1 -- The listing skips what it cannot use: whatever else the directory
    holds, [getBackupFiles] returns exactly one backup per file named
    [wallets-*.json] that can be read and parsed, under the name of that
    file, and it only reads the clock. *)
Theorem getBackupFiles_skips_unreadable (e : Env) (w : World) :
  exists bfs w',
    BackupManager.getBackupFiles e w = (Ok bfs, w') /\
    Permutation (map filename bfs) (map fst (Spec.readable (files w))) /\
    List.length bfs = List.length (Spec.readable (files w)) /\
    Spec.clock_only w w'.
Proof.
  destruct (getBackupFiles_shape e w)
    as (snaps & bfs & w' & Hr & Hg & Hall & Hperm & _).
  exists bfs, w'. split; [exact Hg|].
  assert (Hnames : map filename snaps = map fst (Spec.readable (files w))).
  { apply (Forall2_map_eq (Spec.readFrom e)); [|exact Hall].
    intros a b (H & _). exact H. }
  split; [|split].
  - rewrite <- Hnames. now apply Permutation_map.
  - rewrite (Permutation_length Hperm), <- (length_map filename), Hnames.
    apply length_map.
  - destruct (readBackupFiles_ok e (files w) w) as (s2 & w2 & Hr2 & Hc).
    rewrite Hr in Hr2. injection Hr2 as _ <-. exact Hc.
Qed.

(** X2 -- The listing is ordered newest first, and [getLatestBackup] answers
    [null] exactly when no file is readable and otherwise a backup that no
    other backup exceeds in timestamp. *)
Theorem getLatestBackup_is_newest (e : Env) (w : World) :
  exists bfs latest w',
    BackupManager.getBackupFiles e w = (Ok bfs, w') /\
    BackupManager.getLatestBackup e w = (Ok latest, w') /\
    StronglySorted (fun a b => (bf_timestamp b <= bf_timestamp a)%Z) bfs /\
    (latest = None <-> Spec.readable (files w) = []) /\
    (forall bf, latest = Some bf ->
       In bf bfs /\
       forall bf', In bf' bfs -> (bf_timestamp bf' <= bf_timestamp bf)%Z).
Proof.
  destruct (getBackupFiles_shape e w)
    as (snaps & bfs & w' & Hr & Hg & Hall & Hperm & Hsorted).
  exists bfs, (match bfs with b :: _ => Some b | [] => None end), w'.
  split; [exact Hg|]. split.
  { unfold BackupManager.getLatestBackup. rewrite (bind_Ok _ _ _ _ _ Hg).
    reflexivity. }
  split; [exact Hsorted|]. split.
  - assert (Hlen : List.length bfs = List.length (Spec.readable (files w))).
    { rewrite (Permutation_length Hperm). eapply Forall2_length; eassumption. }
    destruct bfs as [|b bfs]; destruct (Spec.readable (files w));
      simpl in Hlen; try discriminate; split; try reflexivity;
      discriminate.
  - intros bf Hbf. destruct bfs as [|b bfs]; [discriminate|].
    injection Hbf as ->. split; [now left|].
    intros bf' [<-|Hin]; [lia|].
    apply StronglySorted_inv in Hsorted. destruct Hsorted as [_ Hall'].
    rewrite Forall_forall in Hall'. now apply Hall'.
Qed.

Lemma readFrom_credentials (e : Env) (bf : BackupFile)
      (entry : string * RawBackup) :
  Spec.readFrom e bf entry ->
  map (fun s => (sw_publicKey s, sw_privateKey s)) (subWallets (data bf))
  = map (fun s => (sw_publicKey s, sw_privateKey s))
        (raw_subWallets (snd entry)).
Proof.
  intros (_ & _ & w0 & w1 & Hn).
  destruct (normalize_keeps_credentials e (snd entry) w0)
    as (b & w' & Hn' & Hc & _).
  rewrite Hn in Hn'. injection Hn' as <- _. exact Hc.
Qed.

Lemma existing_is_view (e : Env) (w : World) :
  exists snaps bfs,
    Forall2 (Spec.readFrom e) snaps (Spec.readable (files w)) /\
    Permutation bfs snaps /\
    Spec.existing e w
    = Spec.unique BackupManager.ts_publicKey String.eqb
                  (flat_map BackupManager.subsOf bfs).
Proof.
  destruct (getBackupFiles_shape e w)
    as (snaps & bfs & w' & _ & Hg & Hall & Hperm & _).
  exists snaps, bfs. split; [exact Hall|]. split; [exact Hperm|].
  unfold Spec.existing, BackupManager.getAllWalletsFromBackups.
  rewrite (bind_Ok _ _ _ _ _ Hg). reflexivity.
Qed.

Lemma unique_In {A K : Type} (key : A -> K) (eqb : K -> K -> bool)
      (eqb_eq : forall a b, eqb a b = true <-> a = b) (l : list A) (x : A) :
  In x (Spec.unique key eqb l) -> In x l.
Proof.
  rewrite (unique_firsts key eqb eqb_eq). intros H.
  destruct (firsts_first key eqb eqb_eq _ _ _ H) as (l1 & l2 & -> & _).
  apply in_or_app. right. now left.
Qed.

(** The public keys of the reconciled set are those listed by the
    readable snapshot files. *)
Lemma existing_keys (e : Env) (w : World) (k : string) :
  In k (map BackupManager.ts_publicKey (Spec.existing e w)) <->
  exists name raw,
    In (name, raw) (Spec.readable (files w)) /\
    In k (map sw_publicKey (raw_subWallets raw)).
Proof.
  destruct (existing_is_view e w) as (snaps & bfs & Hall & Hperm & ->).
  assert (Hpair : forall bf entry,
             Spec.readFrom e bf entry ->
             forall pk sk,
               In (pk, sk) (map (fun s => (sw_publicKey s, sw_privateKey s))
                                (subWallets (data bf))) <->
               In (pk, sk) (map (fun s => (sw_publicKey s, sw_privateKey s))
                                (raw_subWallets (snd entry)))).
  { intros bf entry Hrf pk sk. now rewrite (readFrom_credentials e bf entry Hrf). }
  rewrite (unique_firsts _ _ String.eqb_eq),
    (firsts_keys _ _ String.eqb_eq). split.
  - intros [Hk _]. apply in_map_iff in Hk. destruct Hk as (t & <- & Ht).
    apply in_flat_map in Ht. destruct Ht as (bf & Hbf & Ht).
    apply (Permutation_in _ Hperm) in Hbf.
    destruct (Forall2_In_l _ _ _ _ Hall Hbf) as ([name raw] & Hentry & Hrf).
    exists name, raw. split; [exact Hentry|].
    unfold BackupManager.subsOf in Ht. apply in_map_iff in Ht.
    destruct Ht as (s & <- & Hs).
    assert (Hin : In (sw_publicKey s, sw_privateKey s)
                     (map (fun s => (sw_publicKey s, sw_privateKey s))
                          (raw_subWallets raw))).
    { apply (Hpair bf (name, raw) Hrf).
      apply in_map_iff. now exists s. }
    apply in_map_iff in Hin. destruct Hin as (s' & Heq & Hs').
    injection Heq as Hpk _. apply in_map_iff. exists s'.
    split; [exact Hpk | exact Hs'].
  - intros (name & raw & Hentry & Hk). split; [|simpl; tauto].
    destruct (Forall2_In_r _ _ _ _ Hall Hentry) as (bf & Hbf & Hrf).
    apply in_map_iff in Hk. destruct Hk as (s & <- & Hs).
    assert (Hin : In (sw_publicKey s, sw_privateKey s)
                     (map (fun s => (sw_publicKey s, sw_privateKey s))
                          (subWallets (data bf)))).
    { apply (Hpair bf (name, raw) Hrf). apply in_map_iff. now exists s. }
    apply in_map_iff in Hin. destruct Hin as (s' & Heq & Hs').
    injection Heq as Hpk _.
    apply in_map_iff.
    exists {| BackupManager.ts_wallet := s';
              BackupManager.ts_backupFile := filename bf;
              BackupManager.ts_timestamp := bf_timestamp bf |}.
    split; [exact Hpk|].
    apply in_flat_map. exists bf. split.
    + apply (Permutation_in _ (Permutation_sym Hperm)). exact Hbf.
    + unfold BackupManager.subsOf. apply in_map_iff. now exists s'.
Qed.

(** X3 -- Reconciliation is a union with provenance: a public key has a record
    in the reconciled sub-wallet set exactly when some readable snapshot
    file lists it, and every record carries a (public key, secret key)
    pair stored in the file its [backupFile] names. *)
Theorem reconciled_set_is_the_union_of_the_files (e : Env) (w : World) :
  (forall k,
      In k (map BackupManager.ts_publicKey (Spec.existing e w)) <->
      exists name raw,
        In (name, raw) (Spec.readable (files w)) /\
        In k (map sw_publicKey (raw_subWallets raw))) /\
  (forall t,
      In t (Spec.existing e w) ->
      exists raw s,
        In (BackupManager.ts_backupFile t, raw) (Spec.readable (files w)) /\
        In s (raw_subWallets raw) /\
        sw_publicKey s = BackupManager.ts_publicKey t /\
        sw_privateKey s = sw_privateKey (BackupManager.ts_wallet t)).
Proof.
  split; [exact (existing_keys e w)|].
  destruct (existing_is_view e w) as (snaps & bfs & Hall & Hperm & ->).
  intros t Ht. apply (unique_In _ _ String.eqb_eq) in Ht.
  apply in_flat_map in Ht. destruct Ht as (bf & Hbf & Ht).
  apply (Permutation_in _ Hperm) in Hbf.
  destruct (Forall2_In_l _ _ _ _ Hall Hbf) as ([name raw] & Hentry & Hrf).
  unfold BackupManager.subsOf in Ht. apply in_map_iff in Ht.
  destruct Ht as (s & <- & Hs).
  assert (Hin : In (sw_publicKey s, sw_privateKey s)
                   (map (fun s => (sw_publicKey s, sw_privateKey s))
                        (raw_subWallets raw))).
  { assert (Hc := readFrom_credentials e bf (name, raw) Hrf).
    cbn [snd] in Hc. rewrite <- Hc. apply in_map_iff. now exists s. }
  apply in_map_iff in Hin. destruct Hin as (s' & Heq & Hs').
  injection Heq as Hpk Hsk.
  exists raw, s'. cbn. destruct Hrf as (Hname & _). cbn in Hname.
  rewrite Hname. auto.
Qed.

Lemma nth_error_map_combine_seq {A B : Type} (f : nat * A -> B) (l : list A)
      (k i : nat) :
  nth_error (map f (combine (seq k (List.length l)) l)) i
  = option_map (fun x => f ((k + i)%nat, x)) (nth_error l i).
Proof.
  revert k i. induction l as [|x l IH]; intros k i; simpl.
  - now destruct i.
  - destruct i as [|i]; simpl.
    + now rewrite Nat.add_0_r.
    + rewrite IH. now rewrite Nat.add_succ_r.
Qed.

(** X4 -- A stored file that is not in the current format is given defaults:
    the snapshot time is its [createdAt], else its [timestamp], else the
    time of the read; every sub-wallet entry keeps its keys, takes the
    snapshot time when it has no creation time of its own, and takes its
    position in the array when it has no slot. *)
Theorem legacy_snapshot_gets_defaults (e : Env) (raw : RawBackup) (w : World) :
  Spec.currentFormat raw = false ->
  exists b w',
    BackupManager.normalizeBackupFormat e raw w = (Ok b, w') /\
    timestamp b
    = (if JS.truthyZ (raw_createdAt raw)
       then match raw_createdAt raw with Some t => t | None => 0%Z end
       else if JS.truthyZ (raw_timestamp raw)
            then match raw_timestamp raw with Some t => t | None => 0%Z end
            else clock e (ticks w)) /\
    List.length (subWallets b) = List.length (raw_subWallets raw) /\
    (forall i s,
        nth_error (raw_subWallets raw) i = Some s ->
        nth_error (subWallets b) i
        = Some {| sw_publicKey := sw_publicKey s;
                  sw_privateKey := sw_privateKey s;
                  sw_createdAt :=
                    Some (match sw_createdAt s with
                          | Some c => if (c =? 0)%Z then timestamp b else c
                          | None => timestamp b
                          end);
                  sw_index :=
                    Some (match sw_index s with
                          | Some j => j
                          | None => Z.of_nat i
                          end) |}).
Proof.
  intros Hlegacy. unfold Spec.currentFormat in Hlegacy.
  unfold BackupManager.normalizeBackupFormat. rewrite Hlegacy.
  assert (Hnth : forall t i s,
    nth_error (raw_subWallets raw) i = Some s ->
    nth_error
      (map (fun '(index, wallet) =>
              {| sw_publicKey := sw_publicKey wallet;
                 sw_privateKey := sw_privateKey wallet;
                 sw_createdAt :=
                   Some (if JS.truthyZ (sw_createdAt wallet)
                         then match sw_createdAt wallet with
                              | Some t0 => t0 | None => 0%Z end
                         else t);
                 sw_index :=
                   Some (match sw_index wallet with
                         | Some i => i
                         | None => Z.of_nat index
                         end) |})
           (combine (seq 0 (List.length (raw_subWallets raw)))
                    (raw_subWallets raw))) i
    = Some {| sw_publicKey := sw_publicKey s;
              sw_privateKey := sw_privateKey s;
              sw_createdAt :=
                Some (match sw_createdAt s with
                      | Some c => if (c =? 0)%Z then t else c
                      | None => t
                      end);
              sw_index :=
                Some (match sw_index s with
                      | Some j => j
                      | None => Z.of_nat i
                      end) |}).
  { intros t i s Hs. rewrite nth_error_map_combine_seq, Hs. cbn.
    destruct (sw_createdAt s) as [c|]; cbn; [|reflexivity].
    destruct (c =? 0)%Z; reflexivity. }
  assert (Hlen : forall t,
    List.length
      (map (fun '(index, wallet) =>
              {| sw_publicKey := sw_publicKey wallet;
                 sw_privateKey := sw_privateKey wallet;
                 sw_createdAt :=
                   Some (if JS.truthyZ (sw_createdAt wallet)
                         then match sw_createdAt wallet with
                              | Some t0 => t0 | None => 0%Z end
                         else t);
                 sw_index :=
                   Some (match sw_index wallet with
                         | Some i => i
                         | None => Z.of_nat index
                         end) |})
           (combine (seq 0 (List.length (raw_subWallets raw)))
                    (raw_subWallets raw)))
    = List.length (raw_subWallets raw)).
  { intros t. rewrite length_map, length_combine, length_seq. apply Nat.min_id. }
  destruct (JS.truthyZ (raw_createdAt raw)) eqn:Ec;
    destruct (JS.truthyZ (raw_timestamp raw)) eqn:Et; cbn [orb];
    eexists _, _; (split; [reflexivity|]); cbn [timestamp subWallets];
    (split; [reflexivity|]); (split; [apply Hlen | apply Hnth]).
Qed.

(** A concrete run: the half-stamped legacy file. *)
Lemma legacy_snapshot_witness :
  exists b w',
    BackupManager.normalizeBackupFormat (Examples.env true)
      Examples.halfStamped Examples.emptyWorld = (Ok b, w') /\
    timestamp b = 50%Z /\
    List.length (subWallets b) = 2%nat /\
    (forall i s,
        nth_error (raw_subWallets Examples.halfStamped) i = Some s ->
        nth_error (subWallets b) i
        = Some {| sw_publicKey := sw_publicKey s;
                  sw_privateKey := sw_privateKey s;
                  sw_createdAt :=
                    Some (match sw_createdAt s with
                          | Some c => if (c =? 0)%Z then timestamp b else c
                          | None => timestamp b
                          end);
                  sw_index :=
                    Some (match sw_index s with
                          | Some j => j
                          | None => Z.of_nat i
                          end) |}).
Proof.
  apply (legacy_snapshot_gets_defaults (Examples.env true)
           Examples.halfStamped Examples.emptyWorld).
  reflexivity.
Defined.

Lemma stamped_entries_unchanged (t : Z) (subs : list SubWallet) (k : nat) :
  Forall Spec.stamped subs ->
  map (fun '(index, wallet) =>
         {| sw_publicKey := sw_publicKey wallet;
            sw_privateKey := sw_privateKey wallet;
            sw_createdAt :=
              Some (if JS.truthyZ (sw_createdAt wallet)
                    then match sw_createdAt wallet with
                         | Some t0 => t0 | None => 0%Z end
                    else t);
            sw_index :=
              Some (match sw_index wallet with
                    | Some i => i
                    | None => Z.of_nat index
                    end) |})
      (combine (seq k (List.length subs)) subs)
  = subs.
Proof.
  intros Hall. revert k. induction Hall as [|s subs [Hc Hi] _ IH]; intros k;
    simpl; [reflexivity|].
  rewrite IH. f_equal.
  destruct s as [pk sk [c|] [j|]]; simpl in *; try discriminate;
    try congruence.
  rewrite Hc. reflexivity.
Qed.

(** X5 -- Round trip of a written snapshot: what [updateBackupWithNewWallets]
    writes at a time other than [0] for entries that carry a creation
    time and a slot is read back with the same timestamp and the same
    entries, without consulting the clock. *)
Theorem written_snapshot_round_trip (e : Env) (t : Z)
        (subs : list SubWallet) (w : World) :
  t <> 0%Z ->
  Forall Spec.stamped subs ->
  exists b,
    BackupManager.normalizeBackupFormat e (Spec.snapshotOf t subs) w
    = (Ok b, w) /\
    timestamp b = t /\ subWallets b = subs.
Proof.
  intros Ht Hall. unfold BackupManager.normalizeBackupFormat.
  cbn [Spec.snapshotOf raw_metadata raw_timestamp raw_mainWallet
       raw_createdAt raw_subWallets raw_version BackupManager.truthyMain].
  rewrite andb_false_r.
  assert (Htruthy : JS.truthyZ (Some t) = true).
  { simpl. apply Z.eqb_neq in Ht. now rewrite Ht. }
  rewrite Htruthy. cbn [orb JS.truthyZ].
  eexists. split; [reflexivity|]. cbn [timestamp subWallets].
  split; [reflexivity|]. now apply stamped_entries_unchanged.
Qed.

(** The identities minted by [createSubWallets] carry a creation time and
    a slot whenever the clock never reads [0]. *)
Lemma mintedWallets_stamped (e : Env) (w : World) (current : Z) (n : nat) :
  (forall k, clock e k <> 0%Z) ->
  Forall Spec.stamped (Spec.mintedWallets e w current n).
Proof.
  intros Hclock. unfold Spec.mintedWallets. apply Forall_forall.
  intros s Hs. apply in_map_iff in Hs. destruct Hs as (j & <- & _).
  split; simpl; [|discriminate].
  specialize (Hclock (ticks w + j)%nat). apply Z.eqb_neq in Hclock.
  now rewrite Hclock.
Qed.

(** A concrete run of the round trip: two identities minted in the
    empty world, written at time [1002]. *)
Lemma written_snapshot_round_trip_witness :
  exists b,
    BackupManager.normalizeBackupFormat (Examples.env true)
      (Spec.snapshotOf 1002
         (Spec.mintedWallets (Examples.env true) Examples.emptyWorld 0 2))
      Examples.emptyWorld
    = (Ok b, Examples.emptyWorld) /\
    timestamp b = 1002%Z /\
    subWallets b
    = Spec.mintedWallets (Examples.env true) Examples.emptyWorld 0 2.
Proof.
  apply (written_snapshot_round_trip (Examples.env true) 1002
           (Spec.mintedWallets (Examples.env true) Examples.emptyWorld 0 2)
           Examples.emptyWorld).
  - lia.
  - apply mintedWallets_stamped. intros k. unfold Examples.env.
    cbn [clock]. lia.
Defined.

Lemma readable_In (dir : list (string * option RawBackup)) (name : string)
      (raw : RawBackup) :
  In (name, Some raw) dir ->
  JS.startsWith name "wallets-" && JS.endsWith name ".json" = true ->
  In (name, raw) (Spec.readable dir).
Proof.
  intros Hin Hname. unfold Spec.readable. apply in_flat_map.
  exists (name, Some raw). split; [exact Hin|]. cbn [fst snd].
  rewrite Hname. now left.
Qed.

Lemma slice0_In {A : Type} (c : Z) (l : list A) (x : A) :
  In x (JS.slice0 c l) -> In x l.
Proof.
  assert (Hfirst : forall n, In x (firstn n l) -> In x l).
  { intros n Hx. rewrite <- (firstn_skipn n l). apply in_or_app. now left. }
  unfold JS.slice0. destruct (0 <=? c)%Z; apply Hfirst.
Qed.

(** X6 -- Provisioning never forgets an identity.  Whatever [createSubWallets]
    is asked and whether or not the write succeeds, every public key of
    the reconciled set before the call is in the reconciled set after
    it -- also when the new snapshot takes the name of a file that
    already exists and replaces it -- and every wallet the call returns
    is in the reconciled set after it. *)
Theorem provisioning_never_forgets_an_identity (e : Env) (count : Z)
        (w : World) :
  let out := WalletManager.createSubWallets e count w in
  (forall k,
      In k (map BackupManager.ts_publicKey (Spec.existing e w)) ->
      In k (map BackupManager.ts_publicKey (Spec.existing e (snd out)))) /\
  (forall ws r,
      WalletManager.wallets (fst out) = Some ws ->
      In r ws ->
      In (WalletManager.publicKey r)
         (map BackupManager.ts_publicKey (Spec.existing e (snd out)))).
Proof.
  cbv zeta.
  destruct (getAllWalletsFromBackups_ok e w) as (view & w1 & Hget & Hc).
  destruct Hc as (Hf & Hm & Hwr & Ht & _).
  assert (Hex := existing_eq e w w1 view Hget).
  assert (Hsame : forall k,
             In k (map BackupManager.ts_publicKey (Spec.existing e w1)) <->
             In k (map BackupManager.ts_publicKey (Spec.existing e w))).
  { intros k. rewrite !existing_keys, Hf. reflexivity. }
  destruct (Z.le_gt_cases count
              (Z.of_nat (List.length (BackupManager.subWalletsR view))))
    as [Hle|Hgt].
  - rewrite (createSubWallets_reuse e count w w1 view Hget Hle).
    cbn [fst snd WalletManager.wallets]. split.
    + intros k Hk. now apply Hsame.
    + intros ws r [= <-] Hr. apply in_map_iff in Hr.
      destruct Hr as (t & <- & Hin). apply slice0_In in Hin.
      apply Hsame. rewrite Hex. cbn [Spec.infoOfTagged WalletManager.publicKey].
      now apply in_map.
  - rewrite (createSubWallets_grow e count w w1 view Hget Hgt).
    match goal with
    | |- context [BackupManager.createBackup e MainUndefined ?all ?w2] =>
        set (subs := all); set (w2' := w2);
        destruct (write_ok e (writes w2')) eqn:Hdisk;
        [rewrite (createBackup_success e subs w2' Hdisk)
        |destruct (createBackup_failure e subs w2' Hdisk)
           as (msg & w3 & Hb & Hf3 & Ht3 & _); rewrite Hb]
    end.
    + cbn [fst snd WalletManager.wallets].
      assert (Hnew : forall k,
                 In k (map sw_publicKey subs) ->
                 In k (map BackupManager.ts_publicKey
                           (Spec.existing e
                              {| files := put_file (Spec.snapshotName (clock e (ticks w2')))
                                            (Some (Spec.snapshotOf (clock e (ticks w2')) subs))
                                            (files w2');
                                 ticks := S (ticks w2');
                                 minted := minted w2';
                                 writes := S (writes w2');
                                 trace := ((trace w2' ++ [FileWritten (Spec.snapshotName (clock e (ticks w2')))])
                                          ++ [Emit "backup-created"])
                                          ++ [Emit "wallet-update"] |}))).
      { intros k Hk. apply existing_keys. cbn [files].
        exists (Spec.snapshotName (clock e (ticks w2'))),
               (Spec.snapshotOf (clock e (ticks w2')) subs).
        split; [|exact Hk].
        apply readable_In; [apply put_file_In | apply snapshotName_listed]. }
      split.
      * intros k Hk. apply Hnew. unfold subs. rewrite map_app, map_map.
        apply in_or_app. left. rewrite <- Hex. exact Hk.
      * intros ws r [= <-] Hr. apply in_map_iff in Hr.
        destruct Hr as (s & <- & Hin). apply slice0_In in Hin.
        apply Hnew. cbn [Spec.infoOf WalletManager.publicKey].
        now apply in_map.
    + cbn [fst snd WalletManager.wallets]. split.
      * intros k Hk. rewrite existing_keys, Hf3. unfold w2'.
        cbn [Spec.advance files]. rewrite <- existing_keys.
        now apply Hsame.
      * intros ws r [=].
Qed.

(* ================================================================== *)
(** * Further properties of the recovery *)
(* ================================================================== *)

Lemma getAllWallets_frame (e : Env) (w : World) :
  Spec.clock_only w (snd (WalletManager.getAllWallets e w)).
Proof.
  destruct (getAllWalletsFromBackups_ok e w) as (view & w1 & Hget & Hc).
  unfold WalletManager.getAllWallets, try_total.
  rewrite (bind_Ok _ _ _ _ _ Hget). exact Hc.
Qed.

Lemma balanceQueries_app (a b : list NetCall) :
  Spec.balanceQueries (a ++ b)
  = Spec.balanceQueries a ++ Spec.balanceQueries b.
Proof. apply flat_map_app. Qed.

Lemma transfers_app (a b : list NetCall) :
  Spec.transfers (a ++ b) = Spec.transfers a ++ Spec.transfers b.
Proof. apply flat_map_app. Qed.

(** What processing one worker does to the world. *)
Lemma processWallet_calls (e : Env) (s : WalletManager.WorkerScript)
      (wallet : WalletManager.WalletInfo) (token : option string)
      (r : WalletManager.Recovery) :
  exists added,
    let r' := snd (try_total (WalletManager.processWallet e s wallet token)
                             (fun _ r => (tt, r)) r) in
    files (WalletManager.world r') = files (WalletManager.world r) /\
    minted (WalletManager.world r') = minted (WalletManager.world r) /\
    writes (WalletManager.world r') = writes (WalletManager.world r) /\
    trace (WalletManager.world r') = trace (WalletManager.world r) ++ added /\
    (JS.truthyOS token = false ->
     existsb Spec.isSale (Spec.netCalls added) = false) /\
    Spec.balanceQueries (Spec.netCalls added)
    = (if Spec.decodable e wallet
       then [WalletManager.publicKey wallet] else []) /\
    (forall f a,
        In (f, a) (Spec.transfers (Spec.netCalls added)) ->
        fromSecretKey e (WalletManager.privateKey wallet) = Some f /\
        exists z, a = inject_Z z /\ (0 < z)%Z).
Proof.
  unfold Spec.decodable, WalletManager.processWallet,
    WalletManager.keypairFromSecretKey.
  destruct r as [[fs tk mn wr tr] txs0 tot].
  destruct (fromSecretKey e (WalletManager.privateKey wallet)) as [pk|].
  2:{ exists []. cbn. rewrite app_nil_r. repeat split; auto; contradiction. }
  destruct s as [sell bal bh send conf].
  cbv beta iota zeta delta
      [try_total bind ret throw try_catch modify effect
       WalletManager.net_call WalletManager.lift
       WalletManager.push_transactions WalletManager.add_recovered
       WalletManager.ws_sell WalletManager.ws_balance
       WalletManager.ws_blockhash_ok WalletManager.ws_send
       WalletManager.ws_confirm_ok WalletManager.world
       WalletManager.transactions WalletManager.totalRecovered fst snd
       files ticks minted writes trace BackupManager.isSome].
  destruct (JS.truthyOS token);
    [destruct sell as [[[|] [txs|]]|]|];
    destruct (WalletManager.Qgtb bal (1 # 1000000));
    destruct (0 <? Qfloor ((bal - WalletManager.feeInSol)
                           * WalletManager.LAMPORTS_PER_SOL))%Z eqn:Hpos;
    destruct bh; destruct send as [sig|]; destruct conf;
    eexists;
    cbn [fst snd WalletManager.world files minted writes trace];
    (split; [reflexivity|]); (split; [reflexivity|]);
    (split; [reflexivity|]);
    (split; [rewrite <- ?app_assoc; reflexivity|]);
    (split; [intros Hno; try discriminate Hno; reflexivity|]);
    (split; [reflexivity|]);
    intros f a Hin; cbn in Hin;
    repeat (destruct Hin as [Hin|Hin]); try contradiction;
    injection Hin as <- <-;
    (split; [reflexivity|]); eexists; (split; [reflexivity|]);
    now apply Z.ltb_lt.
Qed.

Lemma recoverLoop_calls (e : Env) (script : nat -> WalletManager.WorkerScript)
      (token : option string) (ws : list WalletManager.WalletInfo) (i : nat)
      (r : WalletManager.Recovery) :
  exists added,
    let r' := snd (WalletManager.recoverLoop e script token ws i r) in
    files (WalletManager.world r') = files (WalletManager.world r) /\
    minted (WalletManager.world r') = minted (WalletManager.world r) /\
    writes (WalletManager.world r') = writes (WalletManager.world r) /\
    trace (WalletManager.world r') = trace (WalletManager.world r) ++ added /\
    (JS.truthyOS token = false ->
     existsb Spec.isSale (Spec.netCalls added) = false) /\
    Spec.balanceQueries (Spec.netCalls added)
    = map WalletManager.publicKey (List.filter (Spec.decodable e) ws) /\
    (forall f a,
        In (f, a) (Spec.transfers (Spec.netCalls added)) ->
        (exists wallet,
            In wallet ws /\
            fromSecretKey e (WalletManager.privateKey wallet) = Some f) /\
        exists z, a = inject_Z z /\ (0 < z)%Z).
Proof.
  revert i r. induction ws as [|wallet ws IH]; intros i r; simpl.
  - exists []. rewrite app_nil_r. cbn. repeat split; auto; contradiction.
  - destruct (processWallet_calls e (script i) wallet token r)
      as (a1 & Hf1 & Hm1 & Hw1 & Ht1 & Hs1 & Hb1 & Hx1).
    cbv zeta in Hf1, Hm1, Hw1, Ht1.
    destruct (try_total (WalletManager.processWallet e (script i) wallet token)
                        (fun _ r => (tt, r)) r) as [[] r1].
    cbn [snd] in Hf1, Hm1, Hw1, Ht1.
    destruct (IH (S i) r1) as (a2 & Hf2 & Hm2 & Hw2 & Ht2 & Hs2 & Hb2 & Hx2).
    cbv zeta in Hf2, Hm2, Hw2, Ht2.
    exists (a1 ++ a2). cbv zeta.
    rewrite Hf2, Hm2, Hw2, Ht2, Hf1, Hm1, Hw1, Ht1, app_assoc.
    do 4 (split; [reflexivity|]).
    rewrite netCalls_app, existsb_app, balanceQueries_app, transfers_app.
    split; [|split].
    + intros Hno. now rewrite (Hs1 Hno), (Hs2 Hno).
    + rewrite Hb1, Hb2. now destruct (Spec.decodable e wallet).
    + intros f a Hin. apply in_app_or in Hin. destruct Hin as [Hin|Hin].
      * destruct (Hx1 f a Hin) as (Hk & Hz). split; [|exact Hz].
        exists wallet. split; [now left | exact Hk].
      * destruct (Hx2 f a Hin) as ((wl & Hwl & Hk) & Hz). split; [|exact Hz].
        exists wl. split; [now right | exact Hk].
Qed.

Lemma recoverAllFunds_world (e : Env)
      (script : nat -> WalletManager.WorkerScript)
      (key : string) (token : option string) (w : World) :
  (50 <= String.length key)%nat ->
  fromSecretKey e key <> None ->
  snd (WalletManager.recoverAllFunds e script key token w)
  = WalletManager.world
      (snd (WalletManager.recoverLoop e script token (Spec.workers e w) 0
              {| WalletManager.world := snd (WalletManager.getAllWallets e w);
                 WalletManager.transactions := [];
                 WalletManager.totalRecovered := 0 |})).
Proof.
  intros H Hk. unfold WalletManager.recoverAllFunds, try_total.
  rewrite (long_key_passes key H).
  unfold WalletManager.keypairFromSecretKey.
  destruct (fromSecretKey e key) as [pk|]; [clear Hk | congruence].
  unfold Spec.workers.
  cbv beta iota delta [bind ret total].
  destruct (WalletManager.getAllWallets e w) as [wallets w1].
  cbn [fst snd].
  destruct (WalletManager.recoverLoop e script token
              (WalletManager.aw_subWallets wallets) 0 _) as [[] r'].
  reflexivity.
Qed.

(** X7 -- Recovery leaves the store alone and asks the network only what it
    needs.  Whatever the credential, the workers and the answers of the
    network: no file is written and no identity minted; without a token
    address no token sale is requested; when the batch runs,
    [getBalance] is called exactly once for every worker whose secret
    key decodes, in the order of the reconciled set, and for no other;
    and every transfer
    submitted is paid by a stored worker and moves a positive whole
    number of lamports. *)
Theorem recovery_asks_only_what_it_needs (e : Env)
        (script : nat -> WalletManager.WorkerScript)
        (key : string) (token : option string) (w : World) :
  let out := WalletManager.recoverAllFunds e script key token w in
  files (snd out) = files w /\
  minted (snd out) = minted w /\
  writes (snd out) = writes w /\
  exists added,
    trace (snd out) = trace w ++ added /\
    (JS.truthyOS token = false ->
     existsb Spec.isSale (Spec.netCalls added) = false) /\
    (WalletManager.r_success (fst out) = true ->
     Spec.balanceQueries (Spec.netCalls added)
     = map WalletManager.publicKey
           (List.filter (Spec.decodable e) (Spec.workers e w))) /\
    (forall f a,
        In (f, a) (Spec.transfers (Spec.netCalls added)) ->
        (exists wallet,
            In wallet (Spec.workers e w) /\
            fromSecretKey e (WalletManager.privateKey wallet) = Some f) /\
        exists z, a = inject_Z z /\ (0 < z)%Z).
Proof.
  cbv zeta.
  assert (Hnone : forall failure,
             files w = files w /\
             minted w = minted w /\
             writes w = writes w /\
             exists added,
               trace w = trace w ++ added /\
               (JS.truthyOS token = false ->
                existsb Spec.isSale (Spec.netCalls added) = false) /\
               (false = true ->
                Spec.balanceQueries (Spec.netCalls added) = failure) /\
               (forall f a,
                   In (f, a) (Spec.transfers (Spec.netCalls added)) ->
                   (exists wallet,
                       In wallet (Spec.workers e w) /\
                       fromSecretKey e (WalletManager.privateKey wallet)
                       = Some f) /\
                   exists z, a = inject_Z z /\ (0 < z)%Z)).
  { intros failure. do 3 (split; [reflexivity|]).
    exists []. rewrite app_nil_r. split; [reflexivity|].
    split; [reflexivity|]. split; [discriminate|]. intros f a []. }
  destruct (Nat.lt_ge_cases (String.length key) 50) as [Hshort|Hlong].
  { rewrite (recoverAllFunds_short e script key token w Hshort).
    apply Hnone. }
  destruct (fromSecretKey e key) as [pk|] eqn:Hk.
  2:{ rewrite (recoverAllFunds_undecodable e script key token w Hlong Hk).
      apply Hnone. }
  clear Hnone.
  assert (Hk' : fromSecretKey e key <> None) by congruence.
  rewrite (recoverAllFunds_world e script key token w Hlong Hk').
  destruct (getAllWallets_frame e w) as (Hf0 & Hm0 & Hw0 & Ht0 & _).
  destruct (recoverLoop_calls e script token (Spec.workers e w) 0
              {| WalletManager.world := snd (WalletManager.getAllWallets e w);
                 WalletManager.transactions := [];
                 WalletManager.totalRecovered := 0 |})
    as (added & Hf & Hm & Hw & Ht & Hs & Hb & Hx).
  cbv zeta in Hf, Hm, Hw, Ht. cbn [WalletManager.world] in Hf, Hm, Hw, Ht.
  rewrite Hf, Hm, Hw, Ht, Hf0, Hm0, Hw0, Ht0.
  do 3 (split; [reflexivity|]).
  exists added. split; [reflexivity|]. split; [exact Hs|].
  split; [intros _; exact Hb | exact Hx].
Qed.

Lemma workerYield_bound (e : Env) (s : WalletManager.WorkerScript)
      (wallet : WalletManager.WalletInfo) (token : option string) (t : Q) :
  0 <= WalletManager.ws_balance s ->
  t <= Spec.addYield t (Spec.workerYield e s wallet token) /\
  Spec.addYield t (Spec.workerYield e s wallet token)
  <= t + WalletManager.ws_balance s.
Proof.
  intros Hpos. unfold Spec.addYield, Spec.workerYield.
  destruct (fromSecretKey e (WalletManager.privateKey wallet));
    [|cbn [snd]; lra].
  cbv zeta.
  destruct (WalletManager.Qgtb (WalletManager.ws_balance s) (1 # 1000000))
    eqn:Hgt; cbn [andb]; [|cbn [snd]; lra].
  assert (Hlt : 1 # 1000000 < WalletManager.ws_balance s).
  { unfold WalletManager.Qgtb in Hgt. apply negb_true_iff in Hgt.
    apply Qnot_le_lt. intros Hle. apply Qle_bool_iff in Hle. congruence. }
  match goal with
  | |- context [if ?c then _ else _] => destruct c
  end; [|cbn [snd]; lra].
  destruct (WalletManager.ws_send s); cbn [snd]; [|lra].
  unfold WalletManager.feeInSol. lra.
Qed.

Lemma yields_bound (e : Env) (script : nat -> WalletManager.WorkerScript)
      (token : option string) (ws : list WalletManager.WalletInfo) (i : nat)
      (t : Q) :
  (forall j, 0 <= WalletManager.ws_balance (script j)) ->
  t <= fold_left Spec.addYield (Spec.yields e script token ws i) t /\
  fold_left Spec.addYield (Spec.yields e script token ws i) t
  <= t + fold_right Qplus 0
           (map (fun j => WalletManager.ws_balance (script j))
                (seq i (List.length ws))).
Proof.
  intros Hpos. revert i t. induction ws as [|wallet ws IH]; intros i t.
  - cbn. lra.
  - cbn [Spec.yields fold_left List.length seq map fold_right].
    destruct (workerYield_bound e (script i) wallet token t (Hpos i))
      as (Hlo & Hhi).
    destruct (IH (S i) (Spec.addYield t
                          (Spec.workerYield e (script i) wallet token)))
      as (Hlo' & Hhi').
    split; lra.
Qed.

(** X8 -- Recovery never reports more than the workers held.  When the
    network reports no negative balance, the recovered amount of a
    recovery that ran is not negative and not more than the combined
    balance the network reported for the stored workers. *)
Theorem recovery_never_reports_more_than_the_workers_held (e : Env)
        (script : nat -> WalletManager.WorkerScript)
        (key : string) (token : option string) (w : World) (total : Q) :
  (forall i, 0 <= WalletManager.ws_balance (script i)) ->
  WalletManager.recoveredAmount
    (fst (WalletManager.recoverAllFunds e script key token w)) = Some total ->
  0 <= total /\
  total <= Spec.reportedBalance script (List.length (Spec.workers e w)).
Proof.
  intros Hpos.
  destruct (Nat.lt_ge_cases (String.length key) 50) as [Hshort|Hlong].
  { rewrite (recoverAllFunds_short e script key token w Hshort).
    discriminate. }
  destruct (fromSecretKey e key) as [pk|] eqn:Hk.
  2:{ rewrite (recoverAllFunds_undecodable e script key token w Hlong Hk).
      discriminate. }
  assert (Hk' : fromSecretKey e key <> None) by congruence.
  destruct (recoverAllFunds_batch e script key token w Hlong Hk')
    as (w' & ->).
  cbn [fst WalletManager.recoveredAmount]. intros [= <-].
  destruct (yields_bound e script token (Spec.workers e w) 0 0 Hpos)
    as (Hlo & Hhi).
  unfold Spec.reportedBalance. split; [exact Hlo | lra].
Qed.

(** A concrete run: workers [A], [B], [C] are reported to hold half a
    SOL each, and the secret key of [B] cannot be decoded. *)
Lemma recovery_bound_witness :
  0 <= 0 + ((1 # 2) - WalletManager.feeInSol)
       + ((1 # 2) - WalletManager.feeInSol) /\
  0 + ((1 # 2) - WalletManager.feeInSol) + ((1 # 2) - WalletManager.feeInSol)
  <= Spec.reportedBalance (Examples.payingScript (1 # 2))
       (List.length (Spec.workers (Examples.env true) Examples.threeWorkers)).
Proof.
  apply (recovery_never_reports_more_than_the_workers_held
           (Examples.env true) (Examples.payingScript (1 # 2))
           Examples.ownerKey None Examples.threeWorkers).
  - intros i. vm_compute. discriminate.
  - vm_compute. reflexivity.
Defined.

(* ================================================================== *)
(** * Distribution *)
(* ================================================================== *)

Lemma sends_app (a b : list WalletManager.FundCall) :
  Spec.sends (a ++ b) = Spec.sends a ++ Spec.sends b.
Proof. apply flat_map_app. Qed.

Lemma subseq_refl {A : Type} (l : list A) : Spec.subseq l l.
Proof. induction l; constructor; assumption. Qed.

Lemma subseq_nil_l {A : Type} (l : list A) : Spec.subseq [] l.
Proof. induction l; constructor; assumption. Qed.

Lemma subseq_app {A : Type} (a a' b b' : list A) :
  Spec.subseq a a' -> Spec.subseq b b' -> Spec.subseq (a ++ b) (a' ++ b').
Proof.
  intros Ha Hb. induction Ha; cbn [app]; try constructor; assumption.
Qed.

Lemma subseq_length {A : Type} (l l' : list A) :
  Spec.subseq l l' -> (List.length l <= List.length l')%nat.
Proof. induction 1; cbn [List.length]; lia. Qed.

Lemma subseq_In {A : Type} (l l' : list A) (x : A) :
  Spec.subseq l l' -> In x l -> In x l'.
Proof.
  induction 1; intros Hin; [contradiction | right; auto |].
  destruct Hin as [<-|Hin]; [now left | right; auto].
Qed.

(** What funding one address does. *)
Lemma fundOne_run (e : Env) (ds : WalletManager.DistributeScript)
      (main : string) (amount : Q) (i : nat) (address : string)
      (f : WalletManager.Funding) :
  exists added,
    let f' := snd (try_total
                     (WalletManager.fundOne e (WalletManager.ds_step ds i)
                                            main address amount)
                     (fun _ f => (tt, f)) f) in
    WalletManager.fu_calls f' = WalletManager.fu_calls f ++ added /\
    WalletManager.fu_funded f'
    = WalletManager.fu_funded f
      ++ map fst (match Spec.funds e ds amount i address with
                  | Some signature => [(address, signature)]
                  | None => []
                  end) /\
    WalletManager.fu_transactions f'
    = WalletManager.fu_transactions f
      ++ map snd (match Spec.funds e ds amount i address with
                  | Some signature => [(address, signature)]
                  | None => []
                  end) /\
    (Spec.sends added = [] \/
     Spec.sends added
     = [(address, Qfloor (amount * WalletManager.LAMPORTS_PER_SOL))] /\
     isPublicKey e address = true /\
     (0 <= Qfloor (amount * WalletManager.LAMPORTS_PER_SOL))%Z) /\
    (forall signature,
        Spec.funds e ds amount i address = Some signature ->
        Spec.sends added
        = [(address, Qfloor (amount * WalletManager.LAMPORTS_PER_SOL))] /\
        In (WalletManager.FcConfirm signature) added).
Proof.
  unfold Spec.funds, WalletManager.fundOne, WalletManager.systemTransfer.
  rewrite Z.leb_antisym.
  destruct f as [calls txs funded].
  destruct (WalletManager.ds_step ds i) as [bal bh send conf].
  cbv beta iota zeta delta
      [try_total bind ret throw modify WalletManager.fund_call
       WalletManager.tr_balance WalletManager.tr_blockhash_ok
       WalletManager.tr_send WalletManager.tr_confirm_ok
       WalletManager.fu_calls WalletManager.fu_transactions
       WalletManager.fu_funded fst snd].
  destruct bal as [held|];
    [destruct (WalletManager.Qgtb (amount + (5 # 10000)) held)|];
    destruct (isPublicKey e address);
    destruct (Qfloor (amount * WalletManager.LAMPORTS_PER_SOL) <? 0)%Z
      eqn:Hneg;
    try apply Z.ltb_ge in Hneg;
    destruct bh;
    destruct send as [sig|]; destruct conf;
    eexists;
    cbn [fst snd WalletManager.fu_calls WalletManager.fu_transactions
         WalletManager.fu_funded andb negb map];
    (split; [rewrite <- ?app_assoc; reflexivity|]);
    rewrite ?app_nil_r;
    (split; [reflexivity|]); (split; [reflexivity|]);
    (split; [cbn; auto|]);
    intros signature Hs; try discriminate Hs;
    injection Hs as <-; (split; [reflexivity | simpl; auto 10]).
Qed.

Lemma fundLoop_run (e : Env) (ds : WalletManager.DistributeScript)
      (main : string) (amount : Q) (addresses : list string) (i : nat)
      (f : WalletManager.Funding) :
  exists added,
    let f' := snd (WalletManager.fundLoop e ds main amount addresses i f) in
    WalletManager.fu_calls f' = WalletManager.fu_calls f ++ added /\
    WalletManager.fu_funded f'
    = WalletManager.fu_funded f
      ++ map fst (Spec.fundings e ds amount addresses i) /\
    WalletManager.fu_transactions f'
    = WalletManager.fu_transactions f
      ++ map snd (Spec.fundings e ds amount addresses i) /\
    (forall a l,
        In (a, l) (Spec.sends added) ->
        In a addresses /\ isPublicKey e a = true /\
        l = Qfloor (amount * WalletManager.LAMPORTS_PER_SOL) /\
        (0 <= l)%Z) /\
    (List.length (Spec.sends added) <= List.length addresses)%nat /\
    (forall a signature,
        In (a, signature) (Spec.fundings e ds amount addresses i) ->
        In (a, Qfloor (amount * WalletManager.LAMPORTS_PER_SOL))
           (Spec.sends added) /\
        In (WalletManager.FcConfirm signature) added) /\
    Spec.subseq (map fst (Spec.sends added)) addresses /\
    Spec.subseq (map fst (Spec.fundings e ds amount addresses i))
                (map fst (Spec.sends added)).
Proof.
  revert i f. induction addresses as [|address rest IH]; intros i f.
  - exists []. cbn. rewrite !app_nil_r.
    repeat split; auto; try contradiction; constructor.
  - cbn [WalletManager.fundLoop Spec.fundings].
    destruct (fundOne_run e ds main amount i address f)
      as (a1 & Hc1 & Hf1 & Ht1 & Hs1 & Hk1).
    cbv zeta in Hc1, Hf1, Ht1.
    destruct (try_total
                (WalletManager.fundOne e (WalletManager.ds_step ds i)
                                       main address amount)
                (fun _ f => (tt, f)) f) as [[] f1].
    cbn [snd] in Hc1, Hf1, Ht1.
    destruct (IH (S i) f1)
      as (a2 & Hc2 & Hf2 & Ht2 & Hs2 & Hn2 & Hk2 & Hq2 & Hr2).
    cbv zeta in Hc2, Hf2, Ht2.
    exists (a1 ++ a2). cbv zeta.
    rewrite Hc2, Hf2, Ht2, Hc1, Hf1, Ht1, !map_app, !app_assoc, sends_app.
    do 3 (split; [reflexivity|]).
    split; [|split; [|split; [|split]]].
    + intros a l Hin. apply in_app_or in Hin. destruct Hin as [Hin|Hin].
      * destruct Hs1 as [Hs1|(Hs1 & Hpk & Hpos)]; rewrite Hs1 in Hin;
          [contradiction|].
        destruct Hin as [[= <- <-]|[]]. split; [now left|].
        split; [exact Hpk|]. split; [reflexivity | exact Hpos].
      * destruct (Hs2 a l Hin) as (Ha & Hpk & Hl).
        split; [now right|]. now split.
    + rewrite length_app. cbn [List.length].
      destruct Hs1 as [Hs1|[Hs1 _]]; rewrite Hs1; cbn [List.length]; lia.
    + intros a signature Hin. apply in_app_or in Hin.
      destruct Hin as [Hin|Hin].
      * destruct (Spec.funds e ds amount i address) as [sig|] eqn:Hfunds;
          [|contradiction].
        destruct Hin as [[= <- <-]|[]].
        destruct (Hk1 sig eq_refl) as (Hsent & Hconf). split.
        -- apply in_or_app. left. rewrite Hsent. now left.
        -- apply in_or_app. now left.
      * destruct (Hk2 a signature Hin) as (Hsent & Hconf). split.
        -- apply in_or_app. now right.
        -- apply in_or_app. now right.
    + rewrite map_app.
      change (address :: rest) with ([address] ++ rest).
      apply subseq_app; [|exact Hq2].
      destruct Hs1 as [Hs1|[Hs1 _]]; rewrite Hs1; cbn [map fst];
        [apply subseq_nil_l | apply subseq_refl].
    + rewrite map_app. apply subseq_app; [|exact Hr2].
      destruct (Spec.funds e ds amount i address) as [sig|] eqn:Hfunds.
      * destruct (Hk1 sig eq_refl) as (Hsent & _). rewrite Hsent.
        cbn [map fst]. apply subseq_refl.
      * apply subseq_nil_l.
Qed.

(** The ways a call of [distributeToSubWallets] can go. *)
Lemma distribute_bad_key (e : Env) (ds : WalletManager.DistributeScript)
      (key : string) (addresses : list string) (amount : Q) :
  fromSecretKey e key = None ->
  WalletManager.distributeToSubWallets e ds key addresses amount
  = ({| WalletManager.do_success := false;
        WalletManager.do_transactions := None;
        WalletManager.do_fundedWallets := None;
        WalletManager.do_error :=
          Some (WalletManager.Raised "bad secret key") |}, []).
Proof.
  intros Hk. unfold WalletManager.distributeToSubWallets, try_total,
    WalletManager.keypairFromSecretKey.
  rewrite Hk. reflexivity.
Qed.

Lemma distribute_no_balance (e : Env) (ds : WalletManager.DistributeScript)
      (key main : string) (addresses : list string) (amount : Q) :
  fromSecretKey e key = Some main ->
  WalletManager.ds_balance ds = None ->
  WalletManager.distributeToSubWallets e ds key addresses amount
  = ({| WalletManager.do_success := false;
        WalletManager.do_transactions := None;
        WalletManager.do_fundedWallets := None;
        WalletManager.do_error :=
          Some (WalletManager.Raised "network error") |},
     [WalletManager.FcGetBalance main]).
Proof.
  intros Hk Hb. unfold WalletManager.distributeToSubWallets, try_total,
    WalletManager.keypairFromSecretKey.
  rewrite Hk, Hb. reflexivity.
Qed.

Lemma distribute_insufficient (e : Env) (ds : WalletManager.DistributeScript)
      (key main : string) (addresses : list string) (amount held : Q) :
  fromSecretKey e key = Some main ->
  WalletManager.ds_balance ds = Some held ->
  WalletManager.Qgtb
    (amount * inject_Z (Z.of_nat (List.length addresses)) + (1 # 100000))
    held = true ->
  WalletManager.distributeToSubWallets e ds key addresses amount
  = ({| WalletManager.do_success := false;
        WalletManager.do_transactions := None;
        WalletManager.do_fundedWallets := None;
        WalletManager.do_error :=
          Some (WalletManager.InsufficientBalance held
                  (amount * inject_Z (Z.of_nat (List.length addresses))
                   + (1 # 100000))) |},
     [WalletManager.FcGetBalance main]).
Proof.
  intros Hk Hb Hlow. unfold WalletManager.distributeToSubWallets, try_total,
    WalletManager.keypairFromSecretKey.
  rewrite Hk, Hb.
  cbv beta iota zeta delta [bind ret modify WalletManager.fund_call].
  rewrite Hlow. reflexivity.
Qed.

Lemma distribute_loop (e : Env) (ds : WalletManager.DistributeScript)
      (key main : string) (addresses : list string) (amount held : Q) :
  fromSecretKey e key = Some main ->
  WalletManager.ds_balance ds = Some held ->
  WalletManager.Qgtb
    (amount * inject_Z (Z.of_nat (List.length addresses)) + (1 # 100000))
    held = false ->
  let f := snd (WalletManager.fundLoop e ds main amount addresses 0
                  {| WalletManager.fu_calls := [WalletManager.FcGetBalance main];
                     WalletManager.fu_transactions := [];
                     WalletManager.fu_funded := [] |}) in
  WalletManager.distributeToSubWallets e ds key addresses amount
  = ({| WalletManager.do_success :=
          (0 <? List.length (WalletManager.fu_funded f))%nat;
        WalletManager.do_transactions :=
          Some (WalletManager.fu_transactions f);
        WalletManager.do_fundedWallets := Some (WalletManager.fu_funded f);
        WalletManager.do_error := None |},
     WalletManager.fu_calls f).
Proof.
  intros Hk Hb Hlow. cbv zeta.
  unfold WalletManager.distributeToSubWallets, try_total,
    WalletManager.keypairFromSecretKey.
  rewrite Hk, Hb.
  cbv beta iota zeta delta [bind ret modify total get WalletManager.fund_call].
  rewrite Hlow. cbn [app WalletManager.fu_calls WalletManager.fu_transactions
                     WalletManager.fu_funded].
  destruct (WalletManager.fundLoop e ds main amount addresses 0 _) as [[] f].
  reflexivity.
Qed.

(** X9 -- The report of a distribution that passes the budget check is exact.
    With an owner key that decodes and a first reported balance of at
    least [amountPerWallet * n + 0.00001], the call reports as funded
    exactly the addresses whose own transfer went through (balance still
    above the amount and the fee buffer, address well formed, lamports
    not negative, block hash, submission and confirmation answered), in
    the order of the request
    and with one signature each; it reports success exactly when at
    least one address was funded, so a partial funding counts as
    success; and for every funded address the transfer of
    [floor(amountPerWallet * 10^9)] lamports was submitted and its
    signature confirmed. *)
Theorem distribution_report_is_exact (e : Env)
        (ds : WalletManager.DistributeScript) (key main : string)
        (addresses : list string) (amount held : Q) :
  fromSecretKey e key = Some main ->
  WalletManager.ds_balance ds = Some held ->
  amount * inject_Z (Z.of_nat (List.length addresses)) + (1 # 100000)
  <= held ->
  let funded := Spec.fundings e ds amount addresses 0 in
  let out := WalletManager.distributeToSubWallets e ds key addresses amount in
  fst out
  = {| WalletManager.do_success := negb (Nat.eqb (List.length funded) 0);
       WalletManager.do_transactions := Some (map snd funded);
       WalletManager.do_fundedWallets := Some (map fst funded);
       WalletManager.do_error := None |} /\
  (forall a signature,
      In (a, signature) funded ->
      In a addresses /\
      In (WalletManager.FcSend a
            (Qfloor (amount * WalletManager.LAMPORTS_PER_SOL))) (snd out) /\
      In (WalletManager.FcConfirm signature) (snd out)).
Proof.
  intros Hk Hb Hle. cbv zeta.
  assert (Hlow : WalletManager.Qgtb
                   (amount * inject_Z (Z.of_nat (List.length addresses))
                    + (1 # 100000)) held = false).
  { unfold WalletManager.Qgtb. apply negb_false_iff.
    now apply Qle_bool_iff. }
  rewrite (distribute_loop e ds key main addresses amount held Hk Hb Hlow).
  destruct (fundLoop_run e ds main amount addresses 0
              {| WalletManager.fu_calls := [WalletManager.FcGetBalance main];
                 WalletManager.fu_transactions := [];
                 WalletManager.fu_funded := [] |})
    as (added & Hc & Hf & Ht & Hs & Hn & Hfund & Hsub & Hsubf).
  cbv zeta in Hc, Hf, Ht. cbn [fst snd].
  rewrite Hc, Hf, Ht.
  cbn [WalletManager.fu_calls WalletManager.fu_transactions
       WalletManager.fu_funded app].
  rewrite length_map. split.
  - f_equal. now destruct (Spec.fundings e ds amount addresses 0).
  - intros a signature Hin.
    destruct (Hfund a signature Hin) as (Hsent & Hconf).
    split; [exact (proj1 (Hs _ _ Hsent))|]. split.
    + right. unfold Spec.sends in Hsent. apply in_flat_map in Hsent.
      destruct Hsent as (c & Hc' & Hin').
      destruct c; try contradiction.
      destruct Hin' as [[= -> ->]|[]]. exact Hc'.
    + now right.
Qed.

(** X10 -- A distribution sends only what was asked.  Whatever the key, the
    addresses and the answers of the network: every transfer submitted
    goes to a requested, well-formed address, moves exactly
    [floor(amountPerWallet * 10^9)] lamports, a number that is not
    negative, and was preceded by a budget check that passed; the
    receivers of the submissions, in order, are the requested addresses
    with some left out, so that no place of the request is paid twice
    and none out of turn; and a reported success names at least one
    funded address, the funded addresses being, in order, receivers of
    submissions. *)
Theorem distribution_sends_only_what_was_asked (e : Env)
        (ds : WalletManager.DistributeScript) (key : string)
        (addresses : list string) (amount : Q) :
  let out := WalletManager.distributeToSubWallets e ds key addresses amount in
  (forall a l,
      In (a, l) (Spec.sends (snd out)) ->
      In a addresses /\ isPublicKey e a = true /\
      l = Qfloor (amount * WalletManager.LAMPORTS_PER_SOL) /\
      (0 <= l)%Z /\
      exists held,
        WalletManager.ds_balance ds = Some held /\
        amount * inject_Z (Z.of_nat (List.length addresses)) + (1 # 100000)
        <= held) /\
  Spec.subseq (map fst (Spec.sends (snd out))) addresses /\
  (List.length (Spec.sends (snd out)) <= List.length addresses)%nat /\
  (WalletManager.do_success (fst out) = true ->
   exists funded,
     WalletManager.do_fundedWallets (fst out) = Some funded /\
     funded <> [] /\ incl funded addresses /\
     Spec.subseq funded (map fst (Spec.sends (snd out)))).
Proof.
  cbv zeta.
  destruct (fromSecretKey e key) as [main|] eqn:Hk.
  2:{ rewrite (distribute_bad_key e ds key addresses amount Hk).
      cbn. repeat split; try lia; try contradiction; try discriminate.
      apply subseq_nil_l. }
  destruct (WalletManager.ds_balance ds) as [held|] eqn:Hb.
  2:{ rewrite (distribute_no_balance e ds key main addresses amount Hk Hb).
      cbn. repeat split; try lia; try contradiction; try discriminate.
      apply subseq_nil_l. }
  destruct (WalletManager.Qgtb
              (amount * inject_Z (Z.of_nat (List.length addresses))
               + (1 # 100000)) held) eqn:Hlow.
  { rewrite (distribute_insufficient e ds key main addresses amount held
               Hk Hb Hlow).
    cbn. repeat split; try lia; try contradiction; try discriminate.
    apply subseq_nil_l. }
  rewrite (distribute_loop e ds key main addresses amount held Hk Hb Hlow).
  destruct (fundLoop_run e ds main amount addresses 0
              {| WalletManager.fu_calls := [WalletManager.FcGetBalance main];
                 WalletManager.fu_transactions := [];
                 WalletManager.fu_funded := [] |})
    as (added & Hc & Hf & Ht & Hs & Hn & Hfund & Hsub & Hsubf).
  cbv zeta in Hc, Hf, Ht. cbn [fst snd].
  rewrite Hc, Hf.
  cbn [WalletManager.fu_calls WalletManager.fu_funded
       WalletManager.do_success WalletManager.do_fundedWallets app].
  change (Spec.sends (WalletManager.FcGetBalance main :: added))
    with (Spec.sends added).
  split; [|split; [|split]].
  - intros a l Hin. destruct (Hs a l Hin) as (Ha & Hpk & Hl & Hpos).
    repeat (split; [assumption|]). exists held. split; [reflexivity|].
    unfold WalletManager.Qgtb in Hlow. apply negb_false_iff in Hlow.
    now apply Qle_bool_iff.
  - exact Hsub.
  - exact Hn.
  - intros Hsucc. eexists. split; [reflexivity|]. split; [|split].
    + intros Hnil. rewrite Hnil in Hsucc. discriminate.
    + intros a Ha. apply in_map_iff in Ha. destruct Ha as ([a' sig] & <- & Hin).
      destruct (Hfund a' sig Hin) as (Hsent & _).
      exact (proj1 (Hs _ _ Hsent)).
    + exact Hsubf.
Qed.

Lemma sum_of_equal_sends (sent : list (string * Z)) (c : Z) :
  (forall a l, In (a, l) sent -> l = c) ->
  fold_right Z.add 0%Z (map snd sent) = (Z.of_nat (List.length sent) * c)%Z.
Proof.
  induction sent as [|[a l] sent IH]; intros Hall.
  - reflexivity.
  - cbn [map fold_right snd List.length].
    rewrite IH by (intros a' l' Hin; apply (Hall a' l'); now right).
    rewrite (Hall a l) by now left. lia.
Qed.

(** X11 -- A distribution never overspends.  With an amount per wallet and a
    first reported balance that are not negative, the lamports of all
    transfers submitted add up to no more than that balance, whatever
    the network answers afterwards. *)
Theorem distribution_never_overspends (e : Env)
        (ds : WalletManager.DistributeScript) (key : string)
        (addresses : list string) (amount held : Q) :
  0 <= amount ->
  0 <= held ->
  WalletManager.ds_balance ds = Some held ->
  inject_Z (Spec.sentLamports
              (snd (WalletManager.distributeToSubWallets
                      e ds key addresses amount)))
  <= held * WalletManager.LAMPORTS_PER_SOL.
Proof.
  intros Hamount Hheld Hb.
  assert (Hzero : inject_Z 0 <= held * WalletManager.LAMPORTS_PER_SOL).
  { unfold WalletManager.LAMPORTS_PER_SOL.
    change (inject_Z 0) with 0. nra. }
  destruct (fromSecretKey e key) as [main|] eqn:Hk.
  2:{ rewrite (distribute_bad_key e ds key addresses amount Hk).
      exact Hzero. }
  destruct (WalletManager.Qgtb
              (amount * inject_Z (Z.of_nat (List.length addresses))
               + (1 # 100000)) held) eqn:Hlow.
  { rewrite (distribute_insufficient e ds key main addresses amount held
               Hk Hb Hlow).
    exact Hzero. }
  rewrite (distribute_loop e ds key main addresses amount held Hk Hb Hlow).
  destruct (fundLoop_run e ds main amount addresses 0
              {| WalletManager.fu_calls := [WalletManager.FcGetBalance main];
                 WalletManager.fu_transactions := [];
                 WalletManager.fu_funded := [] |})
    as (added & Hc & _ & _ & Hs & Hn & _).
  cbv zeta in Hc. cbn [snd]. rewrite Hc.
  cbn [WalletManager.fu_calls app]. unfold Spec.sentLamports.
  change (Spec.sends (WalletManager.FcGetBalance main :: added))
    with (Spec.sends added).
  rewrite (sum_of_equal_sends (Spec.sends added)
             (Qfloor (amount * WalletManager.LAMPORTS_PER_SOL)))
    by (intros a l Hin; exact (proj1 (proj2 (proj2 (Hs a l Hin))))).
  unfold WalletManager.Qgtb in Hlow. apply negb_false_iff in Hlow.
  apply Qle_bool_iff in Hlow.
  set (c := Qfloor (amount * WalletManager.LAMPORTS_PER_SOL)).
  assert (Hc0 : (0 <= c)%Z).
  { change 0%Z with (Qfloor 0). apply Qfloor_resp_le.
    unfold WalletManager.LAMPORTS_PER_SOL. nra. }
  assert (Hcle : inject_Z c <= amount * WalletManager.LAMPORTS_PER_SOL)
    by apply Qfloor_le.
  assert (Hcount : (Z.of_nat (List.length (Spec.sends added)) * c
                    <= Z.of_nat (List.length addresses) * c)%Z) by nia.
  apply Qle_trans with (inject_Z (Z.of_nat (List.length addresses) * c)).
  { rewrite <- Zle_Qle. exact Hcount. }
  rewrite inject_Z_mult.
  assert (Hn0 : 0 <= inject_Z (Z.of_nat (List.length addresses))).
  { change 0 with (inject_Z 0). rewrite <- Zle_Qle. lia. }
  unfold WalletManager.LAMPORTS_PER_SOL in *.
  set (n := inject_Z (Z.of_nat (List.length addresses))) in *.
  set (x := inject_Z c) in *.
  nra.
Qed.

(** A concrete run: three addresses, a tenth of a SOL each; the
    confirmation of the second transfer fails, the call reports success
    with the first and the third address. *)
Lemma distribution_report_witness :
  fst (WalletManager.distributeToSubWallets (Examples.env true)
         Examples.fundingScript Examples.ownerKey
         ["A"; "B"; "C"]%string (1 # 10))
  = {| WalletManager.do_success := true;
       WalletManager.do_transactions := Some ["tx0"; "tx2"]%string;
       WalletManager.do_fundedWallets := Some ["A"; "C"]%string;
       WalletManager.do_error := None |} /\
  (forall a signature,
      In (a, signature) [("A", "tx0"); ("C", "tx2")]%string ->
      In a ["A"; "B"; "C"]%string /\
      In (WalletManager.FcSend a
            (Qfloor ((1 # 10) * WalletManager.LAMPORTS_PER_SOL)))
         (snd (WalletManager.distributeToSubWallets (Examples.env true)
                 Examples.fundingScript Examples.ownerKey
                 ["A"; "B"; "C"]%string (1 # 10))) /\
      In (WalletManager.FcConfirm signature)
         (snd (WalletManager.distributeToSubWallets (Examples.env true)
                 Examples.fundingScript Examples.ownerKey
                 ["A"; "B"; "C"]%string (1 # 10)))).
Proof.
  apply (distribution_report_is_exact (Examples.env true)
           Examples.fundingScript Examples.ownerKey
           ("pub:" ++ Examples.ownerKey)%string
           ["A"; "B"; "C"]%string (1 # 10) 10).
  - reflexivity.
  - reflexivity.
  - vm_compute. discriminate.
Defined.

(** A concrete run: the same distribution sends two tenths of a SOL and
    one transfer that is not confirmed, out of ten SOL. *)
Lemma distribution_overspend_witness :
  inject_Z (Spec.sentLamports
              (snd (WalletManager.distributeToSubWallets (Examples.env true)
                      Examples.fundingScript Examples.ownerKey
                      ["A"; "B"; "C"]%string (1 # 10))))
  <= 10 * WalletManager.LAMPORTS_PER_SOL.
Proof.
  apply (distribution_never_overspends (Examples.env true)
           Examples.fundingScript Examples.ownerKey
           ["A"; "B"; "C"]%string (1 # 10) 10).
  - vm_compute. discriminate.
  - vm_compute. discriminate.
  - reflexivity.
Defined.

(** With a negative amount per wallet the budget check and the balance
    checks pass, every transfer fails before anything is sent, and the
    call reports failure with nothing funded. *)
Example negative_amount_funds_nothing :
  WalletManager.distributeToSubWallets (Examples.env true)
    Examples.fundingScript Examples.ownerKey ["A"; "B"]%string (-1 # 2)
  = ({| WalletManager.do_success := false;
        WalletManager.do_transactions := Some [];
        WalletManager.do_fundedWallets := Some [];
        WalletManager.do_error := None |},
     [WalletManager.FcGetBalance ("pub:" ++ Examples.ownerKey);
      WalletManager.FcGetBalance ("pub:" ++ Examples.ownerKey);
      WalletManager.FcGetBalance ("pub:" ++ Examples.ownerKey)]%string).
Proof. vm_compute. reflexivity. Qed.

(* ================================================================== *)
(** * The sale of the tokens of one wallet *)
(* ================================================================== *)

Lemma Qle_bool_false_lt (a : Q) : Qle_bool a 0 = false <-> 0 < a.
Proof.
  split.
  - intros H. apply Qnot_le_lt. intros Hle. apply Qle_bool_iff in Hle.
    congruence.
  - intros H. destruct (Qle_bool a 0) eqn:E; [|reflexivity].
    apply Qle_bool_iff in E. apply Qlt_not_le in H. contradiction.
Qed.

(** X12 -- The sale of the tokens of a wallet succeeds exactly when every step
    is answered: the client and the token account address are obtained,
    the token balance is positive, the quote has data, the swap
    transaction is obtained, submitted and confirmed.  It then reports
    the one signature and the quoted amount in SOL after exactly five
    requests; in every other case it reports neither an amount nor a
    transaction.  No quote is requested without a positive token
    balance, and nothing is submitted without a quote and a swap
    transaction. *)
Theorem sale_succeeds_only_when_every_step_does
        (s : WalletManager.SellScript) :
  let result := fst (WalletManager.sellTokensFromWallet s) in
  let calls := snd (WalletManager.sellTokensFromWallet s) in
  (WalletManager.sr_success result = true <->
   WalletManager.ss_mint_ok s = true /\
   WalletManager.ss_swap_ok s = true /\
   WalletManager.ss_confirm_ok s = true /\
   exists amount outAmount signature,
     WalletManager.ss_tokenBalance s = Some (Some amount) /\ 0 < amount /\
     WalletManager.ss_quote s = Some (Some outAmount) /\
     WalletManager.ss_send s = Some signature) /\
  (WalletManager.sr_success result = true ->
   exists outAmount signature,
     WalletManager.ss_quote s = Some (Some outAmount) /\
     WalletManager.ss_send s = Some signature /\
     WalletManager.sr_solReceived result
     = Some (inject_Z outAmount / WalletManager.LAMPORTS_PER_SOL) /\
     WalletManager.sr_transactions result = Some [signature] /\
     calls = [WalletManager.VcTokenBalance; WalletManager.VcQuote;
              WalletManager.VcSwap; WalletManager.VcSend;
              WalletManager.VcConfirm signature]) /\
  (WalletManager.sr_success result = false ->
   result = WalletManager.sellFailed) /\
  (In WalletManager.VcQuote calls ->
   exists amount,
     WalletManager.ss_tokenBalance s = Some (Some amount) /\ 0 < amount) /\
  (In WalletManager.VcSend calls ->
   WalletManager.ss_swap_ok s = true /\
   exists outAmount, WalletManager.ss_quote s = Some (Some outAmount)).
Proof.
  cbv zeta. destruct s as [mint bal quote swap send conf].
  unfold WalletManager.sellTokensFromWallet.
  cbv beta iota zeta delta
      [try_total try_catch bind ret throw modify WalletManager.venue_call
       WalletManager.ss_mint_ok WalletManager.ss_tokenBalance
       WalletManager.ss_quote WalletManager.ss_swap_ok
       WalletManager.ss_send WalletManager.ss_confirm_ok fst snd].
  destruct mint;
    [destruct bal as [[amount|]|];
     [destruct (Qle_bool amount 0) eqn:Hamount|..]|];
    try (destruct quote as [[out|]|]; destruct swap;
         destruct send as [sig|]; destruct conf);
    cbn [fst snd WalletManager.sr_success WalletManager.sr_solReceived
         WalletManager.sr_transactions WalletManager.sellFailed app In];
    try (apply Qle_bool_false_lt in Hamount);
    (split; [split;
             [intros Hs; try discriminate Hs;
              repeat (split; [reflexivity|]);
              eexists _, _, _; repeat split; try reflexivity; assumption
             |intros (Hm & Hw & Hc & a & o & g & Hb & Hpos & Hq & Hsend);
              try discriminate; try reflexivity;
              injection Hb as ->;
              apply Qle_bool_false_lt in Hpos; congruence]|]);
    (split; [intros Hs; try discriminate Hs;
             eexists _, _; repeat split; reflexivity|]);
    (split; [intros Hs; try discriminate Hs; reflexivity|]);
    (split; [intros Hin;
             repeat (destruct Hin as [Hin|Hin]; try discriminate Hin);
             try contradiction;
             eexists; (split; [reflexivity | assumption])|]);
    intros Hin;
    repeat (destruct Hin as [Hin|Hin]; try discriminate Hin);
    try contradiction;
    (split; [reflexivity | eexists; reflexivity]).
Qed.

(* ================================================================== *)
(** * Further properties of the licence check *)
(* ================================================================== *)

Lemma truthyS_iff (s : string) : JS.truthyS s = true <-> s <> ""%string.
Proof.
  unfold JS.truthyS. rewrite negb_true_iff. apply String.eqb_neq.
Qed.

Lemma startsWith_truthy (key : string) :
  JS.startsWith key "VB-" = true -> JS.truthyS key = true.
Proof. destruct key; [discriminate | reflexivity]. Qed.

(** X13 -- The licence check accepts a key exactly when it starts with [VB-],
    the first two dot-separated parts of the rest are a non-empty
    payload and the HMAC of that payload under the built-in secret, the
    payload decodes, and its expiry, if it has one, is not before the
    current time.  In particular no key is accepted without the
    signature of its payload. *)
Theorem licence_accepted_iff_signed_and_unexpired (e : Env) (key : string)
        (w : World) :
  LicenseManager.valid (fst (LicenseManager.validateLicenseKey e key w)) = true
  <->
  JS.startsWith key "VB-" = true /\
  exists payload signature,
    nth_error (LicenseManager.split_dot (LicenseManager.drop3 key)) 0
    = Some payload /\
    nth_error (LicenseManager.split_dot (LicenseManager.drop3 key)) 1
    = Some signature /\
    payload <> ""%string /\ signature <> ""%string /\
    signature = hmac_sha256 e LicenseManager.SECRET_KEY payload /\
    exists p,
      parse_payload e payload = Some p /\
      forall exp, p = Some exp -> (clock e (ticks w) <= exp)%Z.
Proof.
  unfold LicenseManager.validateLicenseKey, try_total.
  destruct (JS.startsWith key "VB-") eqn:Hpre.
  2:{ rewrite orb_true_r. cbn.
      split; [discriminate | intros [H _]; discriminate]. }
  rewrite (startsWith_truthy key Hpre). cbn [negb orb].
  destruct (nth_error (LicenseManager.split_dot (LicenseManager.drop3 key)) 0)
    as [payload|] eqn:H0.
  2:{ cbn. split; [discriminate|].
      intros (_ & p & s & Hp & _). discriminate. }
  destruct (nth_error (LicenseManager.split_dot (LicenseManager.drop3 key)) 1)
    as [signature|] eqn:H1.
  2:{ cbn [JS.truthyOS negb]. rewrite orb_true_r. cbn.
      split; [discriminate|].
      intros (_ & p & s & _ & Hs & _). discriminate. }
  cbn [JS.truthyOS].
  destruct (JS.truthyS payload) eqn:Hp.
  2:{ cbn. split; [discriminate|].
      intros (_ & p & s & [= <-] & _ & Hne & _).
      apply truthyS_iff in Hne. congruence. }
  destruct (JS.truthyS signature) eqn:Hs.
  2:{ cbn. split; [discriminate|].
      intros (_ & p & s & _ & [= <-] & _ & Hne & _).
      apply truthyS_iff in Hne. congruence. }
  cbn [negb orb].
  apply truthyS_iff in Hp. apply truthyS_iff in Hs.
  destruct (String.eqb signature
              (hmac_sha256 e LicenseManager.SECRET_KEY payload)) eqn:Hsig.
  2:{ cbn. split; [discriminate|].
      intros (_ & p & s & [= <-] & [= <-] & _ & _ & Heq & _).
      apply String.eqb_neq in Hsig. contradiction. }
  apply String.eqb_eq in Hsig. cbn [negb].
  destruct (parse_payload e payload) as [[exp|]|] eqn:Hparse;
    cbv beta iota delta [bind ret throw date_now].
  - destruct (exp <? clock e (ticks w))%Z eqn:Hexp; cbn.
    + split; [discriminate|].
      intros (_ & p & s & [= <-] & _ & _ & _ & _ & q & Hq & Hle).
      rewrite Hparse in Hq. injection Hq as <-.
      specialize (Hle exp eq_refl). apply Z.ltb_lt in Hexp. lia.
    + split; [intros _|reflexivity]. split; [reflexivity|].
      exists payload, signature. repeat (split; [assumption || reflexivity|]).
      exists (Some exp). split; [exact Hparse|].
      intros x [= <-]. apply Z.ltb_ge in Hexp. exact Hexp.
  - cbn. split; [intros _|reflexivity]. split; [reflexivity|].
    exists payload, signature. repeat (split; [assumption || reflexivity|]).
    exists None. split; [exact Hparse|]. discriminate.
  - cbn. split; [discriminate|].
    intros (_ & p & s & [= <-] & _ & _ & _ & _ & q & Hq & _).
    rewrite Hparse in Hq. discriminate.
Qed.

(** X14 -- A licence does not come back to life: when the clock has not gone
    backwards between two checks of the same key, a key accepted by the
    later check is accepted by the earlier one. *)
Theorem licence_accepted_later_was_accepted_before (e : Env) (key : string)
        (before after : World) :
  (clock e (ticks before) <= clock e (ticks after))%Z ->
  fst (LicenseManager.isValidLicense e key after) = true ->
  fst (LicenseManager.isValidLicense e key before) = true.
Proof.
  intros Hclock.
  assert (Hunfold : forall w,
             fst (LicenseManager.isValidLicense e key w)
             = LicenseManager.valid
                 (fst (LicenseManager.validateLicenseKey e key w))).
  { intros w. unfold LicenseManager.isValidLicense.
    now destruct (LicenseManager.validateLicenseKey e key w). }
  rewrite !Hunfold.
  unfold LicenseManager.validateLicenseKey, try_total.
  destruct (negb (JS.truthyS key) || negb (JS.startsWith key "VB-"));
    [discriminate|].
  match goal with
  | |- context [if ?c then _ else _] => destruct c; [discriminate|]
  end.
  match goal with
  | |- context [if ?c then _ else _] => destruct c; [discriminate|]
  end.
  match goal with
  | |- context [parse_payload e ?p] => destruct (parse_payload e p) as [[exp|]|]
  end; cbv beta iota delta [bind ret throw date_now]; [|reflexivity|discriminate].
  destruct (exp <? clock e (ticks after))%Z eqn:Hafter; [discriminate|].
  apply Z.ltb_ge in Hafter.
  assert (Hbefore : (exp <? clock e (ticks before))%Z = false)
    by (apply Z.ltb_ge; lia).
  rewrite Hbefore. reflexivity.
Qed.

(** A concrete run: a key that expires at 5000 is accepted at time 1003
    and therefore at time 1000. *)
Lemma licence_monotone_witness :
  fst (LicenseManager.isValidLicense (Examples.env true) "VB-ok.sig:ok"
         Examples.emptyWorld) = true.
Proof.
  apply (licence_accepted_later_was_accepted_before (Examples.env true)
           "VB-ok.sig:ok" Examples.emptyWorld
           (Spec.advance Examples.emptyWorld 3 0)).
  - vm_compute. discriminate.
  - vm_compute. reflexivity.
Defined.

(** X15 -- The remaining time of an accepted key is the time to its expiry in
    whole hours and whole minutes: the minutes are below sixty, neither
    number is negative, and the expiry lies less than one minute after
    the time they add up to. *)
Theorem licence_remaining_time_is_exact (e : Env) (key : string) (w : World)
        (hours minutes : Z) :
  LicenseManager.remainingTime
    (fst (LicenseManager.validateLicenseKey e key w))
  = Some (hours, minutes) ->
  exists exp,
    LicenseManager.expiresAt (fst (LicenseManager.validateLicenseKey e key w))
    = Some exp /\
    LicenseManager.valid (fst (LicenseManager.validateLicenseKey e key w))
    = true /\
    (0 <= hours)%Z /\ (0 <= minutes < 60)%Z /\
    (hours * 3600000 + minutes * 60000 <= exp - clock e (ticks w)
     < hours * 3600000 + (minutes + 1) * 60000)%Z.
Proof.
  unfold LicenseManager.validateLicenseKey, try_total.
  destruct (negb (JS.truthyS key) || negb (JS.startsWith key "VB-"));
    [discriminate|].
  match goal with
  | |- context [if ?c then _ else _] => destruct c; [discriminate|]
  end.
  match goal with
  | |- context [if ?c then _ else _] => destruct c; [discriminate|]
  end.
  match goal with
  | |- context [parse_payload e ?p] => destruct (parse_payload e p) as [[exp|]|]
  end; cbv beta iota delta [bind ret throw date_now];
    [|discriminate|discriminate].
  destruct (exp <? clock e (ticks w))%Z eqn:Hexp; [discriminate|].
  apply Z.ltb_ge in Hexp.
  cbn [fst LicenseManager.remainingTime LicenseManager.expiresAt
       LicenseManager.valid].
  intros [= <- <-]. exists exp. split; [reflexivity|].
  split; [reflexivity|].
  change (1000 * 60 * 60)%Z with 3600000%Z.
  change (1000 * 60)%Z with 60000%Z.
  set (left := (exp - clock e (ticks w))%Z) in *.
  assert (Hleft : (0 <= left)%Z) by (unfold left; lia).
  clearbody left.
  pose proof (Z.div_mod left 3600000 ltac:(lia)) as Hh.
  pose proof (Z.mod_pos_bound left 3600000 ltac:(lia)) as Hr.
  pose proof (Z.div_mod (left mod 3600000) 60000 ltac:(lia)) as Hm.
  pose proof (Z.mod_pos_bound (left mod 3600000) 60000 ltac:(lia)) as Hs.
  assert (Hq : (0 <= left / 3600000)%Z) by (apply Z.div_pos; lia).
  assert (Hq' : (0 <= left mod 3600000 / 60000)%Z) by (apply Z.div_pos; lia).
  assert (Hlt : (left mod 3600000 / 60000 < 60)%Z)
    by (apply Z.div_lt_upper_bound; lia).
  lia.
Qed.

(** A concrete run: at time 1000 a key that expires at 5000 has no whole
    minute left. *)
Lemma licence_remaining_time_witness :
  exists exp,
    LicenseManager.expiresAt
      (fst (LicenseManager.validateLicenseKey (Examples.env true)
              "VB-ok.sig:ok" Examples.emptyWorld)) = Some exp /\
    LicenseManager.valid
      (fst (LicenseManager.validateLicenseKey (Examples.env true)
              "VB-ok.sig:ok" Examples.emptyWorld)) = true /\
    (0 <= 0)%Z /\ (0 <= 0 < 60)%Z /\
    (0 * 3600000 + 0 * 60000
     <= exp - clock (Examples.env true) (ticks Examples.emptyWorld)
     < 0 * 3600000 + (0 + 1) * 60000)%Z.
Proof.
  apply (licence_remaining_time_is_exact (Examples.env true) "VB-ok.sig:ok"
           Examples.emptyWorld 0 0).
  vm_compute. reflexivity.
Defined.


Lemma split_dot_cons (a b : string) :
  LicenseManager.split_dot a = [a] ->
  LicenseManager.split_dot (a ++ "." ++ b) = a :: LicenseManager.split_dot b.
Proof.
  revert b. induction a as [|c a IH]; intros b Ha; simpl in *.
  - reflexivity.
  - destruct (Ascii.eqb c "."); [discriminate|].
    destruct (LicenseManager.split_dot a) as [|h [|h' t]] eqn:E.
    + injection Ha as Hh. subst a. discriminate E.
    + injection Ha as Hh. subst h. rewrite IH by reflexivity. reflexivity.
    + discriminate Ha.
Qed.

Lemma startsWith_VB (s : string) : JS.startsWith ("VB-" ++ s) "VB-" = true.
Proof. unfold JS.startsWith. cbn. now destruct s. Qed.

(** X16 -- The licence check reads only the first two dot-separated parts of a
    key: whatever follows a further dot after the signature is ignored,
    so a key with such a tail is judged exactly as the key without
    it. *)
Theorem licence_ignores_trailing_segments (e : Env)
        (payload signature tail : string) (w : World) :
  LicenseManager.split_dot payload = [payload] ->
  LicenseManager.split_dot signature = [signature] ->
  LicenseManager.validateLicenseKey
    e ("VB-" ++ payload ++ "." ++ signature ++ "." ++ tail)%string w
  = LicenseManager.validateLicenseKey
      e ("VB-" ++ payload ++ "." ++ signature)%string w.
Proof.
  intros Hp Hs. unfold LicenseManager.validateLicenseKey. cbv zeta.
  rewrite !startsWith_VB, !drop3_prefix.
  rewrite (split_dot_cons payload (signature ++ "." ++ tail) Hp).
  rewrite (split_dot_cons signature tail Hs).
  rewrite (split_dot_pair payload signature Hp Hs).
  cbn [nth_error]. reflexivity.
Qed.

(** A concrete run: a signed key followed by a tail. *)
Lemma licence_trailing_segments_witness :
  LicenseManager.validateLicenseKey
    (Examples.env true) ("VB-" ++ "ok" ++ "." ++ "sig:ok" ++ "." ++ "tail")%string
    Examples.emptyWorld
  = LicenseManager.validateLicenseKey
      (Examples.env true) ("VB-" ++ "ok" ++ "." ++ "sig:ok")%string
      Examples.emptyWorld.
Proof.
  apply (licence_ignores_trailing_segments (Examples.env true)
           "ok" "sig:ok" "tail" Examples.emptyWorld).
  - reflexivity.
  - reflexivity.
Defined.

(* ================================================================== *)
(** * What the steps of the orchestrator keep *)
(* ================================================================== *)

Section KeepsFacts.

Variables (S : Type) (R : S -> S -> Prop).
Hypothesis R_refl : forall s, R s s.
Hypothesis R_trans : forall s1 s2 s3, R s1 s2 -> R s2 s3 -> R s1 s3.

Lemma keeps_ret {A} (a : A) : Spec.keeps R (ret a).
Proof. intros s. apply R_refl. Qed.

Lemma keeps_throw {A} (msg : string) : Spec.keeps R (@throw S A msg).
Proof. intros s. apply R_refl. Qed.

Lemma keeps_get : Spec.keeps R get.
Proof. intros s. apply R_refl. Qed.

Lemma keeps_modify (f : S -> S) :
  (forall s, R s (f s)) -> Spec.keeps R (modify f).
Proof. intros H s. apply H. Qed.

Lemma keeps_bind {A B} (m : M S A) (k : A -> M S B) :
  Spec.keeps R m -> (forall a, Spec.keeps R (k a)) ->
  Spec.keeps R (bind m k).
Proof.
  intros Hm Hk s. unfold bind. specialize (Hm s).
  destruct (m s) as [[a|msg] s1]; cbn [snd] in *.
  - exact (R_trans _ _ _ Hm (Hk a s1)).
  - exact Hm.
Qed.

Lemma keeps_try_catch {A} (m : M S A) (h : string -> M S A) :
  Spec.keeps R m -> (forall msg, Spec.keeps R (h msg)) ->
  Spec.keeps R (try_catch m h).
Proof.
  intros Hm Hh s. unfold try_catch. specialize (Hm s).
  destruct (m s) as [[a|msg] s1]; cbn [snd] in *.
  - exact Hm.
  - exact (R_trans _ _ _ Hm (Hh msg s1)).
Qed.

Lemma keeps_total {A} (f : S -> A * S) :
  (forall s, R s (snd (f s))) -> Spec.keeps R (total f).
Proof.
  intros H s. unfold total. specialize (H s). now destruct (f s).
Qed.

Lemma keeps_try_total {A} (m : M S A) (h : string -> S -> A * S) :
  Spec.keeps R m -> (forall msg s, R s (snd (h msg s))) ->
  forall s, R s (snd (try_total m h s)).
Proof.
  intros Hm Hh s. unfold try_total. specialize (Hm s).
  destruct (m s) as [[a|msg] s1]; cbn [snd] in *.
  - exact Hm.
  - exact (R_trans _ _ _ Hm (Hh msg s1)).
Qed.

End KeepsFacts.

Lemma extends_refl (w : World) : Spec.extends w w.
Proof. exists []. now rewrite app_nil_r. Qed.

Lemma extends_trans (w1 w2 w3 : World) :
  Spec.extends w1 w2 -> Spec.extends w2 w3 -> Spec.extends w1 w3.
Proof.
  intros (a & Ha & Hna) (c & Hc & Hnc). exists (a ++ c).
  rewrite Hc, Ha, app_assoc, existsb_app, Hna, Hnc. auto.
Qed.

Lemma clock_only_extends (w w' : World) :
  Spec.clock_only w w' -> Spec.extends w w'.
Proof.
  intros (_ & _ & _ & Ht & _). exists []. now rewrite app_nil_r.
Qed.

Lemma extends_effect (x : Effect) (w : World) :
  Spec.scheduling x = false -> Spec.extends w (snd (effect x w)).
Proof. intros H. exists [x]. cbn. now rewrite H. Qed.

Lemma extends_logged (e : Env) (level message : string) (w : World) :
  Spec.extends w (Spec.logged e level message w).
Proof. exists [Log level message]. auto. Qed.

Lemma sameControl_refl (b : TradingBot.Bot) : Spec.sameControl b b.
Proof. repeat split. Qed.

Lemma sameControl_trans (b1 b2 b3 : TradingBot.Bot) :
  Spec.sameControl b1 b2 -> Spec.sameControl b2 b3 ->
  Spec.sameControl b1 b3.
Proof.
  intros (a1 & a2 & a3 & a4 & a5) (c1 & c2 & c3 & c4 & c5).
  repeat split; congruence.
Qed.

Lemma evolves_refl (b : TradingBot.Bot) : Spec.evolves b b.
Proof. split; [apply sameControl_refl | apply extends_refl]. Qed.

Lemma evolves_trans (b1 b2 b3 : TradingBot.Bot) :
  Spec.evolves b1 b2 -> Spec.evolves b2 b3 -> Spec.evolves b1 b3.
Proof.
  intros (Hc & He) (Hc' & He'). split;
    [eapply sameControl_trans | eapply extends_trans]; eassumption.
Qed.

Lemma settled_refl (b : TradingBot.Bot) : Spec.settled b b.
Proof. split; [apply evolves_refl | reflexivity]. Qed.

Lemma settled_trans (b1 b2 b3 : TradingBot.Bot) :
  Spec.settled b1 b2 -> Spec.settled b2 b3 -> Spec.settled b1 b3.
Proof.
  intros (He & Hw) (He' & Hw'). split;
    [eapply evolves_trans; eassumption | congruence].
Qed.

Lemma settled_evolves (b b' : TradingBot.Bot) :
  Spec.settled b b' -> Spec.evolves b b'.
Proof. now intros [H _]. Qed.

Lemma settled_world (b : TradingBot.Bot) (w : World) :
  Spec.extends (TradingBot.bworld b) w ->
  Spec.settled b (TradingBot.set_bworld w b).
Proof. intros H. repeat split. exact H. Qed.

(** A step that acts on the world only. *)
Lemma keeps_inWorld {A} (m : M World A) :
  (forall w, Spec.extends w (snd (m w))) ->
  Spec.keeps Spec.settled (TradingBot.inWorld m).
Proof.
  intros H b. unfold TradingBot.inWorld. specialize (H (TradingBot.bworld b)).
  destruct (m (TradingBot.bworld b)) as [a w]. now apply settled_world.
Qed.

Lemma keeps_log (e : Env) (level message : string) :
  Spec.keeps Spec.settled (TradingBot.log e level message).
Proof.
  intros b. rewrite log_run. cbn [snd]. apply settled_world, extends_logged.
Qed.

Lemma keeps_emit (event : string) :
  Spec.keeps Spec.settled (TradingBot.emit event).
Proof.
  intros b. rewrite emit_run. cbn [snd]. apply settled_world.
  now exists [Emit event].
Qed.

Lemma keeps_net (c : NetCall) :
  Spec.keeps Spec.settled (TradingBot.net c).
Proof.
  intros b. change (snd (TradingBot.net c b))
    with (TradingBot.set_bworld
            (Spec.recorded (Net c) (TradingBot.bworld b)) b).
  apply settled_world. now exists [Net c].
Qed.

Lemma keeps_evolves {A} (m : M TradingBot.Bot A) :
  Spec.keeps Spec.settled m -> Spec.keeps Spec.evolves m.
Proof. intros H b. apply settled_evolves, H. Qed.

(** Provisioning writes and announces, and schedules nothing. *)
Lemma createSubWallets_extends (e : Env) (count : Z) (w : World) :
  Spec.extends w (snd (WalletManager.createSubWallets e count w)).
Proof.
  destruct (getAllWalletsFromBackups_ok e w) as (view & w1 & Hget & Hc).
  destruct Hc as (Hf & Hm & Hwr & Ht & _).
  destruct (Z.le_gt_cases count
              (Z.of_nat (List.length (BackupManager.subWalletsR view))))
    as [Hle|Hgt].
  - rewrite (createSubWallets_reuse e count w w1 view Hget Hle).
    exists []. cbn [snd]. now rewrite app_nil_r.
  - rewrite (createSubWallets_grow e count w w1 view Hget Hgt).
    match goal with
    | |- context [BackupManager.createBackup e MainUndefined ?all ?w2] =>
        destruct (write_ok e (writes w2)) eqn:Hdisk;
        [rewrite (createBackup_success e all w2 Hdisk)
        |destruct (createBackup_failure e all w2 Hdisk)
           as (msg & w3 & Hb & Hf3 & Ht3 & _); rewrite Hb]
    end; cbn [snd trace Spec.advance].
    + eexists. rewrite Ht, <- !app_assoc. split; [reflexivity|]. reflexivity.
    + exists []. rewrite Ht3. cbn [Spec.advance trace].
      now rewrite Ht, app_nil_r.
Qed.

Lemma getAllWallets_extends (e : Env) (w : World) :
  Spec.extends w (snd (WalletManager.getAllWallets e w)).
Proof. apply clock_only_extends, getAllWallets_frame. Qed.

Lemma keeps_inWorldT {A} (f : World -> A * World) :
  (forall w, Spec.extends w (snd (f w))) ->
  Spec.keeps Spec.settled (TradingBot.inWorldT f).
Proof.
  intros H. unfold TradingBot.inWorldT. apply keeps_inWorld.
  intros w. unfold total. specialize (H w). now destruct (f w).
Qed.

Ltac keeps_evolves_step :=
  first
    [ apply (keeps_bind _ _ evolves_trans); [|intros]
    | apply (keeps_ret _ _ evolves_refl)
    | apply (keeps_throw _ _ evolves_refl)
    | apply (keeps_get _ _ evolves_refl)
    | apply keeps_evolves, keeps_log
    | apply keeps_evolves, keeps_emit
    | apply keeps_evolves, keeps_net
    | apply keeps_evolves, keeps_inWorldT, createSubWallets_extends
    | apply keeps_evolves, keeps_inWorldT, getAllWallets_extends ].

Lemma evolves_workers (ws : list WalletManager.WalletInfo)
      (b : TradingBot.Bot) :
  Spec.evolves b (TradingBot.set_subWallets ws b).
Proof. split; [repeat split | apply extends_refl]. Qed.

Ltac keeps_evolves_auto :=
  repeat first
    [ keeps_evolves_step
    | apply keeps_modify; intros; apply evolves_workers
    | match goal with
      | |- Spec.keeps _ (if ?c then _ else _) => destruct c
      | |- Spec.keeps _ (match WalletManager.success ?r with _ => _ end) =>
          destruct (WalletManager.success r)
      | |- Spec.keeps _ (match WalletManager.wallets ?r with _ => _ end) =>
          destruct (WalletManager.wallets r)
      end ].

(** Resolving the workers changes the worker list and the world only. *)
Lemma resolveSubWallets_keeps (e : Env) (cfg : TradingBot.TradingConfig) :
  Spec.keeps Spec.evolves (TradingBot.resolveSubWallets e cfg).
Proof.
  unfold TradingBot.resolveSubWallets, TradingBot.push_subWallets.
  keeps_evolves_auto.
Qed.

Ltac keeps_settled_step :=
  first
    [ apply (keeps_bind _ _ settled_trans); [|intros]
    | apply (keeps_ret _ _ settled_refl)
    | apply (keeps_throw _ _ settled_refl)
    | apply (keeps_get _ _ settled_refl)
    | apply keeps_log
    | apply keeps_emit
    | apply keeps_net
    | match goal with
      | |- Spec.keeps _ (if ?c then _ else _) => destruct c
      end ].

Lemma getWalletBalance_keeps (answer : Q) (pk : string) :
  Spec.keeps Spec.settled (TradingBot.getWalletBalance answer pk).
Proof. unfold TradingBot.getWalletBalance. repeat keeps_settled_step. Qed.

Lemma allWalletsFunded_keeps (e : Env) (answers : string -> Q) (amount : Q)
      (ws : list WalletManager.WalletInfo) :
  Spec.keeps Spec.settled (TradingBot.allWalletsFunded e answers amount ws).
Proof.
  induction ws as [|wallet ws IH]; cbn [TradingBot.allWalletsFunded].
  - repeat keeps_settled_step.
  - apply (keeps_bind _ _ settled_trans); [apply getWalletBalance_keeps|].
    intros balance. destruct (TradingBot.Qltb balance amount);
      [repeat keeps_settled_step | exact IH].
Qed.

Lemma pollFunds_keeps (e : Env) (sn : TradingBot.StartNet) (amount : Q)
      (fuel attempts : nat) :
  Spec.keeps Spec.settled (TradingBot.pollFunds e sn amount fuel attempts).
Proof.
  revert attempts. induction fuel as [|fuel IH]; intros attempts;
    cbn [TradingBot.pollFunds].
  - repeat keeps_settled_step.
  - apply (keeps_bind _ _ settled_trans); [repeat keeps_settled_step|].
    intros b. apply (keeps_bind _ _ settled_trans);
      [apply allWalletsFunded_keeps|].
    intros ready. apply (keeps_bind _ _ settled_trans);
      [repeat keeps_settled_step|].
    intros b'. destruct (negb ready && TradingBot.isRunning b');
      [apply IH | repeat keeps_settled_step].
Qed.

Lemma distributeFunds_keeps (e : Env) (sn : TradingBot.StartNet) :
  Spec.keeps Spec.settled (TradingBot.distributeFunds e sn).
Proof.
  unfold TradingBot.distributeFunds.
  apply (keeps_bind _ _ settled_trans); [repeat keeps_settled_step|].
  intros b. destruct (TradingBot.config b) as [cfg|];
    [|repeat keeps_settled_step].
  do 2 (apply (keeps_bind _ _ settled_trans);
        [repeat keeps_settled_step | intros _]).
  destruct (TradingBot.d_success (TradingBot.sn_distribute sn));
    [|repeat keeps_settled_step].
  destruct (TradingBot.d_fundedWallets (TradingBot.sn_distribute sn))
    as [[|funded others]|]; try (repeat keeps_settled_step; fail).
  do 4 (apply (keeps_bind _ _ settled_trans);
        [repeat keeps_settled_step | intros]).
  apply (keeps_bind _ _ settled_trans); [apply pollFunds_keeps|].
  intros ready. repeat keeps_settled_step.
Qed.

Lemma validateToken_keeps (e : Env) (token : string) :
  Spec.keeps Spec.settled (TradingBot.validateToken e token).
Proof. unfold TradingBot.validateToken. repeat keeps_settled_step. Qed.

Lemma extends_In (x : Effect) (w w' : World) :
  Spec.extends w w' -> In x (trace w) -> In x (trace w').
Proof.
  intros (added & -> & _) Hin. apply in_or_app. now left.
Qed.

(** The distribution returns only when the transfer service reports
    success and names at least one funded address; the request was made
    for the current workers and [buyAmount + 0.00001] each. *)
Lemma distributeFunds_ok (e : Env) (sn : TradingBot.StartNet)
      (cfg : TradingBot.TradingConfig) (b b' : TradingBot.Bot) :
  TradingBot.config b = Some cfg ->
  TradingBot.distributeFunds e sn b = (Ok tt, b') ->
  TradingBot.d_success (TradingBot.sn_distribute sn) = true /\
  (exists funded others,
      TradingBot.d_fundedWallets (TradingBot.sn_distribute sn)
      = Some (funded :: others)) /\
  In (Net (NetDistribute
             (map WalletManager.publicKey (TradingBot.subWallets b))
             (TradingBot.buyAmount cfg + (1 # 100000))))
     (trace (TradingBot.bworld b')).
Proof.
  intros Hcfg. unfold TradingBot.distributeFunds.
  step_get. rewrite Hcfg. step_log.
  match goal with
  | |- context [bind (TradingBot.net ?c) ?k ?s] =>
      change (bind (TradingBot.net c) k s)
        with (k tt (TradingBot.set_bworld
                      (Spec.recorded (Net c) (TradingBot.bworld s)) s));
      cbv beta
  end.
  destruct (TradingBot.d_success (TradingBot.sn_distribute sn));
    [|discriminate].
  destruct (TradingBot.d_fundedWallets (TradingBot.sn_distribute sn))
    as [[|funded others]|]; try discriminate.
  intros Hrun. split; [reflexivity|]. split; [eauto|].
  match type of Hrun with
  | ?m ?s = _ =>
      assert (Hk : Spec.keeps Spec.settled m);
      [|specialize (Hk s); rewrite Hrun in Hk; cbn [snd] in Hk;
        destruct Hk as ((_ & Hext) & _);
        apply (extends_In _ _ _ Hext)]
  end.
  - do 4 (apply (keeps_bind _ _ settled_trans);
          [repeat keeps_settled_step | intros]).
    apply (keeps_bind _ _ settled_trans); [apply pollFunds_keeps|].
    intros ready. repeat keeps_settled_step.
  - cbn. apply in_or_app. right. now left.
Qed.

Ltac step_modify :=
  match goal with
  | |- context [bind (modify ?f) _ ?s] =>
      rewrite (bind_Ok (modify f) _ s (f s) tt eq_refl); cbv beta
  end.

Ltac step_now e :=
  match goal with
  | |- context [bind (TradingBot.inWorld (date_now e)) _ ?s] =>
      rewrite (bind_Ok _ _ _ _ _ (now_run e s)); cbv beta
  end.

Lemma schedule_run (task : string) (b : TradingBot.Bot) :
  TradingBot.schedule task b
  = (Ok tt, TradingBot.set_bworld
              (Spec.recorded (Scheduled task) (TradingBot.bworld b)) b).
Proof. reflexivity. Qed.

Lemma validateLicenseKey_extends (e : Env) (key : string) (w : World) :
  Spec.extends w (snd (LicenseManager.validateLicenseKey e key w)).
Proof. apply clock_only_extends, validateLicenseKey_frame. Qed.

(** The two ways a call of [start] on a bot that is not running can
    end. *)
Lemma start_outcome (e : Env) (sn : TradingBot.StartNet)
      (cfg : TradingBot.TradingConfig) (b : TradingBot.Bot) :
  TradingBot.isRunning b = false ->
  let result := fst (TradingBot.start e sn cfg b) in
  let after := snd (TradingBot.start e sn cfg b) in
  (result = TradingBot.ok /\
   TradingBot.isRunning after = true /\
   TradingBot.config after = Some cfg /\
   LicenseManager.valid
     (fst (LicenseManager.validateLicenseKey e (TradingBot.licenseKey cfg)
             (TradingBot.bworld b))) = true /\
   fromSecretKey e (TradingBot.mainWalletPrivateKey cfg) <> None /\
   isPublicKey e (TradingBot.tokenAddress cfg) = true /\
   TradingBot.d_success (TradingBot.sn_distribute sn) = true /\
   (exists funded others,
       TradingBot.d_fundedWallets (TradingBot.sn_distribute sn)
       = Some (funded :: others)) /\
   TradingBot.activeWallets (TradingBot.stats after)
   = Z.of_nat (List.length (TradingBot.subWallets after)) /\
   TradingBot.cyclesCompleted (TradingBot.stats after) = 0%Z /\
   In (Net (NetDistribute
              (map WalletManager.publicKey (TradingBot.subWallets after))
              (TradingBot.buyAmount cfg + (1 # 100000))))
      (trace (TradingBot.bworld after)) /\
   exists before later,
     trace (TradingBot.bworld after)
     = trace (TradingBot.bworld b)
       ++ before ++ [Scheduled "executeTradingCycle"] ++ later /\
     existsb Spec.scheduling before = false /\
     existsb Spec.scheduling later = false)
  \/
  (TradingBot.s_success result = false /\
   TradingBot.isRunning after = false /\
   Spec.extends (TradingBot.bworld b) (TradingBot.bworld after) /\
   (LicenseManager.valid
      (fst (LicenseManager.validateLicenseKey e (TradingBot.licenseKey cfg)
              (TradingBot.bworld b))) = true ->
    TradingBot.config after = Some cfg)).
Proof.
  intros Hrun. cbv zeta.
  unfold TradingBot.start.
  match goal with
  | |- context [try_total ?body ?h b] =>
      set (body0 := body) in *; set (handler := h) in *
  end.
  assert (Hlicence := validateLicenseKey_extends
                        e (TradingBot.licenseKey cfg) (TradingBot.bworld b)).
  destruct (LicenseManager.validateLicenseKey e (TradingBot.licenseKey cfg)
              (TradingBot.bworld b)) as [lv w1] eqn:Hlv.
  cbn [fst snd] in *.
  assert (HinW : TradingBot.inWorldT
                   (LicenseManager.validateLicenseKey
                      e (TradingBot.licenseKey cfg)) b
                 = (Ok lv, TradingBot.set_bworld w1 b)).
  { unfold TradingBot.inWorldT, TradingBot.inWorld, total.
    now rewrite Hlv. }
  assert (Hbody : exists r b',
             body0 b = (r, b') /\
             match r with
             | Ok res =>
                 (res = TradingBot.ok /\
                  TradingBot.isRunning b' = true /\
                  TradingBot.config b' = Some cfg /\
                  LicenseManager.valid lv = true /\
                  fromSecretKey e (TradingBot.mainWalletPrivateKey cfg)
                  <> None /\
                  isPublicKey e (TradingBot.tokenAddress cfg) = true /\
                  TradingBot.d_success (TradingBot.sn_distribute sn) = true /\
                  (exists funded others,
                      TradingBot.d_fundedWallets (TradingBot.sn_distribute sn)
                      = Some (funded :: others)) /\
                  TradingBot.activeWallets (TradingBot.stats b')
                  = Z.of_nat (List.length (TradingBot.subWallets b')) /\
                  TradingBot.cyclesCompleted (TradingBot.stats b') = 0%Z /\
                  In (Net (NetDistribute
                             (map WalletManager.publicKey
                                  (TradingBot.subWallets b'))
                             (TradingBot.buyAmount cfg + (1 # 100000))))
                     (trace (TradingBot.bworld b')) /\
                  exists before later,
                    trace (TradingBot.bworld b')
                    = trace (TradingBot.bworld b)
                      ++ before ++ [Scheduled "executeTradingCycle"] ++ later /\
                    existsb Spec.scheduling before = false /\
                    existsb Spec.scheduling later = false)
                 \/
                 (TradingBot.s_success res = false /\
                  LicenseManager.valid lv = false /\
                  TradingBot.isRunning b' = false /\
                  Spec.extends (TradingBot.bworld b) (TradingBot.bworld b'))
             | Throw _ =>
                 LicenseManager.valid lv = true /\
                 TradingBot.isRunning b' = false /\
                 TradingBot.config b' = Some cfg /\
                 Spec.extends (TradingBot.bworld b) (TradingBot.bworld b')
             end).
  { unfold body0. step_get. rewrite Hrun. step HinW.
    destruct (LicenseManager.valid lv) eqn:Hvalid; cbn [negb].
    2:{ step_log. eexists _, _. split; [reflexivity|]. right.
        cbn [TradingBot.failed TradingBot.s_success TradingBot.isRunning
             TradingBot.set_bworld TradingBot.bworld].
        repeat split; try exact Hrun.
        eapply extends_trans; [exact Hlicence|]. apply extends_logged. }
    step_log. step_modify. unfold TradingBot.resetStats. step_modify.
    step_now e. step_modify. step_log.
    match goal with |- context [bind _ _ ?s] => set (b1 := s) end.
    assert (Hr1 : TradingBot.isRunning b1 = false) by exact Hrun.
    assert (Hc1 : TradingBot.config b1 = Some cfg) by reflexivity.
    assert (Hy1 : TradingBot.cyclesCompleted (TradingBot.stats b1) = 0%Z)
      by reflexivity.
    assert (He1 : Spec.extends (TradingBot.bworld b) (TradingBot.bworld b1)).
    { eapply extends_trans; [exact Hlicence|].
      exists [Log "success" "License valid";
              Log "info" "Starting trading bot..."].
      split; [|reflexivity]. cbn. now rewrite <- app_assoc. }
    clearbody b1.
    unfold WalletManager.keypairFromSecretKey.
    destruct (fromSecretKey e (TradingBot.mainWalletPrivateKey cfg))
      as [pk|] eqn:Hkey.
    2:{ rewrite (bind_Throw (throw "bad secret key") _ b1 b1
                            "bad secret key" eq_refl).
        eexists _, _. split; [reflexivity|]. repeat split; assumption. }
    rewrite (bind_Ok (ret pk) _ b1 b1 pk eq_refl). cbv beta.
    step_log. step_log.
    match goal with |- context [bind _ _ ?s] => set (b2 := s) end.
    assert (Hk2 : Spec.settled b1 b2).
    { apply (settled_trans _ _ _ (keeps_log e "info" "Main wallet" b1)).
      exact (keeps_log e "info"
               "Collecting all sub-wallets from backup files..." _). }
    clearbody b2.
    assert (Hk3 := resolveSubWallets_keeps e cfg b2).
    destruct (TradingBot.resolveSubWallets e cfg b2) as [[[]|msg] b3] eqn:Hres;
      cbn [snd] in Hk3.
    2:{ rewrite (bind_Throw _ _ _ _ _ Hres).
        eexists _, _. split; [reflexivity|].
        destruct Hk2 as (((Ha & Hb & _) & Hx) & _).
        destruct Hk3 as ((Ha' & Hb' & _) & Hx').
        repeat split; try congruence.
        eapply extends_trans; [exact He1|].
        eapply extends_trans; eassumption. }
    step Hres. step_get. step_modify. step_log.
    match goal with |- context [bind _ _ ?s] => set (b4 := s) end.
    assert (Hr4 : TradingBot.isRunning b4 = false).
    { destruct Hk2 as (((Ha & _) & _) & _). destruct Hk3 as ((Ha' & _) & _).
      cbn. congruence. }
    assert (Hc4 : TradingBot.config b4 = Some cfg).
    { destruct Hk2 as (((_ & Hb & _) & _) & _).
      destruct Hk3 as ((_ & Hb' & _) & _). cbn. congruence. }
    assert (Hy4 : TradingBot.cyclesCompleted (TradingBot.stats b4) = 0%Z).
    { destruct Hk2 as (((_ & _ & Hs & _) & _) & _).
      destruct Hk3 as ((_ & _ & Hs' & _) & _). cbn. congruence. }
    assert (Ha4 : TradingBot.activeWallets (TradingBot.stats b4)
                  = Z.of_nat (List.length (TradingBot.subWallets b4)))
      by reflexivity.
    assert (He4 : Spec.extends (TradingBot.bworld b) (TradingBot.bworld b4)).
    { eapply extends_trans; [exact He1|].
      eapply extends_trans; [exact (proj2 (proj1 Hk2))|].
      eapply extends_trans; [exact (proj2 Hk3)|]. apply extends_logged. }
    clearbody b4. clear Hk2 Hk3 Hres b2 b3 b1 Hr1 Hc1 Hy1 He1.
    assert (Hk5 := distributeFunds_keeps e sn b4).
    destruct (TradingBot.distributeFunds e sn b4) as [[[]|msg] b5] eqn:Hdist;
      cbn [snd] in Hk5;
      destruct Hk5 as (((Hr5 & Hc5 & Hs5 & _) & He5) & Hw5).
    2:{ rewrite (bind_Throw _ _ _ _ _ Hdist).
        eexists _, _. split; [reflexivity|].
        repeat split; try congruence.
        eapply extends_trans; eassumption. }
    destruct (distributeFunds_ok e sn cfg b4 b5 Hc4 Hdist)
      as (Hds & Hfunded & Hnet).
    step Hdist. unfold TradingBot.validateToken.
    destruct (isPublicKey e (TradingBot.tokenAddress cfg)) eqn:Htoken.
    2:{ rewrite (bind_Throw (throw "Invalid token address") _ b5 b5
                            "Invalid token address" eq_refl).
        eexists _, _. split; [reflexivity|].
        repeat split; try congruence.
        eapply extends_trans; eassumption. }
    step_log. step_modify. step_log.
    match goal with
    | |- context [bind (TradingBot.schedule ?t) _ ?s] =>
        step (schedule_run t s)
    end.
    step_log.
    match goal with
    | |- context [bind (TradingBot.emit ?ev) _ ?s] => step (emit_run ev s)
    end.
    eexists _, _. split; [reflexivity|]. left.
    cbn [TradingBot.isRunning TradingBot.config TradingBot.stats
         TradingBot.subWallets TradingBot.bworld TradingBot.set_bworld
         TradingBot.set_isRunning Spec.logged Spec.recorded trace].
    rewrite Hs5, Hw5, Hc5.
    repeat (split; [first [reflexivity | assumption | congruence]|]).
    split.
    { repeat (apply in_or_app; left). exact Hnet. }
    destruct (extends_trans _ _ _ He4 He5) as (added & Hadded & Hnone).
    exists (added ++ [Log "info" "Token validated";
                      Log "info" "Starting continuous trading..."]),
           [Log "success" "Trading bot started successfully";
            Emit "stats-update"].
    rewrite Hadded, existsb_app, Hnone. cbn.
    rewrite <- !app_assoc. auto. }
  destruct Hbody as (r & b' & Hb & Hphi).
  destruct r as [res|msg].
  - rewrite (try_total_Ok _ _ _ _ _ Hb). cbn [fst snd].
    destruct Hphi as [Hok|(Hf & Hinv & Hr & He)]; [left; exact Hok|].
    right. repeat split; try assumption. congruence.
  - rewrite (try_total_Throw _ _ _ _ _ Hb). unfold handler.
    destruct Hphi as (Hv & Hr & Hc & He).
    right. cbn. repeat split; try assumption; [|intros _; exact Hc].
    eapply extends_trans; [exact He|].
    now exists [Log "error" "Failed to start trading bot"].
Qed.

(** X17 -- [start] succeeds only after every check.  When [start] on a bot that
    is not running reports success, the licence was accepted, the owner
    key decodes, the token address is a public key and the transfer
    service reported success with at least one funded address; the bot
    is running with the given configuration, the stats were reset and
    count exactly the workers in use, the distribution was requested for
    exactly these workers with [buyAmount + 0.00001] each, and the
    trading cycle was scheduled exactly once and nothing else was.
    ([start] is followed without another command being handled while it
    is awaited.) *)
Theorem start_succeeds_only_after_every_check (e : Env)
        (sn : TradingBot.StartNet) (cfg : TradingBot.TradingConfig)
        (b : TradingBot.Bot) :
  TradingBot.isRunning b = false ->
  TradingBot.s_success (fst (TradingBot.start e sn cfg b)) = true ->
  let after := snd (TradingBot.start e sn cfg b) in
  LicenseManager.valid
    (fst (LicenseManager.validateLicenseKey e (TradingBot.licenseKey cfg)
            (TradingBot.bworld b))) = true /\
  fromSecretKey e (TradingBot.mainWalletPrivateKey cfg) <> None /\
  isPublicKey e (TradingBot.tokenAddress cfg) = true /\
  TradingBot.d_success (TradingBot.sn_distribute sn) = true /\
  (exists funded others,
      TradingBot.d_fundedWallets (TradingBot.sn_distribute sn)
      = Some (funded :: others)) /\
  TradingBot.isRunning after = true /\
  TradingBot.config after = Some cfg /\
  TradingBot.cyclesCompleted (TradingBot.stats after) = 0%Z /\
  TradingBot.activeWallets (TradingBot.stats after)
  = Z.of_nat (List.length (TradingBot.subWallets after)) /\
  In (Net (NetDistribute
             (map WalletManager.publicKey (TradingBot.subWallets after))
             (TradingBot.buyAmount cfg + (1 # 100000))))
     (trace (TradingBot.bworld after)) /\
  exists before later,
    trace (TradingBot.bworld after)
    = trace (TradingBot.bworld b)
      ++ before ++ [Scheduled "executeTradingCycle"] ++ later /\
    existsb Spec.scheduling before = false /\
    existsb Spec.scheduling later = false.
Proof.
  intros Hrun Hsuccess. cbv zeta.
  destruct (start_outcome e sn cfg b Hrun)
    as [(Hok & Hr & Hc & Hv & Hk & Ht & Hd & Hf & Ha & Hy & Hn & Hs)
       |(Hfail & _)].
  - repeat (split; [assumption|]). exact Hs.
  - rewrite Hfail in Hsuccess. discriminate.
Qed.

(** A concrete run: a fresh bot started on three stored workers. *)
Lemma start_success_witness :
  let after := snd (TradingBot.start (Examples.env true) Examples.startNet
                      Examples.goodConfig
                      (Examples.freshBot Examples.threeGoodWorkers)) in
  LicenseManager.valid
    (fst (LicenseManager.validateLicenseKey (Examples.env true)
            (TradingBot.licenseKey Examples.goodConfig)
            (TradingBot.bworld (Examples.freshBot Examples.threeGoodWorkers))))
  = true /\
  fromSecretKey (Examples.env true)
    (TradingBot.mainWalletPrivateKey Examples.goodConfig) <> None /\
  isPublicKey (Examples.env true) (TradingBot.tokenAddress Examples.goodConfig)
  = true /\
  TradingBot.d_success (TradingBot.sn_distribute Examples.startNet) = true /\
  (exists funded others,
      TradingBot.d_fundedWallets (TradingBot.sn_distribute Examples.startNet)
      = Some (funded :: others)) /\
  TradingBot.isRunning after = true /\
  TradingBot.config after = Some Examples.goodConfig /\
  TradingBot.cyclesCompleted (TradingBot.stats after) = 0%Z /\
  TradingBot.activeWallets (TradingBot.stats after)
  = Z.of_nat (List.length (TradingBot.subWallets after)) /\
  In (Net (NetDistribute
             (map WalletManager.publicKey (TradingBot.subWallets after))
             (TradingBot.buyAmount Examples.goodConfig + (1 # 100000))))
     (trace (TradingBot.bworld after)) /\
  exists before later,
    trace (TradingBot.bworld after)
    = trace (TradingBot.bworld (Examples.freshBot Examples.threeGoodWorkers))
      ++ before ++ [Scheduled "executeTradingCycle"] ++ later /\
    existsb Spec.scheduling before = false /\
    existsb Spec.scheduling later = false.
Proof.
  apply (start_succeeds_only_after_every_check
           (Examples.env true) Examples.startNet Examples.goodConfig
           (Examples.freshBot Examples.threeGoodWorkers)).
  - reflexivity.
  - vm_compute. reflexivity.
Defined.

(** X18 -- [start] reports success exactly when it leaves the bot running.  On
    a running bot it is refused and changes nothing.  On a bot that is
    not running, the bot runs afterwards exactly when the call reports
    success, and a call that reports failure has scheduled nothing:
    neither a trading cycle nor a clean-up. *)
Theorem start_reports_success_exactly_when_running (e : Env)
        (sn : TradingBot.StartNet) (cfg : TradingBot.TradingConfig)
        (b : TradingBot.Bot) :
  let result := fst (TradingBot.start e sn cfg b) in
  let after := snd (TradingBot.start e sn cfg b) in
  (TradingBot.isRunning b = true ->
   result = TradingBot.failed "Bot is already running" /\ after = b) /\
  (TradingBot.isRunning b = false ->
   (TradingBot.s_success result = true <->
    TradingBot.isRunning after = true) /\
   (TradingBot.s_success result = false ->
    exists added,
      trace (TradingBot.bworld after) = trace (TradingBot.bworld b) ++ added /\
      existsb Spec.scheduling added = false)).
Proof.
  cbv zeta. split.
  - intros Hrun. unfold TradingBot.start, try_total. step_get.
    rewrite Hrun. split; reflexivity.
  - intros Hrun.
    destruct (start_outcome e sn cfg b Hrun)
      as [(Hok & Hr & _)|(Hfail & Hr & He & _)].
    + rewrite Hok, Hr. cbn. repeat split; auto; discriminate.
    + rewrite Hfail, Hr. repeat split; try discriminate. intros _. exact He.
Qed.

Lemma stop_schedules_cleanup (e : Env) (cfg : TradingBot.TradingConfig)
      (b : TradingBot.Bot) :
  TradingBot.config b = Some cfg ->
  In (Scheduled "cleanupFundsInBackground")
     (trace (TradingBot.bworld (snd (TradingBot.stop e b)))).
Proof.
  destruct b as [run c st iv sv ws w]. cbn [TradingBot.config].
  intros ->. destruct iv, sv; cbn; apply in_or_app; right; now left.
Qed.

(** X19 -- A start that fails after the licence check leaves the clean-up to
    [stop].  When the licence is accepted and [start] then fails (owner
    key, provisioning, distribution or token address), the bot is not
    running and nothing was scheduled, but the configuration is
    retained: the next [stop()] starts the background clean-up for
    it. *)
Theorem failed_start_leaves_the_cleanup_to_stop (e : Env)
        (sn : TradingBot.StartNet) (cfg : TradingBot.TradingConfig)
        (b : TradingBot.Bot) :
  TradingBot.isRunning b = false ->
  LicenseManager.valid
    (fst (LicenseManager.validateLicenseKey e (TradingBot.licenseKey cfg)
            (TradingBot.bworld b))) = true ->
  TradingBot.s_success (fst (TradingBot.start e sn cfg b)) = false ->
  let after := snd (TradingBot.start e sn cfg b) in
  TradingBot.isRunning after = false /\
  TradingBot.config after = Some cfg /\
  (exists added,
      trace (TradingBot.bworld after) = trace (TradingBot.bworld b) ++ added /\
      existsb Spec.scheduling added = false) /\
  In (Scheduled "cleanupFundsInBackground")
     (trace (TradingBot.bworld (snd (TradingBot.stop e after)))).
Proof.
  intros Hrun Hvalid Hfailed. cbv zeta.
  destruct (start_outcome e sn cfg b Hrun)
    as [(Hok & _)|(_ & Hr & He & Hc)].
  - rewrite Hok in Hfailed. discriminate.
  - specialize (Hc Hvalid). repeat (split; [assumption|]).
    now apply (stop_schedules_cleanup e cfg).
Qed.

(** A concrete run: the owner key cannot be decoded. *)
Lemma failed_start_witness :
  let after := snd (TradingBot.start (Examples.env true) Examples.startNet
                      Examples.brokenOwnerConfig
                      (Examples.freshBot Examples.threeGoodWorkers)) in
  TradingBot.isRunning after = false /\
  TradingBot.config after = Some Examples.brokenOwnerConfig /\
  (exists added,
      trace (TradingBot.bworld after)
      = trace (TradingBot.bworld
                 (Examples.freshBot Examples.threeGoodWorkers)) ++ added /\
      existsb Spec.scheduling added = false) /\
  In (Scheduled "cleanupFundsInBackground")
     (trace (TradingBot.bworld
               (snd (TradingBot.stop (Examples.env true) after)))).
Proof.
  apply (failed_start_leaves_the_cleanup_to_stop
           (Examples.env true) Examples.startNet Examples.brokenOwnerConfig
           (Examples.freshBot Examples.threeGoodWorkers)).
  - reflexivity.
  - vm_compute. reflexivity.
  - vm_compute. reflexivity.
Defined.

(* ================================================================== *)
(** * Further properties of the trading cycle and the clean-up *)
(* ================================================================== *)

Lemma calm_refl (b : TradingBot.Bot) : Spec.calm b b.
Proof. unfold Spec.calm. repeat split; auto. Qed.

Lemma calm_trans (b1 b2 b3 : TradingBot.Bot) :
  Spec.calm b1 b2 -> Spec.calm b2 b3 -> Spec.calm b1 b3.
Proof.
  unfold Spec.calm.
  intros (a0 & a1 & a2 & a3 & a4 & a5 & a6 & a7 & a8 & a9)
         (c0 & c1 & c2 & c3 & c4 & c5 & c6 & c7 & c8 & c9).
  repeat split; try congruence. auto.
Qed.

Lemma calm_world (b : TradingBot.Bot) (w : World) :
  files w = files (TradingBot.bworld b) ->
  minted w = minted (TradingBot.bworld b) ->
  writes w = writes (TradingBot.bworld b) ->
  Spec.calm b (TradingBot.set_bworld w b).
Proof. intros Hf Hm Hw. unfold Spec.calm. cbn. repeat split; auto. Qed.

Lemma calm_log (e : Env) (level message : string) :
  Spec.keeps Spec.calm (TradingBot.log e level message).
Proof. intros b. rewrite log_run. now apply calm_world. Qed.

Lemma calm_emit (event : string) :
  Spec.keeps Spec.calm (TradingBot.emit event).
Proof. intros b. rewrite emit_run. now apply calm_world. Qed.

Lemma calm_net (c : NetCall) : Spec.keeps Spec.calm (TradingBot.net c).
Proof.
  intros b. change (snd (TradingBot.net c b))
    with (TradingBot.set_bworld
            (Spec.recorded (Net c) (TradingBot.bworld b)) b).
  now apply calm_world.
Qed.

Lemma calm_schedule (task : string) :
  Spec.keeps Spec.calm (TradingBot.schedule task).
Proof. intros b. rewrite schedule_run. now apply calm_world. Qed.

Lemma calm_now (e : Env) :
  Spec.keeps Spec.calm (TradingBot.inWorld (date_now e)).
Proof. intros b. rewrite now_run. now apply calm_world. Qed.

Lemma calm_stop (e : Env) (b : TradingBot.Bot) :
  Spec.calm b (snd (TradingBot.stop e b)).
Proof.
  destruct b as [run cfg st iv sv ws w].
  destruct iv, sv, cfg; unfold Spec.calm; cbn; repeat split; discriminate.
Qed.

Lemma calm_await_point (e : Env) (stops : bool) :
  Spec.keeps Spec.calm (TradingBot.await_point e stops).
Proof.
  unfold TradingBot.await_point. destruct stops.
  - apply keeps_total. intros b. assert (H := calm_stop e b).
    now destruct (TradingBot.stop e b).
  - apply (keeps_ret _ _ calm_refl).
Qed.

Lemma calm_add_trade (fee volume : Q) (b : TradingBot.Bot) :
  Spec.calm b (TradingBot.add_trade fee volume b).
Proof. unfold Spec.calm. cbn. repeat split; auto. Qed.

Ltac calm_step :=
  first
    [ apply (keeps_bind _ _ calm_trans); [|intros]
    | apply (keeps_try_catch _ _ calm_trans); [|intros]
    | apply (keeps_ret _ _ calm_refl)
    | apply (keeps_throw _ _ calm_refl)
    | apply (keeps_get _ _ calm_refl)
    | apply calm_log
    | apply calm_emit
    | apply calm_net
    | apply calm_schedule
    | apply calm_now
    | apply calm_await_point
    | apply keeps_modify; intros; apply calm_add_trade
    | match goal with
      | |- Spec.keeps _ (if ?c then _ else _) => destruct c
      end ].

Lemma calm_keypair (e : Env) (key : string) :
  Spec.keeps Spec.calm
    (@WalletManager.keypairFromSecretKey TradingBot.Bot e key).
Proof.
  unfold WalletManager.keypairFromSecretKey.
  destruct (fromSecretKey e key); repeat calm_step.
Qed.

Lemma calm_executeBuy (e : Env) (o : TradingBot.TradeOutcome)
      (wallet : WalletManager.WalletInfo) (token : string) (amount : Q) :
  Spec.keeps Spec.calm (TradingBot.executeBuy e o wallet token amount).
Proof.
  unfold TradingBot.executeBuy.
  apply (keeps_try_catch _ _ calm_trans); [|intros; repeat calm_step].
  apply (keeps_bind _ _ calm_trans); [apply calm_log|intros _].
  apply (keeps_bind _ _ calm_trans); [apply calm_keypair|intros pk].
  repeat calm_step.
Qed.

Lemma calm_executeSell (e : Env) (o : TradingBot.TradeOutcome)
      (wallet : WalletManager.WalletInfo) (token : string) :
  Spec.keeps Spec.calm (TradingBot.executeSell e o wallet token).
Proof.
  unfold TradingBot.executeSell.
  apply (keeps_try_catch _ _ calm_trans); [|intros; repeat calm_step].
  apply (keeps_bind _ _ calm_trans); [apply calm_log|intros _].
  apply (keeps_bind _ _ calm_trans); [apply calm_keypair|intros pk].
  repeat calm_step.
Qed.

Lemma calm_waitForNextWallet (e : Env) (more stops : bool) :
  Spec.keeps Spec.calm (TradingBot.waitForNextWallet e more stops).
Proof. unfold TradingBot.waitForNextWallet. repeat calm_step. Qed.

Lemma calm_buyPhase (e : Env) (cn : TradingBot.CycleNet) (token : string)
      (ws : list WalletManager.WalletInfo) (i : nat) (acc : list bool) :
  Spec.keeps Spec.calm (TradingBot.buyPhase e cn token ws i acc).
Proof.
  revert i acc. induction ws as [|wallet ws IH]; intros i acc;
    cbn [TradingBot.buyPhase]; [repeat calm_step|].
  apply (keeps_bind _ _ calm_trans); [repeat calm_step|intros b].
  destruct (negb (TradingBot.isRunning b)); [repeat calm_step|].
  apply (keeps_bind _ _ calm_trans); [apply calm_log|intros _].
  apply (keeps_bind _ _ calm_trans);
    [unfold TradingBot.getWalletBalance; repeat calm_step|intros balance].
  apply (keeps_bind _ _ calm_trans); [apply calm_log|intros _].
  apply (keeps_bind _ _ calm_trans); [apply calm_executeBuy|intros bought].
  apply (keeps_bind _ _ calm_trans); [repeat calm_step|intros _].
  apply (keeps_bind _ _ calm_trans);
    [apply calm_waitForNextWallet|intros _].
  apply IH.
Qed.

Lemma calm_sellPhase (e : Env) (cn : TradingBot.CycleNet) (token : string)
      (ws : list WalletManager.WalletInfo) (i : nat) (acc : list bool) :
  Spec.keeps Spec.calm (TradingBot.sellPhase e cn token ws i acc).
Proof.
  revert i acc. induction ws as [|wallet ws IH]; intros i acc;
    cbn [TradingBot.sellPhase]; [repeat calm_step|].
  apply (keeps_bind _ _ calm_trans); [repeat calm_step|intros b].
  destruct (negb (TradingBot.isRunning b)); [repeat calm_step|].
  apply (keeps_bind _ _ calm_trans); [apply calm_log|intros _].
  apply (keeps_bind _ _ calm_trans); [apply calm_executeSell|intros sold].
  apply (keeps_bind _ _ calm_trans); [repeat calm_step|intros _].
  apply (keeps_bind _ _ calm_trans);
    [apply calm_waitForNextWallet|intros _].
  apply IH.
Qed.

Lemma calm_countComplete (e : Env) (buys sells : list bool) (n i : nat)
      (acc : Z) :
  Spec.keeps Spec.calm (TradingBot.countComplete e buys sells n i acc).
Proof.
  revert i acc. induction n as [|n IH]; intros i acc;
    cbn [TradingBot.countComplete]; [repeat calm_step|].
  destruct (JS.truthy_at buys i && JS.truthy_at sells i);
    (apply (keeps_bind _ _ calm_trans); [apply calm_log|intros _; apply IH]).
Qed.

Lemma calm_pause (e : Env) (level message : string) (stops : bool)
      (b : TradingBot.Bot) :
  Spec.keeps Spec.calm
    (if TradingBot.isRunning b
     then TradingBot.log e level message ;;; TradingBot.await_point e stops
     else ret tt).
Proof. repeat calm_step. Qed.

Ltac advance Heq Hk :=
  match type of Heq with
  | ?m ?s = (Ok _, ?s') =>
      let K := fresh "K" in
      assert (K : Spec.calm s s')
        by (let K' := fresh in
            pose proof (Hk s) as K'; rewrite Heq in K'; exact K');
      rewrite (bind_Ok _ _ _ _ _ Heq); cbv beta;
      match goal with
      | Hc : Spec.calm ?b0 s |- _ =>
          apply (calm_trans _ _ _ Hc) in K; clear Hc; rename K into Hc
      end
  end.

Ltac advance_log e :=
  match goal with
  | |- context [bind (TradingBot.log e ?l ?m) _ ?s] =>
      let H := fresh "Hlog" in
      assert (H := log_run e l m s);
      advance H (calm_log e l m); clear H
  end.

(** One pass through the loop body never throws; it counts as one
    cycle, keeps the configuration, the workers and the store, and
    leaves a success rate computed from a number of trades between zero
    and the number of workers. *)
Lemma tradingIteration_once (e : Env) (cn : TradingBot.CycleNet)
      (token : string) (b : TradingBot.Bot) :
  exists b' trades,
    TradingBot.tradingIteration e cn token b = (tt, b') /\
    TradingBot.cyclesCompleted (TradingBot.stats b')
    = (TradingBot.cyclesCompleted (TradingBot.stats b) + 1)%Z /\
    (TradingBot.isRunning b' = true -> TradingBot.isRunning b = true) /\
    TradingBot.config b' = TradingBot.config b /\
    TradingBot.subWallets b' = TradingBot.subWallets b /\
    TradingBot.startTime (TradingBot.stats b')
    = TradingBot.startTime (TradingBot.stats b) /\
    TradingBot.activeWallets (TradingBot.stats b')
    = TradingBot.activeWallets (TradingBot.stats b) /\
    files (TradingBot.bworld b') = files (TradingBot.bworld b) /\
    (trades <= List.length (TradingBot.subWallets b))%nat /\
    TradingBot.successRate (TradingBot.stats b')
    = (if (0 <? List.length (TradingBot.subWallets b))%nat
       then (inject_Z (Z.of_nat trades)
             / inject_Z (Z.of_nat (List.length (TradingBot.subWallets b))))
            * (100 # 1)
       else 0).
Proof.
  unfold TradingBot.tradingIteration.
  match goal with
  | |- context [try_total ?body ?h b] =>
      set (body0 := body); set (handler := h)
  end.
  assert (Hc : Spec.calm b b) by apply calm_refl.
  assert (Hbody : exists b' trades,
             body0 b = (Ok tt, b') /\
             TradingBot.cyclesCompleted (TradingBot.stats b')
             = (TradingBot.cyclesCompleted (TradingBot.stats b) + 1)%Z /\
             (TradingBot.isRunning b' = true -> TradingBot.isRunning b = true) /\
             TradingBot.config b' = TradingBot.config b /\
             TradingBot.subWallets b' = TradingBot.subWallets b /\
             TradingBot.startTime (TradingBot.stats b')
             = TradingBot.startTime (TradingBot.stats b) /\
             TradingBot.activeWallets (TradingBot.stats b')
             = TradingBot.activeWallets (TradingBot.stats b) /\
             files (TradingBot.bworld b') = files (TradingBot.bworld b) /\
             (trades <= List.length (TradingBot.subWallets b))%nat /\
             TradingBot.successRate (TradingBot.stats b')
             = (if (0 <? List.length (TradingBot.subWallets b))%nat
                then (inject_Z (Z.of_nat trades)
                      / inject_Z (Z.of_nat
                                    (List.length (TradingBot.subWallets b))))
                     * (100 # 1)
                else 0)).
  { unfold body0. advance_log e. step_get.
    match goal with
    | |- context [bind (TradingBot.buyPhase e cn token ?ws 0 []) _ ?s] =>
        destruct (buyPhase_run e cn token ws 0 [] s) as (b1 & H1 & _ & _);
        advance H1 (calm_buyPhase e cn token ws 0 [])
    end.
    step_get.
    destruct (pause_run e "info" "Waiting 5 seconds before selling..."
                        (TradingBot.cn_stop_cooldown cn) b1)
      as (b2 & H2 & _).
    advance H2 (calm_pause e "info" "Waiting 5 seconds before selling..."
                           (TradingBot.cn_stop_cooldown cn) b1).
    advance_log e. step_get.
    match goal with
    | |- context [bind (TradingBot.sellPhase e cn token ?ws 0 []) _ ?s] =>
        destruct (sellPhase_run e cn token ws 0 [] s) as (b3 & H3 & _ & _);
        advance H3 (calm_sellPhase e cn token ws 0 [])
    end.
    step_get.
    match goal with
    | |- context [TradingBot.subWallets ?s] =>
        lazymatch s with
        | b => fail
        | _ => replace (TradingBot.subWallets s) with (TradingBot.subWallets b)
            by (symmetry; exact (proj1 (proj2 (proj2 Hc))))
        end
    end.
    set (n := List.length (TradingBot.subWallets b)).
    match goal with
    | |- context [bind (TradingBot.countComplete e ?bs ?ss n 0 0%Z) _ ?s] =>
        destruct (countComplete_run e bs ss n 0 0%Z s) as (b4 & H4 & _);
        set (trades := List.length
                         (List.filter
                            (fun j => nth j bs false && nth j ss false)
                            (seq 0 n))) in *;
        assert (Hcount : (trades <= n)%nat)
          by (etransitivity; [apply filter_length_le
                             |rewrite length_seq; reflexivity]);
        clearbody trades;
        advance H4 (calm_countComplete e bs ss n 0 0%Z)
    end.
    clear H1 H2 H3 H4.
    match goal with
    | |- context [bind (TradingBot.inWorld (date_now e)) _ ?s] =>
        let H := fresh "Hnow" in
        assert (H := now_run e s); advance H (calm_now e); clear H
    end.
    match goal with
    | |- context [bind (TradingBot.inWorld (date_now e)) _ ?s] =>
        let H := fresh "Hnow" in
        assert (H := now_run e s); advance H (calm_now e); clear H
    end.
    step_get.
    match goal with
    | |- context [TradingBot.record_cycle _
                    (List.length (TradingBot.subWallets ?s))] =>
        replace (TradingBot.subWallets s) with (TradingBot.subWallets b)
          by (symmetry; exact (proj1 (proj2 (proj2 Hc))))
    end.
    fold n. step_modify.
    match goal with
    | |- context [bind (TradingBot.log e _ _) _ ?s] =>
        set (b5 := s); assert (Hc5 : Spec.calm b5 b5) by apply calm_refl
    end.
    assert (Hfacts :
              TradingBot.cyclesCompleted (TradingBot.stats b5)
              = (TradingBot.cyclesCompleted (TradingBot.stats b) + 1)%Z /\
              (TradingBot.isRunning b5 = true ->
               TradingBot.isRunning b = true) /\
              TradingBot.config b5 = TradingBot.config b /\
              TradingBot.subWallets b5 = TradingBot.subWallets b /\
              TradingBot.startTime (TradingBot.stats b5)
              = TradingBot.startTime (TradingBot.stats b) /\
              TradingBot.activeWallets (TradingBot.stats b5)
              = TradingBot.activeWallets (TradingBot.stats b) /\
              files (TradingBot.bworld b5) = files (TradingBot.bworld b) /\
              TradingBot.successRate (TradingBot.stats b5)
              = (if (0 <? n)%nat
                 then (inject_Z (Z.of_nat trades) / inject_Z (Z.of_nat n))
                      * (100 # 1)
                 else 0)).
    { destruct Hc as (c0 & c1 & c2 & c3 & c4 & c5 & c6 & c7 & c8 & c9).
      unfold b5.
      cbn [TradingBot.record_cycle TradingBot.set_stats TradingBot.stats
           TradingBot.cyclesCompleted TradingBot.isRunning TradingBot.config
           TradingBot.subWallets TradingBot.startTime
           TradingBot.activeWallets TradingBot.bworld
           TradingBot.successRate] in *.
      rewrite Z.add_0_l.
      repeat split; try congruence. exact c0. }
    clearbody b5. clear Hc.
    advance_log e.
    match goal with
    | |- context [bind (TradingBot.emit ?ev) _ ?s] =>
        let H := fresh "Hemit" in
        assert (H := emit_run ev s); advance H (calm_emit ev); clear H
    end.
    step_get.
    match goal with
    | |- (if TradingBot.isRunning ?s then _ else _) ?s' = _ /\ _ =>
        idtac
    | |- _ => idtac
    end.
    match goal with
    | |- context [(if TradingBot.isRunning ?s then _ else _) ?s] =>
        destruct (pause_run e "info"
                    "Waiting 3 seconds before next continuous cycle..."
                    (TradingBot.cn_stop_pause cn) s) as (b6 & H6 & _);
        assert (Hc6 : Spec.calm s b6)
          by (let K := fresh in
              pose proof (calm_pause e "info"
                            "Waiting 3 seconds before next continuous cycle..."
                            (TradingBot.cn_stop_pause cn) s s) as K;
              rewrite H6 in K; exact K);
        apply (calm_trans _ _ _ Hc5) in Hc6
    end.
    exists b6, trades. split; [exact H6|].
    destruct Hfacts as (f0 & f1 & f2 & f3 & f4 & f5 & f6 & f7).
    destruct Hc6 as (c0 & c1 & c2 & c3 & c4 & c5 & c6 & c7 & c8 & c9).
    repeat split; try congruence. auto. }
  destruct Hbody as (b' & trades & Hb & Hfacts).
  exists b', trades. split; [|exact Hfacts].
  exact (try_total_Ok _ _ _ _ _ Hb).
Qed.

Lemma percentage_bounds (trades n : nat) :
  (trades <= n)%nat -> (0 < n)%nat ->
  0 <= (inject_Z (Z.of_nat trades) / inject_Z (Z.of_nat n)) * (100 # 1)
  /\ (inject_Z (Z.of_nat trades) / inject_Z (Z.of_nat n)) * (100 # 1)
     <= 100 # 1.
Proof.
  intros Hle Hpos.
  assert (Hn : 0 < inject_Z (Z.of_nat n)).
  { change 0 with (inject_Z 0). rewrite <- Zlt_Qlt. lia. }
  assert (Ht : 0 <= inject_Z (Z.of_nat trades)).
  { change 0 with (inject_Z 0). rewrite <- Zle_Qle. lia. }
  assert (Htn : inject_Z (Z.of_nat trades) <= inject_Z (Z.of_nat n)).
  { rewrite <- Zle_Qle. lia. }
  assert (Hq0 : 0 <= inject_Z (Z.of_nat trades) / inject_Z (Z.of_nat n)).
  { apply Qle_shift_div_l; [exact Hn|]. now rewrite Qmult_0_l. }
  assert (Hq1 : inject_Z (Z.of_nat trades) / inject_Z (Z.of_nat n) <= 1).
  { apply Qle_shift_div_r; [exact Hn|]. now rewrite Qmult_1_l. }
  split; lra.
Qed.

(** X20 -- One pass through the body of the trading loop counts as exactly one
    cycle, whatever the venue answers and whether or not a stop command
    arrives: it never throws, never restarts a stopped bot, keeps the
    configuration, the workers, the start time, the number of active
    wallets and the snapshot directory, and leaves a success rate
    between 0 and 100. *)
Theorem iteration_counts_once_and_keeps_the_setup (e : Env)
        (cn : TradingBot.CycleNet) (token : string) (b : TradingBot.Bot) :
  let after := snd (TradingBot.tradingIteration e cn token b) in
  TradingBot.cyclesCompleted (TradingBot.stats after)
  = (TradingBot.cyclesCompleted (TradingBot.stats b) + 1)%Z /\
  (TradingBot.isRunning after = true -> TradingBot.isRunning b = true) /\
  TradingBot.config after = TradingBot.config b /\
  TradingBot.subWallets after = TradingBot.subWallets b /\
  TradingBot.startTime (TradingBot.stats after)
  = TradingBot.startTime (TradingBot.stats b) /\
  TradingBot.activeWallets (TradingBot.stats after)
  = TradingBot.activeWallets (TradingBot.stats b) /\
  files (TradingBot.bworld after) = files (TradingBot.bworld b) /\
  0 <= TradingBot.successRate (TradingBot.stats after) /\
  TradingBot.successRate (TradingBot.stats after) <= 100 # 1.
Proof.
  cbv zeta.
  destruct (tradingIteration_once e cn token b)
    as (b' & trades & Hrun & Hy & Hr & Hc & Hw & Hs & Ha & Hf & Hle & Hrate).
  rewrite Hrun. cbn [snd].
  repeat (split; [assumption|]).
  rewrite Hrate.
  destruct (0 <? List.length (TradingBot.subWallets b))%nat eqn:Hpos.
  - apply Nat.ltb_lt in Hpos. now apply percentage_bounds.
  - split; [apply Qle_refl | discriminate].
Qed.

Lemma tradingLoop_counts (e : Env) (cn : nat -> TradingBot.CycleNet)
      (token : string) (rounds k : nat) (b : TradingBot.Bot) :
  let after := TradingBot.tradingLoop e cn token rounds k b in
  (TradingBot.isRunning after = true -> TradingBot.isRunning b = true) /\
  TradingBot.config after = TradingBot.config b /\
  TradingBot.subWallets after = TradingBot.subWallets b /\
  files (TradingBot.bworld after) = files (TradingBot.bworld b) /\
  (TradingBot.cyclesCompleted (TradingBot.stats b)
   <= TradingBot.cyclesCompleted (TradingBot.stats after)
   <= TradingBot.cyclesCompleted (TradingBot.stats b) + Z.of_nat rounds)%Z /\
  (TradingBot.isRunning after = true ->
   TradingBot.cyclesCompleted (TradingBot.stats after)
   = (TradingBot.cyclesCompleted (TradingBot.stats b) + Z.of_nat rounds)%Z).
Proof.
  cbv zeta. revert k b. induction rounds as [|rounds IH]; intros k b;
    cbn [TradingBot.tradingLoop].
  - repeat split; auto; lia.
  - destruct (TradingBot.isRunning b) eqn:Hrun.
    + destruct (tradingIteration_once e (cn k) token b)
        as (b' & trades & Hit & Hy & Hr & Hc & Hw & _ & _ & Hf & _).
      rewrite Hit. cbn [snd].
      destruct (IH (S k) b') as (Ir & Ic & Iw & If & Iy & Ie).
      repeat split; try congruence; try lia.
      intros Hafter. rewrite (Ie Hafter). lia.
    + rewrite Hrun. repeat split; auto; try lia; discriminate.
Qed.

(** X21 -- The trading loop ends only by being stopped.  Run for at most
    [rounds] passes, [executeTradingCycle] does nothing on a bot that is
    not running or has no configuration; otherwise it never restarts a
    stopped bot, keeps the configuration, the workers and the snapshot
    directory, completes at most [rounds] cycles, and completes exactly
    [rounds] whenever the bot is still running afterwards. *)
Theorem trading_loop_ends_only_by_being_stopped (e : Env)
        (cn : nat -> TradingBot.CycleNet) (rounds : nat)
        (b : TradingBot.Bot) :
  let after := TradingBot.executeTradingCycle e cn rounds b in
  (TradingBot.isRunning b = false \/ TradingBot.config b = None ->
   after = b) /\
  (TradingBot.isRunning after = true -> TradingBot.isRunning b = true) /\
  TradingBot.config after = TradingBot.config b /\
  TradingBot.subWallets after = TradingBot.subWallets b /\
  files (TradingBot.bworld after) = files (TradingBot.bworld b) /\
  (TradingBot.cyclesCompleted (TradingBot.stats b)
   <= TradingBot.cyclesCompleted (TradingBot.stats after)
   <= TradingBot.cyclesCompleted (TradingBot.stats b) + Z.of_nat rounds)%Z /\
  (TradingBot.isRunning after = true -> TradingBot.config b <> None ->
   TradingBot.cyclesCompleted (TradingBot.stats after)
   = (TradingBot.cyclesCompleted (TradingBot.stats b) + Z.of_nat rounds)%Z).
Proof.
  cbv zeta. unfold TradingBot.executeTradingCycle.
  destruct (TradingBot.isRunning b) eqn:Hrun;
    [destruct (TradingBot.config b) as [cfg|] eqn:Hcfg|].
  - unfold try_total. rewrite log_run.
    match goal with
    | |- context [TradingBot.tradingLoop e cn ?tk rounds 0 ?s] =>
        destruct (tradingLoop_counts e cn tk rounds 0 s)
          as (Ir & Ic & Iw & If & Iy & Ie)
    end.
    cbn [TradingBot.isRunning TradingBot.config TradingBot.subWallets
         TradingBot.stats TradingBot.bworld TradingBot.set_bworld
         Spec.logged files] in *.
    split; [intros [H|H]; congruence|].
    repeat split; try congruence; try lia; auto.
  - repeat split; auto; try lia; intros; congruence.
  - repeat split; auto; try lia; intros; congruence.
Qed.

Lemma offline_refl (b : TradingBot.Bot) : Spec.offline b b.
Proof. reflexivity. Qed.

Lemma offline_trans (b1 b2 b3 : TradingBot.Bot) :
  Spec.offline b1 b2 -> Spec.offline b2 b3 -> Spec.offline b1 b3.
Proof. unfold Spec.offline. congruence. Qed.

Lemma offline_log (e : Env) (level message : string) :
  Spec.keeps Spec.offline (TradingBot.log e level message).
Proof.
  intros b. rewrite log_run. unfold Spec.offline. cbn.
  rewrite netCalls_app. cbn. apply app_nil_r.
Qed.

Lemma offline_emit (event : string) :
  Spec.keeps Spec.offline (TradingBot.emit event).
Proof.
  intros b. rewrite emit_run. unfold Spec.offline. cbn.
  rewrite netCalls_app. cbn. apply app_nil_r.
Qed.

Lemma offline_schedule (task : string) :
  Spec.keeps Spec.offline (TradingBot.schedule task).
Proof.
  intros b. rewrite schedule_run. unfold Spec.offline. cbn.
  rewrite netCalls_app. cbn. apply app_nil_r.
Qed.

Lemma offline_stop (e : Env) (b : TradingBot.Bot) :
  Spec.offline b (snd (TradingBot.stop e b)).
Proof.
  destruct b as [run cfg st iv sv ws w]. unfold Spec.offline.
  destruct iv, sv, cfg; cbn; rewrite !netCalls_app; cbn;
    now rewrite ?app_nil_r.
Qed.

Lemma offline_await_point (e : Env) (stops : bool) :
  Spec.keeps Spec.offline (TradingBot.await_point e stops).
Proof.
  unfold TradingBot.await_point. destruct stops.
  - apply keeps_total. intros b. assert (H := offline_stop e b).
    now destruct (TradingBot.stop e b).
  - apply (keeps_ret _ _ offline_refl).
Qed.

Ltac offline_step :=
  first
    [ apply (keeps_bind _ _ offline_trans); [|intros]
    | apply (keeps_try_catch _ _ offline_trans); [|intros]
    | apply (keeps_ret _ _ offline_refl)
    | apply (keeps_throw _ _ offline_refl)
    | apply (keeps_get _ _ offline_refl)
    | apply offline_log
    | apply offline_emit
    | apply offline_schedule
    | apply offline_await_point
    | apply keeps_modify; intros; reflexivity
    | match goal with
      | |- Spec.keeps _ (if ?c then _ else _) => destruct c
      end ].









(** After a start that failed at the token check the clean-up starts no
    sale: the calls of the recovery follow those of the failed start. *)
Example cleanup_with_a_bad_token_starts_no_sale :
  Spec.netCalls
    (trace (TradingBot.bworld
              (snd (TradingBot.cleanupFundsInBackground
                      Examples.pickyEnv (fun _ => Examples.swapOk)
                      (Examples.payingScript (1 # 2))
                      Examples.badTokenBot))))
  = Spec.netCalls (trace (TradingBot.bworld Examples.badTokenBot))
    ++ [NetSellTokens "pub:a"; NetGetBalance "A"; NetGetBlockhash;
        NetSendTransfer "pub:a" (inject_Z 499999000); NetConfirm "sig0";
        NetSellTokens "pub:b"; NetGetBalance "B"; NetGetBlockhash;
        NetSendTransfer "pub:b" (inject_Z 499999000); NetConfirm "sig1";
        NetSellTokens "pub:c"; NetGetBalance "C"; NetGetBlockhash;
        NetSendTransfer "pub:c" (inject_Z 499999000); NetConfirm "sig2"]%string.
Proof. vm_compute. reflexivity. Qed.

(* ================================================================== *)
(** * The readiness poll and the empty request *)
(* ================================================================== *)

Lemma Qltb_lt (a b : Q) : TradingBot.Qltb a b = true <-> a < b.
Proof.
  unfold TradingBot.Qltb. rewrite negb_true_iff. split.
  - intros H. apply Qnot_le_lt. intros Hle. apply Qle_bool_iff in Hle.
    congruence.
  - intros H. destruct (Qle_bool b a) eqn:E; [|reflexivity].
    apply Qle_bool_iff in E. apply Qlt_not_le in H. contradiction.
Qed.

Lemma Qltb_ge (a b : Q) : TradingBot.Qltb a b = false <-> b <= a.
Proof.
  unfold TradingBot.Qltb. rewrite negb_false_iff. apply Qle_bool_iff.
Qed.

(** One pass of the readiness check polls the workers in order and
    stops at the first one that is short. *)
Lemma allWalletsFunded_run (e : Env) (answers : string -> Q) (amount : Q)
      (ws : list WalletManager.WalletInfo) (b : TradingBot.Bot) :
  exists ready k b',
    TradingBot.allWalletsFunded e answers amount ws b = (Ok ready, b') /\
    Spec.polledUpTo answers amount ws k /\
    Spec.netCalls (trace (TradingBot.bworld b'))
    = Spec.netCalls (trace (TradingBot.bworld b))
      ++ map NetGetBalance (firstn k (map WalletManager.publicKey ws)).
Proof.
  revert b. induction ws as [|wallet ws IH]; intros b;
    cbn [TradingBot.allWalletsFunded].
  - exists true, 0%nat, b. cbn. rewrite app_nil_r.
    split; [reflexivity|]. split; [|reflexivity].
    split; [lia|]. split; [intros j w Hj; lia | cbn; lia].
  - step (getWalletBalance_run (answers (WalletManager.publicKey wallet))
                               (WalletManager.publicKey wallet) b).
    destruct (TradingBot.Qltb (answers (WalletManager.publicKey wallet))
                              amount) eqn:Hshort.
    + step_log. exists false, 1%nat. eexists. split; [reflexivity|].
      split.
      * split; [cbn; lia|]. split; [intros j w Hj; lia|].
        intros _. split; [lia|]. exists wallet. split; [reflexivity|].
        now apply Qltb_lt.
      * cbn. rewrite !netCalls_app. cbn. now rewrite app_nil_r.
    + match goal with
      | |- context [TradingBot.allWalletsFunded e answers amount ws ?s] =>
          destruct (IH s) as (ready & k & b' & Hrun & Hk & Hcalls)
      end.
      exists ready, (S k), b'. split; [exact Hrun|].
      destruct Hk as (Hle & Hbefore & Hstop).
      split.
      * split; [cbn; lia|]. split.
        -- intros [|j] w Hj Hnth; cbn in Hnth.
           ++ injection Hnth as <-. now apply Qltb_ge.
           ++ apply (Hbefore j w); [lia | exact Hnth].
        -- intros Hlt. cbn [List.length] in Hlt.
           destruct (Hstop ltac:(lia)) as (Hpos & w & Hnth & Hw).
           split; [lia|]. exists w. split; [|exact Hw].
           cbn [Nat.pred]. destruct k as [|k]; [lia|]. exact Hnth.
      * rewrite Hcalls. cbn. rewrite netCalls_app. cbn.
        now rewrite <- app_assoc.
Qed.

(** On a bot that is not running the poll makes one pass. *)
Lemma pollFunds_not_running (e : Env) (sn : TradingBot.StartNet) (amount : Q)
      (fuel attempts : nat) (b : TradingBot.Bot) :
  TradingBot.isRunning b = false ->
  exists ready k b',
    TradingBot.pollFunds e sn amount (S fuel) attempts b = (Ok ready, b') /\
    Spec.polledUpTo (TradingBot.sn_balance sn attempts) amount
                    (TradingBot.subWallets b) k /\
    Spec.netCalls (trace (TradingBot.bworld b'))
    = Spec.netCalls (trace (TradingBot.bworld b))
      ++ map NetGetBalance
             (firstn k (map WalletManager.publicKey (TradingBot.subWallets b))).
Proof.
  intros Hrun. cbn [TradingBot.pollFunds]. step_get.
  destruct (allWalletsFunded_run e (TradingBot.sn_balance sn attempts) amount
              (TradingBot.subWallets b) b)
    as (ready & k & b' & Hpass & Hk & Hcalls).
  assert (Hkeep := allWalletsFunded_keeps
                     e (TradingBot.sn_balance sn attempts) amount
                     (TradingBot.subWallets b) b).
  rewrite Hpass in Hkeep. cbn [snd] in Hkeep.
  destruct Hkeep as (((Hr & _) & _) & _).
  step Hpass. step_get. rewrite Hr, Hrun, andb_false_r.
  exists ready, k, b'. auto.
Qed.

(** X23 -- Called on a bot that is not running -- as [start] calls it --
    [distributeFunds] requests the distribution once and then calls
    [getWalletBalance] in a single pass, with the answers of the first
    attempt: for the workers in order, up to and including the first
    one that is reported to hold less than the buy amount, and for all
    of them when there is none; it neither waits nor retries.  It
    throws exactly when the transfer service reports failure or names
    no funded address, and then [getWalletBalance] is not called. *)
Theorem readiness_poll_is_a_single_pass (e : Env) (sn : TradingBot.StartNet)
        (cfg : TradingBot.TradingConfig) (b : TradingBot.Bot) :
  TradingBot.config b = Some cfg ->
  TradingBot.isRunning b = false ->
  let out := TradingBot.distributeFunds e sn b in
  let funded :=
    TradingBot.d_success (TradingBot.sn_distribute sn) = true /\
    exists first others,
      TradingBot.d_fundedWallets (TradingBot.sn_distribute sn)
      = Some (first :: others) in
  (fst out = Ok tt <-> funded) /\
  exists k,
    (k <= List.length (TradingBot.subWallets b))%nat /\
    (fst out <> Ok tt -> k = 0%nat) /\
    (fst out = Ok tt ->
     Spec.polledUpTo (TradingBot.sn_balance sn 0) (TradingBot.buyAmount cfg)
                     (TradingBot.subWallets b) k) /\
    Spec.netCalls (trace (TradingBot.bworld (snd out)))
    = Spec.netCalls (trace (TradingBot.bworld b))
      ++ NetDistribute
           (map WalletManager.publicKey (TradingBot.subWallets b))
           (TradingBot.buyAmount cfg + (1 # 100000))
         :: map NetGetBalance
                (firstn k (map WalletManager.publicKey
                               (TradingBot.subWallets b))).
Proof.
  intros Hcfg Hrun. cbv zeta. unfold TradingBot.distributeFunds.
  assert (Hout : exists r k b',
             (b0 <- get ;;
              match TradingBot.config b0 with
              | None => ret tt
              | Some cfg0 =>
                  TradingBot.log e "info" "Distributing funds to sub-wallets..." ;;;
                  TradingBot.net
                    (NetDistribute
                       (map WalletManager.publicKey (TradingBot.subWallets b0))
                       (TradingBot.buyAmount cfg0 + (1 # 100000))) ;;;
                  match TradingBot.d_success (TradingBot.sn_distribute sn),
                        TradingBot.d_fundedWallets (TradingBot.sn_distribute sn)
                  with
                  | true, Some (fundedWallet :: others) =>
                      TradingBot.log e "success" "Distributed SOL to sub-wallets" ;;;
                      (if (List.length (fundedWallet :: others)
                           <? List.length (TradingBot.subWallets b0))%nat
                       then TradingBot.log e "info" "Note: wallets funding failed"
                       else ret tt) ;;;
                      b1 <- get ;;
                      (if TradingBot.isRunning b1
                       then TradingBot.log
                              e "info"
                              "Waiting for funds to arrive in sub-wallets..."
                       else ret tt) ;;;
                      allWalletsReady <-
                        TradingBot.pollFunds e sn (TradingBot.buyAmount cfg0)
                                             TradingBot.maxAttempts 0 ;;
                      if allWalletsReady
                      then TradingBot.log
                             e "success" "All sub-wallets have received funds"
                      else TradingBot.log
                             e "warning"
                             "Some wallets may not have received all funds"
                  | _, _ => throw "Fund distribution failed"
                  end
              end) b = (r, b') /\
             (r = Ok tt <->
              TradingBot.d_success (TradingBot.sn_distribute sn) = true /\
              exists first others,
                TradingBot.d_fundedWallets (TradingBot.sn_distribute sn)
                = Some (first :: others)) /\
             (k <= List.length (TradingBot.subWallets b))%nat /\
             (r <> Ok tt -> k = 0%nat) /\
             (r = Ok tt ->
              Spec.polledUpTo (TradingBot.sn_balance sn 0)
                              (TradingBot.buyAmount cfg)
                              (TradingBot.subWallets b) k) /\
             Spec.netCalls (trace (TradingBot.bworld b'))
             = Spec.netCalls (trace (TradingBot.bworld b))
               ++ NetDistribute
                    (map WalletManager.publicKey (TradingBot.subWallets b))
                    (TradingBot.buyAmount cfg + (1 # 100000))
                  :: map NetGetBalance
                         (firstn k (map WalletManager.publicKey
                                        (TradingBot.subWallets b)))).
  { step_get. rewrite Hcfg. step_log.
    match goal with
    | |- context [bind (TradingBot.net ?c) ?k ?s] =>
        change (bind (TradingBot.net c) k s)
          with (k tt (TradingBot.set_bworld
                        (Spec.recorded (Net c) (TradingBot.bworld s)) s));
        cbv beta
    end.
    match goal with
    | |- context [?m ?s = _] =>
        match type of s with
        | TradingBot.Bot =>
            set (b1 := s);
            assert (H1 : Spec.netCalls (trace (TradingBot.bworld b1))
                         = Spec.netCalls (trace (TradingBot.bworld b))
                           ++ [NetDistribute
                                 (map WalletManager.publicKey
                                      (TradingBot.subWallets b))
                                 (TradingBot.buyAmount cfg + (1 # 100000))])
              by (unfold b1; cbn; rewrite !netCalls_app; cbn;
                  now rewrite app_nil_r);
            assert (Hr1 : TradingBot.isRunning b1 = false) by exact Hrun;
            assert (Hw1 : TradingBot.subWallets b1 = TradingBot.subWallets b)
              by reflexivity;
            clearbody b1
        end
    end.
    assert (Hfail : exists r k b',
               @throw TradingBot.Bot unit "Fund distribution failed" b1
               = (r, b') /\
               r <> Ok tt /\ k = 0%nat /\
               Spec.netCalls (trace (TradingBot.bworld b'))
               = Spec.netCalls (trace (TradingBot.bworld b))
                 ++ NetDistribute
                      (map WalletManager.publicKey (TradingBot.subWallets b))
                      (TradingBot.buyAmount cfg + (1 # 100000))
                    :: map NetGetBalance
                           (firstn k (map WalletManager.publicKey
                                          (TradingBot.subWallets b)))).
    { eexists _, 0%nat, _. split; [reflexivity|].
      split; [discriminate|]. split; [reflexivity|]. exact H1. }
    destruct (TradingBot.d_success (TradingBot.sn_distribute sn)) eqn:Hd.
    2:{ destruct Hfail as (r & k & b' & Hrun' & Hne & -> & Hcalls).
        exists r, 0%nat, b'. split; [exact Hrun'|].
        split; [split; [contradiction | intros [? _]; discriminate]|].
        split; [lia|]. split; [reflexivity|].
        split; [contradiction | exact Hcalls]. }
    destruct (TradingBot.d_fundedWallets (TradingBot.sn_distribute sn))
      as [[|first others]|] eqn:Hf.
    1,3: destruct Hfail as (r & k & b' & Hrun' & Hne & -> & Hcalls);
      exists r, 0%nat, b'; (split; [exact Hrun'|]);
      (split; [split; [contradiction
                      | intros (_ & x & y & Hxy); discriminate]|]);
      (split; [lia|]); (split; [reflexivity|]);
      (split; [contradiction | exact Hcalls]).
    clear Hfail.
    step_log.
    match goal with
    | |- context [bind (if ?c then TradingBot.log e ?l ?m else ret tt) ?k ?s] =>
        assert (Hnote : exists w,
                   (if c then TradingBot.log e l m else ret tt) s
                   = (Ok tt, TradingBot.set_bworld w b1) /\
                   Spec.netCalls (trace w)
                   = Spec.netCalls (trace (TradingBot.bworld b1)))
    end.
    { match goal with
      | |- context [if ?c then _ else _] => destruct c
      end.
      - rewrite log_run. eexists. split; [reflexivity|].
        cbn. rewrite !netCalls_app. cbn. now rewrite !app_nil_r.
      - eexists. split; [unfold ret; destruct b1; reflexivity|].
        cbn. rewrite !netCalls_app. cbn. now rewrite !app_nil_r. }
    destruct Hnote as (w2 & Hnote & Hcalls2). step Hnote. step_get.
    cbn [TradingBot.isRunning TradingBot.set_bworld]. rewrite Hr1.
    rewrite (bind_Ok (ret tt) _ _ _ tt eq_refl). cbv beta.
    change TradingBot.maxAttempts with (S 9).
    match goal with
    | |- context [bind (TradingBot.pollFunds e sn ?am 10 0) _ ?s] =>
        destruct (pollFunds_not_running e sn am 9 0 s Hr1)
          as (ready & k & b3 & Hpass & Hk & Hcalls3);
        step Hpass
    end.
    cbn [TradingBot.subWallets TradingBot.set_bworld TradingBot.bworld]
      in Hk, Hcalls3.
    assert (Hlog : exists l m,
               (if ready
                then TradingBot.log
                       e "success" "All sub-wallets have received funds"
                else TradingBot.log
                       e "warning"
                       "Some wallets may not have received all funds") b3
               = (Ok tt, TradingBot.set_bworld
                           (Spec.logged e l m (TradingBot.bworld b3)) b3)).
    { destruct ready; eexists _, _; apply log_run. }
    destruct Hlog as (l & m & Hlog). rewrite Hlog.
    exists (Ok tt), k. eexists. split; [reflexivity|].
    split; [split; [intros _; split; [reflexivity | eauto] | reflexivity]|].
    rewrite Hw1 in *. split; [exact (proj1 Hk)|].
    split; [intros Hne; contradiction|].
    split; [intros _; exact Hk|].
    cbn [TradingBot.bworld TradingBot.set_bworld Spec.logged trace] in *.
    rewrite netCalls_app, Hcalls3, Hcalls2, H1.
    cbn. rewrite !app_nil_r, <- !app_assoc. reflexivity. }
  destruct Hout as (r & k & b' & Hrun' & Hiff & Hk & Hzero & Hpoll & Hcalls).
  rewrite Hrun'. cbn [fst snd]. split; [exact Hiff|].
  exists k. auto.
Qed.

(** A concrete run: the stopped bot of the examples with workers [A],
    [B], [C], the balance of [B] being reported as [0]. *)
Lemma readiness_poll_witness :
  let out := TradingBot.distributeFunds (Examples.env true) Examples.shortNet
                                        Examples.stoppedBot in
  let funded :=
    TradingBot.d_success (TradingBot.sn_distribute Examples.shortNet) = true /\
    exists first others,
      TradingBot.d_fundedWallets (TradingBot.sn_distribute Examples.shortNet)
      = Some (first :: others) in
  (fst out = Ok tt <-> funded) /\
  exists k,
    (k <= List.length (TradingBot.subWallets Examples.stoppedBot))%nat /\
    (fst out <> Ok tt -> k = 0%nat) /\
    (fst out = Ok tt ->
     Spec.polledUpTo (TradingBot.sn_balance Examples.shortNet 0)
                     (TradingBot.buyAmount Examples.goodConfig)
                     (TradingBot.subWallets Examples.stoppedBot) k) /\
    Spec.netCalls (trace (TradingBot.bworld (snd out)))
    = Spec.netCalls (trace (TradingBot.bworld Examples.stoppedBot))
      ++ NetDistribute
           (map WalletManager.publicKey
                (TradingBot.subWallets Examples.stoppedBot))
           (TradingBot.buyAmount Examples.goodConfig + (1 # 100000))
         :: map NetGetBalance
                (firstn k (map WalletManager.publicKey
                               (TradingBot.subWallets Examples.stoppedBot))).
Proof.
  apply (readiness_poll_is_a_single_pass
           (Examples.env true) Examples.shortNet Examples.goodConfig
           Examples.stoppedBot).
  - vm_compute. reflexivity.
  - vm_compute. reflexivity.
Defined.

(** In that run the pass stops at [B]: the balance of [C] is not
    queried, and nothing is queried a second time. *)
Example readiness_poll_stops_at_the_first_short_worker :
  Spec.netCalls
    (trace (TradingBot.bworld
              (snd (TradingBot.distributeFunds
                      (Examples.env true) Examples.shortNet
                      Examples.stoppedBot))))
  = Spec.netCalls (trace (TradingBot.bworld Examples.stoppedBot))
    ++ [NetDistribute ["A"; "B"; "C"] ((1 # 100) + (1 # 100000));
        NetGetBalance "A"; NetGetBalance "B"]%string.
Proof. vm_compute. reflexivity. Qed.

(** X24 -- A request for no wallets, or for a negative number of them, writes
    and mints nothing and reports success: for [0] it returns no wallet,
    and for [-n] it returns the existing wallets without the last [n]
    (the effect of [slice(0, count)]). *)
Theorem nonpositive_request_provisions_nothing (e : Env) (count : Z)
        (w : World) :
  (count <= 0)%Z ->
  let out := WalletManager.createSubWallets e count w in
  let existing := Spec.existing e w in
  WalletManager.success (fst out) = true /\
  WalletManager.error (fst out) = None /\
  (count = 0%Z -> WalletManager.wallets (fst out) = Some []) /\
  (count < 0 ->
   WalletManager.wallets (fst out)
   = Some (map Spec.infoOfTagged
               (firstn (List.length existing - Z.to_nat (- count))
                       existing)))%Z /\
  Spec.clock_only w (snd out).
Proof.
  intros Hcount. cbv zeta.
  destruct (getAllWalletsFromBackups_ok e w) as (view & w1 & Hget & Hc).
  rewrite (existing_eq e w w1 view Hget).
  rewrite (createSubWallets_reuse e count w w1 view Hget) by lia.
  cbn [fst snd WalletManager.success WalletManager.error
       WalletManager.wallets].
  split; [reflexivity|]. split; [reflexivity|].
  split; [intros ->; reflexivity|]. split; [|exact Hc].
  intros Hneg. unfold JS.slice0.
  assert (Hz : (0 <=? count)%Z = false) by (apply Z.leb_gt; lia).
  rewrite Hz. do 3 f_equal. lia.
Qed.

(** A concrete run: a request for minus one wallet on a directory with
    three stored workers. *)
Lemma nonpositive_request_witness :
  let out := WalletManager.createSubWallets (Examples.env true) (-1)
                                            Examples.threeWorkers in
  let existing := Spec.existing (Examples.env true) Examples.threeWorkers in
  WalletManager.success (fst out) = true /\
  WalletManager.error (fst out) = None /\
  ((-1)%Z = 0%Z -> WalletManager.wallets (fst out) = Some []) /\
  ((-1 < 0)%Z ->
   WalletManager.wallets (fst out)
   = Some (map Spec.infoOfTagged
               (firstn (List.length existing - Z.to_nat (- (-1))) existing))) /\
  Spec.clock_only Examples.threeWorkers (snd out).
Proof.
  apply (nonpositive_request_provisions_nothing
           (Examples.env true) (-1) Examples.threeWorkers).
  lia.
Defined.

Lemma dated_view (e : Env) (w : World) :
  Spec.timestamped (files w) ->
  exists view,
    forall w',
      files w' = files w ->
      BackupManager.getAllWalletsFromBackups e w' = (Ok view, w').
Proof.
  intros Hd. destruct (readBackupFiles_dated e (files w) Hd) as (snaps & Hs).
  eexists. intros w' Hf.
  unfold BackupManager.getAllWalletsFromBackups,
    BackupManager.getBackupFiles, bind.
  rewrite Hf, Hs. reflexivity.
Qed.

(** X25 -- [start] fills a shortfall of workers with copies.  When the
    directory (every file dated) holds some workers but fewer than
    requested, and the shortfall is at most their number, the part of
    [start] that resolves the workers generates no keypair and writes no
    file: the request for the missing workers is answered with the first
    stored ones, so the worker list reaches the requested length with
    the first stored workers listed twice. *)
Theorem start_fills_the_shortfall_with_copies (e : Env)
        (cfg : TradingBot.TradingConfig) (b : TradingBot.Bot) :
  let existing := Spec.existing e (TradingBot.bworld b) in
  let shortfall :=
    (TradingBot.numberOfSubWallets cfg
     - Z.of_nat (List.length existing))%Z in
  Spec.timestamped (files (TradingBot.bworld b)) ->
  (0 < shortfall <= Z.of_nat (List.length existing))%Z ->
  exists b',
    TradingBot.resolveSubWallets e cfg b = (Ok tt, b') /\
    map WalletManager.publicKey (TradingBot.subWallets b')
    = map BackupManager.ts_publicKey existing
      ++ map BackupManager.ts_publicKey
             (firstn (Z.to_nat shortfall) existing) /\
    Z.of_nat (List.length (TradingBot.subWallets b'))
    = TradingBot.numberOfSubWallets cfg /\
    ~ NoDup (map WalletManager.publicKey (TradingBot.subWallets b')) /\
    minted (TradingBot.bworld b') = minted (TradingBot.bworld b) /\
    writes (TradingBot.bworld b') = writes (TradingBot.bworld b) /\
    files (TradingBot.bworld b') = files (TradingBot.bworld b).
Proof.
  cbv zeta. intros Hdated Hshort.
  destruct (dated_view e (TradingBot.bworld b) Hdated) as (view & Hview).
  assert (Hex : Spec.existing e (TradingBot.bworld b)
                = BackupManager.subWalletsR view)
    by exact (existing_eq e _ _ view (Hview _ eq_refl)).
  rewrite Hex in *.
  set (existing := BackupManager.subWalletsR view) in *.
  set (n := List.length existing) in *.
  set (requested := TradingBot.numberOfSubWallets cfg) in *.
  unfold TradingBot.resolveSubWallets.
  assert (HgetAll : exists aw,
             TradingBot.inWorldT (WalletManager.getAllWallets e) b
             = (Ok aw, TradingBot.set_bworld (TradingBot.bworld b) b) /\
             map WalletManager.publicKey (WalletManager.aw_subWallets aw)
             = map BackupManager.ts_publicKey existing).
  { unfold TradingBot.inWorldT, TradingBot.inWorld, total,
      WalletManager.getAllWallets, try_total.
    rewrite (bind_Ok _ _ _ _ _ (Hview (TradingBot.bworld b) eq_refl)).
    eexists. split; [reflexivity|].
    cbn [WalletManager.aw_subWallets]. rewrite map_map. reflexivity. }
  destruct HgetAll as (aw & HgetAll & Hkeys). step HgetAll.
  assert (Hlen : List.length (WalletManager.aw_subWallets aw) = n).
  { unfold n. rewrite <- (length_map WalletManager.publicKey), Hkeys.
    apply length_map. }
  rewrite Hlen.
  assert (Hnz : (n =? 0)%nat = false) by (apply Nat.eqb_neq; lia).
  rewrite Hnz.
  assert (Hslice : JS.slice0 (requested - Z.of_nat n) existing
                   = firstn (Z.to_nat (requested - Z.of_nat n)) existing).
  { unfold JS.slice0.
    assert (Hz : (0 <=? requested - Z.of_nat n)%Z = true)
      by (apply Z.leb_le; lia).
    now rewrite Hz. }
  match goal with
  | |- exists b', bind ?inner ?final ?s = _ /\ _ =>
      assert (Hinner : exists s1,
                 inner s = (Ok tt, s1) /\
                 map WalletManager.publicKey (TradingBot.subWallets s1)
                 = map BackupManager.ts_publicKey existing
                   ++ map BackupManager.ts_publicKey
                          (firstn (Z.to_nat (requested - Z.of_nat n))
                                  existing) /\
                 minted (TradingBot.bworld s1)
                 = minted (TradingBot.bworld b) /\
                 writes (TradingBot.bworld s1)
                 = writes (TradingBot.bworld b) /\
                 files (TradingBot.bworld s1) = files (TradingBot.bworld b))
  end.
  { step_modify. step_log. step_get.
    cbn [TradingBot.subWallets TradingBot.set_bworld
         TradingBot.set_subWallets].
    rewrite length_map, Hlen.
    assert (Hlt : (Z.of_nat n <? requested)%Z = true)
      by (apply Z.ltb_lt; lia).
    fold requested. rewrite Hlt. step_log.
    match goal with
    | |- context [bind (TradingBot.inWorldT
                          (WalletManager.createSubWallets e ?c)) _ ?s] =>
        assert (Hcreate :
                  TradingBot.inWorldT (WalletManager.createSubWallets e c) s
                  = (Ok {| WalletManager.success := true;
                           WalletManager.wallets :=
                             Some (map Spec.infoOfTagged
                                       (JS.slice0 c existing));
                           WalletManager.error := None |},
                     TradingBot.set_bworld (TradingBot.bworld s) s))
    end.
    { unfold TradingBot.inWorldT, TradingBot.inWorld, total.
      match goal with
      | |- context [WalletManager.createSubWallets e ?c ?w] =>
          rewrite (createSubWallets_reuse e c w w view (Hview w eq_refl))
            by (fold existing; fold n; lia)
      end.
      reflexivity. }
    step Hcreate.
    cbn [WalletManager.success WalletManager.wallets].
    unfold TradingBot.push_subWallets.
    eexists. split; [reflexivity|].
    cbn [TradingBot.subWallets TradingBot.set_bworld
         TradingBot.set_subWallets TradingBot.bworld Spec.logged
         minted writes files].
    rewrite Hslice, map_app, !map_map.
    split; [|auto]. f_equal. rewrite <- Hkeys. reflexivity. }
  destruct Hinner as (s1 & Hinner & Hkeys1 & Hm1 & Hw1 & Hf1).
  step Hinner. step_get.
  assert (Hlen1 : List.length (TradingBot.subWallets s1)
                  = (n + Z.to_nat (requested - Z.of_nat n))%nat).
  { rewrite <- (length_map WalletManager.publicKey), Hkeys1, length_app,
      !length_map, length_firstn. fold n. lia. }
  rewrite Hlen1. fold requested.
  assert (Heq : (Z.of_nat (n + Z.to_nat (requested - Z.of_nat n))
                 =? requested)%Z = true) by (apply Z.eqb_eq; lia).
  rewrite Heq. cbn [negb].
  exists s1. split; [reflexivity|]. split; [exact Hkeys1|].
  split; [rewrite Hlen1; apply Z.eqb_eq; exact Heq|].
  split; [|auto].
  rewrite Hkeys1.
  destruct existing as [|first rest] eqn:Hexisting;
    [unfold n in Hshort; cbn in Hshort; lia|].
  destruct (Z.to_nat (requested - Z.of_nat n)) as [|k] eqn:Hk; [lia|].
  intros Hnodup. cbn [firstn map app] in Hnodup.
  apply NoDup_cons_iff in Hnodup. destruct Hnodup as [Hin _].
  apply Hin. apply in_or_app. right. now left.
Qed.

(** A concrete run: three stored workers, five requested. *)
Lemma start_copies_witness :
  exists b',
    TradingBot.resolveSubWallets (Examples.env true)
      Examples.fiveWorkersConfig
      (Examples.freshBot Examples.threeGoodWorkers) = (Ok tt, b') /\
    map WalletManager.publicKey (TradingBot.subWallets b')
    = map BackupManager.ts_publicKey
          (Spec.existing (Examples.env true)
             (TradingBot.bworld (Examples.freshBot Examples.threeGoodWorkers)))
      ++ map BackupManager.ts_publicKey
             (firstn (Z.to_nat
                        (TradingBot.numberOfSubWallets
                           Examples.fiveWorkersConfig
                         - Z.of_nat
                             (List.length
                                (Spec.existing (Examples.env true)
                                   (TradingBot.bworld
                                      (Examples.freshBot
                                         Examples.threeGoodWorkers))))))
                     (Spec.existing (Examples.env true)
                        (TradingBot.bworld
                           (Examples.freshBot Examples.threeGoodWorkers)))) /\
    Z.of_nat (List.length (TradingBot.subWallets b'))
    = TradingBot.numberOfSubWallets Examples.fiveWorkersConfig /\
    ~ NoDup (map WalletManager.publicKey (TradingBot.subWallets b')) /\
    minted (TradingBot.bworld b')
    = minted (TradingBot.bworld (Examples.freshBot Examples.threeGoodWorkers)) /\
    writes (TradingBot.bworld b')
    = writes (TradingBot.bworld (Examples.freshBot Examples.threeGoodWorkers)) /\
    files (TradingBot.bworld b')
    = files (TradingBot.bworld (Examples.freshBot Examples.threeGoodWorkers)).
Proof.
  apply (start_fills_the_shortfall_with_copies
           (Examples.env true) Examples.fiveWorkersConfig
           (Examples.freshBot Examples.threeGoodWorkers)).
  - intros name raw Hin Hname. cbn in Hin.
    destruct Hin as [[= <- <-]|[]]. reflexivity.
  - vm_compute. split; [reflexivity | discriminate].
Defined.

Lemma readable_put_file (name : string) (c : RawBackup)
      (dir : list (string * option RawBackup)) (n : string) (r : RawBackup) :
  In (n, r) (Spec.readable (put_file name (Some c) dir)) ->
  (n, r) = (name, c) \/ In (n, r) (Spec.readable dir).
Proof.
  induction dir as [|[n' c'] dir IH]; cbn [put_file].
  - unfold Spec.readable. cbn [flat_map fst snd].
    destruct (JS.startsWith name "wallets-" && JS.endsWith name ".json");
      cbn; intuition auto.
  - destruct (String.eqb n' name) eqn:E.
    + apply String.eqb_eq in E. subst n'.
      unfold Spec.readable. cbn [flat_map fst snd]. intros Hin.
      apply in_app_or in Hin. destruct Hin as [Hin|Hin].
      * left. destruct (JS.startsWith name "wallets-"
                        && JS.endsWith name ".json"); [|contradiction].
        destruct Hin as [Hin|[]]. now symmetry.
      * right. apply in_or_app. now right.
    + unfold Spec.readable. cbn [flat_map fst snd]. intros Hin.
      apply in_app_or in Hin. destruct Hin as [Hin|Hin].
      * right. apply in_or_app. now left.
      * destruct (IH Hin) as [Heq|Hold]; [now left|].
        right. apply in_or_app. now right.
Qed.

(** Every backup of the listing carries the path of its file in the
    backup directory. *)
Lemma readBackupFiles_paths (e : Env) (dir : list (string * option RawBackup))
      (w : World) :
  Forall (fun bf => path bf
                    = BackupManager.path_join BackupManager.backupDir
                                              (filename bf))
         (match BackupManager.readBackupFiles e dir w with
          | (Ok snaps, _) => snaps
          | (Throw _, _) => []
          end).
Proof.
  revert w. induction dir as [|[name content] dir IH]; intros w;
    cbn [BackupManager.readBackupFiles].
  - constructor.
  - destruct (JS.startsWith name "wallets-" && JS.endsWith name ".json");
      [|apply IH].
    destruct content as [raw|]; [|apply IH].
    destruct (normalizeBackupFormat_ok e raw w) as (b & w1 & Hn & _).
    rewrite (bind_Ok _ _ _ _ _ Hn). cbv beta.
    specialize (IH w1).
    destruct (readBackupFiles_ok e dir w1) as (snaps & w2 & Hr & _).
    rewrite Hr in IH. rewrite (bind_Ok _ _ _ _ _ Hr). cbv beta.
    unfold ret. constructor; [reflexivity | exact IH].
Qed.

(** X26 -- The snapshot just written is the latest backup.  When the write
    succeeds at a time other than [0] and every snapshot already stored
    reads older than that time, [getLatestBackup] after [createBackup]
    returns the file just written: its path is the path [createBackup]
    returned, its name is [wallets-<time>.json], and it carries the time
    of the write and the keys that were written. *)
Theorem written_snapshot_is_the_latest (e : Env) (subs : list SubWallet)
        (w : World) :
  write_ok e (writes w) = true ->
  clock e (ticks w) <> 0%Z ->
  (forall name raw bf,
      In (name, raw) (Spec.readable (files w)) ->
      Spec.readFrom e bf (name, raw) ->
      (bf_timestamp bf < clock e (ticks w))%Z) ->
  exists filepath w1 latest w2,
    BackupManager.createBackup e MainUndefined subs w = (Ok filepath, w1) /\
    BackupManager.getLatestBackup e w1 = (Ok (Some latest), w2) /\
    path latest = filepath /\
    filename latest = Spec.snapshotName (clock e (ticks w)) /\
    filepath = BackupManager.path_join BackupManager.backupDir
                                       (filename latest) /\
    bf_timestamp latest = clock e (ticks w) /\
    map (fun s => (sw_publicKey s, sw_privateKey s))
        (subWallets (data latest))
    = map (fun s => (sw_publicKey s, sw_privateKey s)) subs.
Proof.
  intros Hdisk Ht Holder.
  set (t := clock e (ticks w)) in *.
  rewrite (createBackup_success e subs w Hdisk). fold t.
  match goal with
  | |- exists filepath w1 latest w2, (Ok ?n, ?s) = _ /\ _ =>
      exists n, s; set (w1 := s)
  end.
  assert (Hfiles : files w1
                   = put_file (Spec.snapshotName t)
                              (Some (Spec.snapshotOf t subs)) (files w))
    by reflexivity.
  clearbody w1.
  destruct (getBackupFiles_shape e w1)
    as (snaps & bfs & w2 & Hr & Hg & Hall & Hperm & Hsorted).
  assert (Hpaths := readBackupFiles_paths e (files w1) w1).
  rewrite Hr in Hpaths. rewrite Forall_forall in Hpaths.
  assert (Hnew : In (Spec.snapshotName t, Spec.snapshotOf t subs)
                    (Spec.readable (files w1))).
  { rewrite Hfiles.
    apply readable_In; [apply put_file_In | apply snapshotName_listed]. }
  destruct (Forall2_In_r _ _ _ _ Hall Hnew) as (bfNew & HinNew & HrfNew).
  assert (HtsNew : bf_timestamp bfNew = t).
  { destruct HrfNew as (_ & Hts & w0 & w0' & Hn). cbn [snd] in Hn.
    destruct (written_snapshot_reads_placeholder e t subs w0 Ht)
      as (b0 & Hn0 & Ht0 & _).
    rewrite Hn in Hn0. injection Hn0 as Hb _. rewrite Hts, Hb. exact Ht0. }
  apply (Permutation_in _ (Permutation_sym Hperm)) in HinNew.
  destruct bfs as [|latest rest]; [contradiction|].
  exists latest, w2. split; [reflexivity|]. split.
  { unfold BackupManager.getLatestBackup. rewrite (bind_Ok _ _ _ _ _ Hg).
    reflexivity. }
  assert (Hmax : (t <= bf_timestamp latest)%Z).
  { destruct HinNew as [<-|Hin]; [lia|].
    apply StronglySorted_inv in Hsorted. destruct Hsorted as [_ Hall'].
    rewrite Forall_forall in Hall'. rewrite <- HtsNew. now apply Hall'. }
  assert (Hlatest : In latest snaps)
    by (apply (Permutation_in _ Hperm); now left).
  destruct (Forall2_In_l _ _ _ _ Hall Hlatest) as ([n r] & Hentry & Hrf).
  rewrite Hfiles in Hentry.
  destruct (readable_put_file _ _ _ _ _ Hentry) as [[= -> ->]|Hold].
  - assert (Hname : filename latest = Spec.snapshotName t)
      by exact (proj1 Hrf).
    split; [rewrite (Hpaths latest Hlatest), Hname; reflexivity|].
    split; [exact Hname|].
    split; [rewrite Hname; reflexivity|]. split.
    + destruct Hrf as (_ & Hts & w0 & w0' & Hn). cbn [snd] in Hn.
      destruct (written_snapshot_reads_placeholder e t subs w0 Ht)
        as (b0 & Hn0 & Ht0 & _).
      rewrite Hn in Hn0. injection Hn0 as Hb _. rewrite Hts, Hb. exact Ht0.
    + exact (readFrom_credentials e latest _ Hrf).
  - specialize (Holder n r latest Hold Hrf). lia.
Qed.

(** A concrete run: a snapshot of one worker written at time [1000]
    into a directory whose only snapshot is dated [1]. *)
Lemma written_snapshot_latest_witness :
  exists filepath w1 latest w2,
    BackupManager.createBackup (Examples.env true) MainUndefined
      [Examples.wallet "D" "d"] Examples.threeGoodWorkers
    = (Ok filepath, w1) /\
    BackupManager.getLatestBackup (Examples.env true) w1
    = (Ok (Some latest), w2) /\
    path latest = filepath /\
    filename latest
    = Spec.snapshotName
        (clock (Examples.env true) (ticks Examples.threeGoodWorkers)) /\
    filepath = BackupManager.path_join BackupManager.backupDir
                                       (filename latest) /\
    bf_timestamp latest
    = clock (Examples.env true) (ticks Examples.threeGoodWorkers) /\
    map (fun s => (sw_publicKey s, sw_privateKey s))
        (subWallets (data latest))
    = map (fun s => (sw_publicKey s, sw_privateKey s))
          [Examples.wallet "D" "d"].
Proof.
  apply (written_snapshot_is_the_latest (Examples.env true)
           [Examples.wallet "D" "d"] Examples.threeGoodWorkers).
  - reflexivity.
  - vm_compute. discriminate.
  - intros name raw bf Hin (_ & Hts & w0 & w1 & Hn).
    cbn in Hin. destruct Hin as [[= <- <-]|[]].
    cbn [snd] in Hn. rewrite Hts.
    unfold BackupManager.normalizeBackupFormat in Hn. cbn in Hn.
    injection Hn as <- _. vm_compute. reflexivity.
Defined.

(** The path returned for the snapshot written at time [1000]. *)
Example written_snapshot_path :
  fst (BackupManager.createBackup (Examples.env true) MainUndefined
         [Examples.wallet "D" "d"] Examples.threeGoodWorkers)
  = Ok "wallet-backups/wallets-1000.json"%string.
Proof. vm_compute. reflexivity. Qed.
